(* ===== verification/_CoqProject ===== *)
-Q . S2P
Prelude.v
Types.v
Concrete.v
Rbac.v
Keeper.v
MsgServer.v
Spec.v
Refine.v
Ledger.v
Access.v
Genesis.v
Export.v
Proto.v
NameIndex.v
IndexTables.v
IndexLife.v
Query.v
Tax.v
ProtoMsg.v
ProtoQuery.v
ProtoGenesis.v
Grpc.v
ProtoTax.v
QueryService.v
EvmLayout.v
Solidity.v
EvmMigrate.v
EvmDump.v
Abi.v
AbiAnchoring.v
AbiConcrete.v
AbiCalls.v
AbiCommon.v
AbiMethods.v
HumanAbi.v
Precompile.v
PrecompileSafety.v
PrecompileDeliver.v
MsgService.v
MigrateV2.v
Native.v
EvmTrace.v
App.v
AppBlock.v
GenAccounts.v
ChainId.v
Ante.v
ZeroHeight.v
Testnet.v
TestnetInit.v
Gateway.v
RestGrpc.v
Modules.v
Simulation.v
NodeConfig.v
AppGenesis.v
AppNode.v
