(* ===== verification/Prelude.v ===== *)
(** * The NVNM chain: verification of its own modules

    The chain is a Cosmos SDK application with an EVM.  Its own code, under src/, is
    two modules, an EVM precompile, the application that composes them with the modules
    of libraries, and the command line of the node.

    - x/anchoring keeps registries of documents.  An account creates a registry and
      becomes its administrator; accounts with the admin or editor role of the
      registry, or of one document in it, anchor records (a checksum, a URI,
      metadata), add versions of them and change their status.  Messages enter
      through a gRPC service, or from the EVM through a precompiled contract, and
      reads through a query service, the precompile or an optional local name index.
    - x/tax sends a fraction of the fees of each block to the tax address.
    - x/anchoring/evmlayout translates the state of x/anchoring into the storage of a
      Solidity contract.
    - app/ decides what the modules may do to each other: who may receive coins, which
      checks a transaction passes, in which order modules run, which chain id the EVM
      uses, how the state is exported.  cmd/ prepares genesis files and test networks.

    ** The parts and their files

    - Prelude: bytes, machine integers, errors, the state-and-error monad [M], ordered
      walks of maps, decimal and big-endian text, tactics and the hint database [nvnm].
    - Types: the data and the stateless validation of x/anchoring (types/).  [Env] is
      the class of the libraries the module calls (Keccak, Bech32, key codec) and
      [EnvLaws] what it relies on of them; Concrete instantiates both.
    - Rbac, Keeper, MsgServer: the state machine of x/anchoring.  [RBACState] and
      [KState] are the collections of rbac/keeper.go and keeper/keeper.go; [AddRegistry],
      [AddRecord], [UpdateRecordStatus], [checkPermission] translate
      keeper/anchoring.go; [Msg_*] the handlers of keeper/msg_server.go and
      msg_update_params.go; [handle] and [deliver] dispatch a message and commit or
      discard its writes.
    - Spec: the abstract ledger, a list of registries with lists of documents with lists
      of versions, and a set of role holders; no counters, no indexes, no hashes.
    - Refine, Ledger: the keeper implements the ledger along every trace, and what
      follows for reachable states.
    - Access: who may write what: bounds on the writes of the handlers in any state,
      failed runs included, and what they give for reachable states.
    - Genesis, Export: types/genesis.go and keeper/genesis.go.
    - Proto: the protobuf code of registries and records (types/document.pb.go), and what
      all generated messages share: [Message] has the methods of a message, [Wire] its
      encoding with the laws that nested messages are proved against.  ProtoMsg, ProtoQuery,
      ProtoGenesis, ProtoTax: the messages of tx.pb.go, query.pb.go, genesis.pb.go and
      params.pb.go of both modules; [DecMessage] is the class of the decimal that x/tax
      embeds, the page messages of the SDK are instances that ProtoQuery takes.
    - Grpc: connections, interceptors, handlers and descriptors; the server, which
      dispatches by path and turns errors into statuses, is the class [Grpc] with
      [GrpcLaws].  MsgService, QueryService: the generated clients, handlers and
      descriptors of x/anchoring over the message server and the queries.
    - NameIndex, IndexTables, IndexLife: nameindex/store.go, listener.go and config.go,
      nameindex_backfill.go, and the opening and start of the index in app/app.go.
      [SQL] is the class of the database engine, whose matching [SQLLaws] states on
      characters, with the case folding of the trigram tokenizer; IndexTables has the trigram table and the
      triggers of the schema.
    - Query: keeper/query.go and query_params.go.
    - Tax: x/tax.  [Decimal] and [Bank] are the classes of its libraries.
    - EvmLayout, EvmMigrate, EvmDump: evmlayout/layout.go, migrate.go, dump.go.  Solidity:
      the storage layout of the contract by the rules of the language, the specification
      the migration is held to.
    - Abi, AbiAnchoring, AbiCalls: the generated ABI code (precompile/anchoring.abi.go,
      precompiles/common.abi.go) and the method ids of precompiles/common.go.  [AbiLib]
      is the class of the elementary codecs of go-abi, [Lawful] the interface between
      codecs: tuples and slices of lawful codecs are lawful.  AbiConcrete instantiates it.
      AbiCommon: the tuples shared by precompiles and the packed encodings.  AbiMethods:
      the interface of methods and events, and the Solidity signatures behind it.
      HumanAbi: the declarations the code was generated from ([HumanABI], [CommonABI]),
      with a reader of the notation and an encoder driven by the declarations.
    - Precompile, PrecompileSafety, PrecompileDeliver: precompile/anchoring.go, events.go,
      types.go and the dispatch helpers of precompiles/common.go.  [EvmLib] is the class
      of what they call of go-ethereum and cosmos/evm.  EvmTrace: blocks that mix
      messages and EVM calls.  Native: [RunNativeAction] and
      [Run], the frame of a call, over the class [GasLib].
    - MigrateV2: migrations/v2/store.go and keeper/migrations.go.
    - App: module account permissions, blocked addresses, the send restriction and the
      precompiles served (app/app.go, app/precompiles.go), over the class [AppLib].
    - AppBlock: the orders in which modules run, the end blocker, the initialisation of a
      chain and the upgrades (app/app.go, app/upgrades/).  [Manager] is the class of the
      module manager; the end blocker of x/tax is the one of Tax.
    - Ante: app/ante/ and app/evmosante.go, over decorators given by when they accept
      ([AnteLib]), with the checks of both kinds of transaction as lists of their own.  ChainId: app/config.go.  ZeroHeight: app/export.go, over the keepers
      of distribution, staking and slashing ([ExportLib]).
    - AppNode: what the application hands out (store keys, subspaces, listeners, routes), the chain id
      and the context a command starts with, the address prefixes (app/app.go,
      cmd/nvnmchaind/main.go, cmd/commands.go and cmd/root.go).
    - AppGenesis: the genesis files of app/app.go and app/genesis.go.  NodeConfig: the
      settings and the export and upgrade-handlers commands of cmd/nvnmchaind/cmd, the
      mempool and the end of a node (app/), the opening of the index (nameindex/store.go).
    - GenAccounts, Testnet, TestnetInit: cmd/nvnmchaind/cmd/genaccounts.go and testnet.go.
    - Modules: module/module.go of x/anchoring and x/tax; [JSONCodec] and [Configurator]
      are the classes of what they call.  Gateway: the REST routes of both query services
      (types/query.pb.gw.go), over the class [GatewayLib].  RestGrpc: the gateway on the
      clients of both services, as the modules register it.  Simulation:
      module/simulation.go of both modules.

    ** How code becomes definitions

    A Go string or byte slice is a list of bytes, an integer a [Z] with its wrap-around
    written out ([wrap64]), a collection a [gmap] that is walked in key order.  A method
    that writes and may fail is a function of type [M S A]: from the store to a result
    and the store it leaves, so that the writes before an error are visible.  A slice or
    index out of range is the error [ErrPanic].  Go maps in the genesis are lists in the
    order [range] happens to visit them.  Libraries are classes with named laws; every
    theorem that uses a law has a witness on a concrete instance.

    ** What the theorems show

    - State machine: the keeper answers as the ledger does and its ten collections are
      those the ledger determines ([keeper_refines_ledger]); a registry always has an
      administrator; versions are appended, never removed or rewritten, numbered without
      gaps, and exactly one is the latest; indexes agree; ids are dense and counters
      do not wrap around.  These hold of every reachable state of a trace of fewer than 2^64 - 1
      messages whose role names do not collide under Keccak.
    - Access: on reachable states a version changes only by a message of an account with
      a role for its registry or for that version's own checksum, a role is gained, in any
      state, only by creating the registry or from an administrator of it or of the
      module, and lost only to an administrator of the registry, who never removes the
      last one.
    - Precompile: every EVM call, whatever its input, does to the store nothing or what a
      message signed by the transaction's origin does, so the properties of reachable
      states hold of chains that mix both; only a direct call of the signing account
      writes; such a call leaves
      the store its message leaves, returns the answer and adds one log; a read returns
      what the query service answers; in a block nothing depends on the name index; the
      frame journals the state before the call and charges what the call consumed.
    - Encodings: protobuf messages, ABI calls, results and events, genesis, contract storage
      and the dump file are read back to what was written; decoders of arbitrary bytes end
      with a value or an error and stay in bounds; what the ABI code writes is the
      encoding that the declared Solidity interface asks for, selectors and topics
      included.
    - Services: a call of the generated client has the result and the store of the handler,
      a query the answer of the keeper, also when it is asked as a GET of the REST gateway
      over the wire, and errors arrive as the statuses gRPC makes of them; arbitrary bytes sent to any path execute exactly
      the messages that decode.
    - Queries and index: pages asked by offset and limit are the pages of the matching
      entries in order; a name matches character by character up to case; cursors
      enumerate every match once; through failures and restarts the index holds only
      rows of the chain, and after a start, while no commit fails, all of them; the
      triggers keep the trigram table in step with the rows.
    - Tax: the end blocker takes the truncated share of every denomination and conserves
      coins, and never fails from a valid genesis on; only the tax address changes the
      parameters; the consumer module splits the fees the tax module left.
    - Application: the send restriction admits exactly the transfers it means to, and the
      addresses the bank blocks are exactly the module accounts but the rewards buffer,
      and the precompiles; a transaction is accepted exactly when every check of the list
      of its kind accepts it; the modules run in orders that satisfy the constraints the
      comments state; exactly the chain ids of the documented format parse; an export for
      height zero resets heights and jails exactly the validators outside the list.
    - Commands: a genesis account is added without breaking the supply; an export
      continues after the version it shows; the nodes of a test network get different
      ports or addresses and one genesis, and nothing outside of their directory is
      touched; the settings written at the first start are
      not those the code means to write (the minimum gas price).
    - Modules and REST: what both modules export as JSON restarts them in the same state;
      every past version of x/anchoring can be migrated.
    - Migrations: the v2 store migration fills in the registry ids and nothing else; every
      reachable state is accepted by the storage migration.
    - Two theorems of Export show genesis files that validation accepts and the module
      cannot represent faithfully: two records of a registry with one checksum, and role
      keys that collide once padded.

    ** Fuel

    Recursion is on lists wherever the code loops over a slice.  Varint readers take eleven
    steps, one more than the code allows; the unmarshalling loops, of messages and of map
    entries, take as many as there are bytes left, and every field consumes one; the cursor
    walk of [search_all] takes as many as there are matches; the dump parser and the reader
    of declarations as many as there are bytes or tokens.  The theorems prove that this is enough.

    ** Not modelled

    Gas charged by the stores; the construction of the application in [New], that is the
    keepers with their store keys, the modules and the packet stacks, which calls the
    constructors of libraries; the limits and failures of the gRPC transport; the
    descriptors and the reflection of the
    generated protobuf code; HTTP headers; the declarations of flags and of the tree of
    commands; test helpers.  Events of the SDK are
    recorded but only their order and contents as written by the keeper are modelled,
    not their indexing. *)

From Stdlib Require Export ZArith Lia.
From Stdlib Require Export Strings.Byte.
From stdpp Require Export prelude gmap sorting strings.

#[global] Open Scope Z_scope.

(** ** Bytes: Go strings and byte slices *)

#[export] Instance byte_eq_dec : EqDecision byte := Byte.byte_eq_dec.

#[export] Instance byte_countable : Countable byte.
Proof.
  refine (inj_countable Byte.to_N Byte.of_N _).
  intros b. apply Byte.of_to_N.
Defined.

(** A Go [string] and a Go [[]byte] are both sequences of bytes. *)
Abbreviation bytes := (list byte).

(** A string literal as bytes. *)
Definition bs (s : string) : bytes := String.list_byte_of_string s.

Definition b2z (b : byte) : Z := Z.of_N (Byte.to_N b).

(** The conversion [byte(z)] of Go: the low eight bits. *)
Definition z2b (z : Z) : byte :=
  match Byte.of_N (Z.to_N (z mod 256)) with
  | Some b => b
  | None => x00
  end.

(** [len(s)] of Go. *)
Definition blen (s : bytes) : Z := Z.of_nat (length s).

(** ** Machine integers *)

Definition two64 : Z := 2 ^ 64.

(** The wrap-around of a [uint64]. *)
Definition wrap64 (z : Z) : Z := z mod two64.

Definition is_u64 (z : Z) : Prop := 0 <= z < two64.

#[export] Instance is_u64_dec z : Decision (is_u64 z).
Proof. unfold is_u64. apply _. Defined.

Lemma wrap64_u64 n : is_u64 (wrap64 n).
Proof. apply Z.mod_pos_bound. done. Qed.

(** ** Go errors and results *)

(** The error values the modelled code returns or wraps.  A [fmt.Errorf] or
    [errors.New] value keeps its constant text; a sentinel of a library keeps
    its identity, since the code tests some of them with [errors.Is]. *)
Inductive err :=
| ErrPlain (msg : string)
| ErrCollNotFound
| ErrCollEncoding
| ErrBech32
| ErrInvalidRequest (cause : err)
| ErrUnauthorized
| ErrNotFound
| ErrDuplicateRecordKey
| ErrInvalidGenesisState
| ErrMissingRole
| ErrRoleAdminNotConfigured
| ErrInvalidSigner
| ErrWrap (msg : string) (cause : err)
| ErrStatus (code : string) (msg : string).

(** A run-time panic, and [io.ErrUnexpectedEOF]. *)
Definition ErrPanic : err := ErrPlain "index out of range".
Definition ErrUnexpectedEOF : err := ErrPlain "unexpected EOF".

Inductive result (A : Type) :=
| Ok (a : A)
| Err (e : err).
Arguments Ok {_} _.
Arguments Err {_} _.

#[export] Instance result_ret : MRet result := fun _ a => Ok a.
#[export] Instance result_bind : MBind result := fun _ _ f r =>
  match r with Ok a => f a | Err e => Err e end.

(** A Go [if cond { return err }] guard. *)
Definition guard_err (cond : bool) (e : err) : result unit :=
  if cond then Err e else Ok tt.

Definition of_option {A} (o : option A) (e : err) : result A :=
  match o with Some a => Ok a | None => Err e end.

Definition is_ok {A} (r : result A) : bool :=
  match r with Ok _ => true | Err _ => false end.

(** ** Stateful, fallible Go functions

    A method that takes a context, writes to the store and may return an error
    is a function from the store to its result and the store it leaves.  The
    writes made before an error stay in the returned store, as they do in the
    context of the code; discarding them is the caller's decision. *)
Definition M (S A : Type) : Type := S -> result A * S.

#[export] Instance M_ret {S} : MRet (M S) := fun _ a s => (Ok a, s).
#[export] Instance M_bind {S} : MBind (M S) := fun _ _ f m s =>
  match m s with
  | (Ok a, s') => f a s'
  | (Err e, s') => (Err e, s')
  end.

Definition gets {S A} (f : S -> A) : M S A := fun s => (Ok (f s), s).
Definition modify {S} (f : S -> S) : M S unit := fun s => (Ok tt, f s).
Definition throw {S A} (e : err) : M S A := fun s => (Err e, s).
Definition lift {S A} (r : result A) : M S A := fun s => (r, s).

(** Running a method on a component [T] of a larger store. *)
Definition zoom {S T A} (get : S -> T) (put : T -> S -> S) (m : M T A) : M S A :=
  fun s => let '(r, t) := m (get s) in (r, put t s).

(** A Go [for _, x := range l] loop whose body may return early with an error. *)
Fixpoint for_each {S A} (f : A -> M S unit) (l : list A) : M S unit :=
  match l with
  | [] => mret tt
  | x :: l' => _ ← f x; for_each f l'
  end.

(** An event of the SDK event manager: its type and its attributes. *)
Record Event := mkEvent { ev_type : string; ev_attrs : list (string * bytes) }.

(** [copy(dst, src)] of Go: the number of bytes copied and the new contents. *)
Definition go_copy (dst src : bytes) : nat * bytes :=
  let n := Nat.min (length dst) (length src) in (n, take n src ++ drop n dst).

(** go-ethereum's [common.BytesToHash]: 32 bytes, cropped from the left or
    padded with zeros on the left. *)
Definition BytesToHash (b : bytes) : bytes :=
  replicate (32 - length b) x00 ++ drop (length b - 32) b.

(** ** Ordered key-value collections

    A persistent [collections.Map] is a finite map whose [Walk] visits its
    entries in the ascending order of their encoded keys. *)
Class KeyOrder (K : Type) := {
  key_leb : K -> K -> bool;
  key_leb_trans : forall x y z, key_leb x y = true -> key_leb y z = true -> key_leb x z = true;
  key_leb_total : forall x y, key_leb x y = true \/ key_leb y x = true;
  key_leb_antisym : forall x y, key_leb x y = true -> key_leb y x = true -> x = y
}.

Definition pair_rel {K V} `{KeyOrder K} (x y : K * V) : Prop := key_leb x.1 y.1 = true.

#[export] Instance pair_rel_dec {K V} `{KeyOrder K} : RelDecision (@pair_rel K V _) :=
  fun x y => decide (key_leb x.1 y.1 = true).

Definition walk {K V} `{Countable K, KeyOrder K} (m : gmap K V) : list (K * V) :=
  merge_sort pair_rel (map_to_list m).

Fixpoint bytes_leb (x y : bytes) : bool :=
  match x, y with
  | [], _ => true
  | _ :: _, [] => false
  | a :: x', b :: y' =>
      (b2z a <? b2z b) || ((b2z a =? b2z b) && bytes_leb x' y')
  end.

Definition lex_leb {K1 K2} `{EqDecision K1, KeyOrder K1, KeyOrder K2} (x y : K1 * K2) : bool :=
  if decide (x.1 = y.1) then key_leb x.2 y.2 else key_leb x.1 y.1.

(** [m.Walk(ctx, rng, f)]: the callback sees the entries in order, may update the
    variables it closes over and stops the walk by returning [true] or an error. *)
Fixpoint walk_cb {S K V} (f : K -> V -> M S bool) (l : list (K * V)) : M S unit :=
  match l with
  | [] => mret tt
  | (k, v) :: l' => stop ← f k v; if (stop : bool) then mret tt else walk_cb f l'
  end.

(** The entries of a walk over [NewPrefixedPairRange(k1)]. *)
Definition prefixed {K1 K2 V} `{EqDecision K1} (k1 : K1) (l : list (K1 * K2 * V)) :
    list (K1 * K2 * V) :=
  filter (fun e => e.1.1 = k1) l.

(** ** Number formatting: the verbs [%d] and [%x] *)

Fixpoint dec_digits_aux (fuel : nat) (n : Z) (acc : bytes) : bytes :=
  match fuel with
  | O => acc
  | S fuel' =>
      let acc' := z2b (48 + n mod 10) :: acc in
      if n <? 10 then acc' else dec_digits_aux fuel' (n / 10) acc'
  end.

(** [fmt.Sprint(n)] of a [uint64]: at most twenty digits. *)
Definition fmt_d (n : Z) : bytes := dec_digits_aux 20 n [].

Definition hex_digit (n : Z) : byte := if n <? 10 then z2b (48 + n) else z2b (87 + n).

(** [fmt.Sprintf("%x", s)] of a string: two lower-case digits per byte. *)
Definition fmt_x (s : bytes) : bytes :=
  flat_map (fun b => [hex_digit (b2z b / 16); hex_digit (b2z b mod 16)]) s.

(** ** Big-endian integers *)

(** The [n] low bytes of [z], most significant first. *)
Fixpoint be_bytes (n : nat) (z : Z) : bytes :=
  match n with
  | O => []
  | S n' => z2b (z / 256 ^ Z.of_nat n') :: be_bytes n' z
  end.

Definition be_value (l : bytes) : Z := fold_left (fun acc b => acc * 256 + b2z b) l 0.

(** ** Hint databases and tactics of the development *)

Create HintDb nvnm discriminated.

(** Case analysis on the first match or conditional of a hypothesis about the
    run of a stateful function, discarding the branches that cannot happen. *)
Ltac run_unfold :=
  cbv [mret mbind M_ret M_bind gets modify throw lift zoom guard_err of_option
       result_ret result_bind] in *.

Ltac run_step H :=
  match type of H with
  | context [match ?x with _ => _ end] =>
      lazymatch x with
      | context [match _ with _ => _ end] => fail
      | _ => let E := fresh "E" in destruct x eqn:E; simplify_eq/=
      end
  end.

Ltac run_inv H := run_unfold; simpl in H; repeat (run_step H; try done).

(** Settles a decidable closed proposition by evaluating it. *)
Ltac by_eval :=
  lazymatch goal with |- ?P => refine (@bool_decide_unpack P _ _); vm_compute; exact I end.

(** ** Lemmas on bytes *)

Lemma b2z_range b : 0 <= b2z b < 256.
Proof.
  unfold b2z. pose proof (Byte.to_N_bounded b). lia.
Qed.

Lemma z2b_spec z : b2z (z2b z) = z mod 256.
Proof.
  unfold z2b, b2z. pose proof (Z.mod_pos_bound z 256 ltac:(lia)).
  destruct (Byte.of_N (Z.to_N (z mod 256))) as [b|] eqn:E.
  - apply Byte.to_of_N in E. rewrite E. lia.
  - apply Byte.of_N_None_iff in E. lia.
Qed.

Lemma b2z_inj b1 b2 : b2z b1 = b2z b2 -> b1 = b2.
Proof.
  unfold b2z. intros H%N2Z.inj.
  pose proof (Byte.of_to_N b1) as E1. pose proof (Byte.of_to_N b2) as E2.
  rewrite H in E1. congruence.
Qed.

Lemma z2b_b2z b : z2b (b2z b) = b.
Proof.
  apply b2z_inj. rewrite z2b_spec. apply Z.mod_small, b2z_range.
Qed.

Lemma b2z_z2b z : 0 <= z < 256 -> b2z (z2b z) = z.
Proof. intros. rewrite z2b_spec. by apply Z.mod_small. Qed.

Lemma blen_nonneg s : 0 <= blen s.
Proof. unfold blen. lia. Qed.

Lemma blen_nil s : blen s = 0 <-> s = [].
Proof. unfold blen. destruct s; simpl; split; intros; done || lia. Qed.

Lemma blen_app s t : blen (s ++ t) = blen s + blen t.
Proof. unfold blen. rewrite length_app. lia. Qed.

#[export] Hint Resolve b2z_range blen_nonneg : nvnm.

(** ** Key orders *)

Lemma bytes_leb_trans x y z :
  bytes_leb x y = true -> bytes_leb y z = true -> bytes_leb x z = true.
Proof.
  revert y z. induction x as [|a x IH]; intros [|b y] [|c z]; simpl; try done.
  rewrite !orb_true_iff, !andb_true_iff, !Z.ltb_lt, !Z.eqb_eq.
  intros [?|[? ?]] [?|[? ?]]; try (left; lia). right. split; [lia|eauto].
Qed.

Lemma bytes_leb_total x y : bytes_leb x y = true \/ bytes_leb y x = true.
Proof.
  revert y. induction x as [|a x IH]; intros [|b y]; simpl; try (by auto).
  rewrite !orb_true_iff, !andb_true_iff, !Z.ltb_lt, !Z.eqb_eq.
  destruct (Z.lt_trichotomy (b2z a) (b2z b)) as [?|[?|?]]; [by auto| |by auto].
  destruct (IH y); auto.
Qed.

Lemma bytes_leb_antisym x y : bytes_leb x y = true -> bytes_leb y x = true -> x = y.
Proof.
  revert y. induction x as [|a x IH]; intros [|b y]; simpl; try done.
  rewrite !orb_true_iff, !andb_true_iff, !Z.ltb_lt, !Z.eqb_eq.
  intros [?|[? ?]] [?|[? ?]]; try lia. f_equal; [by apply b2z_inj|eauto].
Qed.

#[export] Program Instance Z_key_order : KeyOrder Z := {| key_leb := Z.leb |}.
Next Obligation. intros; lia. Qed.
Next Obligation. intros; lia. Qed.
Next Obligation. intros; lia. Qed.

#[export] Instance bytes_key_order : KeyOrder bytes :=
  {| key_leb := bytes_leb; key_leb_trans := bytes_leb_trans;
     key_leb_total := bytes_leb_total; key_leb_antisym := bytes_leb_antisym |}.

Section lex.
Context {K1 K2 : Type} `{EqDecision K1, KeyOrder K1, KeyOrder K2}.

Lemma lex_leb_trans (x y z : K1 * K2) :
  lex_leb x y = true -> lex_leb y z = true -> lex_leb x z = true.
Proof.
  unfold lex_leb. destruct x as [x1 x2], y as [y1 y2], z as [z1 z2]; simpl.
  repeat case_decide; subst; try done; eauto using key_leb_trans.
  intros. destruct (key_leb_antisym z1 y1); done.
Qed.

Lemma lex_leb_total (x y : K1 * K2) : lex_leb x y = true \/ lex_leb y x = true.
Proof.
  unfold lex_leb. repeat case_decide; try congruence; apply key_leb_total.
Qed.

Lemma lex_leb_antisym (x y : K1 * K2) : lex_leb x y = true -> lex_leb y x = true -> x = y.
Proof.
  unfold lex_leb. destruct x as [x1 x2], y as [y1 y2]; simpl.
  repeat case_decide; subst; try congruence.
  - intros. f_equal. by apply key_leb_antisym.
  - intros. exfalso. eauto using key_leb_antisym.
Qed.

#[export] Instance pair_key_order : KeyOrder (K1 * K2) :=
  {| key_leb := lex_leb; key_leb_trans := lex_leb_trans;
     key_leb_total := lex_leb_total; key_leb_antisym := lex_leb_antisym |}.
End lex.

(** ** Walks *)

Section walk.
Context {K V : Type} `{Countable K, !KeyOrder K}.
Implicit Types m : gmap K V.

#[export] Instance pair_rel_trans : Transitive (@pair_rel K V _).
Proof. intros x y z. unfold pair_rel. apply key_leb_trans. Qed.

#[export] Instance pair_rel_total : Total (@pair_rel K V _).
Proof. intros x y. apply key_leb_total. Qed.

Lemma walk_perm m : walk m ≡ₚ map_to_list m.
Proof. apply merge_sort_Permutation. Qed.

Lemma elem_of_walk m k v : (k, v) ∈ walk m <-> m !! k = Some v.
Proof. rewrite walk_perm. apply elem_of_map_to_list. Qed.

Lemma walk_NoDup_fst m : NoDup (walk m).*1.
Proof. rewrite walk_perm. apply NoDup_fst_map_to_list. Qed.

Lemma walk_sorted m : StronglySorted pair_rel (walk m).
Proof. apply StronglySorted_merge_sort; apply _. Qed.

(** A walk is the only sorted listing of the map without repeated keys. *)
Lemma walk_unique m (l : list (K * V)) :
  l ≡ₚ map_to_list m -> StronglySorted pair_rel l -> l = walk m.
Proof.
  intros Hp Hs. apply (StronglySorted_unique_strong pair_rel);
    [|done|apply walk_sorted|by rewrite walk_perm].
  intros [k1 v1] [k2 v2] H1 H2 H3 H4.
  rewrite Hp in H1. apply elem_of_map_to_list in H1.
  apply elem_of_walk in H2.
  assert (k1 = k2) by (by apply key_leb_antisym). congruence.
Qed.

Lemma walk_empty : walk (∅ : gmap K V) = [].
Proof. unfold walk. by rewrite map_to_list_empty. Qed.

Lemma list_to_map_walk m : list_to_map (walk m) = m.
Proof.
  rewrite <- (list_to_map_to_list m) at 2.
  apply list_to_map_proper; [apply walk_NoDup_fst|apply walk_perm].
Qed.

Lemma length_walk m : length (walk m) = size m.
Proof. rewrite walk_perm. apply length_map_to_list. Qed.
End walk.

(** ** Formatting *)

Definition digit_value (b : byte) : Z := b2z b - 48.

Definition digits_value (l : bytes) : Z :=
  fold_left (fun acc b => acc * 10 + digit_value b) l 0.

Definition is_digit (b : byte) : Prop := 48 <= b2z b < 58.

Lemma digits_value_acc l a :
  fold_left (fun acc b => acc * 10 + digit_value b) l a
  = a * 10 ^ Z.of_nat (length l) + digits_value l.
Proof.
  unfold digits_value. revert a. induction l as [|b l IH]; intros a; simpl; [lia|].
  rewrite IH, (IH (0 * 10 + digit_value b)). rewrite Nat2Z.inj_succ, Z.pow_succ_r by lia. ring.
Qed.

Lemma dec_digits_aux_value fuel n acc :
  0 <= n < 10 ^ Z.of_nat fuel ->
  digits_value (dec_digits_aux fuel n acc)
  = n * 10 ^ Z.of_nat (length acc) + digits_value acc.
Proof.
  revert n acc. induction fuel as [|fuel IH]; intros n acc Hn.
  { change (10 ^ Z.of_nat 0) with 1 in Hn. replace n with 0 by lia. simpl. lia. }
  rewrite Nat2Z.inj_succ, Z.pow_succ_r in Hn by lia. simpl.
  pose proof (Z.mod_pos_bound n 10 ltac:(lia)). pose proof (Z.div_mod n 10 ltac:(lia)).
  assert (Hd : digit_value (z2b (48 + n mod 10)) = n mod 10).
  { unfold digit_value. rewrite b2z_z2b; lia. }
  assert (Hc : digits_value (z2b (48 + n mod 10) :: acc)
               = n mod 10 * 10 ^ Z.of_nat (length acc) + digits_value acc).
  { unfold digits_value at 1. simpl. rewrite digits_value_acc, Hd. ring. }
  case_match eqn:E.
  - apply Z.ltb_lt in E. rewrite Hc, Z.mod_small by lia. done.
  - apply Z.ltb_ge in E. rewrite IH.
    + rewrite Hc. simpl length. rewrite Nat2Z.inj_succ, Z.pow_succ_r by lia.
      rewrite H0 at 3. ring.
    + split; [apply Z.div_pos; lia|apply Z.div_lt_upper_bound; lia].
Qed.

Lemma dec_digits_aux_digits fuel n acc :
  0 <= n -> Forall is_digit acc -> Forall is_digit (dec_digits_aux fuel n acc).
Proof.
  revert n acc. induction fuel as [|fuel IH]; intros n acc Hn Hacc; simpl; [done|].
  pose proof (Z.mod_pos_bound n 10 ltac:(lia)).
  assert (Forall is_digit (z2b (48 + n mod 10) :: acc)).
  { constructor; [|done]. unfold is_digit. rewrite b2z_z2b; lia. }
  case_match; [done|]. apply IH; [apply Z.div_pos; lia|done].
Qed.

Lemma fmt_d_value n : is_u64 n -> digits_value (fmt_d n) = n.
Proof.
  intros [? ?]. unfold fmt_d. rewrite dec_digits_aux_value.
  - simpl. unfold digits_value; simpl. lia.
  - split; [done|]. unfold two64 in *. assert (2 ^ 64 < 10 ^ Z.of_nat 20) by done. lia.
Qed.

Lemma fmt_d_inj n m : is_u64 n -> is_u64 m -> fmt_d n = fmt_d m -> n = m.
Proof. intros Hn Hm E. rewrite <- (fmt_d_value n), <- (fmt_d_value m) by done. by rewrite E. Qed.

Lemma fmt_d_digits n : 0 <= n -> Forall is_digit (fmt_d n).
Proof. intros. apply dec_digits_aux_digits; [done|constructor]. Qed.

(** A separator splits a string uniquely when the left part avoids it. *)
Lemma app_sep_inj (sep : byte) (x1 x2 y1 y2 : bytes) :
  sep ∉ x1 -> sep ∉ x2 -> x1 ++ sep :: y1 = x2 ++ sep :: y2 -> x1 = x2 /\ y1 = y2.
Proof.
  revert x2. induction x1 as [|a x1 IH]; intros [|b x2] H1 H2 E; simplify_eq/=.
  - done.
  - destruct H2. by left.
  - destruct H1. by left.
  - apply not_elem_of_cons in H1 as [_ H1], H2 as [_ H2].
    by destruct (IH x2 H1 H2) as [-> ->].
Qed.

Definition colon : byte := x3a.

Lemma digits_no_colon l : Forall is_digit l -> colon ∉ l.
Proof.
  rewrite Forall_forall. intros Hl Hin. specialize (Hl _ Hin).
  unfold is_digit in Hl. replace (b2z colon) with 58 in Hl by done. lia.
Qed.

Lemma hex_digit_inj n m : 0 <= n < 16 -> 0 <= m < 16 -> hex_digit n = hex_digit m -> n = m.
Proof.
  intros Hn Hm. unfold hex_digit. intros E%(f_equal b2z).
  repeat case_match; rewrite ?b2z_z2b in E by lia; lia.
Qed.

Lemma hex_digit_not_colon n : 0 <= n < 16 -> hex_digit n <> colon.
Proof.
  intros Hn E%(f_equal b2z). unfold hex_digit in E. replace (b2z colon) with 58 in E by done.
  case_match; rewrite b2z_z2b in E by lia; lia.
Qed.

Lemma nibbles b : 0 <= b2z b / 16 < 16 /\ 0 <= b2z b mod 16 < 16.
Proof.
  pose proof (b2z_range b). split; [|by apply Z.mod_pos_bound].
  split; [apply Z.div_pos; lia|apply Z.div_lt_upper_bound; lia].
Qed.

Lemma fmt_x_no_colon s : colon ∉ fmt_x s.
Proof.
  induction s as [|b s IH]; simpl; [by apply not_elem_of_nil|].
  pose proof (nibbles b) as [H1 H2].
  rewrite !not_elem_of_cons. repeat split; [..|done];
    intros E; symmetry in E; revert E; by apply hex_digit_not_colon.
Qed.

Lemma fmt_x_inj s t : fmt_x s = fmt_x t -> s = t.
Proof.
  revert t. induction s as [|b s IH]; intros [|c t] E; simplify_eq/=; [done|].
  pose proof (nibbles b) as [? ?]. pose proof (nibbles c) as [? ?].
  match goal with H1 : hex_digit (b2z b / 16) = _, H2 : hex_digit (b2z b mod 16) = _ |- _ =>
    apply hex_digit_inj in H1, H2; try done end.
  f_equal; [|by apply IH]. apply b2z_inj.
  rewrite (Z.div_mod (b2z b) 16), (Z.div_mod (b2z c) 16) by lia. lia.
Qed.

(** ** Big-endian integers *)

Lemma be_bytes_length n z : length (be_bytes n z) = n.
Proof. revert z. induction n; intros; simpl; auto. Qed.

Lemma be_value_acc l a :
  fold_left (fun acc b => acc * 256 + b2z b) l a = a * 256 ^ Z.of_nat (length l) + be_value l.
Proof.
  unfold be_value. revert a. induction l as [|b l IH]; intros a; simpl; [lia|].
  rewrite IH, (IH (0 * 256 + b2z b)). rewrite Nat2Z.inj_succ, Z.pow_succ_r by lia. ring.
Qed.

Lemma be_value_cons b l : be_value (b :: l) = b2z b * 256 ^ Z.of_nat (length l) + be_value l.
Proof. unfold be_value at 1. simpl. rewrite be_value_acc. ring. Qed.

Lemma be_value_app x y : be_value (x ++ y) = be_value x * 256 ^ Z.of_nat (length y) + be_value y.
Proof. unfold be_value at 1. rewrite fold_left_app. by rewrite be_value_acc. Qed.

Lemma be_value_range l : 0 <= be_value l < 256 ^ Z.of_nat (length l).
Proof.
  induction l as [|b l IH]; [done|].
  rewrite be_value_cons. simpl length. rewrite Nat2Z.inj_succ, Z.pow_succ_r by lia.
  pose proof (b2z_range b). nia.
Qed.

Lemma be_value_bytes n z : be_value (be_bytes n z) = z mod 256 ^ Z.of_nat n.
Proof.
  revert z. induction n as [|n IH]; intros z.
  { simpl. by rewrite Z.mod_1_r. }
  simpl be_bytes. rewrite be_value_cons, be_bytes_length, IH, z2b_spec.
  rewrite Nat2Z.inj_succ, Z.pow_succ_r by lia.
  rewrite (Z.mul_comm 256), Z.rem_mul_r by lia. lia.
Qed.

(** The bytes above the ones asked for do not matter. *)
Lemma be_bytes_high (k n : nat) (c v : Z) :
  (k <= n)%nat -> be_bytes k (c * 256 ^ Z.of_nat n + v) = be_bytes k v.
Proof.
  induction k as [|k IHk]; intros Hk; [done|]. simpl. f_equal; [|apply IHk; lia].
  apply b2z_inj. rewrite !z2b_spec.
  replace (Z.of_nat n) with (Z.of_nat (n - S k) + 1 + Z.of_nat k) by lia.
  rewrite !Z.pow_add_r by lia.
  replace (c * (256 ^ Z.of_nat (n - S k) * 256 ^ 1 * 256 ^ Z.of_nat k))
    with (c * 256 ^ Z.of_nat (n - S k) * 256 * 256 ^ Z.of_nat k) by ring.
  rewrite Z.div_add_l by lia. rewrite Z.add_comm, Z.mod_add by lia. done.
Qed.

Lemma be_bytes_value l : be_bytes (length l) (be_value l) = l.
Proof.
  induction l as [|b l IH]; [done|]. simpl length. simpl be_bytes.
  pose proof (be_value_range l) as Hr. pose proof (b2z_range b).
  rewrite be_value_cons, be_bytes_high, IH by done. f_equal.
  apply b2z_inj. rewrite z2b_spec, Z.div_add_l, (Z.div_small (be_value l)) by lia.
  rewrite Z.add_0_r. by apply Z.mod_small.
Qed.

Lemma be_bytes_inj n x y :
  0 <= x < 256 ^ Z.of_nat n -> 0 <= y < 256 ^ Z.of_nat n ->
  be_bytes n x = be_bytes n y -> x = y.
Proof.
  intros Hx Hy E%(f_equal be_value). rewrite !be_value_bytes, !Z.mod_small in E; done.
Qed.

Lemma BytesToHash_length b : length (BytesToHash b) = 32%nat.
Proof. unfold BytesToHash. rewrite length_app, length_replicate, length_drop. lia. Qed.

Lemma BytesToHash_id b : length b = 32%nat -> BytesToHash b = b.
Proof. intros E. unfold BytesToHash. by rewrite E. Qed.

(** ** The store monad *)

Lemma bind_ok {S A B} (m : M S A) (f : A -> M S B) s b s' :
  (m ≫= f) s = (Ok b, s') <-> exists a s1, m s = (Ok a, s1) /\ f a s1 = (Ok b, s').
Proof.
  cbv [mbind M_bind]. destruct (m s) as [[a|e] s1]; naive_solver.
Qed.

(** An invariant kept by every iteration is kept by a loop, whatever it returns. *)
Lemma for_each_inv {S A} (P : S -> Prop) (f : A -> M S unit) (l : list A) s r s' :
  (forall x s0, x ∈ l -> P s0 -> P (f x s0).2) ->
  P s -> for_each f l s = (r, s') -> P s'.
Proof.
  revert s. induction l as [|x l IH]; intros s Hf Hs; simpl; cbv [mbind M_bind mret M_ret].
  { congruence. }
  pose proof (Hf x s ltac:(left) Hs) as Hx.
  destruct (f x s) as [[[]|e] s1]; simpl in *; [|congruence].
  apply IH; [|done]. intros y s0 Hy. apply Hf. by right.
Qed.

(** A loop whose every iteration succeeds and extends an invariant on the part of
    the list already visited. *)
Lemma for_each_ok {S A} (I : list A -> S -> Prop) (f : A -> M S unit) (l : list A) s0 :
  I [] s0 ->
  (forall done x rest s, l = done ++ x :: rest -> I done s ->
     exists s', f x s = (Ok tt, s') /\ I (done ++ [x]) s') ->
  exists s', for_each f l s0 = (Ok tt, s') /\ I l s'.
Proof.
  intros H0 Hstep.
  cut (forall done rest s, l = done ++ rest -> I done s ->
         exists s', for_each f rest s = (Ok tt, s') /\ I l s').
  { intros Hc. exact (Hc [] l s0 eq_refl H0). }
  intros done rest. revert done. induction rest as [|x rest IH]; intros done s -> Hs; simpl.
  - exists s. split; [done|]. by rewrite app_nil_r.
  - destruct (Hstep done x rest s eq_refl Hs) as (s1 & E & H1). cbv [mbind M_bind]. rewrite E.
    apply (IH (done ++ [x]) s1); [by rewrite <- app_assoc|done].
Qed.

Lemma for_each_app {S A} (f : A -> M S unit) l l' s :
  for_each f (l ++ l') s = (_ ← for_each f l; for_each f l') s.
Proof.
  revert s. induction l as [|x l IH]; intros s; [done|]. simpl. cbv [mbind M_bind].
  destruct (f x s) as [[[]|] ?]; [|done]. apply IH.
Qed.

(** The converse: a loop that succeeds ran every iteration to success. *)
Lemma for_each_ok_inv {S A} (I : list A -> S -> Prop) (f : A -> M S unit) (l : list A) s0 s' :
  I [] s0 ->
  (forall done x s s1, I done s -> f x s = (Ok tt, s1) -> I (done ++ [x]) s1) ->
  for_each f l s0 = (Ok tt, s') -> I l s'.
Proof.
  intros H0 Hstep.
  cut (forall done rest s, I done s -> for_each f rest s = (Ok tt, s') -> I (done ++ rest) s').
  { intros Hc. exact (Hc [] l s0 H0). }
  intros done rest. revert done. induction rest as [|x rest IH]; intros done s Hs; simpl.
  - intros [= <-]. by rewrite app_nil_r.
  - intros ([] & s1 & E & E')%bind_ok.
    rewrite (app_assoc done [x] rest : done ++ x :: rest = _). eauto.
Qed.

(** ** Lists *)

Lemma filter_none {A} (P : A -> Prop) `{!forall x, Decision (P x)} (l : list A) :
  (forall x, x ∈ l -> ~ P x) -> filter P l = [].
Proof.
  induction l as [|x l IH]; intros Hl; [done|]. rewrite filter_cons, decide_False by (apply Hl; by left).
  apply IH. intros y Hy. apply Hl. by right.
Qed.

(** Two members of a list with the same image under a function that does not
    repeat are the same. *)
Lemma NoDup_fmap_inj_in {A B} (f : A -> B) (l : list A) x y :
  NoDup (f <$> l) -> x ∈ l -> y ∈ l -> f x = f y -> x = y.
Proof.
  intros Hnd [i Hi]%list_elem_of_lookup [j Hj]%list_elem_of_lookup E.
  assert (i = j) as ->; [|congruence].
  eapply (NoDup_lookup _ _ _ _ Hnd); rewrite list_lookup_fmap, ?Hi, ?Hj; simpl; [done|by rewrite E].
Qed.

(** A walk over a map whose values were transformed. *)
Lemma walk_fmap {K V W} `{Countable K, !KeyOrder K} (f : V -> W) (m : gmap K V) :
  walk (f <$> m) = prod_map id f <$> walk m.
Proof.
  symmetry. apply walk_unique.
  - by rewrite map_to_list_fmap, walk_perm.
  - pose proof (walk_sorted m) as Hs. induction Hs as [|[k v] l Hs IH Hf]; simpl; constructor; [done|].
    apply Forall_fmap. eapply Forall_impl; [exact Hf|]. by intros [].
Qed.

Lemma filter_fmap_list {A B} (f : A -> B) (P : B -> Prop) (Q : A -> Prop)
    `{!forall x, Decision (P x)} `{!forall x, Decision (Q x)} (l : list A) :
  (forall x, x ∈ l -> (P (f x) <-> Q x)) -> filter P (f <$> l) = f <$> filter Q l.
Proof.
  induction l as [|x l IH]; intros Hl; [done|]. rewrite fmap_cons, !filter_cons.
  rewrite IH by (intros y Hy; apply Hl; by right).
  specialize (Hl x ltac:(by left)). repeat case_decide; naive_solver.
Qed.

Lemma filter_ext_in {A} (P Q : A -> Prop) `{!forall x, Decision (P x)} `{!forall x, Decision (Q x)}
    (l : list A) :
  (forall x, x ∈ l -> (P x <-> Q x)) -> filter P l = filter Q l.
Proof.
  intros Hl. rewrite <- (list_fmap_id l) at 1. rewrite (filter_fmap_list id P Q) by done.
  apply list_fmap_id.
Qed.
