(* ===== verification/Types.v ===== *)
(** The data of x/anchoring and its stateless validation.

    Models src/x/anchoring/types: the messages and state records
    (document.pb.go, params.pb.go, genesis.pb.go, tx.pb.go), the field
    validation (record_validation.go, registry_validation.go, params.go,
    msg_*.go) and the genesis validation (genesis.go).  The libraries the code
    calls but does not contain are the fields of the class [Env]. *)

From S2P Require Import Prelude.

(** ** The libraries the module is built on

    [keccak256] is go-ethereum's hash, [AccAddressFromBech32] and
    [AccAddress_String] the address conversions of the Cosmos SDK,
    [StringToBytes] and [BytesToString] the address codec the keeper holds, and
    [key_string_ok] tells which strings the collections library accepts in a
    key position that is not the last one. *)
Class Env := {
  keccak256 : bytes -> bytes;
  AccAddressFromBech32 : bytes -> option bytes;
  AccAddress_String : bytes -> bytes;
  StringToBytes : bytes -> option bytes;
  BytesToString : bytes -> option bytes;
  key_string_ok : bytes -> bool
}.

(** What the module relies on of these libraries: a Keccak digest has 32 bytes,
    the codec decodes the text of every address it can produce, the SDK accepts
    that text too, no address is written as the empty string, and the SDK and the
    codec read an address alike. *)
Class EnvLaws `{Env} := {
  keccak256_length : forall x, length (keccak256 x) = 32%nat;
  StringToBytes_String : forall s a, StringToBytes s = Some a ->
    StringToBytes (AccAddress_String a) = Some a;
  FromBech32_String : forall s a, StringToBytes s = Some a ->
    is_Some (AccAddressFromBech32 (AccAddress_String a));
  FromBech32_empty : AccAddressFromBech32 [] = None;
  FromBech32_codec : forall s a, AccAddressFromBech32 s = Some a -> StringToBytes s = Some a
}.

(** ** Data *)

Record Params := mkParams { Admin : bytes }.

Record Registry := mkRegistry {
  reg_Id : Z;
  reg_Name : bytes;
  reg_Description : bytes;
  reg_Creator : bytes;
  reg_CreatedAt : bytes;
  reg_Metadata : bytes
}.

Record Record_ := mkRecord {
  rec_Uri : bytes;
  rec_Checksum : bytes;
  rec_ChecksumAlgo : bytes;
  rec_Metadata : bytes;
  rec_Timestamp : bytes;
  rec_Status : bytes;
  rec_RecordId : Z;
  rec_Index : Z;
  rec_IsLatest : bool;
  rec_RegistryId : Z
}.

#[export] Instance Params_eq_dec : EqDecision Params.
Proof. solve_decision. Defined.
#[export] Instance Registry_eq_dec : EqDecision Registry.
Proof. solve_decision. Defined.
#[export] Instance Record_eq_dec : EqDecision Record_.
Proof. solve_decision. Defined.

Record MsgUpdateParams := mkMsgUpdateParams { mup_Authority : bytes; mup_Admin : bytes }.

Record MsgAddRegistry := mkMsgAddRegistry {
  mar_Sender : bytes;
  mar_Name : bytes;
  mar_Description : bytes;
  mar_Metadata : bytes
}.

Record MsgAddRecord := mkMsgAddRecord {
  marec_Sender : bytes;
  marec_Record : option Record_
}.

Record MsgUpdateRecordStatus := mkMsgUpdateRecordStatus {
  murs_Editor : bytes;
  murs_RegistryId : Z;
  murs_RecordId : Z;
  murs_Index : Z;
  murs_Status : bytes
}.

(** [MsgGrantRole] and [MsgRevokeRole] have the same fields. *)
Record MsgRole := mkMsgRole {
  mr_Admin : bytes;
  mr_RegistryId : Z;
  mr_Checksum : bytes;
  mr_Address : bytes;
  mr_Role : bytes
}.

(** A Go map is the list of its entries in the order [range] visits them. *)
Record GenesisState := mkGenesis {
  gen_Params : Params;
  gen_Registries : list (Z * Registry);
  gen_Records : list Record_;
  gen_RoleAdmins : list (bytes * bytes);
  gen_RoleMembers : list (bytes * bytes)
}.

(** ** Field validation: record_validation.go *)

Definition MaxRecordChecksumLen : Z := 64.
Definition MaxRecordChecksumAlgoLen : Z := 128.
Definition MaxRecordURILen : Z := 2048.
Definition MaxRecordMetadataLen : Z := 2048.
Definition MaxRecordStatusLen : Z := 64.
Definition ErrMsgRegistryIDZero : string := "registry ID cannot be zero".

Definition is_empty (s : bytes) : bool := match s with [] => true | _ => false end.

Definition validateMaxLen (field : string) (value : bytes) (max : Z) : result unit :=
  _ ← guard_err (max <=? 0) (ErrPlain (String.append "invalid max length for " field));
  guard_err (max <? blen value) (ErrPlain (String.append field " exceeds max length")).

Definition ValidateRecordStatus (status : bytes) : result unit :=
  _ ← guard_err (is_empty status) (ErrPlain "status cannot be empty");
  validateMaxLen "status" status MaxRecordStatusLen.

Definition ValidateRecordForCreate (record : Record_) : result unit :=
  _ ← guard_err (is_empty (rec_Checksum record)) (ErrPlain "checksum cannot be empty");
  _ ← guard_err (is_empty (rec_ChecksumAlgo record)) (ErrPlain "checksum algorithm cannot be empty");
  _ ← guard_err (is_empty (rec_Uri record)) (ErrPlain "uri cannot be empty");
  _ ← guard_err (is_empty (rec_Metadata record) || bool_decide (rec_Metadata record = bs "{}"))
        (ErrPlain "metadata cannot be empty");
  _ ← guard_err (rec_RegistryId record =? 0) (ErrPlain ErrMsgRegistryIDZero);
  _ ← validateMaxLen "checksum" (rec_Checksum record) MaxRecordChecksumLen;
  _ ← validateMaxLen "checksum algorithm" (rec_ChecksumAlgo record) MaxRecordChecksumAlgoLen;
  _ ← validateMaxLen "uri" (rec_Uri record) MaxRecordURILen;
  _ ← validateMaxLen "metadata" (rec_Metadata record) MaxRecordMetadataLen;
  ValidateRecordStatus (rec_Status record).

Definition ValidateRecord (r : Record_) : result unit :=
  _ ← guard_err (rec_RecordId r <=? 0) (ErrPlain "record_id cannot be <= 0");
  _ ← guard_err (rec_Index r <=? 0) (ErrPlain "index cannot be <= 0");
  ValidateRecordForCreate r.

(** Versions of one record seen so far in a genesis. *)
Record RecordVersionGroup := mkGroup {
  MaxIndex : Z;
  LatestIndex : Z;
  LatestCount : Z
}.

Definition empty_group : RecordVersionGroup := mkGroup 0 0 0.

Definition RecordVersionGroup_Add (g : RecordVersionGroup) (r : Record_) : RecordVersionGroup :=
  let g1 := if MaxIndex g <? rec_Index r
            then mkGroup (rec_Index r) (LatestIndex g) (LatestCount g) else g in
  if rec_IsLatest r then mkGroup (MaxIndex g1) (rec_Index r) (LatestCount g1 + 1) else g1.

Definition ValidateIsLatest (g : RecordVersionGroup) : result unit :=
  _ ← guard_err (LatestCount g =? 0) (ErrPlain "has no record with is_latest=true");
  _ ← guard_err (1 <? LatestCount g) (ErrPlain "has records with is_latest=true, expected 1");
  guard_err (negb (LatestIndex g =? MaxIndex g)) (ErrPlain "is_latest=true is not on max index").

(** ** Field validation: registry_validation.go and params.go *)

Definition MaxRegistryNameLen : Z := 128.
Definition MaxRegistryDescriptionLen : Z := 2048.
Definition MaxRegistryMetadataLen : Z := 2048.

Definition ValidateRegistryForCreate (name description metadata : bytes) : result unit :=
  _ ← guard_err (is_empty name) (ErrPlain "name cannot be empty");
  _ ← validateMaxLen "name" name MaxRegistryNameLen;
  _ ← validateMaxLen "description" description MaxRegistryDescriptionLen;
  validateMaxLen "metadata" metadata MaxRegistryMetadataLen.

Section validation.
Context `{Env}.

(** [if s == "" {...}; if _, err := AccAddressFromBech32(s); err != nil {...}] *)
Definition check_address (what : string) (s : bytes) : result unit :=
  _ ← guard_err (is_empty s) (ErrPlain (String.append what " cannot be empty"));
  _ ← of_option (AccAddressFromBech32 s) (ErrWrap (String.append "invalid " what) ErrBech32);
  Ok tt.

Definition ValidateRegistry (r : Registry) : result unit :=
  _ ← guard_err (reg_Id r <=? 0) (ErrPlain "id cannot be <= 0");
  _ ← guard_err (is_empty (reg_Creator r)) (ErrPlain "creator cannot be empty");
  _ ← of_option (AccAddressFromBech32 (reg_Creator r)) (ErrWrap "invalid creator address" ErrBech32);
  ValidateRegistryForCreate (reg_Name r) (reg_Description r) (reg_Metadata r).

Definition ValidateAdminAddress (address : bytes) : result unit :=
  check_address "admin address" address.

Definition DefaultAdminAddress : bytes := bs "nvnm15m77x4pe6w9vtpuqm22qxu0ds7vn4ehzxt8qca".

Definition NewParams (admin : bytes) : Params := mkParams admin.

Definition DefaultParams : Params := NewParams DefaultAdminAddress.

Definition Params_Validate (p : Params) : result unit := ValidateAdminAddress (Admin p).

(** ** [ValidateBasic] of the messages *)

Definition MsgAddRegistry_ValidateBasic (msg : MsgAddRegistry) : result unit :=
  _ ← check_address "sender address" (mar_Sender msg);
  ValidateRegistryForCreate (mar_Name msg) (mar_Description msg) (mar_Metadata msg).

Definition MsgAddRecord_ValidateBasic (msg : MsgAddRecord) : result unit :=
  _ ← check_address "sender address" (marec_Sender msg);
  record ← of_option (marec_Record msg) (ErrPlain "record cannot be nil");
  ValidateRecordForCreate record.

Definition MsgUpdateRecordStatus_ValidateBasic (msg : MsgUpdateRecordStatus) : result unit :=
  _ ← check_address "Editor address" (murs_Editor msg);
  _ ← guard_err (murs_RecordId msg =? 0) (ErrPlain "record ID cannot be zero");
  _ ← ValidateRecordStatus (murs_Status msg);
  _ ← guard_err (murs_RegistryId msg =? 0) (ErrPlain ErrMsgRegistryIDZero);
  guard_err (murs_Index msg =? 0) (ErrPlain "index cannot be zero").

Definition MsgGrantRole_ValidateBasic (msg : MsgRole) : result unit :=
  _ ← check_address "admin address" (mr_Admin msg);
  _ ← check_address "grantee address" (mr_Address msg);
  _ ← guard_err (mr_RegistryId msg =? 0) (ErrPlain ErrMsgRegistryIDZero);
  _ ← validateMaxLen "checksum" (mr_Checksum msg) MaxRecordChecksumLen;
  guard_err (is_empty (mr_Role msg)) (ErrPlain "role cannot be empty").

Definition MsgRevokeRole_ValidateBasic (msg : MsgRole) : result unit :=
  _ ← check_address "admin address" (mr_Admin msg);
  _ ← check_address "grantee address" (mr_Address msg);
  _ ← guard_err (mr_RegistryId msg =? 0) (ErrPlain ErrMsgRegistryIDZero);
  _ ← validateMaxLen "checksum" (mr_Checksum msg) MaxRecordChecksumLen;
  guard_err (is_empty (mr_Role msg)) (ErrPlain "role cannot be empty").

Definition MsgUpdateParams_ValidateBasic (msg : MsgUpdateParams) : result unit :=
  _ ← check_address "Authority address" (mup_Authority msg);
  if is_empty (mup_Admin msg) then Ok tt
  else _ ← of_option (AccAddressFromBech32 (mup_Admin msg))
             (ErrWrap "invalid admin address" ErrBech32); Ok tt.
End validation.
