(* ===== verification/Concrete.v ===== *)
(** A concrete instance of the libraries the development is parametric in, on
    which the witnesses evaluate: the Keccak-256 digest computed from its
    published definition, and an address codec whose text is the lower-case hex
    of the address behind a fixed prefix. *)

From S2P Require Import Prelude Types.

(** ** Keccak-256 *)

Module Keccak.
Definition mask64 (x : Z) : Z := Z.land x (two64 - 1).
Definition rotl (x n : Z) : Z :=
  mask64 (Z.lor (Z.shiftl x n) (Z.shiftr x (64 - n))).
Definition lane (a : list Z) (i : nat) : Z := nth i a 0.

Definition rho : list Z :=
  [0; 1; 62; 28; 27; 36; 44; 6; 55; 20; 3; 10; 43; 25; 39; 41; 45; 15; 21; 8; 18; 2; 61; 56; 14].

Definition round_constants : list Z :=
  [0x0000000000000001; 0x0000000000008082; 0x800000000000808A; 0x8000000080008000;
   0x000000000000808B; 0x0000000080000001; 0x8000000080008081; 0x8000000000008009;
   0x000000000000008A; 0x0000000000000088; 0x0000000080008009; 0x000000008000000A;
   0x000000008000808B; 0x800000000000008B; 0x8000000000008089; 0x8000000000008003;
   0x8000000000008002; 0x8000000000000080; 0x000000000000800A; 0x800000008000000A;
   0x8000000080008081; 0x8000000000008080; 0x0000000080000001; 0x8000000080008008].

Definition lanes : list nat := seq 0 25.

Definition keccak_round (a : list Z) (rc : Z) : list Z :=
  let c := map (fun x => Z.lxor (lane a x) (Z.lxor (lane a (x + 5)) (Z.lxor (lane a (x + 10))
             (Z.lxor (lane a (x + 15)) (lane a (x + 20)))))) (seq 0 5) in
  let d := map (fun x => Z.lxor (lane c ((x + 4) mod 5)) (rotl (lane c ((x + 1) mod 5)) 1))
             (seq 0 5) in
  let a1 := map (fun i => Z.lxor (lane a i) (lane d (i mod 5))) lanes in
  let b := map (fun i => let X := (i mod 5)%nat in let Y := (i / 5)%nat in
                         let src := (((X + 3 * Y) mod 5) + 5 * X)%nat in
                         rotl (lane a1 src) (lane rho src)) lanes in
  let e := map (fun i => let x := (i mod 5)%nat in let y := (5 * (i / 5))%nat in
                         Z.lxor (lane b i)
                           (Z.land (Z.lxor (lane b ((x + 1) mod 5 + y)) (two64 - 1))
                                   (lane b ((x + 2) mod 5 + y)))) lanes in
  match e with x :: e' => Z.lxor x rc :: e' | [] => [] end.

Definition permute (a : list Z) : list Z := fold_left keccak_round round_constants a.

Definition le_value (l : bytes) : Z := be_value (reverse l).

Fixpoint chunks (fuel n : nat) (l : bytes) : list bytes :=
  match fuel, l with
  | O, _ => []
  | _, [] => []
  | S fuel', _ => take n l :: chunks fuel' n (drop n l)
  end.

Definition absorb (a : list Z) (block : bytes) : list Z :=
  let ws := map le_value (chunks 17 8 block) in
  permute (imap (fun i x => Z.lxor x (nth i ws 0)) a).

Definition pad (l : bytes) : bytes :=
  let r := (136 - length l mod 136)%nat in
  if (r =? 1)%nat then l ++ [x81] else l ++ [x01] ++ replicate (r - 2) x00 ++ [x80].

Definition digest (l : bytes) : bytes :=
  let p := pad l in
  let a := fold_left absorb (chunks (length p) 136 p) (replicate 25 0) in
  flat_map (fun i => reverse (be_bytes 8 (lane a i))) (seq 0 4).
End Keccak.

Lemma digest_length l : length (Keccak.digest l) = 32%nat.
Proof.
  unfold Keccak.digest. cbn [flat_map seq]. by rewrite !length_app, !length_reverse, !be_bytes_length.
Qed.

Example keccak_of_empty :
  fmt_x (Keccak.digest []) = bs "c5d2460186f7233c927e7db2dcc703c0e500b653ca82273b7bfad8045d85a470".
Proof. vm_compute. reflexivity. Qed.

(** ** A text form of addresses *)

Definition addr_prefix : bytes := bs "nvnm1".

Definition hex_value (b : byte) : option Z :=
  let n := b2z b in
  if (48 <=? n) && (n <? 58) then Some (n - 48)
  else if (97 <=? n) && (n <? 103) then Some (n - 87) else None.

Fixpoint unhex (l : bytes) : option bytes :=
  match l with
  | [] => Some []
  | a :: b :: l' =>
      x ← hex_value a; y ← hex_value b; r ← unhex l'; Some (z2b (x * 16 + y) :: r)
  | _ => None
  end.

Definition addr_to_text (a : bytes) : bytes := addr_prefix ++ fmt_x a.

Definition addr_of_text (s : bytes) : option bytes :=
  if decide (take 5 s = addr_prefix)
  then a ← unhex (drop 5 s); if is_empty a then None else Some a
  else None.

Lemma hex_value_digit n : 0 <= n < 16 -> hex_value (hex_digit n) = Some n.
Proof.
  intros Hn. unfold hex_value, hex_digit.
  destruct (Z.ltb_spec n 10); rewrite b2z_z2b by lia.
  - replace ((48 <=? 48 + n) && (48 + n <? 58)) with true by lia. f_equal; lia.
  - replace ((48 <=? 87 + n) && (87 + n <? 58)) with false by lia.
    replace ((97 <=? 87 + n) && (87 + n <? 103)) with true by lia. f_equal; lia.
Qed.

Lemma unhex_fmt_x a : unhex (fmt_x a) = Some a.
Proof.
  induction a as [|b a IH]; [done|]. simpl. pose proof (nibbles b) as [? ?].
  rewrite !hex_value_digit by done. simpl. rewrite IH. simpl.
  replace (b2z b / 16 * 16 + b2z b mod 16) with (b2z b).
  - by rewrite z2b_b2z.
  - rewrite (Z.div_mod (b2z b) 16) at 1 by lia. lia.
Qed.

Lemma addr_of_to_text a : a <> [] -> addr_of_text (addr_to_text a) = Some a.
Proof.
  intros Ha. unfold addr_of_text, addr_to_text.
  rewrite take_app_length', drop_app_length' by done.
  rewrite unhex_fmt_x, decide_True by done. by destruct a.
Qed.

#[export] Instance concrete_env : Env := {|
  keccak256 := Keccak.digest;
  AccAddressFromBech32 := addr_of_text;
  AccAddress_String := addr_to_text;
  StringToBytes := addr_of_text;
  BytesToString := fun a => if is_empty a then None else Some (addr_to_text a);
  key_string_ok := fun s => bool_decide (x00 ∉ s)
|}.

#[export] Instance concrete_env_laws : EnvLaws.
Proof.
  assert (Hrt : forall s a, addr_of_text s = Some a -> addr_of_text (addr_to_text a) = Some a).
  { intros s a Hs. apply addr_of_to_text. unfold addr_of_text in Hs.
    case_decide; [|done]. destruct (unhex (drop 5 s)) as [[]|]; simplify_eq/=; done. }
  split; simpl; [apply digest_length|done| |done|done].
  intros s a Hs. rewrite (Hrt s a Hs). done.
Qed.
