(* ===== verification/Rbac.v ===== *)
(** Role-based access control: src/x/anchoring/rbac (role.go, keeper.go).

    A role is a 32-byte hash.  The keeper maps each role to its admin role and
    holds the members of each role as (role, account) pairs. *)

From S2P Require Import Prelude Types.

(** ** Roles and their key codec: role.go *)

Abbreviation Role := bytes.

Definition RoleSize : nat := 32.

Definition NewRole (bz : bytes) : Role := BytesToHash bz.

Definition NewRoleHash `{Env} (id : bytes) : Role := keccak256 id.

(** [Encode] writes into the buffer and returns the count written. *)
Definition RoleCodec_Encode (buffer : bytes) (key : Role) : nat * bytes := go_copy buffer key.

Definition RoleCodec_Decode (buffer : bytes) : result (nat * Role) :=
  Ok (length buffer, NewRole buffer).

Definition RoleCodec_Size (key : Role) : nat := RoleSize.

Definition RoleCodec_EncodeNonTerminal (buffer : bytes) (key : Role) : nat * bytes :=
  RoleCodec_Encode buffer key.

Definition RoleCodec_DecodeNonTerminal (buffer : bytes) : result (nat * Role) :=
  if (length buffer <? RoleSize)%nat
  then Err (ErrPlain "buffer too small for non-terminal role decode")
  else RoleCodec_Decode (take RoleSize buffer).

Definition RoleCodec_SizeNonTerminal (key : Role) : nat := RoleSize.

(** ** The keeper: keeper.go *)

Definition DefaultRoleAdmin : Role := replicate RoleSize x00.

(** The store of the keeper and the event manager of the context. *)
Record RBACState := mkRBAC {
  RoleAdmins : gmap Role bytes;
  RoleMembers : gmap (Role * bytes) bytes;
  rb_events : list Event
}.

Definition set_RoleAdmins (m : gmap Role bytes) (s : RBACState) : RBACState :=
  mkRBAC m (RoleMembers s) (rb_events s).
Definition set_RoleMembers (m : gmap (Role * bytes) bytes) (s : RBACState) : RBACState :=
  mkRBAC (RoleAdmins s) m (rb_events s).
Definition rb_emit (e : Event) : M RBACState unit :=
  modify (fun s => mkRBAC (RoleAdmins s) (RoleMembers s) (rb_events s ++ [e])).

Definition EventTypeGrantRole : string := "grant_role".
Definition EventTypeRevokeRole : string := "revoke_role".

Section keeper.
Context `{Env}.

Definition HasRole (role : Role) (addr : bytes) : M RBACState bool :=
  gets (fun s => bool_decide (is_Some (RoleMembers s !! (role, addr)))).

(** The callback of [IsSoleAdmin]'s walk: count, and stop at the second member. *)
Definition sole_admin_cb (_ : Role * bytes) (_ : bytes) : M Z bool :=
  fun seen => let seen := seen + 1 in (Ok (2 <=? seen), seen).

Definition IsSoleAdmin (adminRole : Role) : M RBACState bool :=
  gets (fun s =>
    let '(_, seen) := walk_cb sole_admin_cb (prefixed adminRole (walk (RoleMembers s))) 0 in
    seen =? 1).

Definition GetRoleAdmin (role : Role) : M RBACState Role :=
  fun s => match RoleAdmins s !! role with
           | Some bz => (Ok (NewRole bz), s)
           | None => (Err ErrRoleAdminNotConfigured, s)
           end.

Definition SetRoleAdmin (role adminRole : Role) : M RBACState unit :=
  modify (fun s => set_RoleAdmins (<[role := adminRole]> (RoleAdmins s)) s).

Definition hex_hash (role : Role) : bytes := bs "0x" ++ fmt_x role.

Definition GrantRoleUnchecked (role : Role) (addr granter : bytes) : M RBACState unit :=
  _ ← rb_emit (mkEvent EventTypeGrantRole
        [("grantee", AccAddress_String addr); ("granter", AccAddress_String granter);
         ("role", hex_hash role)]);
  modify (fun s => set_RoleMembers (<[(role, addr) := []]> (RoleMembers s)) s).

Definition GrantRole (role : Role) (addr granter : bytes) : M RBACState unit :=
  adminRole ← GetRoleAdmin role;
  hasAdminRole ← HasRole adminRole granter;
  if (hasAdminRole : bool) then GrantRoleUnchecked role addr granter
  else throw ErrMissingRole.

Definition RevokeRoleUnchecked (role : Role) (addr revoker : bytes) : M RBACState unit :=
  _ ← rb_emit (mkEvent EventTypeRevokeRole
        [("revokee", AccAddress_String addr); ("revoker", AccAddress_String revoker);
         ("role", hex_hash role)]);
  modify (fun s => set_RoleMembers (delete (role, addr) (RoleMembers s)) s).

Definition RevokeRole (role : Role) (addr revoker : bytes) : M RBACState unit :=
  adminRole ← GetRoleAdmin role;
  hasAdminRole ← HasRole adminRole revoker;
  if (hasAdminRole : bool) then RevokeRoleUnchecked role addr revoker
  else throw ErrMissingRole.
End keeper.

(** ** The role codec *)

Definition role_key (role : Role) : bytes :=
  let '(n, buffer) := RoleCodec_Encode (replicate (RoleCodec_Size role) x00) role in
  take n buffer.

Lemma role_key_id role : length role = RoleSize -> role_key role = role.
Proof.
  intros Hl. unfold role_key, RoleCodec_Encode, RoleCodec_Size, go_copy.
  cbv zeta beta iota. rewrite length_replicate, Hl, Nat.min_id.
  rewrite drop_ge by (by rewrite length_replicate).
  rewrite app_nil_r, take_take, Nat.min_id. apply take_ge. lia.
Qed.

Lemma RoleCodec_roundtrip role :
  length role = RoleSize ->
  RoleCodec_Decode (role_key role) = Ok (RoleSize, role).
Proof.
  intros Hl. rewrite role_key_id by done.
  unfold RoleCodec_Decode, NewRole. by rewrite BytesToHash_id, Hl.
Qed.

(** A role in a key is self-delimiting: what follows it is not consumed. *)
Lemma RoleCodec_nonterminal_roundtrip role rest :
  length role = RoleSize ->
  RoleCodec_DecodeNonTerminal (role_key role ++ rest) = Ok (RoleSize, role).
Proof.
  intros Hl. rewrite role_key_id by done.
  unfold RoleCodec_DecodeNonTerminal. rewrite length_app, Hl.
  replace (RoleSize + length rest <? RoleSize)%nat with false
    by (symmetry; apply Nat.ltb_ge; lia).
  rewrite take_app_length' by done.
  unfold RoleCodec_Decode, NewRole. by rewrite BytesToHash_id, Hl.
Qed.

(** ** The JSON form of a role *)

(** The string codec of the collections library and go-ethereum's [common.FromHex]. *)
Class RoleJSON := {
  StringKey_EncodeJSON : bytes -> result bytes;
  StringKey_DecodeJSON : bytes -> result bytes;
  FromHex : bytes -> bytes
}.

(** A string that was encoded is decoded to itself, and the digits after 0x, two for each
    byte, are the bytes. *)
Class RoleJSONLaws `{RoleJSON} := {
  StringKey_roundtrip : forall s b, StringKey_EncodeJSON s = Ok b -> StringKey_DecodeJSON b = Ok s;
  FromHex_fmt_x : forall b, FromHex (bs "0x" ++ fmt_x b) = b
}.

Section json.
Context `{RoleJSON}.

Definition RoleCodec_EncodeJSON (value : Role) : result bytes := StringKey_EncodeJSON (hex_hash value).

Definition RoleCodec_DecodeJSON (b : bytes) : result Role :=
  s ← StringKey_DecodeJSON b;
  Ok (NewRole (FromHex s)).

Definition RoleCodec_Stringify (key : Role) : bytes := hex_hash key.

Lemma RoleCodec_json_roundtrip `{!RoleJSONLaws} role b :
  length role = RoleSize -> RoleCodec_EncodeJSON role = Ok b -> RoleCodec_DecodeJSON b = Ok role.
Proof.
  intros Hl E. unfold RoleCodec_DecodeJSON. rewrite (StringKey_roundtrip _ _ E). cbn [mbind result_bind].
  unfold hex_hash, NewRole. by rewrite FromHex_fmt_x, BytesToHash_id.
Qed.
End json.

(** ** Membership *)

Definition member (m : gmap (Role * bytes) bytes) (role : Role) (addr : bytes) : Prop :=
  is_Some (m !! (role, addr)).

#[export] Instance member_dec m role addr : Decision (member m role addr).
Proof. unfold member. apply _. Defined.

Lemma sole_admin_walk (l : list (Role * bytes * bytes)) :
  let '(_, seen) := walk_cb sole_admin_cb l 0 in seen = Z.min 2 (Z.of_nat (length l)).
Proof. destruct l as [|[k v] [|[k' v'] l]]; simpl; [done..|]. lia. Qed.

Lemma prefixed_members (m : gmap (Role * bytes) bytes) role k v :
  (k, v) ∈ prefixed role (walk m) <-> k.1 = role /\ m !! k = Some v.
Proof. unfold prefixed. rewrite list_elem_of_filter, elem_of_walk. done. Qed.

Lemma prefixed_NoDup (m : gmap (Role * bytes) bytes) role :
  NoDup (prefixed role (walk m)).
Proof. apply NoDup_filter, (NoDup_fmap_1 fst), walk_NoDup_fst. Qed.

(** [IsSoleAdmin] answers whether the role has exactly one member, although it
    stops at the second. *)
Lemma IsSoleAdmin_spec role s :
  exists b, IsSoleAdmin role s = (Ok b, s) /\
  (b = true <-> exists a, forall a', member (RoleMembers s) role a' <-> a' = a).
Proof.
  unfold IsSoleAdmin, gets. eexists; split; [done|].
  set (l := prefixed role (walk (RoleMembers s))).
  pose proof (sole_admin_walk l) as Hw. destruct (walk_cb sole_admin_cb l 0) as [r seen].
  rewrite Z.eqb_eq, Hw. clear Hw r seen.
  pose proof (prefixed_NoDup (RoleMembers s) role) as Hnd.
  pose proof (prefixed_members (RoleMembers s) role) as Hm. fold l in Hnd, Hm.
  split.
  - destruct l as [|[[r0 a] v] [|e l']]; simpl; intros Hlen; [lia| |lia].
    exists a. intros a'. unfold member. split.
    + intros [v' Hv']. assert (((role, a'), v') ∈ [((r0, a), v)]) as Hin by (by apply Hm).
      apply list_elem_of_singleton in Hin. congruence.
    + intros ->. destruct (proj1 (Hm (r0, a) v) ltac:(left)) as [Hr Hv]. simpl in Hr. subst.
      rewrite Hv. eauto.
  - intros [a Ha]. destruct (proj2 (Ha a) eq_refl) as [v Hv].
    assert (Hin : ((role, a), v) ∈ l) by (by apply Hm).
    assert (Hall : forall e, e ∈ l -> e = ((role, a), v)).
    { intros [[r0 a'] v'] He. apply Hm in He as [Hr Hv']. simpl in Hr. subst.
      assert (a' = a) by (apply Ha; unfold member; rewrite Hv'; eauto). congruence. }
    destruct l as [|e1 [|e2 l']]; [by apply not_elem_of_nil in Hin|simpl; lia|].
    exfalso. rewrite (Hall e1 ltac:(left)), (Hall e2 ltac:(right; left)) in Hnd.
    apply NoDup_cons in Hnd as [Hnd _]. apply Hnd. left.
Qed.
