(* ===== verification/Keeper.v ===== *)
(** The anchoring keeper: src/x/anchoring/keeper (keeper.go, anchoring.go).

    The state is the module's collections; the operations create registries,
    append record versions and change a record's status, each behind the role
    check of [checkPermission]. *)

From S2P Require Import Prelude Types Rbac.

(** The parts of [sdk.Context] the code reads: [BlockTime().String()], the
    height, and the [IsCheckTx] flag. *)
Record Ctx := mkCtx { BlockTimeString : bytes; BlockHeight : Z; IsCheckTx : bool }.

(** The collections of [Keeper], and the event manager of the context. *)
Record KState := mkK {
  k_Params : option Params;
  Registries : gmap Z Registry;
  RegistryCount : option Z;
  Records : gmap (Z * Z * Z) Record_;
  RecordIdByRegistryAndChecksum : gmap (Z * bytes) Z;
  RecordsCountByRegistry : gmap Z Z;
  RecordIndices : gmap (Z * Z) Z;
  RecordIdByChecksumAndRegistry : gmap (bytes * Z) Z;
  RBAC_RoleAdmins : gmap Role bytes;
  RBAC_RoleMembers : gmap (Role * bytes) bytes;
  k_events : list Event
}.

Definition set_Params v s := mkK v (Registries s) (RegistryCount s) (Records s)
  (RecordIdByRegistryAndChecksum s) (RecordsCountByRegistry s) (RecordIndices s)
  (RecordIdByChecksumAndRegistry s) (RBAC_RoleAdmins s) (RBAC_RoleMembers s) (k_events s).
Definition set_Registries v s := mkK (k_Params s) v (RegistryCount s) (Records s)
  (RecordIdByRegistryAndChecksum s) (RecordsCountByRegistry s) (RecordIndices s)
  (RecordIdByChecksumAndRegistry s) (RBAC_RoleAdmins s) (RBAC_RoleMembers s) (k_events s).
Definition set_RegistryCount v s := mkK (k_Params s) (Registries s) v (Records s)
  (RecordIdByRegistryAndChecksum s) (RecordsCountByRegistry s) (RecordIndices s)
  (RecordIdByChecksumAndRegistry s) (RBAC_RoleAdmins s) (RBAC_RoleMembers s) (k_events s).
Definition set_Records v s := mkK (k_Params s) (Registries s) (RegistryCount s) v
  (RecordIdByRegistryAndChecksum s) (RecordsCountByRegistry s) (RecordIndices s)
  (RecordIdByChecksumAndRegistry s) (RBAC_RoleAdmins s) (RBAC_RoleMembers s) (k_events s).
Definition set_RecordIdByRegistryAndChecksum v s := mkK (k_Params s) (Registries s)
  (RegistryCount s) (Records s) v (RecordsCountByRegistry s) (RecordIndices s)
  (RecordIdByChecksumAndRegistry s) (RBAC_RoleAdmins s) (RBAC_RoleMembers s) (k_events s).
Definition set_RecordsCountByRegistry v s := mkK (k_Params s) (Registries s)
  (RegistryCount s) (Records s) (RecordIdByRegistryAndChecksum s) v (RecordIndices s)
  (RecordIdByChecksumAndRegistry s) (RBAC_RoleAdmins s) (RBAC_RoleMembers s) (k_events s).
Definition set_RecordIndices v s := mkK (k_Params s) (Registries s) (RegistryCount s)
  (Records s) (RecordIdByRegistryAndChecksum s) (RecordsCountByRegistry s) v
  (RecordIdByChecksumAndRegistry s) (RBAC_RoleAdmins s) (RBAC_RoleMembers s) (k_events s).
Definition set_RecordIdByChecksumAndRegistry v s := mkK (k_Params s) (Registries s)
  (RegistryCount s) (Records s) (RecordIdByRegistryAndChecksum s) (RecordsCountByRegistry s)
  (RecordIndices s) v (RBAC_RoleAdmins s) (RBAC_RoleMembers s) (k_events s).
Definition set_events v s := mkK (k_Params s) (Registries s) (RegistryCount s) (Records s)
  (RecordIdByRegistryAndChecksum s) (RecordsCountByRegistry s) (RecordIndices s)
  (RecordIdByChecksumAndRegistry s) (RBAC_RoleAdmins s) (RBAC_RoleMembers s) v.

(** The [RBAC] field of the keeper. *)
Definition get_RBAC (s : KState) : RBACState :=
  mkRBAC (RBAC_RoleAdmins s) (RBAC_RoleMembers s) (k_events s).
Definition put_RBAC (r : RBACState) (s : KState) : KState :=
  mkK (k_Params s) (Registries s) (RegistryCount s) (Records s)
    (RecordIdByRegistryAndChecksum s) (RecordsCountByRegistry s) (RecordIndices s)
    (RecordIdByChecksumAndRegistry s) (RoleAdmins r) (RoleMembers r) (rb_events r).
Definition rbac {A} (m : M RBACState A) : M KState A := zoom get_RBAC put_RBAC m.

Definition emit (e : Event) : M KState unit :=
  modify (fun s => set_events (k_events s ++ [e]) s).

(** [Item.Get] and [Map.Get]: a missing entry is [collections.ErrNotFound]. *)
Definition get_or_not_found {A} (f : KState -> option A) : M KState A :=
  fun s => (of_option (f s) ErrCollNotFound, s).

(** The empty store [NewKeeper] starts from. *)
Definition empty_state : KState := mkK None ∅ None ∅ ∅ ∅ ∅ ∅ ∅ ∅ [].

Definition RoleAdmin : bytes := bs "admin".
Definition RoleEditor : bytes := bs "editor".

Definition EventTypeAddRegistry : string := "add_registry".
Definition EventTypeAddRecord : string := "add_record".
Definition EventTypeUpdateRecordStatus : string := "update_record_status".

(** The texts whose Keccak digests are the role identifiers. *)
Definition record_role_text (registryId : Z) (checksum role : bytes) : bytes :=
  bs "record:" ++ fmt_d registryId ++ bs ":" ++ fmt_x checksum ++ bs ":" ++ fmt_x role.
Definition registry_role_text (registryId : Z) (role : bytes) : bytes :=
  bs "registry:" ++ fmt_d registryId ++ bs ":" ++ role.

Section keeper.
Context `{Env}.

Definition RecordRole (registryId : Z) (checksum role : bytes) : Role :=
  NewRoleHash (record_role_text registryId checksum role).

Definition RegistryRole (registryId : Z) (role : bytes) : Role :=
  NewRoleHash (registry_role_text registryId role).

Definition initializeRegistryRecordCounter (registryId : Z) : M KState unit :=
  modify (fun s =>
    set_RecordsCountByRegistry (<[registryId := 0]> (RecordsCountByRegistry s)) s).

(** The loop of [checkRecordRoles] and [checkRegistryRoles]: the first role the
    sender holds ends it. *)
Fixpoint has_any_role (mkRole : bytes -> Role) (sender : bytes) (roles : list bytes) :
    M KState bool :=
  match roles with
  | [] => mret false
  | roleStr :: roles' =>
      hasRole ← rbac (HasRole (mkRole roleStr) sender);
      if (hasRole : bool) then mret true else has_any_role mkRole sender roles'
  end.

Definition checkRecordRoles (sender : bytes) (registryId : Z) (checksum : bytes)
    (roles : list bytes) : M KState bool :=
  if is_empty checksum || (length roles =? 0)%nat then mret false
  else has_any_role (RecordRole registryId checksum) sender roles.

Definition checkRegistryRoles (sender : bytes) (registryId : Z) (roles : list bytes) :
    M KState bool :=
  if (length roles =? 0)%nat then mret false
  else has_any_role (RegistryRole registryId) sender roles.

Definition checkPermission (sender : bytes) (registryId : Z) (checksum : bytes)
    (requiredRoles : list bytes) : M KState unit :=
  hasRecordRole ← checkRecordRoles sender registryId checksum requiredRoles;
  if (hasRecordRole : bool) then mret tt else
  hasRegRole ← checkRegistryRoles sender registryId requiredRoles;
  if (hasRegRole : bool) then mret tt else throw ErrUnauthorized.

Definition invalid_request {A} (r : result A) : result A :=
  match r with Ok a => Ok a | Err e => Err (ErrInvalidRequest e) end.

(** anchoring.go, [AddRegistry] *)
Definition AddRegistry (ctx : Ctx) (sender name description metadata : bytes) : M KState Z :=
  _ ← lift (invalid_request (ValidateRegistryForCreate name description metadata));
  registryCount ← get_or_not_found RegistryCount;
  let registryId := wrap64 (registryCount + 1) in
  let registry := mkRegistry registryId name description (AccAddress_String sender)
                    (BlockTimeString ctx) metadata in
  _ ← modify (fun s => set_Registries (<[registryId := registry]> (Registries s)) s);
  let adminRole := RegistryRole registryId RoleAdmin in
  _ ← rbac (SetRoleAdmin adminRole adminRole);
  creator ← lift (of_option (StringToBytes (AccAddress_String sender)) ErrBech32);
  _ ← rbac (modify (fun r => set_RoleMembers (<[(adminRole, creator) := []]> (RoleMembers r)) r));
  _ ← initializeRegistryRecordCounter registryId;
  _ ← modify (set_RegistryCount (Some registryId));
  _ ← emit (mkEvent EventTypeAddRegistry
              [("registry_id", fmt_d registryId); ("registry_name", name)]);
  mret registryId.

Definition set_rec_ids (r : Record_) (recordId index : Z) (time : bytes) : Record_ :=
  mkRecord (rec_Uri r) (rec_Checksum r) (rec_ChecksumAlgo r) (rec_Metadata r) time
    (rec_Status r) recordId index true (rec_RegistryId r).
Definition set_IsLatest (b : bool) (r : Record_) : Record_ :=
  mkRecord (rec_Uri r) (rec_Checksum r) (rec_ChecksumAlgo r) (rec_Metadata r) (rec_Timestamp r)
    (rec_Status r) (rec_RecordId r) (rec_Index r) b (rec_RegistryId r).
Definition set_Status (status : bytes) (r : Record_) : Record_ :=
  mkRecord (rec_Uri r) (rec_Checksum r) (rec_ChecksumAlgo r) (rec_Metadata r) (rec_Timestamp r)
    status (rec_RecordId r) (rec_Index r) (rec_IsLatest r) (rec_RegistryId r).

Definition put_record (key : Z * Z * Z) (r : Record_) : M KState unit :=
  modify (fun s => set_Records (<[key := r]> (Records s)) s).

(** The record id of a (registry, checksum): the stored one, or the next id,
    which is then counted and indexed both ways. *)
Definition assign_record_id (registryId : Z) (checksum : bytes) : M KState Z :=
  known ← gets (fun s => RecordIdByRegistryAndChecksum s !! (registryId, checksum));
  match known with
  | Some recordId => mret recordId
  | None =>
      recordCount ← get_or_not_found (fun s => RecordsCountByRegistry s !! registryId);
      let recordId := wrap64 (recordCount + 1) in
      _ ← modify (fun s => set_RecordsCountByRegistry
                    (<[registryId := recordId]> (RecordsCountByRegistry s)) s);
      _ ← lift (guard_err (negb (key_string_ok checksum)) ErrCollEncoding);
      _ ← modify (fun s => set_RecordIdByChecksumAndRegistry
                    (<[(checksum, registryId) := recordId]> (RecordIdByChecksumAndRegistry s)) s);
      _ ← modify (fun s => set_RecordIdByRegistryAndChecksum
                    (<[(registryId, checksum) := recordId]> (RecordIdByRegistryAndChecksum s)) s);
      mret recordId
  end.

(** anchoring.go, [AddRecord] *)
Definition AddRecord (ctx : Ctx) (sender : bytes) (record : Record_) : M KState Z :=
  _ ← lift (invalid_request (ValidateRecordForCreate record));
  let registryId := rec_RegistryId record in
  _ ← get_or_not_found (fun s => Registries s !! registryId);
  _ ← checkPermission sender registryId (rec_Checksum record) [RoleAdmin; RoleEditor];
  recordId ← assign_record_id registryId (rec_Checksum record);
  known ← gets (fun s => RecordIndices s !! (registryId, recordId));
  let index := match known with None => 1 | Some i => wrap64 (i + 1) end in
  _ ← modify (fun s => set_RecordIndices (<[(registryId, recordId) := index]> (RecordIndices s)) s);
  let record := set_rec_ids record recordId index (BlockTimeString ctx) in
  _ ← put_record (registryId, recordId, index) record;
  _ ← (if 1 <? index then
         prevRecord ← get_or_not_found (fun s => Records s !! (registryId, recordId, index - 1));
         put_record (registryId, recordId, index - 1) (set_IsLatest false prevRecord)
       else mret tt);
  _ ← emit (mkEvent EventTypeAddRecord
              [("registry_id", fmt_d registryId); ("record_id", fmt_d recordId);
               ("record_index", fmt_d index); ("record_checksum", rec_Checksum record)]);
  mret recordId.

(** anchoring.go, [UpdateRecordStatus] *)
Definition UpdateRecordStatus (sender : bytes) (registryId recordId index : Z)
    (newStatus : bytes) : M KState unit :=
  _ ← lift (invalid_request (ValidateRecordStatus newStatus));
  record ← get_or_not_found (fun s => Records s !! (registryId, recordId, index));
  _ ← checkPermission sender registryId (rec_Checksum record) [RoleAdmin; RoleEditor];
  let record := set_Status newStatus record in
  _ ← put_record (registryId, recordId, index) record;
  emit (mkEvent EventTypeUpdateRecordStatus
          [("registry_id", fmt_d registryId); ("record_id", fmt_d recordId);
           ("record_index", fmt_d index); ("record_status", newStatus);
           ("record_checksum", rec_Checksum record)]).

Definition Keeper_BytesToString (account : bytes) : result bytes :=
  of_option (BytesToString account) ErrBech32.
End keeper.

(** ** Role texts are unambiguous *)

Lemma fmt_d_sep_inj i j (x y : bytes) :
  is_u64 i -> is_u64 j -> fmt_d i ++ bs ":" ++ x = fmt_d j ++ bs ":" ++ y -> i = j /\ x = y.
Proof.
  intros Hi Hj E. change (bs ":") with [colon] in E. simpl in E.
  apply app_sep_inj in E as [E1 E2].
  - by apply fmt_d_inj in E1.
  - apply digits_no_colon, fmt_d_digits. destruct Hi; lia.
  - apply digits_no_colon, fmt_d_digits. destruct Hj; lia.
Qed.

Lemma record_role_text_inj i j c d r q :
  is_u64 i -> is_u64 j -> record_role_text i c r = record_role_text j d q ->
  i = j /\ c = d /\ r = q.
Proof.
  unfold record_role_text. intros Hi Hj E. apply app_inv_head in E.
  apply fmt_d_sep_inj in E as [-> E]; [|done..].
  change (bs ":") with [colon] in E. simpl in E.
  apply app_sep_inj in E as [E1 E2]; [|apply fmt_x_no_colon..].
  apply fmt_x_inj in E1, E2. done.
Qed.

Lemma registry_role_text_inj i j r q :
  is_u64 i -> is_u64 j -> registry_role_text i r = registry_role_text j q -> i = j /\ r = q.
Proof.
  unfold registry_role_text. intros Hi Hj E. apply app_inv_head in E.
  by apply fmt_d_sep_inj in E.
Qed.

Lemma role_texts_disjoint i j c r q : record_role_text i c r <> registry_role_text j q.
Proof. unfold record_role_text, registry_role_text. done. Qed.

(** ** Permission checks *)

Section permission.
Context `{Env}.
Implicit Types s : KState.

Definition holds (s : KState) (role : Role) (addr : bytes) : bool :=
  bool_decide (member (RBAC_RoleMembers s) role addr).

Definition permitted (s : KState) (sender : bytes) (registryId : Z) (checksum : bytes)
    (roles : list bytes) : bool :=
  (negb (is_empty checksum)
     && existsb (fun r => holds s (RecordRole registryId checksum r) sender) roles)
  || existsb (fun r => holds s (RegistryRole registryId r) sender) roles.

Lemma put_get_RBAC s : put_RBAC (get_RBAC s) s = s.
Proof. by destruct s. Qed.

Lemma rbac_HasRole role addr s : rbac (HasRole role addr) s = (Ok (holds s role addr), s).
Proof. unfold rbac, zoom, HasRole, gets. by rewrite put_get_RBAC. Qed.

Lemma rbac_IsSoleAdmin role s :
  exists b, rbac (IsSoleAdmin role) s = (Ok b, s) /\
  (b = true <-> exists a, forall a', member (RBAC_RoleMembers s) role a' <-> a' = a).
Proof.
  destruct (IsSoleAdmin_spec role (get_RBAC s)) as (b & E & Hb).
  exists b. split; [|done]. unfold rbac, zoom. by rewrite E, put_get_RBAC.
Qed.

Lemma has_any_role_spec mk sender roles s :
  has_any_role mk sender roles s = (Ok (existsb (fun r => holds s (mk r) sender) roles), s).
Proof.
  induction roles as [|r roles IH]; [done|]. simpl. cbv [mbind M_bind].
  rewrite rbac_HasRole. by destruct (holds s (mk r) sender).
Qed.

(** The roles are looked up under the checksum first, then under the registry;
    the state is not touched. *)
Lemma checkPermission_spec sender id c roles s :
  checkPermission sender id c roles s =
  (if permitted s sender id c roles then Ok tt else Err ErrUnauthorized, s).
Proof.
  unfold checkPermission, permitted, checkRecordRoles, checkRegistryRoles.
  cbv [mbind M_bind]. destruct roles as [|r roles].
  { rewrite orb_true_r. simpl. by rewrite andb_false_r. }
  change (length (r :: roles) =? 0)%nat with false. rewrite orb_false_r. cbv iota.
  destruct (is_empty c); cbn [negb andb orb].
  - cbv [mret M_ret]. rewrite has_any_role_spec. by destruct (existsb _ _).
  - rewrite has_any_role_spec.
    destruct (existsb (fun x => holds s (RecordRole id c x) sender) (r :: roles)); [done|].
    rewrite has_any_role_spec. by destruct (existsb _ _).
Qed.
End permission.

(** ** What the operations do, branch by branch *)

Section functional.
Context `{Env}.
Implicit Types s : KState.

(** The state after a registry was created. *)
Definition registry_added (ctx : Ctx) (sender creator name description metadata : bytes)
    (id : Z) (s : KState) : KState :=
  let role := RegistryRole id RoleAdmin in
  mkK (k_Params s)
    (<[id := mkRegistry id name description (AccAddress_String sender) (BlockTimeString ctx)
               metadata]> (Registries s))
    (Some id) (Records s) (RecordIdByRegistryAndChecksum s)
    (<[id := 0]> (RecordsCountByRegistry s)) (RecordIndices s) (RecordIdByChecksumAndRegistry s)
    (<[role := role]> (RBAC_RoleAdmins s)) (<[(role, creator) := []]> (RBAC_RoleMembers s))
    (k_events s ++ [mkEvent EventTypeAddRegistry
                      [("registry_id", fmt_d id); ("registry_name", name)]]).

Lemma AddRegistry_ok ctx sender creator name description metadata n s :
  ValidateRegistryForCreate name description metadata = Ok tt ->
  RegistryCount s = Some n ->
  StringToBytes (AccAddress_String sender) = Some creator ->
  AddRegistry ctx sender name description metadata s =
  (Ok (wrap64 (n + 1)),
   registry_added ctx sender creator name description metadata (wrap64 (n + 1)) s).
Proof.
  intros Hv Hn Hc. unfold AddRegistry, get_or_not_found, rbac, SetRoleAdmin,
    initializeRegistryRecordCounter, emit. run_unfold.
  rewrite Hv, Hn. simpl. by rewrite Hc.
Qed.

(** The state after version [index] of record [rid] was stored; [fresh] tells
    whether the checksum is new in the registry. *)
Definition record_added (ctx : Ctx) (fresh : bool) (record : Record_) (rid index : Z)
    (s : KState) : KState :=
  let id := rec_RegistryId record in
  let c := rec_Checksum record in
  let record' := set_rec_ids record rid index (BlockTimeString ctx) in
  let records := <[(id, rid, index) := record']> (Records s) in
  mkK (k_Params s) (Registries s) (RegistryCount s)
    (if 1 <? index then
       match records !! (id, rid, index - 1) with
       | Some prev => <[(id, rid, index - 1) := set_IsLatest false prev]> records
       | None => records
       end
     else records)
    (if fresh then <[(id, c) := rid]> (RecordIdByRegistryAndChecksum s)
     else RecordIdByRegistryAndChecksum s)
    (if fresh then <[id := rid]> (RecordsCountByRegistry s) else RecordsCountByRegistry s)
    (<[(id, rid) := index]> (RecordIndices s))
    (if fresh then <[(c, id) := rid]> (RecordIdByChecksumAndRegistry s)
     else RecordIdByChecksumAndRegistry s)
    (RBAC_RoleAdmins s) (RBAC_RoleMembers s)
    (k_events s ++ [mkEvent EventTypeAddRecord
       [("registry_id", fmt_d id); ("record_id", fmt_d rid);
        ("record_index", fmt_d index); ("record_checksum", c)]]).

Section add_record.
Context (ctx : Ctx) (sender : bytes) (record : Record_) (s : KState).
Context (Hv : ValidateRecordForCreate record = Ok tt)
        (Hreg : is_Some (Registries s !! rec_RegistryId record))
        (Hperm : permitted s sender (rec_RegistryId record) (rec_Checksum record)
                   [RoleAdmin; RoleEditor] = true).

(** The next version of a checksum the registry knows. *)
Lemma AddRecord_next rid top :
  RecordIdByRegistryAndChecksum s !! (rec_RegistryId record, rec_Checksum record) = Some rid ->
  RecordIndices s !! (rec_RegistryId record, rid) = Some top ->
  1 <= top -> top + 1 < two64 ->
  is_Some (Records s !! (rec_RegistryId record, rid, top)) ->
  AddRecord ctx sender record s = (Ok rid, record_added ctx false record rid (top + 1) s).
Proof.
  intros Hrid Htop H1 H2 [prev Hprev]. destruct Hreg as [reg Hr].
  unfold AddRecord, assign_record_id, get_or_not_found, record_added, put_record, emit.
  run_unfold. rewrite Hv. simpl. rewrite Hr. simpl.
  rewrite checkPermission_spec, Hperm, Hrid. simpl. rewrite Htop. simpl.
  assert (wrap64 (top + 1) = top + 1) as -> by (unfold wrap64; apply Z.mod_small; lia).
  rewrite (proj2 (Z.ltb_lt 1 (top + 1))) by lia. simpl.
  replace (top + 1 - 1) with top by lia.
  rewrite (lookup_insert_ne _ (rec_RegistryId record, rid, top + 1)) by (intros E; simplify_eq; lia).
  rewrite Hprev. simpl. reflexivity.
Qed.

(** The first version of a new checksum. *)
Lemma AddRecord_first count :
  RecordIdByRegistryAndChecksum s !! (rec_RegistryId record, rec_Checksum record) = None ->
  RecordsCountByRegistry s !! rec_RegistryId record = Some count ->
  0 <= count -> count + 1 < two64 ->
  RecordIndices s !! (rec_RegistryId record, count + 1) = None ->
  key_string_ok (rec_Checksum record) = true ->
  AddRecord ctx sender record s = (Ok (count + 1), record_added ctx true record (count + 1) 1 s).
Proof.
  intros Hrid Hcount H1 H2 Hidx Hok. destruct Hreg as [reg Hr].
  unfold AddRecord, assign_record_id, get_or_not_found, record_added, put_record, emit.
  run_unfold. rewrite Hv. simpl. rewrite Hr. simpl.
  rewrite checkPermission_spec, Hperm, Hrid. simpl. rewrite Hcount. simpl.
  assert (wrap64 (count + 1) = count + 1) as -> by (unfold wrap64; apply Z.mod_small; lia).
  rewrite Hok. simpl. rewrite Hidx. simpl. reflexivity.
Qed.

(** A checksum the key codec rejects is refused before it is indexed. *)
Lemma AddRecord_bad_key count :
  RecordIdByRegistryAndChecksum s !! (rec_RegistryId record, rec_Checksum record) = None ->
  RecordsCountByRegistry s !! rec_RegistryId record = Some count ->
  key_string_ok (rec_Checksum record) = false ->
  (AddRecord ctx sender record s).1 = Err ErrCollEncoding.
Proof.
  intros Hrid Hcount Hok. destruct Hreg as [reg Hr].
  unfold AddRecord, assign_record_id, get_or_not_found. run_unfold.
  rewrite Hv. simpl. rewrite Hr. simpl.
  rewrite checkPermission_spec, Hperm, Hrid. simpl. rewrite Hcount. simpl. by rewrite Hok.
Qed.
End add_record.

(** Nothing is written by a rejected request. *)
Lemma AddRecord_denied ctx sender record s :
  ValidateRecordForCreate record = Ok tt ->
  is_Some (Registries s !! rec_RegistryId record) ->
  permitted s sender (rec_RegistryId record) (rec_Checksum record) [RoleAdmin; RoleEditor] = false ->
  AddRecord ctx sender record s = (Err ErrUnauthorized, s).
Proof.
  intros Hv [reg Hr] Hp. unfold AddRecord, get_or_not_found. run_unfold.
  rewrite Hv. simpl. rewrite Hr. simpl. by rewrite checkPermission_spec, Hp.
Qed.

Lemma AddRecord_no_registry ctx sender record s :
  ValidateRecordForCreate record = Ok tt ->
  Registries s !! rec_RegistryId record = None ->
  AddRecord ctx sender record s = (Err ErrCollNotFound, s).
Proof.
  intros Hv Hr. unfold AddRecord, get_or_not_found. run_unfold.
  rewrite Hv. simpl. by rewrite Hr.
Qed.

Definition status_updated (id rid index : Z) (status : bytes) (r : Record_) (s : KState) : KState :=
  set_events
    (k_events s ++ [mkEvent EventTypeUpdateRecordStatus
       [("registry_id", fmt_d id); ("record_id", fmt_d rid); ("record_index", fmt_d index);
        ("record_status", status); ("record_checksum", rec_Checksum r)]])
    (set_Records (<[(id, rid, index) := set_Status status r]> (Records s)) s).

Lemma UpdateRecordStatus_spec sender id rid index status s :
  UpdateRecordStatus sender id rid index status s =
  match ValidateRecordStatus status with
  | Err e => (Err (ErrInvalidRequest e), s)
  | Ok _ =>
      match Records s !! (id, rid, index) with
      | None => (Err ErrCollNotFound, s)
      | Some r =>
          if permitted s sender id (rec_Checksum r) [RoleAdmin; RoleEditor]
          then (Ok tt, status_updated id rid index status r s)
          else (Err ErrUnauthorized, s)
      end
  end.
Proof.
  unfold UpdateRecordStatus, get_or_not_found, put_record, emit. run_unfold.
  destruct (ValidateRecordStatus status) as [[]|]; simpl; [|done].
  destruct (Records s !! (id, rid, index)) as [r|]; simpl; [|done].
  rewrite checkPermission_spec. by destruct (permitted _ _ _ _ _).
Qed.
End functional.
