(* ===== verification/MsgServer.v ===== *)
(** The message service of x/anchoring: src/x/anchoring/keeper/msg_server.go
    and msg_update_params.go.

    Each handler validates its request, decodes the addresses and calls the
    keeper.  [handle] dispatches a message; [deliver] is a message executed in
    a transaction, whose store is kept only when the handler succeeds. *)

From S2P Require Import Prelude Types Rbac Keeper.

Definition empty_request : err := ErrInvalidRequest (ErrPlain "empty request").

(** The guard of the handlers: [if req == nil] and [req.ValidateBasic()]. *)
Definition valid_request {A} (validate : A -> result unit) (req : option A) : M KState A :=
  msg ← lift (of_option req empty_request);
  _ ← lift (invalid_request (validate msg));
  mret msg.

Definition isRecordRole (registryId : Z) (checksum : bytes) : bool :=
  negb (registryId =? 0) && negb (is_empty checksum).

Section msg_server.
Context `{Env}.

Definition decode_address (s : bytes) : M KState bytes :=
  lift (of_option (StringToBytes s) ErrBech32).

Definition isModuleAdmin (addr : bytes) : M KState bool :=
  params ← get_or_not_found k_Params;
  mret (bool_decide (Admin params = addr)).

Definition ensureRoleScopeExists (registryId : Z) (checksum : bytes) : M KState unit :=
  hasRegistry ← gets (fun s => bool_decide (is_Some (Registries s !! registryId)));
  if negb hasRegistry then throw ErrNotFound else
  if isRecordRole registryId checksum then
    _ ← lift (guard_err (negb (key_string_ok checksum)) ErrCollEncoding);
    hasChecksum ← gets (fun s =>
      bool_decide (is_Some (RecordIdByChecksumAndRegistry s !! (checksum, registryId))));
    if negb hasChecksum then throw ErrNotFound else mret tt
  else mret tt.

Definition scopedRole (registryId : Z) (checksum role : bytes) : Role :=
  if isRecordRole registryId checksum then RecordRole registryId checksum role
  else RegistryRole registryId role.

Definition Msg_AddRegistry (ctx : Ctx) (req : option MsgAddRegistry) : M KState Z :=
  msg ← valid_request MsgAddRegistry_ValidateBasic req;
  sender ← decode_address (mar_Sender msg);
  AddRegistry ctx sender (mar_Name msg) (mar_Description msg) (mar_Metadata msg).

(** The dereference of a nil record does not happen after [ValidateBasic]. *)
Definition Msg_AddRecord (ctx : Ctx) (req : option MsgAddRecord) : M KState Z :=
  msg ← valid_request MsgAddRecord_ValidateBasic req;
  sender ← decode_address (marec_Sender msg);
  record ← lift (of_option (marec_Record msg) (ErrPlain "nil pointer dereference"));
  AddRecord ctx sender record.

Definition Msg_UpdateRecordStatus (req : option MsgUpdateRecordStatus) : M KState unit :=
  msg ← valid_request MsgUpdateRecordStatus_ValidateBasic req;
  sender ← decode_address (murs_Editor msg);
  UpdateRecordStatus sender (murs_RegistryId msg) (murs_RecordId msg) (murs_Index msg)
    (murs_Status msg).

Definition Msg_GrantRole (req : option MsgRole) : M KState unit :=
  msg ← valid_request MsgGrantRole_ValidateBasic req;
  granter ← decode_address (mr_Admin msg);
  grantee ← decode_address (mr_Address msg);
  let isRecordScoped := isRecordRole (mr_RegistryId msg) (mr_Checksum msg) in
  _ ← ensureRoleScopeExists (mr_RegistryId msg) (mr_Checksum msg);
  let role := scopedRole (mr_RegistryId msg) (mr_Checksum msg) (mr_Role msg) in
  let adminRole := RegistryRole (mr_RegistryId msg) RoleAdmin in
  _ ← rbac (SetRoleAdmin role adminRole);
  is_module_admin ← (if negb isRecordScoped && bool_decide (mr_Role msg = RoleAdmin)
                     then isModuleAdmin (mr_Admin msg) else mret false);
  if (is_module_admin : bool) then rbac (GrantRoleUnchecked role grantee granter)
  else rbac (GrantRole role grantee granter).

Definition Msg_RevokeRole (req : option MsgRole) : M KState unit :=
  msg ← valid_request MsgRevokeRole_ValidateBasic req;
  revoker ← decode_address (mr_Admin msg);
  revokee ← decode_address (mr_Address msg);
  _ ← ensureRoleScopeExists (mr_RegistryId msg) (mr_Checksum msg);
  let isRecordScoped := isRecordRole (mr_RegistryId msg) (mr_Checksum msg) in
  let role := scopedRole (mr_RegistryId msg) (mr_Checksum msg) (mr_Role msg) in
  hasRole ← rbac (HasRole role revokee);
  if negb hasRole
  then throw (ErrInvalidRequest (ErrPlain "address does not have the specified role")) else
  isSoleAdmin ← (if negb isRecordScoped && bool_decide (mr_Role msg = RoleAdmin)
                 then rbac (IsSoleAdmin (RegistryRole (mr_RegistryId msg) RoleAdmin))
                 else mret false);
  if (isSoleAdmin : bool)
  then throw (ErrInvalidRequest (ErrPlain "cannot revoke the last registry admin"))
  else rbac (RevokeRole role revokee revoker).

(** msg_update_params.go *)
Definition Msg_UpdateParams (req : MsgUpdateParams) : M KState unit :=
  _ ← lift (match StringToBytes (mup_Authority req) with
            | Some _ => Ok tt
            | None => Err (ErrWrap "invalid authority address" ErrBech32)
            end);
  params ← get_or_not_found k_Params;
  if negb (bool_decide (mup_Authority req = Admin params))
  then throw (ErrWrap "invalid sender; expected admin" ErrUnauthorized) else
  updateParams ← get_or_not_found k_Params;
  let updateParams := if is_empty (mup_Admin req) then updateParams
                      else mkParams (mup_Admin req) in
  _ ← lift (Params_Validate updateParams);
  modify (set_Params (Some updateParams)).

(** ** Dispatch *)

Inductive Msg :=
| AddRegistryMsg (req : option MsgAddRegistry)
| AddRecordMsg (req : option MsgAddRecord)
| UpdateRecordStatusMsg (req : option MsgUpdateRecordStatus)
| GrantRoleMsg (req : option MsgRole)
| RevokeRoleMsg (req : option MsgRole)
| UpdateParamsMsg (req : MsgUpdateParams).

(** The answer of a handler: the id it assigned, if it assigns one. *)
Definition handle (ctx : Ctx) (msg : Msg) : M KState (option Z) :=
  match msg with
  | AddRegistryMsg req => id ← Msg_AddRegistry ctx req; mret (Some id)
  | AddRecordMsg req => id ← Msg_AddRecord ctx req; mret (Some id)
  | UpdateRecordStatusMsg req => _ ← Msg_UpdateRecordStatus req; mret None
  | GrantRoleMsg req => _ ← Msg_GrantRole req; mret None
  | RevokeRoleMsg req => _ ← Msg_RevokeRole req; mret None
  | UpdateParamsMsg req => _ ← Msg_UpdateParams req; mret None
  end.

(** A transaction commits the store of a successful handler and discards the
    store of a failed one. *)
Definition deliver (ctx : Ctx) (msg : Msg) (s : KState) : KState :=
  match handle ctx msg s with
  | (Ok _, s') => s'
  | (Err _, _) => s
  end.

Definition deliver_all (txs : list (Ctx * Msg)) (s : KState) : KState :=
  fold_left (fun s tx => deliver tx.1 tx.2 s) txs s.
End msg_server.
