(* ===== verification/Spec.v ===== *)
(** The abstract ledger that x/anchoring promises.

    Registries are numbered 1, 2, ... in creation order; each holds its
    documents in the order their checksums first appeared, and each document is
    the list of its versions, oldest first.  Roles are named by scope and name,
    not by hash.  There are no secondary indexes and no counters: the keeper's
    eight collections are all determined by this state (see Refine). *)

From S2P Require Import Prelude Types Rbac Keeper MsgServer.

Record Version := mkVersion {
  v_Uri : bytes;
  v_ChecksumAlgo : bytes;
  v_Metadata : bytes;
  v_Timestamp : bytes;
  v_Status : bytes
}.

Record Doc := mkDoc { d_checksum : bytes; d_versions : list Version }.

Record AReg := mkAReg {
  ar_Name : bytes;
  ar_Description : bytes;
  ar_Creator : bytes;
  ar_CreatedAt : bytes;
  ar_Metadata : bytes;
  ar_docs : list Doc
}.

(** A role: of a registry, or of one document of a registry. *)
Inductive RoleKey :=
| RegistryKey (id : Z) (role : bytes)
| RecordKey (id : Z) (checksum role : bytes).

#[export] Instance RoleKey_eq_dec : EqDecision RoleKey.
Proof. solve_decision. Defined.

#[export] Instance RoleKey_countable : Countable RoleKey.
Proof.
  refine (inj_countable'
    (fun k => match k with RegistryKey i r => inl (i, r) | RecordKey i c r => inr (i, c, r) end)
    (fun x => match x with inl (i, r) => RegistryKey i r | inr (i, c, r) => RecordKey i c r end)
    _).
  by intros [].
Defined.

Record AState := mkA {
  a_params : Params;
  a_regs : list AReg;
  a_members : gset (RoleKey * bytes)
}.

(** The entry at the one-based position [id]. *)
Definition at1 {A} (l : list A) (id : Z) : option A :=
  if 1 <=? id then l !! Z.to_nat (id - 1) else None.

Definition alter1 {A} (f : A -> A) (id : Z) (l : list A) : list A :=
  if 1 <=? id then alter f (Z.to_nat (id - 1)) l else l.

Definition a_reg (a : AState) (id : Z) : option AReg := at1 (a_regs a) id.

(** The one-based position of a checksum among the documents. *)
Fixpoint doc_id (c : bytes) (l : list Doc) : option Z :=
  match l with
  | [] => None
  | d :: l' => if decide (d_checksum d = c) then Some 1 else Z.succ <$> doc_id c l'
  end.

Definition set_docs (f : list Doc -> list Doc) (r : AReg) : AReg :=
  mkAReg (ar_Name r) (ar_Description r) (ar_Creator r) (ar_CreatedAt r) (ar_Metadata r)
    (f (ar_docs r)).

Definition set_versions (f : list Version -> list Version) (d : Doc) : Doc :=
  mkDoc (d_checksum d) (f (d_versions d)).

Definition set_v_status (status : bytes) (v : Version) : Version :=
  mkVersion (v_Uri v) (v_ChecksumAlgo v) (v_Metadata v) (v_Timestamp v) status.

Definition version_of (time : bytes) (r : Record_) : Version :=
  mkVersion (rec_Uri r) (rec_ChecksumAlgo r) (rec_Metadata r) time (rec_Status r).

Definition admin_key (id : Z) : RoleKey := RegistryKey id RoleAdmin.

Definition key_registry (k : RoleKey) : Z :=
  match k with RegistryKey i _ => i | RecordKey i _ _ => i end.

Definition scoped_key (id : Z) (checksum role : bytes) : RoleKey :=
  if isRecordRole id checksum then RecordKey id checksum role else RegistryKey id role.

Definition may_write (a : AState) (sender : bytes) (id : Z) (checksum : bytes) : bool :=
  (negb (is_empty checksum) &&
    (bool_decide ((RecordKey id checksum RoleAdmin, sender) ∈ a_members a)
     || bool_decide ((RecordKey id checksum RoleEditor, sender) ∈ a_members a)))
  || bool_decide ((RegistryKey id RoleAdmin, sender) ∈ a_members a)
  || bool_decide ((RegistryKey id RoleEditor, sender) ∈ a_members a).

Definition holders (a : AState) (k : RoleKey) : gset bytes :=
  set_map snd (filter (fun e : RoleKey * bytes => e.1 = k) (a_members a)).

Section spec.
Context `{Env}.

Definition spec_address (s : bytes) : result bytes := of_option (StringToBytes s) ErrBech32.

Definition spec_request {A} (validate : A -> result unit) (req : option A) : result A :=
  msg ← of_option req empty_request;
  _ ← invalid_request (validate msg);
  mret msg.

Definition spec_AddRegistry (ctx : Ctx) (req : option MsgAddRegistry) (a : AState) :
    result (option Z * AState) :=
  msg ← spec_request MsgAddRegistry_ValidateBasic req;
  sender ← spec_address (mar_Sender msg);
  let id := Z.of_nat (length (a_regs a)) + 1 in
  let r := mkAReg (mar_Name msg) (mar_Description msg) (AccAddress_String sender)
             (BlockTimeString ctx) (mar_Metadata msg) [] in
  Ok (Some id, mkA (a_params a) (a_regs a ++ [r]) ({[ (admin_key id, sender) ]} ∪ a_members a)).

Definition spec_AddRecord (ctx : Ctx) (req : option MsgAddRecord) (a : AState) :
    result (option Z * AState) :=
  msg ← spec_request MsgAddRecord_ValidateBasic req;
  sender ← spec_address (marec_Sender msg);
  record ← of_option (marec_Record msg) (ErrPlain "nil pointer dereference");
  let id := rec_RegistryId record in
  let c := rec_Checksum record in
  let v := version_of (BlockTimeString ctx) record in
  reg ← of_option (a_reg a id) ErrCollNotFound;
  _ ← guard_err (negb (may_write a sender id c)) ErrUnauthorized;
  match doc_id c (ar_docs reg) with
  | Some rid =>
      Ok (Some rid, mkA (a_params a)
            (alter1 (set_docs (alter1 (set_versions (fun l => l ++ [v])) rid)) id (a_regs a))
            (a_members a))
  | None =>
      _ ← guard_err (negb (key_string_ok c)) ErrCollEncoding;
      Ok (Some (Z.of_nat (length (ar_docs reg)) + 1), mkA (a_params a)
            (alter1 (set_docs (fun l => l ++ [mkDoc c [v]])) id (a_regs a)) (a_members a))
  end.

Definition spec_UpdateRecordStatus (req : option MsgUpdateRecordStatus) (a : AState) :
    result (option Z * AState) :=
  msg ← spec_request MsgUpdateRecordStatus_ValidateBasic req;
  sender ← spec_address (murs_Editor msg);
  let id := murs_RegistryId msg in
  reg ← of_option (a_reg a id) ErrCollNotFound;
  d ← of_option (at1 (ar_docs reg) (murs_RecordId msg)) ErrCollNotFound;
  _ ← of_option (at1 (d_versions d) (murs_Index msg)) ErrCollNotFound;
  _ ← guard_err (negb (may_write a sender id (d_checksum d))) ErrUnauthorized;
  Ok (None, mkA (a_params a)
        (alter1 (set_docs (alter1 (set_versions
           (alter1 (set_v_status (murs_Status msg)) (murs_Index msg))) (murs_RecordId msg)))
           id (a_regs a))
        (a_members a)).

Definition spec_scope (a : AState) (id : Z) (checksum : bytes) : result unit :=
  reg ← of_option (a_reg a id) ErrNotFound;
  if isRecordRole id checksum then
    _ ← guard_err (negb (key_string_ok checksum)) ErrCollEncoding;
    _ ← of_option (doc_id checksum (ar_docs reg)) ErrNotFound;
    Ok tt
  else Ok tt.

Definition spec_GrantRole (req : option MsgRole) (a : AState) : result (option Z * AState) :=
  msg ← spec_request MsgGrantRole_ValidateBasic req;
  granter ← spec_address (mr_Admin msg);
  grantee ← spec_address (mr_Address msg);
  let id := mr_RegistryId msg in
  let k := scoped_key id (mr_Checksum msg) (mr_Role msg) in
  _ ← spec_scope a id (mr_Checksum msg);
  _ ← guard_err (negb
        ((bool_decide (k = admin_key id) && bool_decide (Admin (a_params a) = mr_Admin msg))
         || bool_decide ((admin_key id, granter) ∈ a_members a))) ErrMissingRole;
  Ok (None, mkA (a_params a) (a_regs a) ({[ (k, grantee) ]} ∪ a_members a)).

Definition spec_RevokeRole (req : option MsgRole) (a : AState) : result (option Z * AState) :=
  msg ← spec_request MsgRevokeRole_ValidateBasic req;
  revoker ← spec_address (mr_Admin msg);
  revokee ← spec_address (mr_Address msg);
  let id := mr_RegistryId msg in
  let k := scoped_key id (mr_Checksum msg) (mr_Role msg) in
  _ ← spec_scope a id (mr_Checksum msg);
  _ ← guard_err (negb (bool_decide ((k, revokee) ∈ a_members a)))
        (ErrInvalidRequest (ErrPlain "address does not have the specified role"));
  _ ← guard_err (bool_decide (k = admin_key id) && bool_decide (holders a k = {[ revokee ]}))
        (ErrInvalidRequest (ErrPlain "cannot revoke the last registry admin"));
  _ ← guard_err (negb (bool_decide ((admin_key id, revoker) ∈ a_members a))) ErrMissingRole;
  Ok (None, mkA (a_params a) (a_regs a) (a_members a ∖ {[ (k, revokee) ]})).

Definition spec_UpdateParams (req : MsgUpdateParams) (a : AState) : result (option Z * AState) :=
  _ ← of_option (StringToBytes (mup_Authority req)) (ErrWrap "invalid authority address" ErrBech32);
  _ ← guard_err (negb (bool_decide (mup_Authority req = Admin (a_params a))))
        (ErrWrap "invalid sender; expected admin" ErrUnauthorized);
  let p := if is_empty (mup_Admin req) then a_params a else mkParams (mup_Admin req) in
  _ ← Params_Validate p;
  Ok (None, mkA p (a_regs a) (a_members a)).

Definition spec_handle (ctx : Ctx) (msg : Msg) (a : AState) : result (option Z * AState) :=
  match msg with
  | AddRegistryMsg req => spec_AddRegistry ctx req a
  | AddRecordMsg req => spec_AddRecord ctx req a
  | UpdateRecordStatusMsg req => spec_UpdateRecordStatus req a
  | GrantRoleMsg req => spec_GrantRole req a
  | RevokeRoleMsg req => spec_RevokeRole req a
  | UpdateParamsMsg req => spec_UpdateParams req a
  end.

Definition spec_deliver (ctx : Ctx) (msg : Msg) (a : AState) : AState :=
  match spec_handle ctx msg a with Ok (_, a') => a' | Err _ => a end.

Definition spec_deliver_all (txs : list (Ctx * Msg)) (a : AState) : AState :=
  fold_left (fun a tx => spec_deliver tx.1 tx.2 a) txs a.
End spec.

(** ** One-based lists *)

Lemma at1_is_Some {A} (l : list A) i : is_Some (at1 l i) <-> 1 <= i <= Z.of_nat (length l).
Proof.
  unfold at1. destruct (Z.leb_spec 1 i).
  - rewrite lookup_lt_is_Some. lia.
  - split; [by intros []|lia].
Qed.

Lemma at1_None {A} (l : list A) i : at1 l i = None <-> i < 1 \/ Z.of_nat (length l) < i.
Proof. rewrite eq_None_not_Some, at1_is_Some. lia. Qed.

Lemma at1_range {A} (l : list A) i x : at1 l i = Some x -> 1 <= i <= Z.of_nat (length l).
Proof. intros Hx. apply at1_is_Some. rewrite Hx. eauto. Qed.

Lemma at1_nil {A} i : at1 (@nil A) i = None.
Proof. apply at1_None. simpl. lia. Qed.

Lemma at1_app_new {A} (l : list A) x : at1 (l ++ [x]) (Z.of_nat (length l) + 1) = Some x.
Proof.
  unfold at1. rewrite (proj2 (Z.leb_le 1 _)) by lia.
  replace (Z.to_nat (Z.of_nat (length l) + 1 - 1)) with (length l) by lia.
  by apply list_lookup_middle.
Qed.

Lemma at1_app_old {A} (l : list A) x i :
  i <> Z.of_nat (length l) + 1 -> at1 (l ++ [x]) i = at1 l i.
Proof.
  intros Hi. unfold at1. destruct (Z.leb_spec 1 i); [|done].
  destruct (decide (Z.to_nat (i - 1) < length l)%nat).
  - by rewrite lookup_app_l.
  - rewrite !lookup_ge_None_2; [done|lia|]. rewrite length_app. simpl. lia.
Qed.

Lemma at1_alter_eq {A} (f : A -> A) (l : list A) i : at1 (alter1 f i l) i = f <$> at1 l i.
Proof. unfold at1, alter1. destruct (1 <=? i); [|done]. apply list_lookup_alter_eq. Qed.

Lemma at1_alter_ne {A} (f : A -> A) (l : list A) i j :
  i <> j -> at1 (alter1 f i l) j = at1 l j.
Proof.
  intros Hij. unfold at1, alter1. destruct (Z.leb_spec 1 i), (Z.leb_spec 1 j); try done.
  apply list_lookup_alter_ne. lia.
Qed.

Lemma length_alter1 {A} (f : A -> A) (l : list A) i : length (alter1 f i l) = length l.
Proof. unfold alter1. case_match; [apply length_alter|done]. Qed.

(** ** Positions of checksums *)

Lemma doc_id_Some c l i :
  doc_id c l = Some i -> exists d, at1 l i = Some d /\ d_checksum d = c.
Proof.
  revert i. induction l as [|d l IH]; intros i Hi; simplify_eq/=. case_decide.
  - simplify_eq. eauto.
  - destruct (doc_id c l) as [j|]; simplify_eq/=.
    destruct (IH j eq_refl) as (d' & Hd & Hc). exists d'. split; [|done].
    pose proof (at1_range _ _ _ Hd). unfold at1 in *.
    rewrite (proj2 (Z.leb_le 1 (Z.succ j))) by lia. rewrite (proj2 (Z.leb_le 1 (j))) in Hd by lia.
    by replace (Z.to_nat (Z.succ j - 1)) with (S (Z.to_nat (j - 1))) by lia.
Qed.

Lemma doc_id_None c l : doc_id c l = None <-> c ∉ d_checksum <$> l.
Proof.
  induction l as [|d l IH]; simpl.
  - split; [intros; apply not_elem_of_nil|done].
  - rewrite not_elem_of_cons. case_decide; subst; [naive_solver|].
    rewrite <- IH. destruct (doc_id c l); naive_solver.
Qed.

Lemma doc_id_at1 l i d :
  NoDup (d_checksum <$> l) -> at1 l i = Some d -> doc_id (d_checksum d) l = Some i.
Proof.
  revert i. induction l as [|d0 l IH]; intros i Hnd Hi.
  - unfold at1 in Hi. by case_match.
  - simpl in Hnd. apply NoDup_cons in Hnd as [Hn Hnd]. simpl.
    pose proof (at1_range _ _ _ Hi). unfold at1 in Hi.
    rewrite (proj2 (Z.leb_le 1 (i))) in Hi by lia.
    destruct (Z.to_nat (i - 1)) as [|m] eqn:Em; simpl in Hi.
    + simplify_eq. rewrite decide_True by done. f_equal. lia.
    + assert (Hat : at1 l (i - 1) = Some d).
      { unfold at1. rewrite (proj2 (Z.leb_le 1 (i - 1))) by lia.
        by replace (Z.to_nat (i - 1 - 1)) with m by lia. }
      rewrite decide_False.
      * rewrite (IH (i - 1)) by done. simpl. f_equal. lia.
      * intros Hd. apply Hn. rewrite Hd. apply list_elem_of_fmap_2.
        by apply (list_elem_of_lookup_2 _ m).
Qed.

Lemma doc_id_app c l d :
  doc_id c (l ++ [d]) =
  match doc_id c l with
  | Some i => Some i
  | None => if decide (d_checksum d = c) then Some (Z.of_nat (length l) + 1) else None
  end.
Proof.
  induction l as [|d0 l IH]; [by simpl; case_decide|].
  cbn [app doc_id length]. destruct (decide (d_checksum d0 = c)); [done|].
  rewrite IH. destruct (doc_id c l); [done|]. cbn [fmap option_fmap option_map].
  destruct (decide (d_checksum d = c)); [|done].
  cbn [fmap option_fmap option_map]. f_equal. lia.
Qed.

Lemma checksums_alter f i l :
  d_checksum <$> alter1 (set_versions f) i l = d_checksum <$> l.
Proof.
  unfold alter1. case_match; [|done]. apply list_eq. intros j.
  rewrite !list_lookup_fmap, list_lookup_alter. case_decide; [|done]. subst.
  by destruct (l !! _).
Qed.

Lemma doc_id_checksums c l l' :
  d_checksum <$> l = d_checksum <$> l' -> doc_id c l = doc_id c l'.
Proof.
  revert l'. induction l as [|d l IH]; intros [|d' l'] E; simplify_eq/=; [done|].
  by rewrite H, (IH l').
Qed.

Lemma doc_id_alter c f i l : doc_id c (alter1 (set_versions f) i l) = doc_id c l.
Proof. apply doc_id_checksums, checksums_alter. Qed.
