(* ===== verification/Refine.v ===== *)
(** The keeper implements the abstract ledger.

    [R K s a] says that every collection of the keeper state [s] is the one the
    ledger [a] determines, with [K] the set of roles in use.  Each handler,
    error paths included, is simulated by its specification. *)

From S2P Require Import Prelude Types Rbac Keeper MsgServer Spec.

Definition conc_registry (id : Z) (r : AReg) : Registry :=
  mkRegistry id (ar_Name r) (ar_Description r) (ar_Creator r) (ar_CreatedAt r) (ar_Metadata r).

(** The stored form of version [i] of document [rid]: the newest is the latest. *)
Definition conc_record (id rid i : Z) (d : Doc) (v : Version) : Record_ :=
  mkRecord (v_Uri v) (d_checksum d) (v_ChecksumAlgo v) (v_Metadata v) (v_Timestamp v)
    (v_Status v) rid i (i =? Z.of_nat (length (d_versions d))) id.

Definition a_doc (a : AState) (id rid : Z) : option Doc :=
  r ← a_reg a id; at1 (ar_docs r) rid.

Definition a_record (a : AState) (id rid i : Z) : option Record_ :=
  d ← a_doc a id rid; conc_record id rid i d <$> at1 (d_versions d) i.

Definition a_doc_id (a : AState) (id : Z) (c : bytes) : option Z :=
  r ← a_reg a id; doc_id c (ar_docs r).

(** Sizes of the ledger, and that a registry lists a checksum once. *)
Record AWF (n : Z) (a : AState) : Prop := {
  wf_regs : Z.of_nat (length (a_regs a)) <= n;
  wf_docs : forall id r, a_reg a id = Some r ->
    NoDup (d_checksum <$> ar_docs r) /\ Z.of_nat (length (ar_docs r)) <= n;
  wf_versions : forall id rid d, a_doc a id rid = Some d ->
    1 <= Z.of_nat (length (d_versions d)) <= n
}.

Section refine.
Context {ENV : Env} {LAWS : EnvLaws}.

Definition role_text (k : RoleKey) : bytes :=
  match k with
  | RegistryKey id role => registry_role_text id role
  | RecordKey id c role => record_role_text id c role
  end.

Definition role_hash (k : RoleKey) : Role := NewRoleHash (role_text k).

(** No two roles of [K] have the same Keccak digest. *)
Definition hash_inj (K : RoleKey -> Prop) : Prop :=
  forall x y, K x -> K y -> role_hash x = role_hash y -> x = y.

Record R (K : RoleKey -> Prop) (s : KState) (a : AState) : Prop := {
  R_params : k_Params s = Some (a_params a);
  R_count : RegistryCount s = Some (Z.of_nat (length (a_regs a)));
  R_regs : forall id, Registries s !! id = conc_registry id <$> a_reg a id;
  R_reccount : forall id,
    RecordsCountByRegistry s !! id = (fun r => Z.of_nat (length (ar_docs r))) <$> a_reg a id;
  R_byRC : forall id c, RecordIdByRegistryAndChecksum s !! (id, c) = a_doc_id a id c;
  R_byCR : forall id c, RecordIdByChecksumAndRegistry s !! (c, id) = a_doc_id a id c;
  R_indices : forall id rid,
    RecordIndices s !! (id, rid) = (fun d => Z.of_nat (length (d_versions d))) <$> a_doc a id rid;
  R_records : forall id rid i, Records s !! (id, rid, i) = a_record a id rid i;
  R_members : forall k x, K k ->
    (member (RBAC_RoleMembers s) (role_hash k) x <-> (k, x) ∈ a_members a);
  R_members_K : forall k x, (k, x) ∈ a_members a -> K k;
  R_members_only : forall h x, member (RBAC_RoleMembers s) h x ->
    exists k, (k, x) ∈ a_members a /\ h = role_hash k;
  R_admins : forall k x, (k, x) ∈ a_members a ->
    RBAC_RoleAdmins s !! role_hash k = Some (role_hash (admin_key (key_registry k)))
}.

(** The roles a message consults or changes. *)
Definition write_keys (id : Z) (c : bytes) : list RoleKey :=
  [RecordKey id c RoleAdmin; RecordKey id c RoleEditor;
   RegistryKey id RoleAdmin; RegistryKey id RoleEditor].

Definition msg_keys (a : AState) (msg : Msg) : list RoleKey :=
  match msg with
  | AddRegistryMsg _ => [admin_key (Z.of_nat (length (a_regs a)) + 1)]
  | AddRecordMsg (Some m) =>
      match marec_Record m with
      | Some r => write_keys (rec_RegistryId r) (rec_Checksum r)
      | None => []
      end
  | UpdateRecordStatusMsg (Some m) =>
      match a_doc a (murs_RegistryId m) (murs_RecordId m) with
      | Some d => write_keys (murs_RegistryId m) (d_checksum d)
      | None => []
      end
  | GrantRoleMsg (Some m) | RevokeRoleMsg (Some m) =>
      [scoped_key (mr_RegistryId m) (mr_Checksum m) (mr_Role m); admin_key (mr_RegistryId m)]
  | _ => []
  end.

(** The outcome of a handler agrees with the specification's. *)
Definition simulates (K : RoleKey -> Prop) (out : result (option Z) * KState)
    (spec : result (option Z * AState)) : Prop :=
  match spec with
  | Ok (ans, a') => out.1 = Ok ans /\ R K out.2 a'
  | Err e => out.1 = Err e
  end.

Lemma scopedRole_hash id c role : scopedRole id c role = role_hash (scoped_key id c role).
Proof. unfold scopedRole, scoped_key. by destruct (isRecordRole id c). Qed.

Context (K : RoleKey -> Prop) (HK : hash_inj K).
Implicit Types s : KState.
Implicit Types a : AState.

Lemma holds_spec s a k x : R K s a -> K k ->
  holds s (role_hash k) x = bool_decide ((k, x) ∈ a_members a).
Proof. intros HR Hk. unfold holds. apply bool_decide_ext. by apply (R_members _ _ _ HR). Qed.

Lemma permitted_spec s a sender id c :
  R K s a -> Forall K (write_keys id c) ->
  permitted s sender id c [RoleAdmin; RoleEditor] = may_write a sender id c.
Proof.
  intros HR HF. unfold write_keys in HF. rewrite !Forall_cons in HF.
  destruct HF as (H1 & H2 & H3 & H4 & _).
  unfold permitted, may_write. cbn [existsb]. rewrite !orb_false_r.
  change (RecordRole id c RoleAdmin) with (role_hash (RecordKey id c RoleAdmin)).
  change (RecordRole id c RoleEditor) with (role_hash (RecordKey id c RoleEditor)).
  change (RegistryRole id RoleAdmin) with (role_hash (RegistryKey id RoleAdmin)).
  change (RegistryRole id RoleEditor) with (role_hash (RegistryKey id RoleEditor)).
  rewrite !(holds_spec s a) by done. by rewrite orb_assoc.
Qed.

(** A request that fails validation fails on both sides with the same error. *)
Lemma valid_request_spec {A} (validate : A -> result unit) req s :
  valid_request validate req s = (spec_request validate req, s).
Proof.
  unfold valid_request, spec_request. run_unfold.
  destruct req as [m|]; [|done]. by destruct (invalid_request (validate m)).
Qed.

Lemma decode_address_spec x s : decode_address x s = (spec_address x, s).
Proof. done. Qed.

(** ** Lookups in an updated ledger *)

Lemma a_reg_app p regs x m id :
  a_reg (mkA p (regs ++ [x]) m) id =
  if decide (id = Z.of_nat (length regs) + 1) then Some x else at1 regs id.
Proof.
  unfold a_reg. simpl. case_decide; subst; [apply at1_app_new|by apply at1_app_old].
Qed.

Lemma a_reg_alter p regs f m id id' :
  a_reg (mkA p (alter1 f id regs) m) id' =
  if decide (id' = id) then f <$> at1 regs id' else at1 regs id'.
Proof.
  unfold a_reg. simpl. case_decide; subst; [apply at1_alter_eq|by apply at1_alter_ne].
Qed.

(** ** Adding a member *)

Lemma member_insert (m : gmap (Role * bytes) bytes) h x h' x' v :
  member (<[(h, x) := v]> m) h' x' <-> (h' = h /\ x' = x) \/ member m h' x'.
Proof.
  unfold member. destruct (decide ((h, x) = (h', x'))) as [E|E].
  - simplify_eq. rewrite lookup_insert_eq. split; [by left|eauto].
  - rewrite lookup_insert_ne by done. split; [by right|]. intros [[-> ->]|Hm]; [done|done].
Qed.

Lemma member_delete (m : gmap (Role * bytes) bytes) h x h' x' :
  member (delete (h, x) m) h' x' <-> ~ (h' = h /\ x' = x) /\ member m h' x'.
Proof.
  unfold member. destruct (decide ((h, x) = (h', x'))) as [E|E].
  - simplify_eq. rewrite lookup_delete_eq. split; [by intros []|naive_solver].
  - rewrite lookup_delete_ne by done. split; [|naive_solver]. intros ?. split; [|done].
    intros [-> ->]. done.
Qed.

(** The four facts about roles that adding one member of [K] preserves. *)
Record Rroles (admins : gmap Role bytes) (members : gmap (Role * bytes) bytes)
    (M : gset (RoleKey * bytes)) : Prop := {
  Rr_members : forall k x, K k -> (member members (role_hash k) x <-> (k, x) ∈ M);
  Rr_K : forall k x, (k, x) ∈ M -> K k;
  Rr_only : forall h x, member members h x -> exists k, (k, x) ∈ M /\ h = role_hash k;
  Rr_admins : forall k x, (k, x) ∈ M ->
    admins !! role_hash k = Some (role_hash (admin_key (key_registry k)))
}.

Lemma R_roles s a : R K s a ->
  Rroles (RBAC_RoleAdmins s) (RBAC_RoleMembers s) (a_members a).
Proof. intros []. by split. Qed.

Lemma Rroles_add admins members M k x :
  K k -> Rroles admins members M ->
  Rroles (<[role_hash k := role_hash (admin_key (key_registry k))]> admins)
    (<[(role_hash k, x) := []]> members) ({[ (k, x) ]} ∪ M).
Proof.
  intros Hk [H1 H2 H3 H4]. split.
  - intros k' x' Hk'. rewrite member_insert, elem_of_union, elem_of_singleton, H1 by done.
    split; [|naive_solver]. intros [[E ->]|?]; [|by right]. left.
    by apply HK in E as ->.
  - intros k' x'. rewrite elem_of_union, elem_of_singleton. naive_solver.
  - intros h x'. rewrite member_insert. intros [[-> ->]|[k' [? ->]]%H3]; [|set_solver].
    exists k. split; [set_solver|done].
  - intros k' x' Hin. assert (Hk' : K k') by set_solver.
    destruct (decide (k = k')) as [<-|Hne]; [by rewrite lookup_insert_eq|].
    rewrite lookup_insert_ne by (intros E; by apply HK in E).
    apply (H4 _ x'). set_solver.
Qed.

(** Configuring the admin of a role of [K] alone changes nothing else. *)
Lemma Rroles_del admins members M k x :
  K k -> Rroles admins members M ->
  Rroles admins (delete (role_hash k, x) members) (M ∖ {[ (k, x) ]}).
Proof.
  intros Hk [H1 H2 H3 H4]. split.
  - intros k' x' Hk'. rewrite member_delete, elem_of_difference, elem_of_singleton, H1 by done.
    split.
    + intros [Hn ?]. split; [done|]. intros E. simplify_eq. by apply Hn.
    + intros [? Hn]. split; [|done]. intros [E ->]. apply HK in E; naive_solver.
  - intros k' x'. rewrite elem_of_difference. naive_solver.
  - intros h x'. rewrite member_delete. intros [Hn [k' [? ->]]%H3].
    exists k'. split; [|done]. rewrite elem_of_difference, elem_of_singleton.
    split; [done|]. intros E. simplify_eq. by apply Hn.
  - intros k' x'. rewrite elem_of_difference. naive_solver.
Qed.

(** ** Registries *)

Lemma sim_AddRegistry ctx req s a n :
  R K s a -> AWF n a -> n + 1 < two64 ->
  Forall K (msg_keys a (AddRegistryMsg req)) ->
  simulates K (handle ctx (AddRegistryMsg req) s) (spec_AddRegistry ctx req a).
Proof.
  intros HR HW Hn HF. unfold handle, Msg_AddRegistry, spec_AddRegistry.
  cbv [mbind M_bind result_bind]. rewrite valid_request_spec.
  destruct (spec_request _ req) as [msg|e] eqn:Ereq; [|done].
  rewrite decode_address_spec. unfold spec_address.
  destruct (StringToBytes (mar_Sender msg)) as [sender|] eqn:Es; [|done]. simpl.
  assert (Hv : ValidateRegistryForCreate (mar_Name msg) (mar_Description msg) (mar_Metadata msg) = Ok tt).
  { unfold spec_request, MsgAddRegistry_ValidateBasic in Ereq. run_unfold.
    destruct req as [m|]; [|done]. destruct (check_address _ _); [|done].
    destruct (ValidateRegistryForCreate _ _ _) as [[]|] eqn:E; simplify_eq/=. done. }
  rewrite (AddRegistry_ok _ _ sender _ _ _ (Z.of_nat (length (a_regs a))));
    [|done|apply HR|by eapply StringToBytes_String].
  set (id := Z.of_nat (length (a_regs a)) + 1).
  pose proof (wf_regs _ _ HW) as Hlen.
  assert (wrap64 id = id) as -> by (unfold wrap64, id; apply Z.mod_small; lia).
  assert (Hnone : at1 (a_regs a) id = None) by (apply at1_None; unfold id; lia).
  apply Forall_cons in HF as [HKid _].
  pose proof (Rroles_add _ _ _ (admin_key id) sender HKid (R_roles _ _ HR)) as HM.
  split; [done|]. unfold registry_added. split; simpl.
  - apply HR.
  - rewrite length_app. simpl. f_equal. unfold id. lia.
  - intros id'. rewrite lookup_insert, a_reg_app. fold id.
    repeat case_decide; subst; try done. apply (R_regs _ _ _ HR).
  - intros id'. rewrite lookup_insert, a_reg_app. fold id.
    repeat case_decide; subst; try done. apply (R_reccount _ _ _ HR).
  - intros id' c. rewrite (R_byRC _ _ _ HR). unfold a_doc_id. rewrite a_reg_app. fold id.
    unfold a_reg. case_decide; subst; [by rewrite Hnone|done].
  - intros id' c. rewrite (R_byCR _ _ _ HR). unfold a_doc_id. rewrite a_reg_app. fold id.
    unfold a_reg. case_decide; subst; [by rewrite Hnone|done].
  - intros id' rid. rewrite (R_indices _ _ _ HR). unfold a_doc. rewrite a_reg_app. fold id.
    unfold a_reg. case_decide; subst; [|done]. rewrite Hnone. simpl.
    by rewrite at1_nil.
  - intros id' rid i. rewrite (R_records _ _ _ HR). unfold a_record, a_doc. rewrite a_reg_app. fold id.
    unfold a_reg. case_decide; subst; [|done]. rewrite Hnone. simpl.
    by rewrite at1_nil.
  - apply (Rr_members _ _ _ HM).
  - apply (Rr_K _ _ _ HM).
  - apply (Rr_only _ _ _ HM).
  - apply (Rr_admins _ _ _ HM).
Qed.

(** ** Documents *)

(** A change to the versions of one document. *)
Lemma a_doc_alter a f id rid m id' rid' :
  a_doc (mkA (a_params a) (alter1 (set_docs (alter1 (set_versions f) rid)) id (a_regs a)) m) id' rid' =
  if decide (id' = id /\ rid' = rid) then set_versions f <$> a_doc a id' rid' else a_doc a id' rid'.
Proof.
  unfold a_doc. rewrite a_reg_alter. unfold a_reg.
  destruct (decide (id' = id)) as [->|Hid].
  - destruct (at1 (a_regs a) id) as [r|]; simpl; [|by case_decide].
    destruct (decide (rid' = rid)) as [->|Hr].
    + rewrite decide_True by done. apply at1_alter_eq.
    + rewrite decide_False by naive_solver. by apply at1_alter_ne.
  - by rewrite decide_False by naive_solver.
Qed.

Lemma a_doc_id_alter a f id rid m id' c :
  a_doc_id (mkA (a_params a) (alter1 (set_docs (alter1 (set_versions f) rid)) id (a_regs a)) m) id' c
  = a_doc_id a id' c.
Proof.
  unfold a_doc_id. rewrite a_reg_alter. unfold a_reg. case_decide; subst; [|done].
  destruct (at1 (a_regs a) id) as [r|]; simpl; [|done]. by rewrite doc_id_alter.
Qed.

(** Appending a document. *)
Lemma a_doc_app a id r d m id' rid' :
  a_reg a id = Some r ->
  a_doc (mkA (a_params a) (alter1 (set_docs (fun l => l ++ [d])) id (a_regs a)) m) id' rid' =
  if decide (id' = id /\ rid' = Z.of_nat (length (ar_docs r)) + 1) then Some d
  else a_doc a id' rid'.
Proof.
  intros Hr. unfold a_doc. rewrite a_reg_alter. unfold a_reg in *.
  destruct (decide (id' = id)) as [->|Hid].
  - rewrite Hr. simpl. destruct (decide (rid' = Z.of_nat (length (ar_docs r)) + 1)) as [->|Hn].
    + rewrite decide_True by done. apply at1_app_new.
    + rewrite decide_False by naive_solver. by apply at1_app_old.
  - by rewrite decide_False by naive_solver.
Qed.

Lemma a_doc_id_app a id r d m id' c :
  a_reg a id = Some r -> doc_id (d_checksum d) (ar_docs r) = None ->
  a_doc_id (mkA (a_params a) (alter1 (set_docs (fun l => l ++ [d])) id (a_regs a)) m) id' c =
  if decide (id' = id /\ c = d_checksum d) then Some (Z.of_nat (length (ar_docs r)) + 1)
  else a_doc_id a id' c.
Proof.
  intros Hr Hd. unfold a_doc_id. rewrite a_reg_alter. unfold a_reg in *.
  destruct (decide (id' = id)) as [->|Hid].
  - rewrite Hr. simpl. rewrite doc_id_app.
    destruct (decide (c = d_checksum d)) as [->|Hc].
    + rewrite Hd, !decide_True by done. done.
    + rewrite !decide_False by naive_solver. by destruct (doc_id c (ar_docs r)).
  - by rewrite decide_False by naive_solver.
Qed.

Lemma a_reg_docs_alter a g id m id' :
  conc_registry id' <$> a_reg (mkA (a_params a) (alter1 (set_docs g) id (a_regs a)) m) id'
  = conc_registry id' <$> a_reg a id'.
Proof. rewrite a_reg_alter. unfold a_reg. case_decide; [|done]. by destruct (at1 _ _). Qed.

(** Facts a known document gives about the keeper's tables. *)
Lemma R_doc s a n id c r rid :
  R K s a -> AWF n a -> a_reg a id = Some r -> doc_id c (ar_docs r) = Some rid ->
  exists d, a_doc a id rid = Some d /\ d_checksum d = c
    /\ RecordIdByRegistryAndChecksum s !! (id, c) = Some rid
    /\ RecordIndices s !! (id, rid) = Some (Z.of_nat (length (d_versions d)))
    /\ 1 <= Z.of_nat (length (d_versions d)) <= n.
Proof.
  intros HR HW Hr Hd. destruct (doc_id_Some _ _ _ Hd) as (d & Hat & Hc).
  assert (Hdoc : a_doc a id rid = Some d) by (unfold a_doc; by rewrite Hr).
  exists d. rewrite (R_byRC _ _ _ HR), (R_indices _ _ _ HR), Hdoc. unfold a_doc_id.
  rewrite Hr. simpl. split_and!; try done; by apply (wf_versions _ _ HW id rid).
Qed.

(** The record table after the next version was appended. *)
Lemma records_next ctx record s a n id c r rid d :
  R K s a -> AWF n a -> a_reg a id = Some r -> doc_id c (ar_docs r) = Some rid ->
  a_doc a id rid = Some d -> rec_RegistryId record = id -> rec_Checksum record = c ->
  let top := Z.of_nat (length (d_versions d)) in
  let v := version_of (BlockTimeString ctx) record in
  forall id' rid' i,
  Records (record_added ctx false record rid (top + 1) s) !! (id', rid', i) =
  a_record (mkA (a_params a)
    (alter1 (set_docs (alter1 (set_versions (fun l => l ++ [v])) rid)) id (a_regs a))
    (a_members a)) id' rid' i.
Proof.
  intros HR HW Hr Hd Hdoc Eid Ec top v id' rid' i.
  assert (Htop : top = Z.of_nat (length (d_versions d))) by done. clearbody top.
  destruct (R_doc _ _ _ _ _ _ _ HR HW Hr Hd) as (d' & Hdoc' & Hc & _ & _ & Hlen).
  rewrite Hdoc in Hdoc'. injection Hdoc' as <-.
  unfold record_added. simpl. rewrite Eid.
  rewrite (proj2 (Z.ltb_lt 1 (top + 1))) by lia. replace (top + 1 - 1) with top by lia.
  rewrite (lookup_insert_ne _ (id, rid, top + 1) (id, rid, top)) by (intros E; simplify_eq; lia).
  rewrite (R_records _ _ _ HR). unfold a_record. rewrite a_doc_alter, Hdoc. simpl.
  destruct (at1 (d_versions d) top) as [vtop|] eqn:Etop; [|apply at1_None in Etop; lia]. simpl.
  destruct (decide (id' = id /\ rid' = rid)) as [[-> ->]|Hne].
  - rewrite Hdoc. simpl.
    destruct (decide (i = top + 1)) as [->|H1]; [|destruct (decide (i = top)) as [->|H2]].
    + rewrite lookup_insert_ne, lookup_insert_eq by (intros E; simplify_eq; lia).
      rewrite Htop, at1_app_new. simpl. f_equal. unfold conc_record, set_rec_ids. simpl.
      rewrite length_app, Eid, Ec. simpl. f_equal; [done|]. symmetry. apply Z.eqb_eq. lia.
    + rewrite lookup_insert_eq, at1_app_old, Etop by lia. simpl. f_equal.
      unfold conc_record, set_IsLatest. simpl. f_equal. symmetry. apply Z.eqb_neq.
      rewrite length_app. simpl. lia.
    + rewrite !lookup_insert_ne by (intros E; simplify_eq; lia).
      rewrite (R_records _ _ _ HR). unfold a_record. rewrite Hdoc. simpl.
      rewrite at1_app_old by lia.
      destruct (at1 (d_versions d) i) as [vi|] eqn:Ei; [|done]. simpl. f_equal.
      unfold conc_record. simpl. f_equal. apply at1_range in Ei. rewrite length_app. simpl.
      rewrite !(proj2 (Z.eqb_neq _ _)) by lia. done.
  - rewrite !lookup_insert_ne by (intros E; simplify_eq; naive_solver).
    apply (R_records _ _ _ HR).
Qed.

Lemma R_add_version ctx record s a n r rid d :
  let id := rec_RegistryId record in let c := rec_Checksum record in
  R K s a -> AWF n a -> a_reg a id = Some r -> doc_id c (ar_docs r) = Some rid ->
  a_doc a id rid = Some d ->
  R K (record_added ctx false record rid (Z.of_nat (length (d_versions d)) + 1) s)
    (mkA (a_params a)
      (alter1 (set_docs (alter1 (set_versions
         (fun l => l ++ [version_of (BlockTimeString ctx) record])) rid)) id (a_regs a))
      (a_members a)).
Proof.
  intros id c HR HW Hr Hd Hdoc. split.
  - apply HR.
  - simpl. rewrite length_alter1. apply HR.
  - intros id'. rewrite a_reg_docs_alter. apply (R_regs _ _ _ HR).
  - intros id'. simpl. rewrite (R_reccount _ _ _ HR), a_reg_alter. unfold a_reg.
    case_decide; [|done]. destruct (at1 _ _); [|done]. simpl. by rewrite length_alter1.
  - intros id' c'. rewrite a_doc_id_alter. apply (R_byRC _ _ _ HR).
  - intros id' c'. rewrite a_doc_id_alter. apply (R_byCR _ _ _ HR).
  - intros id' rid'. simpl. fold id. rewrite lookup_insert, a_doc_alter.
    destruct (decide ((id, rid) = (id', rid'))) as [E|E].
    + simplify_eq. rewrite decide_True, Hdoc by done. simpl. f_equal.
      rewrite length_app. simpl. lia.
    + rewrite decide_False by naive_solver. apply (R_indices _ _ _ HR).
  - by eapply records_next.
  - apply (R_members _ _ _ HR).
  - apply (R_members_K _ _ _ HR).
  - apply (R_members_only _ _ _ HR).
  - apply (R_admins _ _ _ HR).
Qed.

Lemma R_add_doc ctx record s a n r :
  let id := rec_RegistryId record in let c := rec_Checksum record in
  R K s a -> AWF n a -> a_reg a id = Some r -> doc_id c (ar_docs r) = None ->
  R K (record_added ctx true record (Z.of_nat (length (ar_docs r)) + 1) 1 s)
    (mkA (a_params a)
      (alter1 (set_docs (fun l => l ++ [mkDoc c [version_of (BlockTimeString ctx) record]]))
         id (a_regs a)) (a_members a)).
Proof.
  intros id c HR HW Hr Hd. set (rid := Z.of_nat (length (ar_docs r)) + 1).
  assert (Hnone : a_doc a id rid = None).
  { unfold a_doc. rewrite Hr. simpl. apply at1_None. unfold rid. lia. }
  split; unfold record_added; simpl; fold id c.
  - apply HR.
  - rewrite length_alter1. apply HR.
  - intros id'. rewrite a_reg_docs_alter. apply (R_regs _ _ _ HR).
  - intros id'. rewrite lookup_insert, a_reg_alter, (R_reccount _ _ _ HR). unfold a_reg in *.
    destruct (decide (id = id')) as [<-|Hne].
    + rewrite decide_True, Hr by done. simpl. f_equal. rewrite length_app. simpl. unfold rid. lia.
    + by rewrite decide_False by done.
  - intros id' c'. rewrite lookup_insert, (a_doc_id_app _ _ r), (R_byRC _ _ _ HR) by done. simpl.
    repeat case_decide; naive_solver.
  - intros id' c'. rewrite lookup_insert, (a_doc_id_app _ _ r), (R_byCR _ _ _ HR) by done. simpl.
    repeat case_decide; naive_solver.
  - intros id' rid'. rewrite lookup_insert, (a_doc_app _ _ r), (R_indices _ _ _ HR) by done.
    fold rid. repeat case_decide; naive_solver.
  - intros id' rid' i. rewrite lookup_insert, (R_records _ _ _ HR). unfold a_record.
    rewrite (a_doc_app _ _ r) by done. fold rid.
    destruct (decide (id' = id /\ rid' = rid)) as [[-> ->]|Hne].
    + rewrite Hnone. simpl. destruct (decide ((id, rid, 1) = (id, rid, i))) as [E|E].
      * simplify_eq. done.
      * destruct (at1 [_] i) eqn:Ei; [|done]. apply at1_range in Ei. simpl in Ei.
        destruct E. do 2 f_equal. lia.
    + rewrite decide_False by (intros E; simplify_eq; naive_solver). done.
  - apply (R_members _ _ _ HR).
  - apply (R_members_K _ _ _ HR).
  - apply (R_members_only _ _ _ HR).
  - apply (R_admins _ _ _ HR).
Qed.

Lemma sim_AddRecord ctx req s a n :
  R K s a -> AWF n a -> n + 1 < two64 ->
  Forall K (msg_keys a (AddRecordMsg req)) ->
  simulates K (handle ctx (AddRecordMsg req) s) (spec_AddRecord ctx req a).
Proof.
  intros HR HW Hn HF. unfold handle, Msg_AddRecord, spec_AddRecord.
  cbv [mbind M_bind result_bind]. rewrite valid_request_spec.
  destruct (spec_request _ req) as [msg|e] eqn:Ereq; [|done].
  rewrite decode_address_spec. destruct (spec_address (marec_Sender msg)) as [sender|]; [|done].
  assert (Hreq : req = Some msg /\
    match marec_Record msg with Some r => ValidateRecordForCreate r = Ok tt | None => False end).
  { unfold spec_request, MsgAddRecord_ValidateBasic in Ereq. run_unfold.
    destruct req as [m|]; [|done]. destruct (check_address _ _); [|done].
    destruct (marec_Record m) as [r|] eqn:Er; [|done].
    destruct (ValidateRecordForCreate r) as [[]|] eqn:E; simplify_eq/=. by rewrite Er. }
  destruct Hreq as [-> Hrec]. simpl in HF. unfold lift, of_option.
  destruct (marec_Record msg) as [record|]; [|done].
  destruct (a_reg a (rec_RegistryId record)) as [reg|] eqn:Er.
  2: { rewrite AddRecord_no_registry; [done|done|]. by rewrite (R_regs _ _ _ HR), Er. }
  assert (Hsome : is_Some (Registries s !! rec_RegistryId record)).
  { rewrite (R_regs _ _ _ HR), Er. eauto. }
  rewrite <- (permitted_spec s a) by done. unfold guard_err.
  destruct (permitted s sender _ _ _) eqn:Ep; cbn [negb].
  2: { by rewrite AddRecord_denied. }
  destruct (doc_id _ (ar_docs reg)) as [rid|] eqn:Ed.
  - destruct (R_doc _ _ _ _ _ _ _ HR HW Er Ed) as (d & Hdoc & Hc & Hrid & Hidx & Hlen).
    rewrite (AddRecord_next _ _ _ _ Hrec Hsome Ep rid (Z.of_nat (length (d_versions d))));
      [|done|done|lia|lia|].
    + split; [done|]. by eapply R_add_version.
    + rewrite (R_records _ _ _ HR). unfold a_record. rewrite Hdoc. simpl.
      apply fmap_is_Some, at1_is_Some. lia.
  - destruct (wf_docs _ _ HW _ _ Er) as [_ Hlen].
    assert (Hrid : RecordIdByRegistryAndChecksum s !! (rec_RegistryId record, rec_Checksum record) = None).
    { rewrite (R_byRC _ _ _ HR). unfold a_doc_id. by rewrite Er. }
    assert (Hcount : RecordsCountByRegistry s !! rec_RegistryId record
                     = Some (Z.of_nat (length (ar_docs reg)))).
    { by rewrite (R_reccount _ _ _ HR), Er. }
    destruct (key_string_ok (rec_Checksum record)) eqn:Ek; cbn [negb].
    + rewrite (AddRecord_first _ _ _ _ Hrec Hsome Ep (Z.of_nat (length (ar_docs reg))));
        [|done|done|lia|lia| |done].
      * split; [done|]. by eapply R_add_doc.
      * rewrite (R_indices _ _ _ HR). unfold a_doc. rewrite Er. simpl.
        rewrite (proj2 (at1_None _ _)); [done|lia].
    + pose proof (AddRecord_bad_key ctx sender record s Hrec Hsome Ep _ Hrid Hcount Ek) as Hbad.
      destruct (AddRecord ctx sender record s) as [[] ?]; by simplify_eq/=.
Qed.

(** ** Status *)

Lemma R_status id rid i status d v s a :
  R K s a -> a_doc a id rid = Some d -> at1 (d_versions d) i = Some v ->
  R K (status_updated id rid i status (conc_record id rid i d v) s)
    (mkA (a_params a)
      (alter1 (set_docs (alter1 (set_versions (alter1 (set_v_status status) i)) rid)) id (a_regs a))
      (a_members a)).
Proof.
  intros HR Hdoc Hv. split; unfold status_updated; simpl.
  - apply HR.
  - rewrite length_alter1. apply HR.
  - intros id'. rewrite a_reg_docs_alter. apply (R_regs _ _ _ HR).
  - intros id'. rewrite (R_reccount _ _ _ HR), a_reg_alter. unfold a_reg.
    case_decide; [|done]. destruct (at1 (a_regs a) id'); [|done]. simpl. by rewrite length_alter1.
  - intros id' c'. rewrite a_doc_id_alter. apply (R_byRC _ _ _ HR).
  - intros id' c'. rewrite a_doc_id_alter. apply (R_byCR _ _ _ HR).
  - intros id' rid'. rewrite a_doc_alter, (R_indices _ _ _ HR). case_decide; [|done].
    destruct (a_doc a id' rid'); [|done]. simpl. by rewrite length_alter1.
  - intros id' rid' i'. rewrite lookup_insert, (R_records _ _ _ HR). unfold a_record.
    rewrite a_doc_alter. destruct (decide (id' = id /\ rid' = rid)) as [[-> ->]|Hne].
    + rewrite Hdoc. simpl. destruct (decide (i' = i)) as [->|Hi].
      * rewrite decide_True, at1_alter_eq, Hv by done. simpl. f_equal.
        unfold conc_record, set_Status. simpl. by rewrite length_alter1.
      * rewrite decide_False, at1_alter_ne by congruence.
        destruct (at1 (d_versions d) i'); [|done]. simpl. f_equal.
        unfold conc_record. simpl. by rewrite length_alter1.
    + by rewrite decide_False by (intros E; simplify_eq; naive_solver).
  - apply (R_members _ _ _ HR).
  - apply (R_members_K _ _ _ HR).
  - apply (R_members_only _ _ _ HR).
  - apply (R_admins _ _ _ HR).
Qed.

Lemma sim_UpdateRecordStatus ctx req s a :
  R K s a -> Forall K (msg_keys a (UpdateRecordStatusMsg req)) ->
  simulates K (handle ctx (UpdateRecordStatusMsg req) s) (spec_UpdateRecordStatus req a).
Proof.
  intros HR HF. unfold handle, Msg_UpdateRecordStatus, spec_UpdateRecordStatus.
  cbv [mbind M_bind result_bind]. rewrite valid_request_spec.
  destruct (spec_request _ req) as [msg|e] eqn:Ereq; [|done].
  rewrite decode_address_spec. destruct (spec_address (murs_Editor msg)) as [sender|]; [|done].
  assert (Hreq : req = Some msg /\ ValidateRecordStatus (murs_Status msg) = Ok tt).
  { unfold spec_request, MsgUpdateRecordStatus_ValidateBasic in Ereq. run_unfold.
    destruct req as [m|]; [|done]. destruct (check_address _ _); [|done].
    destruct (murs_RecordId m =? 0); [done|].
    destruct (ValidateRecordStatus _) as [[]|] eqn:E; [|done].
    repeat case_match; simplify_eq/=. done. }
  destruct Hreq as [-> Hst]. simpl in HF.
  rewrite UpdateRecordStatus_spec, Hst, (R_records _ _ _ HR).
  unfold a_record, a_doc in *.
  destruct (a_reg a (murs_RegistryId msg)) as [reg|] eqn:Er; [|done]. simpl in *.
  destruct (at1 (ar_docs reg) (murs_RecordId msg)) as [d|] eqn:Ed; [|done]. simpl in *.
  destruct (at1 (d_versions d) (murs_Index msg)) as [v|] eqn:Ev; [|done]. simpl.
  rewrite (permitted_spec s a) by done.
  destruct (may_write a sender _ _); [|done]. split; [done|]. simpl.
  apply R_status; [done| |done]. unfold a_doc. rewrite Er. done.
Qed.

(** ** Roles *)

Lemma ensureRoleScopeExists_spec s a id c :
  R K s a -> ensureRoleScopeExists id c s = (spec_scope a id c, s).
Proof.
  intros HR. unfold ensureRoleScopeExists, spec_scope. run_unfold.
  rewrite (R_regs _ _ _ HR). destruct (a_reg a id) as [r|] eqn:Er; simpl; [|done].
  destruct (isRecordRole id c); [|done]. destruct (key_string_ok c); [|done]. simpl.
  rewrite (R_byCR _ _ _ HR). unfold a_doc_id. rewrite Er. simpl.
  by destruct (doc_id c (ar_docs r)).
Qed.

Lemma scoped_admin id c role :
  negb (isRecordRole id c) && bool_decide (role = RoleAdmin)
  = bool_decide (scoped_key id c role = admin_key id).
Proof.
  unfold scoped_key, admin_key. destruct (isRecordRole id c); cbn [negb andb].
  - by rewrite bool_decide_false.
  - apply bool_decide_ext. split; [by intros ->|by intros [= ->]].
Qed.

Lemma scoped_registry id c role : key_registry (scoped_key id c role) = id.
Proof. unfold scoped_key. by destruct (isRecordRole id c). Qed.

Lemma role_hash_new k : NewRole (role_hash k) = role_hash k.
Proof. unfold NewRole. apply BytesToHash_id, keccak256_length. Qed.

Lemma R_set_roles s a admins members M ev :
  R K s a -> Rroles admins members M ->
  R K (put_RBAC (mkRBAC admins members ev) s) (mkA (a_params a) (a_regs a) M).
Proof. intros [] []. by split. Qed.

Lemma sim_GrantRole ctx req s a :
  R K s a -> Forall K (msg_keys a (GrantRoleMsg req)) ->
  simulates K (handle ctx (GrantRoleMsg req) s) (spec_GrantRole req a).
Proof.
  intros HR HF. unfold handle, Msg_GrantRole, spec_GrantRole.
  cbv [mbind M_bind result_bind]. rewrite valid_request_spec.
  destruct (spec_request _ req) as [msg|e] eqn:Ereq; [|done].
  rewrite decode_address_spec. destruct (spec_address (mr_Admin msg)) as [granter|]; [|done].
  rewrite decode_address_spec. destruct (spec_address (mr_Address msg)) as [grantee|]; [|done].
  assert (req = Some msg) as ->.
  { unfold spec_request in Ereq. run_unfold. destruct req; [|done]. repeat case_match; by simplify_eq. }
  simpl in HF. rewrite !Forall_cons in HF. destruct HF as (Hk & Hadm & _).
  rewrite (ensureRoleScopeExists_spec s a) by done.
  destruct (spec_scope a _ _) as [[]|]; [|done].
  rewrite scoped_admin, scopedRole_hash.
  set (id := mr_RegistryId msg) in *. set (k := scoped_key id _ _) in *.
  change (RegistryRole id RoleAdmin) with (role_hash (admin_key id)).
  pose proof (Rroles_add _ _ _ k grantee Hk (R_roles _ _ HR)) as HM.
  assert (Hid : key_registry k = id) by apply scoped_registry. rewrite Hid in HM.
  assert (Hg : member (RBAC_RoleMembers s) (role_hash (admin_key id)) granter
               <-> (admin_key id, granter) ∈ a_members a) by (by apply (R_members _ _ _ HR)).
  unfold isModuleAdmin, get_or_not_found, rbac, SetRoleAdmin, GrantRoleUnchecked, GrantRole,
    GetRoleAdmin, HasRole, rb_emit, member in *. run_unfold.
  destruct (bool_decide (k = admin_key id)); simpl.
  1: rewrite (R_params _ _ _ HR); simpl;
     destruct (bool_decide (Admin (a_params a) = mr_Admin msg)); simpl;
     [split; [done|]; by apply (R_set_roles s a)|].
  all: rewrite lookup_insert_eq; simpl; rewrite role_hash_new, (bool_decide_ext _ _ Hg);
    destruct (bool_decide ((admin_key id, granter) ∈ a_members a)); simpl; [|done];
    (split; [done|]); by apply (R_set_roles s a).
Qed.

Lemma holders_sole a k x :
  (k, x) ∈ a_members a ->
  (holders a k = {[ x ]} <-> exists y, forall y', (k, y') ∈ a_members a <-> y' = y).
Proof.
  intros Hx. assert (Hh : forall y, y ∈ holders a k <-> (k, y) ∈ a_members a).
  { intros y. unfold holders. rewrite elem_of_map. split.
    - intros ([k' y'] & -> & [E ?]%elem_of_filter). simpl in *. by subst.
    - intros Hy. exists (k, y). split; [done|]. by apply elem_of_filter. }
  split.
  - intros E. exists x. intros y'. rewrite <- Hh, E. set_solver.
  - intros [y Hy]. apply set_eq. intros z. rewrite Hh, Hy, elem_of_singleton.
    apply Hy in Hx. by subst.
Qed.

Lemma sim_RevokeRole ctx req s a :
  R K s a -> Forall K (msg_keys a (RevokeRoleMsg req)) ->
  simulates K (handle ctx (RevokeRoleMsg req) s) (spec_RevokeRole req a).
Proof.
  intros HR HF. unfold handle, Msg_RevokeRole, spec_RevokeRole.
  cbv [mbind M_bind result_bind]. rewrite valid_request_spec.
  destruct (spec_request _ req) as [msg|e] eqn:Ereq; [|done].
  rewrite decode_address_spec. destruct (spec_address (mr_Admin msg)) as [revoker|]; [|done].
  rewrite decode_address_spec. destruct (spec_address (mr_Address msg)) as [revokee|]; [|done].
  assert (req = Some msg) as ->.
  { unfold spec_request in Ereq. run_unfold. destruct req; [|done]. repeat case_match; by simplify_eq. }
  simpl in HF. rewrite !Forall_cons in HF. destruct HF as (Hk & Hadm & _).
  rewrite (ensureRoleScopeExists_spec s a) by done.
  destruct (spec_scope a _ _) as [[]|]; [|done].
  rewrite scoped_admin, scopedRole_hash.
  set (id := mr_RegistryId msg) in *. set (k := scoped_key id _ _) in *.
  change (RegistryRole id RoleAdmin) with (role_hash (admin_key id)).
  rewrite rbac_HasRole, (holds_spec s a) by done. unfold guard_err.
  destruct (bool_decide_reflect ((k, revokee) ∈ a_members a)) as [Hin|]; simpl; [|done].
  assert (Hsole : exists b, (if bool_decide (k = admin_key id)
                  then rbac (IsSoleAdmin (role_hash (admin_key id))) else mret false) s = (Ok b, s)
          /\ b = bool_decide (k = admin_key id) && bool_decide (holders a k = {[revokee]})).
  { destruct (bool_decide_reflect (k = admin_key id)) as [->|]; [|by exists false].
    destruct (rbac_IsSoleAdmin (role_hash (admin_key id)) s) as (b & E & Hb).
    exists b. split; [done|]. simpl.
    apply eq_true_iff_eq. rewrite Hb, bool_decide_eq_true, holders_sole by done.
    by setoid_rewrite (R_members _ _ _ HR _ _ Hadm). }
  destruct Hsole as (b & -> & ->).
  destruct (bool_decide (k = admin_key id) && _); [done|].
  pose proof (Rroles_del _ _ _ k revokee Hk (R_roles _ _ HR)) as HM.
  assert (Hid : key_registry k = id) by apply scoped_registry.
  assert (Hg : member (RBAC_RoleMembers s) (role_hash (admin_key id)) revoker
               <-> (admin_key id, revoker) ∈ a_members a) by (by apply (R_members _ _ _ HR)).
  unfold rbac, RevokeRole, RevokeRoleUnchecked, GetRoleAdmin, HasRole, rb_emit, member in *.
  run_unfold. simpl. rewrite (R_admins _ _ _ HR k revokee Hin). simpl. rewrite Hid, role_hash_new.
  rewrite (bool_decide_ext _ _ Hg).
  destruct (bool_decide _); simpl; [|done]. split; [done|]. by apply (R_set_roles s a).
Qed.

Lemma sim_UpdateParams ctx req s a :
  R K s a -> simulates K (handle ctx (UpdateParamsMsg req) s) (spec_UpdateParams req a).
Proof.
  intros HR. unfold handle, Msg_UpdateParams, spec_UpdateParams, get_or_not_found. run_unfold.
  destruct (StringToBytes (mup_Authority req)); [|done].
  rewrite (R_params _ _ _ HR). simpl.
  destruct (bool_decide (mup_Authority req = _)); simpl; [|done].
  rewrite (R_params _ _ _ HR). simpl.
  destruct (Params_Validate _) as [[]|]; simpl; [|done].
  split; [done|]. destruct HR. by split.
Qed.

(** ** Every message *)

Lemma sim_handle ctx msg s a n :
  R K s a -> AWF n a -> n + 1 < two64 -> Forall K (msg_keys a msg) ->
  simulates K (handle ctx msg s) (spec_handle ctx msg a).
Proof.
  destruct msg; simpl spec_handle;
    eauto using sim_AddRegistry, sim_AddRecord, sim_UpdateRecordStatus, sim_GrantRole,
      sim_RevokeRole, sim_UpdateParams.
Qed.

Lemma sim_deliver ctx msg s a n :
  R K s a -> AWF n a -> n + 1 < two64 -> Forall K (msg_keys a msg) ->
  R K (deliver ctx msg s) (spec_deliver ctx msg a).
Proof.
  intros HR HW Hn HF. pose proof (sim_handle ctx msg s a n HR HW Hn HF) as Hs.
  unfold deliver, spec_deliver. destruct (handle ctx msg s) as [r s'].
  destruct (spec_handle ctx msg a) as [[ans a']|e]; simpl in Hs.
  - destruct Hs as [-> ?]. done.
  - by subst.
Qed.
End refine.

(** ** The ledger grows by at most one in each direction per message *)

Lemma AWF_mono n m a : n <= m -> AWF n a -> AWF m a.
Proof.
  intros Hnm [H1 H2 H3]. split; [lia| |].
  - intros id r Hr. destruct (H2 id r Hr). split; [done|lia].
  - intros id rid d Hd. specialize (H3 id rid d Hd). lia.
Qed.

Lemma AWF_add_version n a id rid v m :
  AWF n a ->
  AWF (n + 1) (mkA (a_params a)
    (alter1 (set_docs (alter1 (set_versions (fun l => l ++ [v])) rid)) id (a_regs a)) m).
Proof.
  intros [H1 H2 H3]. split.
  - simpl. rewrite length_alter1. lia.
  - intros id' r. rewrite a_reg_alter. unfold a_reg in H2. case_decide.
    + destruct (at1 (a_regs a) id') as [r0|] eqn:E; simpl; intros; simplify_eq.
      destruct (H2 _ _ E). simpl. rewrite checksums_alter, length_alter1. split; [done|lia].
    + intros Hr. destruct (H2 _ _ Hr). split; [done|lia].
  - intros id' rid' d. rewrite a_doc_alter. case_decide.
    + destruct (a_doc a id' rid') as [d0|] eqn:E; simpl; intros; simplify_eq.
      specialize (H3 _ _ _ E). simpl. rewrite length_app. simpl. lia.
    + intros Hd. specialize (H3 _ _ _ Hd). lia.
Qed.

Lemma AWF_add_doc n a id r c v m :
  AWF n a -> 0 <= n -> a_reg a id = Some r -> doc_id c (ar_docs r) = None ->
  AWF (n + 1) (mkA (a_params a)
    (alter1 (set_docs (fun l => l ++ [mkDoc c [v]])) id (a_regs a)) m).
Proof.
  intros [H1 H2 H3] Hn Hr Hc. split.
  - simpl. rewrite length_alter1. lia.
  - intros id' r'. rewrite a_reg_alter. unfold a_reg in *. case_decide.
    + subst. rewrite Hr. simpl. intros; simplify_eq/=. destruct (H2 _ _ Hr) as [Hnd ?].
      rewrite fmap_app, length_app. simpl. split; [|lia].
      apply NoDup_app. split; [done|]. split; [|apply NoDup_singleton].
      intros x Hx Hx'. apply list_elem_of_singleton in Hx'. subst. by apply doc_id_None in Hc.
    + intros Hr'. destruct (H2 _ _ Hr'). split; [done|lia].
  - intros id' rid' d. rewrite (a_doc_app _ _ r) by done. case_decide.
    + intros; simplify_eq/=. lia.
    + intros Hd. specialize (H3 _ _ _ Hd). lia.
Qed.

Lemma AWF_status n a id rid f m :
  AWF n a -> (forall l, length (f l) = length l) ->
  AWF n (mkA (a_params a) (alter1 (set_docs (alter1 (set_versions f) rid)) id (a_regs a)) m).
Proof.
  intros [H1 H2 H3] Hf. split.
  - simpl. rewrite length_alter1. lia.
  - intros id' r. rewrite a_reg_alter. unfold a_reg in H2. case_decide; [|by apply H2].
    destruct (at1 (a_regs a) id') as [r0|] eqn:E; simpl; intros; simplify_eq.
    destruct (H2 _ _ E). simpl. by rewrite checksums_alter, length_alter1.
  - intros id' rid' d. rewrite a_doc_alter. case_decide; [|by apply H3].
    destruct (a_doc a id' rid') as [d0|] eqn:E; simpl; intros; simplify_eq.
    specialize (H3 _ _ _ E). simpl. by rewrite Hf.
Qed.

Lemma AWF_roles n a p m : AWF n a -> AWF n (mkA p (a_regs a) m).
Proof. intros [H1 H2 H3]. split; [done|exact H2|exact H3]. Qed.

Lemma AWF_add_registry n a r m :
  AWF n a -> ar_docs r = [] -> 0 <= n -> AWF (n + 1) (mkA (a_params a) (a_regs a ++ [r]) m).
Proof.
  intros [H1 H2 H3] Hr Hn. split.
  - simpl. rewrite length_app. simpl. lia.
  - intros id' r'. rewrite a_reg_app. unfold a_reg in *. case_decide.
    + intros; simplify_eq. rewrite Hr. simpl. split; [apply NoDup_nil_2|lia].
    + intros E. destruct (H2 _ _ E). split; [done|lia].
  - intros id' rid d. unfold a_doc in *. rewrite a_reg_app. unfold a_reg in *. case_decide.
    + simpl. rewrite Hr, at1_nil. done.
    + intros E. specialize (H3 _ _ _ E). lia.
Qed.

Lemma AWF_deliver `{Env} ctx msg n a :
  0 <= n -> AWF n a -> AWF (n + 1) (spec_deliver ctx msg a).
Proof.
  intros Hn HW. unfold spec_deliver.
  destruct (spec_handle ctx msg a) as [[ans a']|] eqn:E; [|apply (AWF_mono n); [lia|done]].
  destruct msg; simpl in E;
    unfold spec_AddRegistry, spec_AddRecord, spec_UpdateRecordStatus, spec_GrantRole,
      spec_RevokeRole, spec_UpdateParams in E; run_inv E.
  all: eauto using AWF_add_registry, AWF_add_version, AWF_add_doc.
  all: apply (AWF_mono n); [lia|]; auto using AWF_roles.
  apply AWF_status; [done|]. intros l. apply length_alter1.
Qed.
