(* ===== verification/Ledger.v ===== *)
(** What holds of every state x/anchoring can reach from its default genesis.

    A trace is a list of messages with their block contexts.  The theorems ask
    only that the role names the trace uses do not collide under Keccak and that
    the trace is shorter than 2^64 - 1 messages, so that no counter wraps. *)

From S2P Require Import Prelude Types Rbac Keeper MsgServer Spec Refine Concrete.

(** The store after the default genesis: parameters, and no registry. *)
Definition genesis_store (p : Params) : KState :=
  set_RegistryCount (Some 0) (set_Params (Some p) empty_state).

Definition empty_ledger (p : Params) : AState := mkA p [] ∅.

Section traces.
Context {ENV : Env}.

(** The answers of the handlers along a trace. *)
Fixpoint answers (txs : list (Ctx * Msg)) (s : KState) : list (result (option Z)) :=
  match txs with
  | [] => []
  | tx :: txs' => (handle tx.1 tx.2 s).1 :: answers txs' (deliver tx.1 tx.2 s)
  end.

Fixpoint spec_answers (txs : list (Ctx * Msg)) (a : AState) : list (result (option Z)) :=
  match txs with
  | [] => []
  | tx :: txs' =>
      match spec_handle tx.1 tx.2 a with Ok (ans, _) => Ok ans | Err e => Err e end
      :: spec_answers txs' (spec_deliver tx.1 tx.2 a)
  end.

(** The roles a trace consults or changes. *)
Fixpoint trace_keys (txs : list (Ctx * Msg)) (a : AState) : list RoleKey :=
  match txs with
  | [] => []
  | tx :: txs' => msg_keys a tx.2 ++ trace_keys txs' (spec_deliver tx.1 tx.2 a)
  end.

Definition no_collision (L : list RoleKey) : Prop := hash_inj (fun k => k ∈ L).

(** Collision freedom is decidable: hash each role once and compare. *)
Lemma no_collision_NoDup L : no_collision L <-> NoDup (role_hash <$> remove_dups L).
Proof.
  unfold no_collision, hash_inj. split.
  - intros Hn. apply NoDup_fmap_2_strong; [|apply NoDup_remove_dups].
    intros x y Hx Hy. rewrite elem_of_remove_dups in Hx, Hy. by apply Hn.
  - intros Hnd x y Hx Hy E.
    apply elem_of_remove_dups in Hx, Hy.
    apply list_elem_of_lookup in Hx as [i Hi], Hy as [j Hj].
    assert (i = j) as ->; [|congruence].
    apply (NoDup_lookup _ _ _ (role_hash x) Hnd); rewrite list_lookup_fmap, ?Hi, ?Hj; simpl;
      by rewrite ?E.
Qed.

#[export] Instance no_collision_dec L : Decision (no_collision L).
Proof.
  refine (cast_if (decide (NoDup (role_hash <$> remove_dups L)))); by rewrite no_collision_NoDup.
Defined.

(** A trace the theorems are about. *)
Record good_trace (p : Params) (txs : list (Ctx * Msg)) : Prop := {
  gt_keys : no_collision (trace_keys txs (empty_ledger p));
  gt_short : Z.of_nat (length txs) < two64 - 1
}.

Lemma trace_keys_app txs more a :
  trace_keys (txs ++ more) a = trace_keys txs a ++ trace_keys more (spec_deliver_all txs a).
Proof.
  revert a. induction txs as [|tx txs IH]; intros a; [done|]. simpl. by rewrite IH, app_assoc.
Qed.

Lemma good_trace_prefix p txs more : good_trace p (txs ++ more) -> good_trace p txs.
Proof.
  intros [Hk Hs]. rewrite length_app in Hs. split; [|lia].
  intros k1 k2 H1 H2. apply Hk; rewrite trace_keys_app; apply elem_of_app; by left.
Qed.

Lemma R_init K p : R K (genesis_store p) (empty_ledger p).
Proof.
  split; simpl; try done; intros; rewrite ?lookup_empty.
  all: unfold a_record, a_doc, a_doc_id, a_reg; simpl; rewrite ?at1_nil; try done.
  - unfold member. rewrite lookup_empty. split; [by intros []|]. intros E. by apply not_elem_of_empty in E.
  - match goal with E : member _ _ _ |- _ => destruct E as [? E]; by rewrite lookup_empty in E end.
Qed.

Lemma AWF_init p : AWF 0 (empty_ledger p).
Proof.
  split; [done| |]; unfold a_doc, a_reg; intros; simpl in *; rewrite at1_nil in *; done.
Qed.

Context {LAWS : EnvLaws}.

Lemma sim_trace K txs s a n :
  hash_inj K -> R K s a -> AWF n a -> 0 <= n -> n + Z.of_nat (length txs) < two64 - 1 ->
  Forall K (trace_keys txs a) ->
  answers txs s = spec_answers txs a /\
  R K (deliver_all txs s) (spec_deliver_all txs a) /\
  AWF (n + Z.of_nat (length txs)) (spec_deliver_all txs a).
Proof.
  intros HK. revert s a n.
  induction txs as [|tx txs IH]; intros s a n HR HW H0 Hn HF.
  { simpl. by rewrite Z.add_0_r. }
  simpl length in Hn. simpl in HF. apply Forall_app in HF as [HF1 HF2].
  pose proof (sim_handle K HK tx.1 tx.2 s a n HR HW ltac:(lia) HF1) as Hh.
  pose proof (sim_deliver K HK tx.1 tx.2 s a n HR HW ltac:(lia) HF1) as HR'.
  pose proof (AWF_deliver tx.1 tx.2 n a H0 HW) as HW'.
  destruct (IH _ _ (n + 1) HR' HW' ltac:(lia) ltac:(lia) HF2) as (E & ? & HW'').
  simpl. split; [|split].
  - f_equal; [|done]. destruct (spec_handle tx.1 tx.2 a) as [[ans a']|e]; simpl in Hh; naive_solver.
  - done.
  - replace (n + Z.of_nat (S (length txs))) with (n + 1 + Z.of_nat (length txs)) by lia. done.
Qed.

(** The ledger behind a reachable store. *)
Lemma reachable_ledger p txs :
  good_trace p txs ->
  let K := fun k => k ∈ trace_keys txs (empty_ledger p) in
  answers txs (genesis_store p) = spec_answers txs (empty_ledger p) /\
  R K (deliver_all txs (genesis_store p)) (spec_deliver_all txs (empty_ledger p)) /\
  AWF (Z.of_nat (length txs)) (spec_deliver_all txs (empty_ledger p)).
Proof.
  intros [Hk Hs] K.
  destruct (sim_trace K txs (genesis_store p) (empty_ledger p) 0) as (? & ? & ?); auto.
  - apply R_init.
  - apply AWF_init.
  - lia.
  - unfold K. apply Forall_forall. done.
Qed.

(** One more step of a trace, with the same roles before and after it. *)
Lemma reachable_step p txs ctx msg :
  good_trace p (txs ++ [(ctx, msg)]) ->
  let K := fun k => k ∈ trace_keys (txs ++ [(ctx, msg)]) (empty_ledger p) in
  let s := deliver_all txs (genesis_store p) in
  let a := spec_deliver_all txs (empty_ledger p) in
  hash_inj K /\ R K s a /\ R K (deliver ctx msg s) (spec_deliver ctx msg a).
Proof.
  intros [Hk Hs] K s a. rewrite length_app in Hs. simpl in Hs. split; [done|].
  assert (Forall K (trace_keys txs (empty_ledger p)) /\ Forall K (msg_keys a msg)) as [HF1 HF2].
  { unfold K. rewrite trace_keys_app. fold a. simpl. rewrite app_nil_r.
    split; apply Forall_forall; intros k Hin; apply elem_of_app; auto. }
  destruct (sim_trace K txs (genesis_store p) (empty_ledger p) 0 Hk (R_init _ _) (AWF_init _))
    as (_ & HR & HW); [lia|lia|done|]. split; [done|].
  apply (sim_deliver K Hk ctx msg s a (Z.of_nat (length txs))); [done|done|lia|done].
Qed.
End traces.

(** ** Administrators *)

Definition has_admin (a : AState) : Prop :=
  forall id r, a_reg a id = Some r -> exists x, (admin_key id, x) ∈ a_members a.

Lemma a_reg_keep_some p l f id m id' r :
  a_reg (mkA p (alter1 f id l) m) id' = Some r -> exists r0, at1 l id' = Some r0.
Proof. rewrite a_reg_alter. destruct (at1 l id'); [eauto|]. by case_decide. Qed.

Lemma elem_of_holders a k x : x ∈ holders a k <-> (k, x) ∈ a_members a.
Proof.
  unfold holders. rewrite elem_of_map. split.
  - intros ([k' y'] & -> & [E ?]%elem_of_filter). simpl in *. by subst.
  - intros Hy. exists (k, x). split; [done|]. by apply elem_of_filter.
Qed.

(** A successful revocation, by an admin of the registry, takes one member out, and never
    the last admin. *)
Lemma spec_RevokeRole_ok `{Env} req a ans a' :
  spec_RevokeRole req a = Ok (ans, a') ->
  exists m revoker x, let k := scoped_key (mr_RegistryId m) (mr_Checksum m) (mr_Role m) in
    req = Some m /\ StringToBytes (mr_Admin m) = Some revoker /\ StringToBytes (mr_Address m) = Some x
    /\ a' = mkA (a_params a) (a_regs a) (a_members a ∖ {[ (k, x) ]})
    /\ (k, x) ∈ a_members a
    /\ (admin_key (mr_RegistryId m), revoker) ∈ a_members a
    /\ (forall id, k = admin_key id -> exists y, y <> x /\ (k, y) ∈ a_members a).
Proof.
  unfold spec_RevokeRole, spec_request, spec_address, of_option. run_unfold. intros E.
  destruct req as [m|]; [|done]. destruct (invalid_request _); [|done].
  destruct (StringToBytes (mr_Admin m)) as [revoker|] eqn:Er; [|done].
  destruct (StringToBytes (mr_Address m)) as [revokee|] eqn:Ee; [|done].
  destruct (spec_scope a _ _); [|done]. exists m, revoker, revokee. cbv zeta.
  set (k := scoped_key _ _ _) in *. destruct (bool_decide_reflect ((k, revokee) ∈ a_members a)) as [Hin|]; simpl in E; [|done].
  destruct (bool_decide _ && bool_decide _) eqn:Eb; [done|].
  destruct (bool_decide_reflect ((admin_key (mr_RegistryId m), revoker) ∈ a_members a)); simplify_eq/=.
  split_and!; try done. intros id Hk.
  assert (holders a k <> {[ revokee ]}) as Hne.
  { intros Hh. rewrite andb_false_iff, !bool_decide_eq_false in Eb.
    destruct Eb as [Eb|Eb]; [|done]. apply Eb.
    pose proof (scoped_registry (mr_RegistryId m) (mr_Checksum m) (mr_Role m)) as Hid.
    fold k in Hid. rewrite Hk in Hid |- *. simpl in Hid. by subst. }
  destruct (decide (exists y, y ∈ holders a k /\ y <> revokee)) as [(y & Hy & ?)|Hno].
  { exists y. by apply elem_of_holders in Hy. }
  destruct Hne. apply set_eq. intros y. rewrite elem_of_singleton. split.
  - intros Hy. destruct (decide (y = revokee)); [done|]. destruct Hno. eauto.
  - intros ->. by apply elem_of_holders.
Qed.

Lemma has_admin_deliver `{Env} ctx msg a : has_admin a -> has_admin (spec_deliver ctx msg a).
Proof.
  intros Ha. unfold spec_deliver.
  destruct (spec_handle ctx msg a) as [[ans a']|] eqn:E; [|done].
  destruct msg as [req|req|req|req|req|req]; simpl in E.
  5: { apply spec_RevokeRole_ok in E as (m & by_ & out & _ & _ & _ & -> & Hin & _ & Hlast).
    intros id r Hr. destruct (Ha id r Hr) as [x Hx]. simpl.
    set (k := scoped_key _ _ _) in *.
    destruct (decide ((admin_key id, x) = (k, out))) as [E|Hne]; [|exists x; set_solver].
    apply pair_equal_spec in E as [E ->]. destruct (Hlast id (eq_sym E)) as (y & ? & Hy).
    exists y. rewrite E. apply elem_of_difference. split; [done|]. rewrite elem_of_singleton. congruence. }
  all: unfold spec_AddRegistry, spec_AddRecord, spec_UpdateRecordStatus, spec_GrantRole,
      spec_UpdateParams in E; run_inv E; intros id' r'.
  - rewrite a_reg_app. simpl. case_decide; intros Hr.
    + subst. eexists. by apply elem_of_union_l, elem_of_singleton.
    + destruct (Ha id' r' Hr) as [x Hx]. exists x. set_solver.
  - intros [r0 Hr]%a_reg_keep_some. by apply (Ha id' r0).
  - intros [r0 Hr]%a_reg_keep_some. by apply (Ha id' r0).
  - intros [r0 Hr]%a_reg_keep_some. by apply (Ha id' r0).
  - intros Hr. destruct (Ha id' r' Hr) as [x Hx]. exists x. simpl. set_solver.
Qed.

Lemma has_admin_trace `{Env} txs a : has_admin a -> has_admin (spec_deliver_all txs a).
Proof.
  revert a. induction txs as [|tx txs IH]; intros a Ha; [done|].
  by apply IH, has_admin_deliver.
Qed.

(** Only a revocation takes a role away. *)
Lemma spec_loss `{Env} ctx msg a k x :
  (k, x) ∈ a_members a -> (k, x) ∉ a_members (spec_deliver ctx msg a) ->
  exists m revoker, msg = RevokeRoleMsg (Some m) /\
    StringToBytes (mr_Admin m) = Some revoker /\ StringToBytes (mr_Address m) = Some x /\
    k = scoped_key (mr_RegistryId m) (mr_Checksum m) (mr_Role m) /\
    (admin_key (mr_RegistryId m), revoker) ∈ a_members a /\
    (k = admin_key (mr_RegistryId m) -> exists y, y <> x /\ (k, y) ∈ a_members (spec_deliver ctx msg a)).
Proof.
  unfold spec_deliver. intros Hin.
  destruct (spec_handle ctx msg a) as [[ans a']|] eqn:E; [|done].
  destruct msg as [req|req|req|req|req|req]; simpl in E.
  5: { apply spec_RevokeRole_ok in E as (m & revoker & out & -> & Hr & Hx & -> & _ & Hadm & Hlast).
    intros Hout. simpl in Hout |- *. exists m, revoker. set (k' := scoped_key _ _ _) in *.
    destruct (decide ((k, x) = (k', out))) as [[-> ->]%pair_equal_spec|]; [|set_solver].
    split_and!; try done. intros Ek. destruct (Hlast _ Ek) as (y & ? & ?). exists y.
    split; [done|]. apply elem_of_difference. split; [done|]. rewrite elem_of_singleton. congruence. }
  all: unfold spec_AddRegistry, spec_AddRecord, spec_UpdateRecordStatus, spec_GrantRole,
      spec_UpdateParams in E; run_inv E; intros []; simpl; set_solver.
Qed.

(** ** History *)

(** The same anchored content: only the status and the latest flag may differ. *)
Definition same_content (x y : Record_) : Prop :=
  set_IsLatest false (set_Status [] x) = set_IsLatest false (set_Status [] y).

#[export] Instance same_content_dec x y : Decision (same_content x y).
Proof. unfold same_content. apply _. Defined.

(** [y] is a later state of the stored version [x]. *)
Definition later (x y : Record_) : Prop :=
  same_content x y /\ (rec_IsLatest y = true -> rec_IsLatest x = true).

Definition extends (a a' : AState) : Prop :=
  forall id rid i x, a_record a id rid i = Some x ->
  exists y, a_record a' id rid i = Some y /\ later x y.

#[export] Instance later_preorder : PreOrder later.
Proof.
  split; unfold later, same_content.
  - intros x. done.
  - intros x y z [H1 H2] [H3 H4]. split; [congruence|auto].
Qed.

#[export] Instance extends_preorder : PreOrder extends.
Proof.
  split.
  - intros a id rid i x Hx. exists x. by split.
  - intros a b c H1 H2 id rid i x Hx. destruct (H1 _ _ _ _ Hx) as (y & Hy & ?).
    destruct (H2 _ _ _ _ Hy) as (z & Hz & ?). exists z. split; [done|]. by trans y.
Qed.

Lemma extends_add_version a id rid v m :
  extends a (mkA (a_params a)
    (alter1 (set_docs (alter1 (set_versions (fun l => l ++ [v])) rid)) id (a_regs a)) m).
Proof.
  intros id' rid' i x. unfold a_record. rewrite a_doc_alter.
  destruct (a_doc a id' rid') as [d|] eqn:Ed; simpl; [|done].
  destruct (at1 (d_versions d) i) as [w|] eqn:Ew; simpl; [|done]. intros [= <-].
  case_decide; simpl; [|rewrite Ew; simpl; by eexists].
  pose proof (at1_range _ _ _ Ew) as Hi. rewrite at1_app_old, Ew by lia. simpl.
  eexists; split; [done|]. split; [done|]. simpl. rewrite length_app, !Z.eqb_eq. simpl. lia.
Qed.

Lemma extends_add_doc a id r d m :
  a_reg a id = Some r ->
  extends a (mkA (a_params a) (alter1 (set_docs (fun l => l ++ [d])) id (a_regs a)) m).
Proof.
  intros Hr id' rid' i x. unfold a_record. rewrite (a_doc_app _ _ r) by done.
  destruct (decide (_ /\ _)) as [[-> ->]|]; [|intros; by eexists].
  unfold a_doc. rewrite Hr. simpl. rewrite (proj2 (at1_None _ _)); [done|lia].
Qed.

Lemma extends_status a id rid j st m :
  extends a (mkA (a_params a)
    (alter1 (set_docs (alter1 (set_versions (alter1 (set_v_status st) j)) rid)) id (a_regs a)) m).
Proof.
  intros id' rid' i x. unfold a_record. rewrite a_doc_alter.
  destruct (a_doc a id' rid') as [d|] eqn:Ed; simpl; [|done].
  destruct (at1 (d_versions d) i) as [w|] eqn:Ew; simpl; [|done]. intros [= <-].
  case_decide; simpl; [|rewrite Ew; simpl; by eexists].
  destruct (decide (j = i)) as [->|Hne].
  - rewrite at1_alter_eq, Ew. simpl. eexists; split; [done|].
    split; [done|]. simpl. by rewrite length_alter1.
  - rewrite at1_alter_ne, Ew by done. simpl. eexists; split; [done|].
    split; [done|]. simpl. by rewrite length_alter1.
Qed.

Lemma extends_add_registry a r m :
  extends a (mkA (a_params a) (a_regs a ++ [r]) m).
Proof.
  intros id rid i x. unfold a_record, a_doc. rewrite a_reg_app. unfold a_reg.
  case_decide; [|intros; by eexists]. subst.
  by rewrite (proj2 (at1_None (a_regs a) _)) by lia.
Qed.

Lemma extends_deliver `{Env} ctx msg a : extends a (spec_deliver ctx msg a).
Proof.
  unfold spec_deliver.
  destruct (spec_handle ctx msg a) as [[ans a']|] eqn:E; [|done].
  destruct msg; simpl in E;
    unfold spec_AddRegistry, spec_AddRecord, spec_UpdateRecordStatus, spec_GrantRole,
      spec_RevokeRole, spec_UpdateParams in E; run_inv E.
  all: eauto using extends_add_version, extends_add_doc, extends_status, extends_add_registry.
  all: intros id rid i x Hx; exists x; by split.
Qed.

Lemma extends_trace `{Env} txs a : extends a (spec_deliver_all txs a).
Proof.
  revert a. induction txs as [|tx txs IH]; intros a; [done|].
  etrans; [apply extends_deliver|apply IH].
Qed.

(** ** A concrete trace *)

Module Demo.
Definition alice : bytes := replicate 20 x0a.
Definition bob : bytes := replicate 20 x0b.
Definition carol : bytes := replicate 20 x0c.
Definition ctx : Ctx := mkCtx (bs "2026-01-30 05:39:59 +0000 UTC") 10 false.
Definition params : Params := mkParams (addr_to_text carol).

Definition doc (uri : bytes) : Record_ :=
  mkRecord uri (bs "abc123") (bs "sha256") (bs "{a:1}") [] (bs "active") 0 0 false 1.

Definition create : Msg :=
  AddRegistryMsg (Some (mkMsgAddRegistry (addr_to_text alice) (bs "deeds") [] [])).
Definition anchor (who uri : bytes) : Msg :=
  AddRecordMsg (Some (mkMsgAddRecord (addr_to_text who) (Some (doc uri)))).
Definition retire (who : bytes) : Msg :=
  UpdateRecordStatusMsg (Some (mkMsgUpdateRecordStatus (addr_to_text who) 1 1 1 (bs "retired"))).
Definition grant (who to checksum role : bytes) : Msg :=
  GrantRoleMsg (Some (mkMsgRole (addr_to_text who) 1 checksum (addr_to_text to) role)).
Definition revoke (who from checksum role : bytes) : Msg :=
  RevokeRoleMsg (Some (mkMsgRole (addr_to_text who) 1 checksum (addr_to_text from) role)).

(** Alice creates a registry and anchors a document; Bob may not write until
    Alice makes him editor of that document; he then adds a version and retires
    the first one.  Carol, the module admin, makes Bob a registry admin, and Bob
    removes Alice, but cannot remove himself. *)
Definition trace : list (Ctx * Msg) :=
  map (fun m => (ctx, m))
    [create; anchor alice (bs "ipfs://1"); anchor bob (bs "ipfs://2");
     grant alice bob (bs "abc123") RoleEditor; anchor bob (bs "ipfs://2"); retire bob;
     grant carol bob [] RoleAdmin; revoke bob alice [] RoleAdmin; revoke bob bob [] RoleAdmin].

Definition store : KState := deliver_all trace (genesis_store params).
End Demo.

Example demo_answers :
  answers Demo.trace (genesis_store Demo.params) =
  [Ok (Some 1); Ok (Some 1); Err ErrUnauthorized; Ok None; Ok (Some 1); Ok None; Ok None; Ok None;
   Err (ErrInvalidRequest (ErrPlain "cannot revoke the last registry admin"))].
Proof. vm_compute. reflexivity. Qed.

Lemma demo_good : good_trace Demo.params Demo.trace.
Proof.
  split; [|done].
  assert (Hd : bool_decide (no_collision (trace_keys Demo.trace (empty_ledger Demo.params))) = true)
    by (vm_compute; reflexivity).
  by apply bool_decide_eq_true in Hd.
Qed.

(** ** Facts about reachable stores *)

Section facts.
Context {ENV : Env} {LAWS : EnvLaws}.

Lemma latest_facts (p : Params) (txs : list (Ctx * Msg)) (id rid top : Z) :
  good_trace p txs ->
  let s := deliver_all txs (genesis_store p) in
  RecordIndices s !! (id, rid) = Some top ->
  1 <= top /\ (forall i, is_Some (Records s !! (id, rid, i)) <-> 1 <= i <= top) /\
  (forall i x, Records s !! (id, rid, i) = Some x -> (rec_IsLatest x = true <-> i = top)).
Proof.
  intros Hg s. destruct (reachable_ledger p txs Hg) as (_ & HR & HW). fold s in HR.
  rewrite (R_indices _ _ _ HR). intros [d [Hd ->]]%fmap_Some.
  assert (Hrec : forall i, Records s !! (id, rid, i)
                 = conc_record id rid i d <$> at1 (d_versions d) i).
  { intros i. rewrite (R_records _ _ _ HR). unfold a_record. by rewrite Hd. }
  split_and!.
  - pose proof (wf_versions _ _ HW id rid d Hd). lia.
  - intros i. by rewrite Hrec, fmap_is_Some, at1_is_Some.
  - intros i x. rewrite Hrec. intros [v [Hv ->]]%fmap_Some. simpl. by rewrite Z.eqb_eq.
Qed.

Lemma index_facts (p : Params) (txs : list (Ctx * Msg)) (id rid : Z) (c : bytes) :
  good_trace p txs ->
  let s := deliver_all txs (genesis_store p) in
  RecordIdByRegistryAndChecksum s !! (id, c) = RecordIdByChecksumAndRegistry s !! (c, id) /\
  (RecordIdByRegistryAndChecksum s !! (id, c) = Some rid <->
     exists i x, Records s !! (id, rid, i) = Some x /\ rec_Checksum x = c) /\
  (forall i j x y, Records s !! (id, rid, i) = Some x -> Records s !! (id, rid, j) = Some y ->
     rec_Checksum x = rec_Checksum y) /\
  (forall i x, Records s !! (id, rid, i) = Some x ->
     rec_RegistryId x = id /\ rec_RecordId x = rid /\ rec_Index x = i).
Proof.
  intros Hg s. destruct (reachable_ledger p txs Hg) as (_ & HR & HW). fold s in HR.
  assert (Hrec : forall i x, Records s !! (id, rid, i) = Some x -> exists d v,
    a_doc (spec_deliver_all txs (empty_ledger p)) id rid = Some d /\ x = conc_record id rid i d v).
  { intros i x. rewrite (R_records _ _ _ HR). unfold a_record.
    destruct (a_doc _ id rid) as [d|]; [|done]. simpl. intros [v [Hv ->]]%fmap_Some. eauto. }
  split_and!.
  - by rewrite (R_byRC _ _ _ HR), (R_byCR _ _ _ HR).
  - rewrite (R_byRC _ _ _ HR). unfold a_doc_id. split.
    + intros (r & Hr & Hd)%bind_Some. destruct (R_doc _ _ _ _ _ _ _ _ HR HW Hr Hd)
        as (d & Hdoc & Hc & _ & _ & Hlen).
      destruct (at1 (d_versions d) 1) as [v|] eqn:Ev; [|apply at1_None in Ev; lia].
      exists 1, (conc_record id rid 1 d v). rewrite (R_records _ _ _ HR). unfold a_record.
      rewrite Hdoc. simpl. by rewrite Ev.
    + intros (i & x & Hx & <-). destruct (Hrec i x Hx) as (d & v & Hd & ->). simpl.
      unfold a_doc in Hd. destruct (a_reg _ id) as [r|] eqn:Er; [|done]. simpl in *.
      apply doc_id_at1; [by apply (wf_docs _ _ HW id r)|done].
  - intros i j x y Hx Hy. destruct (Hrec i x Hx) as (d & v & Hd & ->).
    destruct (Hrec j y Hy) as (d' & v' & Hd' & ->). simpl. congruence.
  - intros i x Hx. by destruct (Hrec i x Hx) as (d & v & Hd & ->).
Qed.

Lemma history_facts (p : Params) (txs more : list (Ctx * Msg)) (k : Z * Z * Z) (x : Record_) :
  good_trace p (txs ++ more) ->
  Records (deliver_all txs (genesis_store p)) !! k = Some x ->
  exists y, Records (deliver_all (txs ++ more) (genesis_store p)) !! k = Some y /\
            same_content x y /\ (rec_IsLatest y = true -> rec_IsLatest x = true).
Proof.
  intros Hg Hx.
  destruct (reachable_ledger p txs (good_trace_prefix _ _ _ Hg)) as (_ & HR & _).
  destruct (reachable_ledger p _ Hg) as (_ & HR' & _).
  destruct k as [[id rid] i]. rewrite (R_records _ _ _ HR) in Hx.
  unfold spec_deliver_all in HR'. rewrite fold_left_app in HR'.
  destruct (extends_trace more _ _ _ _ _ Hx) as (y & Hy & Hl).
  exists y. rewrite (R_records _ _ _ HR'). by split.
Qed.

Lemma dense_facts (p : Params) (txs : list (Ctx * Msg)) :
  good_trace p txs ->
  let s := deliver_all txs (genesis_store p) in
  exists n, RegistryCount s = Some n /\ 0 <= n <= Z.of_nat (length txs) /\
  (forall id, is_Some (Registries s !! id) <-> 1 <= id <= n) /\
  (forall id r, Registries s !! id = Some r -> reg_Id r = id) /\
  (forall id, is_Some (RecordsCountByRegistry s !! id) <-> 1 <= id <= n) /\
  (forall id m, RecordsCountByRegistry s !! id = Some m -> 0 <= m <= Z.of_nat (length txs) /\
     forall rid, is_Some (RecordIndices s !! (id, rid)) <-> 1 <= rid <= m) /\
  (forall id rid, is_Some (RecordIndices s !! (id, rid)) -> 1 <= id <= n).
Proof.
  intros Hg s. destruct (reachable_ledger p txs Hg) as (_ & HR & HW). fold s in HR.
  eexists; split; [apply (R_count _ _ _ HR)|]. pose proof (wf_regs _ _ HW) as Hn. split_and!; try lia.
  - intros id. rewrite (R_regs _ _ _ HR), fmap_is_Some. apply at1_is_Some.
  - intros id r. rewrite (R_regs _ _ _ HR). by intros [r0 [_ ->]]%fmap_Some.
  - intros id. rewrite (R_reccount _ _ _ HR), fmap_is_Some. apply at1_is_Some.
  - intros id m. rewrite (R_reccount _ _ _ HR). intros [r [Hr ->]]%fmap_Some.
    split; [pose proof (wf_docs _ _ HW id r Hr); lia|]. intros rid.
    rewrite (R_indices _ _ _ HR). unfold a_doc. rewrite Hr. simpl.
    by rewrite fmap_is_Some, at1_is_Some.
  - intros id rid. rewrite (R_indices _ _ _ HR), fmap_is_Some. unfold a_doc.
    intros [d Hd]. apply at1_is_Some. fold (a_reg (spec_deliver_all txs (empty_ledger p)) id).
    destruct (a_reg _ id); [by eexists|done].
Qed.
End facts.

(** ** Properties of every reachable state *)

Section properties.
Context {ENV : Env} {LAWS : EnvLaws}.

(** C1: refinement.  Along every trace the handlers of the keeper give exactly
    the answers of the abstract ledger, errors included, and the eight
    collections and two role tables they leave are the ones the ledger
    determines: hashed roles, counters and both checksum indexes add nothing. *)
Theorem keeper_refines_ledger (p : Params) (txs : list (Ctx * Msg)) :
  good_trace p txs ->
  answers txs (genesis_store p) = spec_answers txs (empty_ledger p) /\
  R (fun k => k ∈ trace_keys txs (empty_ledger p))
    (deliver_all txs (genesis_store p)) (spec_deliver_all txs (empty_ledger p)).
Proof. intros Hg. destruct (reachable_ledger p txs Hg) as (? & ? & ?). done. Qed.

(** C2: a registry is never left without an administrator, whatever grants and
    revocations were made, because [RevokeRole] refuses to remove the last one. *)
Theorem registry_always_has_admin (p : Params) (txs : list (Ctx * Msg)) (id : Z) :
  good_trace p txs ->
  is_Some (Registries (deliver_all txs (genesis_store p)) !! id) ->
  exists x, member (RBAC_RoleMembers (deliver_all txs (genesis_store p)))
              (RegistryRole id RoleAdmin) x.
Proof.
  intros Hg Hid. destruct (reachable_ledger p txs Hg) as (_ & HR & _).
  rewrite (R_regs _ _ _ HR) in Hid. apply fmap_is_Some in Hid as [r Hr].
  destruct (has_admin_trace txs (empty_ledger p)) with (id := id) (r := r) as [x Hx]; [|done|].
  { intros id' r'. unfold a_reg. simpl. by rewrite at1_nil. }
  exists x. apply (R_members _ _ _ HR (admin_key id)); [|done]. by apply (R_members_K _ _ _ HR) in Hx.
Qed.

(** C4: anchored history is append-only.  Once version [index] of a record is
    stored, every later state still has it with the same uri, checksum,
    algorithm, metadata, timestamp, ids and registry; only its status may
    change, and its latest flag may only go from true to false. *)
Theorem history_append_only (p : Params) (txs more : list (Ctx * Msg)) (k : Z * Z * Z) (x : Record_) :
  good_trace p (txs ++ more) ->
  Records (deliver_all txs (genesis_store p)) !! k = Some x ->
  exists y, Records (deliver_all (txs ++ more) (genesis_store p)) !! k = Some y /\
            same_content x y /\ (rec_IsLatest y = true -> rec_IsLatest x = true).
Proof. apply history_facts. Qed.

(** C5: of every record exactly the newest version is the latest: its versions
    are numbered without gaps from 1 to the index the keeper stores, and the
    latest flag is set on that one and on no other. *)
Theorem exactly_one_latest (p : Params) (txs : list (Ctx * Msg)) (id rid top : Z) :
  good_trace p txs ->
  let s := deliver_all txs (genesis_store p) in
  RecordIndices s !! (id, rid) = Some top ->
  1 <= top /\ (forall i, is_Some (Records s !! (id, rid, i)) <-> 1 <= i <= top) /\
  (forall i x, Records s !! (id, rid, i) = Some x -> (rec_IsLatest x = true <-> i = top)).
Proof. apply latest_facts. Qed.

(** C16: the indexes agree.  The two checksum tables are mirror images, a
    checksum maps to a record exactly when some version of that record carries
    it, all versions of a record carry the same checksum, and each stored record
    repeats the ids of its key. *)
Theorem indexes_consistent (p : Params) (txs : list (Ctx * Msg)) (id rid : Z) (c : bytes) :
  good_trace p txs ->
  let s := deliver_all txs (genesis_store p) in
  RecordIdByRegistryAndChecksum s !! (id, c) = RecordIdByChecksumAndRegistry s !! (c, id) /\
  (RecordIdByRegistryAndChecksum s !! (id, c) = Some rid <->
     exists i x, Records s !! (id, rid, i) = Some x /\ rec_Checksum x = c) /\
  (forall i j x y, Records s !! (id, rid, i) = Some x -> Records s !! (id, rid, j) = Some y ->
     rec_Checksum x = rec_Checksum y) /\
  (forall i x, Records s !! (id, rid, i) = Some x ->
     rec_RegistryId x = id /\ rec_RecordId x = rid /\ rec_Index x = i).
Proof. apply index_facts. Qed.

(** C17: identifiers are dense and the counters exact, without wrap-around: after any trace
    the registries are those numbered 1 to [RegistryCount], each stored under its own id;
    each of them and nothing else has a record counter, and the record ids in use in a
    registry are exactly those from 1 to its counter; every counter is at most the
    number of messages, so an increment never skips, repeats or wraps. *)
Theorem ids_dense (p : Params) (txs : list (Ctx * Msg)) :
  good_trace p txs ->
  let s := deliver_all txs (genesis_store p) in
  exists n, RegistryCount s = Some n /\ 0 <= n <= Z.of_nat (length txs) /\
  (forall id, is_Some (Registries s !! id) <-> 1 <= id <= n) /\
  (forall id r, Registries s !! id = Some r -> reg_Id r = id) /\
  (forall id, is_Some (RecordsCountByRegistry s !! id) <-> 1 <= id <= n) /\
  (forall id m, RecordsCountByRegistry s !! id = Some m -> 0 <= m <= Z.of_nat (length txs) /\
     forall rid, is_Some (RecordIndices s !! (id, rid)) <-> 1 <= rid <= m) /\
  (forall id rid, is_Some (RecordIndices s !! (id, rid)) -> 1 <= id <= n).
Proof. apply dense_facts. Qed.

End properties.

Lemma keeper_refines_ledger_witness :
  good_trace Demo.params Demo.trace /\
  answers Demo.trace (genesis_store Demo.params)
  = spec_answers Demo.trace (empty_ledger Demo.params).
Proof.
  split; [exact demo_good|].
  exact (proj1 (keeper_refines_ledger Demo.params Demo.trace demo_good)).
Defined.

Lemma registry_always_has_admin_witness :
  exists x, member (RBAC_RoleMembers (deliver_all Demo.trace (genesis_store Demo.params)))
              (RegistryRole 1 RoleAdmin) x.
Proof. apply (registry_always_has_admin Demo.params Demo.trace 1 demo_good). by_eval. Defined.

Lemma history_append_only_witness :
  let s1 := deliver_all (take 2 Demo.trace) (genesis_store Demo.params) in
  let x := default (Demo.doc []) (Records s1 !! (1, 1, 1)) in
  exists y, Records (deliver_all (take 2 Demo.trace ++ drop 2 Demo.trace)
                       (genesis_store Demo.params)) !! (1, 1, 1) = Some y /\
            same_content x y /\ (rec_IsLatest y = true -> rec_IsLatest x = true).
Proof.
  apply (history_append_only Demo.params (take 2 Demo.trace) (drop 2 Demo.trace)).
  - exact demo_good.
  - by_eval.
Defined.

Lemma exactly_one_latest_witness :
  let s := deliver_all Demo.trace (genesis_store Demo.params) in
  1 <= 2 /\ (forall i, is_Some (Records s !! (1, 1, i)) <-> 1 <= i <= 2) /\
  (forall i x, Records s !! (1, 1, i) = Some x -> (rec_IsLatest x = true <-> i = 2)).
Proof. apply (exactly_one_latest Demo.params Demo.trace 1 1 2 demo_good). by_eval. Defined.

Lemma indexes_consistent_witness :
  let s := deliver_all Demo.trace (genesis_store Demo.params) in
  RecordIdByRegistryAndChecksum s !! (1, bs "abc123")
  = RecordIdByChecksumAndRegistry s !! (bs "abc123", 1).
Proof.
  exact (proj1 (indexes_consistent Demo.params Demo.trace 1 1 (bs "abc123") demo_good)).
Defined.

Lemma demo_counts :
  RegistryCount (deliver_all Demo.trace (genesis_store Demo.params)) = Some 1 /\
  RecordsCountByRegistry (deliver_all Demo.trace (genesis_store Demo.params)) !! 1 = Some 1.
Proof. split; vm_compute; reflexivity. Qed.

Lemma ids_dense_witness :
  exists n, RegistryCount (deliver_all Demo.trace (genesis_store Demo.params)) = Some n /\
  (forall id, is_Some (Registries (deliver_all Demo.trace (genesis_store Demo.params)) !! id)
     <-> 1 <= id <= n) /\
  (forall rid, is_Some (RecordIndices (deliver_all Demo.trace (genesis_store Demo.params)) !! (1, rid))
     <-> 1 <= rid <= 1).
Proof.
  destruct (ids_dense Demo.params Demo.trace demo_good) as (n & Hn & _ & Hr & _ & _ & Hc & _).
  exists n. split; [exact Hn|]. split; [exact Hr|]. exact (proj2 (Hc 1 1 (proj2 demo_counts))).
Defined.
