(* ===== verification/Access.v ===== *)
(** Who may change what: the access control of the message handlers.

    The first part bounds what a handler writes before it returns, in every store,
    reachable or not, and in every run, failed ones included.  The theorems on records
    and on lost roles are about the stores a trace of messages reaches, whose
    invariants they need: there a version is stored under its own identifiers and
    roles are administered by the admin role of their registry. *)

From S2P Require Import Prelude Types Rbac Keeper MsgServer Spec Refine Ledger Concrete.

(** The account a message is signed by, as the handlers read it. *)
Definition msg_signer (msg : Msg) : bytes :=
  match msg with
  | AddRegistryMsg (Some m) => mar_Sender m
  | AddRecordMsg (Some m) => marec_Sender m
  | UpdateRecordStatusMsg (Some m) => murs_Editor m
  | GrantRoleMsg (Some m) | RevokeRoleMsg (Some m) => mr_Admin m
  | UpdateParamsMsg m => mup_Authority m
  | _ => []
  end.

Section access.
Context {ENV : Env}.
Implicit Types s : KState.

(** ** Frames: the tables each operation leaves alone *)

Lemma valid_request_ok {A} (v : A -> result unit) req s m s' :
  valid_request v req s = (Ok m, s') -> req = Some m /\ s' = s.
Proof.
  unfold valid_request. run_unfold. destruct req; [|done]. intros E. repeat case_match; by simplify_eq.
Qed.

Lemma valid_request_store {A} (v : A -> result unit) req s : (valid_request v req s).2 = s.
Proof. unfold valid_request. run_unfold. by repeat case_match. Qed.

Lemma AddRegistry_frame ctx sender n d m s r s' :
  AddRegistry ctx sender n d m s = (r, s') ->
  k_Params s' = k_Params s /\ Records s' = Records s /\
  (forall h x, member (RBAC_RoleMembers s) h x -> member (RBAC_RoleMembers s') h x) /\
  (forall h x, member (RBAC_RoleMembers s') h x -> ~ member (RBAC_RoleMembers s) h x ->
     exists count, RegistryCount s = Some count /\
     h = RegistryRole (wrap64 (count + 1)) RoleAdmin /\
     StringToBytes (AccAddress_String sender) = Some x).
Proof.
  unfold AddRegistry, get_or_not_found, rbac, SetRoleAdmin, initializeRegistryRecordCounter, emit.
  run_unfold. intros E.
  destruct (invalid_request _) as [|]; simplify_eq/=; [|naive_solver].
  destruct (RegistryCount s) as [count|]; simplify_eq/=; [|naive_solver].
  destruct (StringToBytes _) as [creator|] eqn:Ec; simplify_eq/=; [|naive_solver].
  split_and!; try done; intros h x; rewrite member_insert; naive_solver.
Qed.

Lemma assign_record_id_frame id c s r s' :
  assign_record_id id c s = (r, s') ->
  k_Params s' = k_Params s /\ Records s' = Records s /\ RBAC_RoleMembers s' = RBAC_RoleMembers s.
Proof.
  unfold assign_record_id, get_or_not_found. run_unfold. intros E.
  destruct (RecordIdByRegistryAndChecksum s !! _); simplify_eq/=; [done|].
  destruct (RecordsCountByRegistry s !! id); simplify_eq/=; [|done].
  destruct (key_string_ok c); simplify_eq/=; done.
Qed.

Lemma AddRecord_frame ctx sender record s r s' :
  AddRecord ctx sender record s = (r, s') ->
  k_Params s' = k_Params s /\ RBAC_RoleMembers s' = RBAC_RoleMembers s /\
  (Records s' <> Records s ->
     permitted s sender (rec_RegistryId record) (rec_Checksum record) [RoleAdmin; RoleEditor] = true /\
     exists rid i x, Records s' !! (rec_RegistryId record, rid, i) = Some x /\
       rec_Checksum x = rec_Checksum record /\
       forall k, k.1 <> (rec_RegistryId record, rid) -> Records s' !! k = Records s !! k).
Proof.
  unfold AddRecord, put_record, emit, get_or_not_found. run_unfold. intros E.
  destruct (invalid_request _) as [|]; simplify_eq/=; [|done].
  destruct (Registries s !! _); simplify_eq/=; [|done].
  rewrite checkPermission_spec in E.
  destruct (permitted s sender _ _ _); simplify_eq/=; [|done].
  destruct (assign_record_id _ _ s) as [ra s1] eqn:Ea.
  apply assign_record_id_frame in Ea as (Hp & Hr & Hm).
  destruct ra as [rid|]; simplify_eq/=; [|rewrite Hr; done].
  set (id := rec_RegistryId record) in *.
  set (idx := match _ with Some i => wrap64 (i + 1) | None => 1 end) in *.
  assert (Hins : forall i x (m : gmap (Z * Z * Z) Record_) (k : Z * Z * Z), k.1 <> (id, rid) ->
    <[(id, rid, i) := x]> m !! k = m !! k).
  { intros i x m k Hk. apply lookup_insert_ne. intros <-. done. }
  destruct (1 <? idx); simplify_eq/=.
  2: { split_and!; try done. intros _. split; [done|]. eexists rid, idx, _.
       split; [apply lookup_insert_eq|]. split; [done|]. intros k Hk. by rewrite Hins, Hr. }
  destruct (<[(id, rid, idx) := _]> (Records s1) !! _) as [prev|]; simplify_eq/=.
  - split_and!; try done. intros _. split; [done|]. eexists rid, idx, _.
    split; [|split; [|intros k Hk; by rewrite !Hins, Hr]].
    + rewrite lookup_insert_ne; [apply lookup_insert_eq|]. intros [= E]. lia.
    + done.
  - split_and!; try done. intros _. split; [done|]. eexists rid, idx, _.
    split; [apply lookup_insert_eq|]. split; [done|]. intros k Hk. by rewrite Hins, Hr.
Qed.

Lemma UpdateRecordStatus_frame sender id rid i st s r s' :
  UpdateRecordStatus sender id rid i st s = (r, s') ->
  k_Params s' = k_Params s /\ RBAC_RoleMembers s' = RBAC_RoleMembers s /\
  (Records s' <> Records s -> exists x, Records s !! (id, rid, i) = Some x /\
     permitted s sender id (rec_Checksum x) [RoleAdmin; RoleEditor] = true) /\
  (forall k, k <> (id, rid, i) -> Records s' !! k = Records s !! k).
Proof.
  rewrite UpdateRecordStatus_spec. intros E.
  destruct (ValidateRecordStatus st); simplify_eq; [|done].
  destruct (Records s !! (id, rid, i)) as [x|] eqn:Ex; simplify_eq; [|done].
  destruct (permitted s sender id _ _) eqn:Ep; simplify_eq; [|done].
  split_and!; simpl; try done; [by eauto|].
  intros k Hk. by apply lookup_insert_ne.
Qed.

(** [GrantRole] and [RevokeRole] of the RBAC keeper as conditionals on the store. *)
Definition grants (role : Role) (who : bytes) (s : KState) : option err :=
  match RBAC_RoleAdmins s !! role with
  | None => Some ErrRoleAdminNotConfigured
  | Some bz => if holds s (NewRole bz) who then None else Some ErrMissingRole
  end.

Lemma rbac_GrantRole role x who s :
  rbac (GrantRole role x who) s =
  match grants role who s with
  | Some e => (Err e, s)
  | None => rbac (GrantRoleUnchecked role x who) s
  end.
Proof.
  unfold rbac, GrantRole, GetRoleAdmin, HasRole, grants, holds, member. run_unfold. simpl.
  destruct (RBAC_RoleAdmins s !! role) as [bz|]; simpl; [|by rewrite put_get_RBAC].
  by destruct (bool_decide _); simpl; rewrite ?put_get_RBAC.
Qed.

Lemma rbac_RevokeRole role x who s :
  rbac (RevokeRole role x who) s =
  match grants role who s with
  | Some e => (Err e, s)
  | None => rbac (RevokeRoleUnchecked role x who) s
  end.
Proof.
  unfold rbac, RevokeRole, GetRoleAdmin, HasRole, grants, holds, member. run_unfold. simpl.
  destruct (RBAC_RoleAdmins s !! role) as [bz|]; simpl; [|by rewrite put_get_RBAC].
  by destruct (bool_decide _); simpl; rewrite ?put_get_RBAC.
Qed.

Lemma ensureRoleScopeExists_store id c s : (ensureRoleScopeExists id c s).2 = s.
Proof. unfold ensureRoleScopeExists. run_unfold. by repeat (case_match; simpl). Qed.

(** The part of [Msg_GrantRole] after the request was checked. *)
Lemma GrantRole_tail_frame m granter grantee s r s' :
  let role := scopedRole (mr_RegistryId m) (mr_Checksum m) (mr_Role m) in
  let adminRole := RegistryRole (mr_RegistryId m) RoleAdmin in
  (_ ← rbac (SetRoleAdmin role adminRole);
   b ← (if negb (isRecordRole (mr_RegistryId m) (mr_Checksum m))
           && bool_decide (mr_Role m = RoleAdmin)
        then isModuleAdmin (mr_Admin m) else mret false);
   if (b : bool) then rbac (GrantRoleUnchecked role grantee granter)
   else rbac (GrantRole role grantee granter)) s = (r, s') ->
  k_Params s' = k_Params s /\ Records s' = Records s /\
  (forall h x, member (RBAC_RoleMembers s') h x -> ~ member (RBAC_RoleMembers s) h x ->
     h = role /\ x = grantee /\
     (member (RBAC_RoleMembers s) (NewRole adminRole) granter \/
      (h = adminRole /\ exists p, k_Params s = Some p /\ Admin p = mr_Admin m))) /\
  (forall h x, member (RBAC_RoleMembers s) h x -> member (RBAC_RoleMembers s') h x).
Proof.
  intros role adminRole. cbv [mbind M_bind].
  destruct (rbac (SetRoleAdmin role adminRole) s) as [r1 s1] eqn:E1.
  unfold rbac, SetRoleAdmin in E1. run_unfold. simplify_eq/=.
  set (s1 := put_RBAC _ s).
  assert (Hg : grants role granter s1 =
    if holds s (NewRole adminRole) granter then None else Some ErrMissingRole).
  { unfold grants. simpl. by rewrite lookup_insert_eq. }
  assert (Hun : forall P : Prop, P -> forall r s', rbac (GrantRoleUnchecked role grantee granter) s1 = (r, s') ->
    k_Params s' = k_Params s /\ Records s' = Records s /\
    (forall h x, member (RBAC_RoleMembers s') h x -> ~ member (RBAC_RoleMembers s) h x ->
      h = role /\ x = grantee /\ P) /\
    (forall h x, member (RBAC_RoleMembers s) h x -> member (RBAC_RoleMembers s') h x)).
  { intros P HP r0 s0 E. unfold rbac, GrantRoleUnchecked, rb_emit in E. run_unfold. simplify_eq/=.
    split_and!; try done; intros h x; rewrite member_insert; naive_solver. }
  unfold isModuleAdmin, get_or_not_found. run_unfold.
  destruct (negb _ && _) eqn:Eb; simpl.
  - destruct (k_Params s) as [p|] eqn:Ep; simpl; [|intros; simplify_eq/=; naive_solver].
    destruct (bool_decide_reflect (Admin p = mr_Admin m)) as [Ha|]; simpl.
    + apply andb_true_iff in Eb as [Eb1 Eb2%bool_decide_eq_true]. intros E.
      destruct (Hun (role = adminRole /\ exists p, Some p = Some p /\ Admin p = mr_Admin m)
                  ltac:(split; [unfold role, scopedRole; by destruct (isRecordRole _ _); rewrite ?Eb2|by exists p])
                  _ _ E) as (? & ? & Hm & Hk).
      split_and!; try done. intros h x H1 H2. destruct (Hm h x H1 H2) as (-> & -> & ? & _).
      split_and!; try done. right. split; [done|]. by exists p.
    + rewrite rbac_GrantRole, Hg. unfold holds.
      destruct (bool_decide_reflect (member (RBAC_RoleMembers s) (NewRole adminRole) granter)) as [Hh|];
        intros E.
      * destruct (Hun _ Hh _ _ E) as (? & ? & Hm & Hk). naive_solver.
      * simplify_eq/=. naive_solver.
  - rewrite rbac_GrantRole, Hg. unfold holds.
    destruct (bool_decide_reflect (member (RBAC_RoleMembers s) (NewRole adminRole) granter)) as [Hh|];
      intros E.
    * destruct (Hun _ Hh _ _ E) as (? & ? & Hm & Hk). naive_solver.
    * simplify_eq/=. naive_solver.
Qed.

Lemma GrantRole_frame req s r s' :
  Msg_GrantRole req s = (r, s') ->
  k_Params s' = k_Params s /\ Records s' = Records s /\
  (forall h x, member (RBAC_RoleMembers s') h x -> ~ member (RBAC_RoleMembers s) h x ->
   exists m granter, req = Some m /\ StringToBytes (mr_Admin m) = Some granter /\
     StringToBytes (mr_Address m) = Some x /\
     h = scopedRole (mr_RegistryId m) (mr_Checksum m) (mr_Role m) /\
     (member (RBAC_RoleMembers s) (NewRole (RegistryRole (mr_RegistryId m) RoleAdmin)) granter \/
      (h = RegistryRole (mr_RegistryId m) RoleAdmin /\
       exists p, k_Params s = Some p /\ Admin p = mr_Admin m))) /\
  (forall h x, member (RBAC_RoleMembers s) h x -> member (RBAC_RoleMembers s') h x).
Proof.
  unfold Msg_GrantRole. cbv [mbind M_bind]. intros E.
  pose proof (valid_request_store MsgGrantRole_ValidateBasic req s) as Hst.
  destruct (valid_request _ req s) as [[m|] s0] eqn:Ev; simpl in Hst; subst s0; simplify_eq; [|naive_solver].
  apply valid_request_ok in Ev as [-> _]. cbv beta iota in E. rewrite decode_address_spec in E.
  destruct (spec_address (mr_Admin m)) as [granter|] eqn:Eg; simplify_eq; [|naive_solver].
  cbv beta iota in E. rewrite decode_address_spec in E.
  destruct (spec_address (mr_Address m)) as [grantee|] eqn:Ee; simplify_eq; [|naive_solver].
  unfold spec_address in *. run_unfold.
  pose proof (ensureRoleScopeExists_store (mr_RegistryId m) (mr_Checksum m) s) as Hst.
  destruct (ensureRoleScopeExists _ _ s) as [[[]|] s0]; simpl in Hst; subst s0; simplify_eq; [|naive_solver].
  apply (GrantRole_tail_frame m granter grantee) in E as (? & ? & Hm & ?).
  split_and!; try done. intros h x Hin Hout. destruct (Hm h x Hin Hout) as (-> & -> & ?).
  exists m, granter. by repeat case_match; simplify_eq.
Qed.

Lemma RevokeRole_frame req s r s' :
  Msg_RevokeRole req s = (r, s') ->
  k_Params s' = k_Params s /\ Records s' = Records s /\
  (forall h x, member (RBAC_RoleMembers s') h x -> member (RBAC_RoleMembers s) h x).
Proof.
  unfold Msg_RevokeRole. cbv [mbind M_bind]. intros E.
  pose proof (valid_request_store MsgRevokeRole_ValidateBasic req s) as Hst.
  destruct (valid_request _ req s) as [[m|] s0] eqn:Ev; simpl in Hst; subst s0; simplify_eq; [|naive_solver].
  apply valid_request_ok in Ev as [-> _]. cbv beta iota in E. rewrite decode_address_spec in E.
  destruct (spec_address (mr_Admin m)) as [revoker|] eqn:Eg; simplify_eq; [|naive_solver].
  cbv beta iota in E. rewrite decode_address_spec in E.
  destruct (spec_address (mr_Address m)) as [revokee|] eqn:Ee; simplify_eq; [|naive_solver].
  unfold spec_address in *. run_unfold.
  pose proof (ensureRoleScopeExists_store (mr_RegistryId m) (mr_Checksum m) s) as Hst.
  destruct (ensureRoleScopeExists _ _ s) as [[[]|] s0]; simpl in Hst; subst s0; simplify_eq; [|naive_solver].
  rewrite rbac_HasRole in E. destruct (holds s _ _) eqn:Eh; simpl in E; simplify_eq; [|naive_solver].
  assert (Hsole : forall b : bool, exists v, (if b
    then rbac (IsSoleAdmin (RegistryRole (mr_RegistryId m) RoleAdmin))
    else fun s => (Ok false, s)) s = (Ok v, s)).
  { intros []; [|by eexists]. destruct (rbac_IsSoleAdmin (RegistryRole (mr_RegistryId m) RoleAdmin) s)
      as (v & -> & _). by eexists. }
  destruct (Hsole (negb (isRecordRole (mr_RegistryId m) (mr_Checksum m)) && bool_decide (mr_Role m = RoleAdmin)))
    as [v Ev]. rewrite Ev in E. destruct v; [simplify_eq; naive_solver|].
  rewrite rbac_RevokeRole in E. unfold grants in E.
  destruct (RBAC_RoleAdmins s !! _) as [bz|] eqn:Ea; [|simplify_eq; naive_solver].
  unfold holds in E.
  destruct (bool_decide_reflect (member (RBAC_RoleMembers s) (NewRole bz) revoker)) as [Hh|];
    [|simplify_eq; naive_solver].
  unfold rbac, RevokeRoleUnchecked, rb_emit in E. run_unfold. simplify_eq/=.
  split_and!; try done; intros h x; rewrite member_delete; tauto.
Qed.

Lemma UpdateParams_frame req s r s' :
  Msg_UpdateParams req s = (r, s') ->
  Records s' = Records s /\ RBAC_RoleMembers s' = RBAC_RoleMembers s /\
  (k_Params s' <> k_Params s -> exists p, k_Params s = Some p /\ Admin p = mup_Authority req /\
     k_Params s' = Some (mkParams (mup_Admin req)) /\
     Params_Validate (mkParams (mup_Admin req)) = Ok tt).
Proof.
  unfold Msg_UpdateParams, get_or_not_found. run_unfold. intros E.
  destruct (StringToBytes _); [|simplify_eq; naive_solver].
  destruct (k_Params s) as [p|] eqn:Ep; [|simplify_eq; naive_solver].
  case_bool_decide as Ha; simpl in E; [|simplify_eq; naive_solver]. rewrite Ep in E.
  destruct (Params_Validate _) as [[]|] eqn:Ev; simplify_eq/=; [|naive_solver].
  split_and!; try done. destruct (is_empty (mup_Admin req)); [congruence|]. eauto.
Qed.
End access.

(** ** Properties *)

Section properties.
Context {ENV : Env}.
Implicit Types s : KState.

(** Every handler checks its request and decodes its signer before it writes. *)
Lemma handler_store {A B} validate (req : option A) (addr : A -> bytes)
    (body : A -> bytes -> M KState B) (Q : KState -> Prop) s :
  Q s ->
  (forall m a, req = Some m -> StringToBytes (addr m) = Some a -> Q (body m a s).2) ->
  Q ((msg ← valid_request validate req; a ← decode_address (addr msg); body msg a) s).2.
Proof.
  intros Hs Hb. cbv [mbind M_bind].
  pose proof (valid_request_store validate req s) as Hst.
  destruct (valid_request _ req s) as [[m|] s0] eqn:Ev; simpl in Hst; subst s0; [|done].
  apply valid_request_ok in Ev as [-> _]. rewrite decode_address_spec.
  unfold spec_address, of_option. destruct (StringToBytes (addr m)) eqn:Ea; [by apply Hb|done].
Qed.

(** The store a message leaves is the store its handler leaves. *)
Lemma handle_store ctx msg s :
  (handle ctx msg s).2 =
  match msg with
  | AddRegistryMsg req => (Msg_AddRegistry ctx req s).2
  | AddRecordMsg req => (Msg_AddRecord ctx req s).2
  | UpdateRecordStatusMsg req => (Msg_UpdateRecordStatus req s).2
  | GrantRoleMsg req => (Msg_GrantRole req s).2
  | RevokeRoleMsg req => (Msg_RevokeRole req s).2
  | UpdateParamsMsg req => (Msg_UpdateParams req s).2
  end.
Proof.
  destruct msg as [req|req|req|req|req|req]; simpl; cbv [mbind M_bind];
    match goal with |- context [match ?x with _ => _ end] => by destruct x as [[] ?] end.
Qed.

Lemma deliver_store ctx msg s : deliver ctx msg s = s \/ deliver ctx msg s = (handle ctx msg s).2.
Proof. unfold deliver. destruct (handle ctx msg s) as [[|] ?]; auto. Qed.

Lemma Msg_AddRegistry_frame ctx req s :
  let s' := (Msg_AddRegistry ctx req s).2 in
  k_Params s' = k_Params s /\ Records s' = Records s /\
  (forall h x, member (RBAC_RoleMembers s) h x -> member (RBAC_RoleMembers s') h x) /\
  (forall h x, member (RBAC_RoleMembers s') h x -> ~ member (RBAC_RoleMembers s) h x ->
     exists m sender count, req = Some m /\ StringToBytes (mar_Sender m) = Some sender /\
     RegistryCount s = Some count /\ h = RegistryRole (wrap64 (count + 1)) RoleAdmin /\
     StringToBytes (AccAddress_String sender) = Some x).
Proof.
  cbv zeta. pattern (Msg_AddRegistry ctx req s).2. unfold Msg_AddRegistry.
  apply (handler_store _ req mar_Sender); [naive_solver|]. intros m a -> Ea.
  destruct (AddRegistry _ _ _ _ _ s) as [r s'] eqn:E.
  apply AddRegistry_frame in E as (? & ? & Hkeep & Hm). split_and!; try done.
  intros h x H1 H2. destruct (Hm h x H1 H2) as (count & ? & ? & ?). by exists m, a, count.
Qed.

Lemma Msg_AddRecord_frame ctx req s :
  let s' := (Msg_AddRecord ctx req s).2 in
  k_Params s' = k_Params s /\ RBAC_RoleMembers s' = RBAC_RoleMembers s /\
  (forall k, Records s' !! k <> Records s !! k -> exists m sender i x,
     req = Some m /\ StringToBytes (marec_Sender m) = Some sender /\ Records s' !! (k.1, i) = Some x /\
     permitted s sender k.1.1 (rec_Checksum x) [RoleAdmin; RoleEditor] = true).
Proof.
  cbv zeta. pattern (Msg_AddRecord ctx req s).2. unfold Msg_AddRecord.
  apply (handler_store _ req marec_Sender); [naive_solver|]. intros m a -> Ea. run_unfold.
  destruct (marec_Record m) as [r|] eqn:Er; [|naive_solver].
  destruct (AddRecord _ _ _ s) as [o s'] eqn:E.
  apply AddRecord_frame in E as (? & ? & Hp). split_and!; try done. intros k Hk. simpl in Hk.
  destruct Hp as (Hperm & rid & i & x & Hx & Hc & Hf); [congruence|]. exists m, a, i, x.
  destruct (decide (k.1 = (rec_RegistryId r, rid))) as [->|Hne]; [|by rewrite Hf in Hk].
  split_and!; try done. by rewrite Hc.
Qed.

Lemma Msg_UpdateRecordStatus_frame req s :
  let s' := (Msg_UpdateRecordStatus req s).2 in
  k_Params s' = k_Params s /\ RBAC_RoleMembers s' = RBAC_RoleMembers s /\
  (forall k, Records s' !! k <> Records s !! k -> exists m sender x,
     req = Some m /\ StringToBytes (murs_Editor m) = Some sender /\ Records s !! k = Some x /\
     permitted s sender k.1.1 (rec_Checksum x) [RoleAdmin; RoleEditor] = true).
Proof.
  cbv zeta. pattern (Msg_UpdateRecordStatus req s).2. unfold Msg_UpdateRecordStatus.
  apply (handler_store _ req murs_Editor); [naive_solver|]. intros m a -> Ea.
  destruct (UpdateRecordStatus _ _ _ _ _ s) as [o s'] eqn:E.
  apply UpdateRecordStatus_frame in E as (? & ? & Hp & Hf). split_and!; try done.
  intros k Hk. simpl in Hk. destruct Hp as (r & Hr & Hperm); [congruence|]. exists m, a, r.
  destruct (decide (k = (murs_RegistryId m, murs_RecordId m, murs_Index m))) as [->|Hne];
    [done|by rewrite Hf in Hk].
Qed.

(** A handler writes records only for a signer that may write the record: the version
    the handler checked is the changed one, or another version of the same record. *)
Lemma deliver_records ctx msg s k :
  Records (deliver ctx msg s) !! k <> Records s !! k ->
  exists sender x, StringToBytes (msg_signer msg) = Some sender /\
    permitted s sender k.1.1 (rec_Checksum x) [RoleAdmin; RoleEditor] = true /\
    (Records s !! k = Some x \/ exists i, Records (deliver ctx msg s) !! (k.1, i) = Some x).
Proof.
  destruct (deliver_store ctx msg s) as [-> | ->]; [done|]. rewrite handle_store.
  destruct msg as [req|req|req|req|req|req].
  - by destruct (Msg_AddRegistry_frame ctx req s) as (_ & -> & _).
  - intros Hk. destruct (Msg_AddRecord_frame ctx req s) as (_ & _ & Hp).
    destruct (Hp k Hk) as (m & a & i & x & -> & Ha & Hx & ?). exists a, x. eauto.
  - intros Hk. destruct (Msg_UpdateRecordStatus_frame req s) as (_ & _ & Hp).
    destruct (Hp k Hk) as (m & a & x & -> & Ha & Hx & ?). exists a, x. eauto.
  - by destruct (GrantRole_frame req s _ _ (surjective_pairing _)) as (_ & -> & _).
  - by destruct (RevokeRole_frame req s _ _ (surjective_pairing _)) as (_ & -> & _).
  - by destruct (UpdateParams_frame req s _ _ (surjective_pairing _)) as (-> & _).
Qed.

(** What [checkPermission] accepts, as roles held. *)
Lemma permitted_roles s sender id c :
  permitted s sender id c [RoleAdmin; RoleEditor] = true ->
  exists role, role ∈ [RoleAdmin; RoleEditor] /\
    (member (RBAC_RoleMembers s) (RegistryRole id role) sender \/
     member (RBAC_RoleMembers s) (RecordRole id c role) sender).
Proof.
  unfold permitted, holds. intros E. apply orb_true_iff in E as [E|E]; [apply andb_true_iff in E as [_ E]|];
    apply existsb_exists in E as (role & Hin & Hh%bool_decide_eq_true); exists role;
    apply list_elem_of_In in Hin; auto.
Qed.

(** C3: nobody writes a record without a role for it.  When a transaction changes what is
    stored as a version, its signer held, before it, the admin or the editor role of that
    version's registry, or of that version's checksum inside the registry: the checksum
    of the very version that was added or changed, not of the one the message names.  A
    changed version keeps its checksum, and none is removed. *)
Theorem record_writes_authorised {LAWS : EnvLaws} p txs ctx msg k :
  good_trace p (txs ++ [(ctx, msg)]) ->
  let s := deliver_all txs (genesis_store p) in
  let s' := deliver ctx msg s in
  Records s' !! k <> Records s !! k ->
  exists sender x role, StringToBytes (msg_signer msg) = Some sender /\
    Records s' !! k = Some x /\
    (forall x0, Records s !! k = Some x0 -> rec_Checksum x0 = rec_Checksum x) /\
    role ∈ [RoleAdmin; RoleEditor] /\
    (member (RBAC_RoleMembers s) (RegistryRole k.1.1 role) sender \/
     member (RBAC_RoleMembers s) (RecordRole k.1.1 (rec_Checksum x) role) sender).
Proof.
  intros Hg s s' Hk.
  assert (Es' : s' = deliver_all (txs ++ [(ctx, msg)]) (genesis_store p)).
  { unfold s', s, deliver_all. by rewrite fold_left_app. }
  assert (Hkeep : forall x0, Records s !! k = Some x0 ->
    exists x, Records s' !! k = Some x /\ rec_Checksum x0 = rec_Checksum x).
  { intros x0 Hx0. destruct (history_facts p txs [(ctx, msg)] k x0 Hg Hx0) as (x & Hx & Hc & _).
    exists x. rewrite Es'. split; [done|]. by injection Hc. }
  assert (exists x, Records s' !! k = Some x) as [x Hx].
  { destruct (Records s !! k) as [x0|] eqn:E0; [destruct (Hkeep x0 eq_refl) as (x & ? & _); eauto|].
    destruct (Records s' !! k); [eauto|done]. }
  destruct (deliver_records ctx msg s k Hk) as (sender & y & Hsig & Hperm & Hy).
  assert (rec_Checksum y = rec_Checksum x) as Ec.
  { destruct Hy as [Hy|[i Hy]].
    - destruct (Hkeep y Hy) as (x' & ? & ?). congruence.
    - fold s' in Hy. rewrite Es' in Hx, Hy. destruct k as [[id rid] j]. simpl in Hy.
      destruct (index_facts p _ id rid [] Hg) as (_ & _ & Hsame & _). eauto. }
  rewrite Ec in Hperm. destruct (permitted_roles _ _ _ _ Hperm) as (role & Hin & Hm).
  exists sender, x, role. split_and!; try done.
  intros x0 Hx0. destruct (Hkeep x0 Hx0) as (x' & ? & ?). congruence.
Qed.

(** Why an account may have gained a role. *)
Definition gain_reason (s : KState) (msg : Msg) (h : Role) (x : bytes) : Prop :=
  match msg with
  | AddRegistryMsg (Some m) =>
      (* the creator becomes admin of the registry just created *)
      exists sender count, StringToBytes (mar_Sender m) = Some sender /\
        RegistryCount s = Some count /\ h = RegistryRole (wrap64 (count + 1)) RoleAdmin /\
        StringToBytes (AccAddress_String sender) = Some x
  | GrantRoleMsg (Some m) =>
      (* granted by an admin of the registry, or, for its admin role, by the module admin *)
      exists granter, StringToBytes (mr_Admin m) = Some granter /\
        StringToBytes (mr_Address m) = Some x /\
        h = scopedRole (mr_RegistryId m) (mr_Checksum m) (mr_Role m) /\
        (member (RBAC_RoleMembers s) (RegistryRole (mr_RegistryId m) RoleAdmin) granter \/
         h = RegistryRole (mr_RegistryId m) RoleAdmin /\
         exists p, k_Params s = Some p /\ Admin p = mr_Admin m)
  | _ => False
  end.

(** C6: no privilege escalation.  An account gains a role only by creating the
    registry, by a grant of an admin of that registry, or, for the registry's
    admin role only, by a grant of the module admin in the parameters. *)
Theorem role_gain_authorised {LAWS : EnvLaws} ctx msg s h x :
  member (RBAC_RoleMembers (deliver ctx msg s)) h x ->
  ~ member (RBAC_RoleMembers s) h x ->
  gain_reason s msg h x.
Proof.
  destruct (deliver_store ctx msg s) as [-> | ->]; [done|]. rewrite handle_store.
  destruct msg as [req|req|req|req|req|req]; intros Hin Hout.
  - destruct (Msg_AddRegistry_frame ctx req s) as (_ & _ & _ & Hm).
    destruct (Hm h x Hin Hout) as (m & a & count & -> & ?). by exists a, count.
  - destruct (Msg_AddRecord_frame ctx req s) as (_ & E & _). by rewrite E in Hin.
  - destruct (Msg_UpdateRecordStatus_frame req s) as (_ & E & _). by rewrite E in Hin.
  - destruct (GrantRole_frame req s _ _ (surjective_pairing _)) as (_ & _ & Hm & _).
    destruct (Hm h x Hin Hout) as (m & granter & -> & ? & ? & ? & Hwho). exists granter.
    split_and!; try done. destruct Hwho as [Hadm|?]; [left|by right].
    unfold RegistryRole, NewRoleHash, NewRole in Hadm |- *.
    by rewrite BytesToHash_id in Hadm by apply keccak256_length.
  - destruct (RevokeRole_frame req s _ _ (surjective_pairing _)) as (_ & _ & Hm).
    destruct Hout. by apply Hm.
  - destruct (UpdateParams_frame req s _ _ (surjective_pairing _)) as (_ & E & _).
    by rewrite E in Hin.
Qed.

(** C7: a role is lost only through [RevokeRole], by the account the message names, and the
    message is signed by an administrator of the registry the role belongs to.  It is
    never the last administrator who is removed: when the role is the registry's admin
    role, another account holds it afterwards. *)
Theorem role_loss_authorised {LAWS : EnvLaws} p txs ctx msg h x :
  good_trace p (txs ++ [(ctx, msg)]) ->
  let s := deliver_all txs (genesis_store p) in
  let s' := deliver ctx msg s in
  member (RBAC_RoleMembers s) h x -> ~ member (RBAC_RoleMembers s') h x ->
  exists m revoker, msg = RevokeRoleMsg (Some m) /\
    StringToBytes (mr_Admin m) = Some revoker /\ StringToBytes (mr_Address m) = Some x /\
    h = scopedRole (mr_RegistryId m) (mr_Checksum m) (mr_Role m) /\
    member (RBAC_RoleMembers s) (RegistryRole (mr_RegistryId m) RoleAdmin) revoker /\
    (h = RegistryRole (mr_RegistryId m) RoleAdmin ->
     exists y, y <> x /\ member (RBAC_RoleMembers s') h y).
Proof.
  intros Hg s s' Hin Hout. destruct (reachable_step p txs ctx msg Hg) as (HK & HR & HR').
  fold s in HR, HR'. fold s' in HR'.
  destruct (R_members_only _ _ _ HR h x Hin) as (k & Hkx & ->).
  pose proof (R_members_K _ _ _ HR _ _ Hkx) as HKk. rewrite (R_members _ _ _ HR') in Hout by done.
  destruct (spec_loss ctx msg _ k x Hkx Hout) as (m & revoker & -> & Hr & Hx & Ek & Hadm & Hlast).
  pose proof (R_members_K _ _ _ HR _ _ Hadm) as HKadm.
  exists m, revoker. split_and!; try done.
  - by rewrite scopedRole_hash, Ek.
  - by apply (R_members _ _ _ HR (admin_key _)).
  - intros E. apply (HK k (admin_key _)) in E as E'; [|done..].
    destruct (Hlast E') as (y & Hne & Hy). exists y. split; [done|]. by apply (R_members _ _ _ HR').
Qed.

(** the module admin changes only by a message of the current admin, and
    only to an address that passes the parameter validation. *)
Theorem params_change_authorised ctx msg s :
  k_Params (deliver ctx msg s) <> k_Params s ->
  exists req p, msg = UpdateParamsMsg req /\ k_Params s = Some p /\ Admin p = mup_Authority req /\
    k_Params (deliver ctx msg s) = Some (mkParams (mup_Admin req)) /\
    Params_Validate (mkParams (mup_Admin req)) = Ok tt.
Proof.
  destruct (deliver_store ctx msg s) as [-> | ->]; [done|]. rewrite handle_store.
  destruct msg as [req|req|req|req|req|req]; intros Hk.
  - by destruct (Msg_AddRegistry_frame ctx req s) as (E & _).
  - by destruct (Msg_AddRecord_frame ctx req s) as (E & _).
  - by destruct (Msg_UpdateRecordStatus_frame req s) as (E & _).
  - by destruct (GrantRole_frame req s _ _ (surjective_pairing _)) as (E & _).
  - by destruct (RevokeRole_frame req s _ _ (surjective_pairing _)) as (E & _).
  - destruct (UpdateParams_frame req s _ _ (surjective_pairing _)) as (_ & _ & Hp).
    destruct (Hp Hk) as (p & ?). by exists req, p.
Qed.
End properties.

(** The registry ids of a role key are [uint64] values. *)
Definition u64_key (k : RoleKey) : Prop := is_u64 (key_registry k).

(** Roles are isolated.  The texts that are hashed to role identifiers are
    different for different roles: a registry role never coincides with a record
    role, nor a role of one registry or checksum with one of another, whatever
    bytes the checksum and the role name hold; only a Keccak collision could
    make two roles share their members. *)
Theorem role_text_injective k1 k2 :
  u64_key k1 -> u64_key k2 -> role_text k1 = role_text k2 -> k1 = k2.
Proof.
  destruct k1 as [i r|i c r], k2 as [j q|j d q]; unfold u64_key; simpl; intros Hi Hj E.
  - apply registry_role_text_inj in E as [-> ->]; done.
  - by apply eq_sym, role_texts_disjoint in E.
  - by apply role_texts_disjoint in E.
  - apply record_role_text_inj in E as (-> & -> & ->); done.
Qed.

Definition demo_prefix (n : nat) : KState := deliver_all (take n Demo.trace) (genesis_store Demo.params).

Definition demo_tail (n : nat) : Ctx * Msg := nth n Demo.trace (Demo.ctx, Demo.create).

Lemma demo_good_prefix n : (n < 9)%nat -> good_trace Demo.params (take n Demo.trace ++ [demo_tail n]).
Proof.
  intros Hn. assert (Demo.trace = (take n Demo.trace ++ [demo_tail n]) ++ drop (S n) Demo.trace) as E.
  { do 9 (destruct n as [|n]; [reflexivity|]). lia. }
  apply (good_trace_prefix _ _ (drop (S n) Demo.trace)). rewrite <- E. exact demo_good.
Qed.

(** Bob, editor of the document, adds its second version. *)
Lemma record_writes_authorised_witness :
  let msg := Demo.anchor Demo.bob (bs "ipfs://2") in
  let s := deliver_all (take 4 Demo.trace) (genesis_store Demo.params) in
  let s' := deliver Demo.ctx msg s in
  exists sender x role, StringToBytes (msg_signer msg) = Some sender /\
    Records s' !! (1, 1, 2) = Some x /\
    (forall x0, Records s !! (1, 1, 2) = Some x0 -> rec_Checksum x0 = rec_Checksum x) /\
    role ∈ [RoleAdmin; RoleEditor] /\
    (member (RBAC_RoleMembers s) (RegistryRole 1 role) sender \/
     member (RBAC_RoleMembers s) (RecordRole 1 (rec_Checksum x) role) sender).
Proof.
  refine (record_writes_authorised Demo.params (take 4 Demo.trace) Demo.ctx
           (Demo.anchor Demo.bob (bs "ipfs://2")) (1, 1, 2) (demo_good_prefix 4 ltac:(lia)) _).
  by_eval.
Defined.

(** Carol, the module admin, makes Bob a registry admin. *)
Lemma role_gain_authorised_witness :
  gain_reason (demo_prefix 6) (Demo.grant Demo.carol Demo.bob [] RoleAdmin)
    (RegistryRole 1 RoleAdmin) Demo.bob.
Proof. apply (role_gain_authorised Demo.ctx); by_eval. Defined.

(** Bob, now an admin, removes Alice. *)
Lemma role_loss_authorised_witness :
  let msg := Demo.revoke Demo.bob Demo.alice [] RoleAdmin in
  let s := deliver_all (take 7 Demo.trace) (genesis_store Demo.params) in
  let s' := deliver Demo.ctx msg s in
  exists m revoker, msg = RevokeRoleMsg (Some m) /\
    StringToBytes (mr_Admin m) = Some revoker /\ StringToBytes (mr_Address m) = Some Demo.alice /\
    RegistryRole 1 RoleAdmin = scopedRole (mr_RegistryId m) (mr_Checksum m) (mr_Role m) /\
    member (RBAC_RoleMembers s) (RegistryRole (mr_RegistryId m) RoleAdmin) revoker /\
    (RegistryRole 1 RoleAdmin = RegistryRole (mr_RegistryId m) RoleAdmin ->
     exists y, y <> Demo.alice /\ member (RBAC_RoleMembers s') (RegistryRole 1 RoleAdmin) y).
Proof.
  refine (role_loss_authorised Demo.params (take 7 Demo.trace) Demo.ctx
    (Demo.revoke Demo.bob Demo.alice [] RoleAdmin) (RegistryRole 1 RoleAdmin) Demo.alice
    (demo_good_prefix 7 ltac:(lia)) _ _); by_eval.
Defined.

Lemma params_change_authorised_witness :
  let msg := UpdateParamsMsg (mkMsgUpdateParams (addr_to_text Demo.carol) (addr_to_text Demo.bob)) in
  exists req p, msg = UpdateParamsMsg req /\
    k_Params (genesis_store Demo.params) = Some p /\ Admin p = mup_Authority req /\
    k_Params (deliver Demo.ctx msg (genesis_store Demo.params)) = Some (mkParams (mup_Admin req)) /\
    Params_Validate (mkParams (mup_Admin req)) = Ok tt.
Proof. apply params_change_authorised. by_eval. Defined.

Lemma role_text_injective_witness :
  RegistryKey 7 (bs "admin") = RegistryKey 7 (bs "admin").
Proof. apply role_text_injective; by_eval. Defined.
