(* ===== verification/Genesis.v ===== *)
(** Genesis of x/anchoring: src/x/anchoring/types/genesis.go and
    src/x/anchoring/keeper/genesis.go.

    [GenesisState_Validate] checks a genesis file, [InitGenesis] loads it and
    [ExportGenesis] writes the store out.  The fields of a genesis that are Go
    maps are lists in the order [range] happens to visit them; the order in
    which the local map of version groups is visited is a parameter. *)

From S2P Require Import Prelude Types Rbac Keeper MsgServer Spec Refine Ledger Access Concrete.

(** The key codec the collections library builds for (role, account) pairs. *)
Class MemberCodec := {
  member_key_encode : Role * bytes -> result bytes;
  member_key_decode : bytes -> result (Role * bytes)
}.

(** What the export relies on: the codec can read back what it wrote. *)
Class MemberCodecLaws `{MemberCodec} := {
  member_key_roundtrip : forall role a, length role = RoleSize ->
    exists k, member_key_encode (role, a) = Ok k /\ member_key_decode k = Ok (role, a) /\ k <> []
}.

Abbreviation group_key := (Z * Z)%type.
Abbreviation record_key := (Z * Z * Z)%type.
Abbreviation groups_map := (gmap group_key RecordVersionGroup).

Definition record_gk (r : Record_) : group_key := (rec_RegistryId r, rec_RecordId r).
Definition record_rk (r : Record_) : record_key := (rec_RegistryId r, rec_RecordId r, rec_Index r).

(** [if groups[gk] == nil { groups[gk] = &RecordVersionGroup{} }; groups[gk].Add(record)] *)
Definition add_to_group (r : Record_) (groups : groups_map) : groups_map :=
  <[record_gk r := RecordVersionGroup_Add (default empty_group (groups !! record_gk r)) r]> groups.

(** A loop that updates the store and a local variable; the variable is the
    result. *)
Definition with_local {L} (init : L) (m : M (KState * L) unit) : M KState L :=
  fun s => let '(r, (s', l)) := m (s, init) in
           (match r with Ok _ => Ok l | Err e => Err e end, s').

(** A loop that updates a local variable only. *)
Definition collect {L} (init : L) (m : M L unit) : M KState L :=
  fun s => let '(r, l) := m init in (match r with Ok _ => Ok l | Err e => Err e end, s).

Section genesis.
Context {ENV : Env} {MC : MemberCodec}.
(** The order in which [range groups] visits the version groups. *)
Context (range_groups : groups_map -> list (group_key * RecordVersionGroup)).

Definition DefaultGenesis : GenesisState := mkGenesis DefaultParams [] [] [] [].

(** ** Validate *)

(** The loop over the registries: the set of ids seen so far. *)
Definition validate_registry (e : Z * Registry) : M (gset Z) unit :=
  let '(mapKey, registry) := e in
  _ ← lift (guard_err (negb (mapKey =? reg_Id registry))
              (ErrPlain "registry map key does not match registry id"));
  _ ← lift (match ValidateRegistry registry with
            | Ok _ => Ok tt | Err e => Err (ErrWrap "invalid registry" e) end);
  modify (fun ids => {[ reg_Id registry ]} ∪ ids).

(** The loop over the records: the keys and groups seen so far. *)
Definition validate_record (ids : gset Z) (record : Record_) : M (gset record_key * groups_map) unit :=
  _ ← lift (match ValidateRecord record with
            | Ok _ => Ok tt | Err e => Err (ErrWrap "invalid record at index" e) end);
  _ ← lift (guard_err (negb (bool_decide (rec_RegistryId record ∈ ids)))
              (ErrPlain "record references unknown registry_id"));
  dup ← gets (fun st => bool_decide (record_rk record ∈ st.1));
  _ ← lift (guard_err dup (ErrPlain "duplicate record key"));
  modify (fun st => ({[ record_rk record ]} ∪ st.1, add_to_group record st.2)).

Definition validate_role_admin (e : bytes * bytes) : M unit unit :=
  _ ← lift (guard_err (is_empty e.1) (ErrPlain "role_admins: key cannot be empty"));
  lift (guard_err (is_empty e.2) (ErrPlain "role_admins: admin role bytes cannot be empty")).

Definition validate_role_member (e : bytes * bytes) : M unit unit :=
  lift (guard_err (is_empty e.1) (ErrPlain "role_members: key cannot be empty")).

Definition GenesisState_Validate (gs : GenesisState) : result unit :=
  _ ← Params_Validate (gen_Params gs);
  let '(r, ids) := for_each validate_registry (gen_Registries gs) ∅ in
  _ ← r;
  let '(r, st) := for_each (validate_record ids) (gen_Records gs) (∅, ∅) in
  _ ← r;
  _ ← (for_each (fun e => lift (ValidateIsLatest e.2)) (range_groups st.2) tt).1;
  _ ← (for_each validate_role_admin (gen_RoleAdmins gs) tt).1;
  (for_each validate_role_member (gen_RoleMembers gs) tt).1.

(** ** InitGenesis *)

(** The store and the local variable [registryCount] of the first loop. *)
Definition init_registry (e : Z * Registry) : M (KState * Z) unit :=
  let '(mapKey, registry) := e in
  _ ← lift (guard_err (negb (mapKey =? reg_Id registry)) ErrInvalidGenesisState);
  _ ← lift (match ValidateRegistry registry with
            | Ok _ => Ok tt | Err e => Err (ErrWrap "invalid genesis registry" e) end);
  let store m := zoom fst (fun s (st : KState * Z) => (s, st.2)) m in
  _ ← store (modify (fun s => set_Registries (<[reg_Id registry := registry]> (Registries s)) s));
  _ ← store (initializeRegistryRecordCounter (reg_Id registry));
  modify (fun st => (st.1, if st.2 <? reg_Id registry then reg_Id registry else st.2)).

(** The store and the local map [groups] of the second loop. *)
Definition init_record (record : Record_) : M (KState * groups_map) unit :=
  let store {A} (m : M KState A) := zoom fst (fun s (st : KState * groups_map) => (s, st.2)) m in
  let registryId := rec_RegistryId record in
  let gk := (registryId, rec_RecordId record) in
  _ ← lift (match ValidateRecord record with
            | Ok _ => Ok tt | Err e => Err (ErrWrap "invalid genesis record" e) end);
  _ ← store (fun s => (of_option (Registries s !! registryId)
                        (ErrWrap "record references unknown registry_id" ErrCollNotFound), s));
  let recordKey := (registryId, rec_RecordId record, rec_Index record) in
  hasRecord ← store (gets (fun s => bool_decide (is_Some (Records s !! recordKey))));
  _ ← lift (guard_err hasRecord ErrDuplicateRecordKey);
  index ← store (gets (fun s => RecordIndices s !! gk));
  _ ← store (if match index with None => true | Some i => i <? rec_Index record end
             then modify (fun s => set_RecordIndices (<[gk := rec_Index record]> (RecordIndices s)) s)
             else mret tt);
  _ ← store (put_record recordKey record);
  _ ← store (modify (fun s => set_RecordIdByRegistryAndChecksum
               (<[(registryId, rec_Checksum record) := rec_RecordId record]>
                  (RecordIdByRegistryAndChecksum s)) s));
  _ ← lift (guard_err (negb (key_string_ok (rec_Checksum record))) ErrCollEncoding);
  _ ← store (modify (fun s => set_RecordIdByChecksumAndRegistry
               (<[(rec_Checksum record, registryId) := rec_RecordId record]>
                  (RecordIdByChecksumAndRegistry s)) s));
  recordsCount ← store (get_or_not_found (fun s => RecordsCountByRegistry s !! registryId));
  _ ← store (if recordsCount <? rec_RecordId record
             then modify (fun s => set_RecordsCountByRegistry
                    (<[registryId := rec_RecordId record]> (RecordsCountByRegistry s)) s)
             else mret tt);
  modify (fun st => (st.1, add_to_group record st.2)).

Definition check_group (e : group_key * RecordVersionGroup) : M KState unit :=
  lift (match ValidateIsLatest e.2 with Ok _ => Ok tt | Err _ => Err ErrInvalidGenesisState end).

Definition init_role_admin (e : bytes * bytes) : M KState unit :=
  key ← lift (RoleCodec_Decode e.1);
  rbac (modify (fun r => set_RoleAdmins (<[key.2 := e.2]> (RoleAdmins r)) r)).

Definition init_role_member (e : bytes * bytes) : M KState unit :=
  key ← lift (member_key_decode e.1);
  rbac (modify (fun r => set_RoleMembers (<[key := e.2]> (RoleMembers r)) r)).

Definition InitGenesis (gs : GenesisState) : M KState unit :=
  _ ← modify (set_Params (Some (gen_Params gs)));
  registryCount ← with_local 0 (for_each init_registry (gen_Registries gs));
  _ ← modify (set_RegistryCount (Some registryCount));
  groups ← with_local ∅ (for_each init_record (gen_Records gs));
  _ ← for_each check_group (range_groups groups);
  _ ← for_each init_role_admin (gen_RoleAdmins gs);
  for_each init_role_member (gen_RoleMembers gs).

(** ** ExportGenesis *)

Definition encodeRBACRoleAdminKey (key : Role) : result bytes :=
  let buffer := replicate (RoleCodec_Size key) x00 in
  let '(n, buffer) := RoleCodec_Encode buffer key in
  Ok (take n buffer).

Definition encodeRBACRoleMemberKey (key : Role * bytes) : result bytes := member_key_encode key.

(** A map assignment [m[k] = v] on a Go map kept as its entries. *)
Definition go_assign {A} (m : list (bytes * A)) (k : bytes) (v : A) : list (bytes * A) :=
  if bool_decide (k ∈ m.*1) then map (fun e => if bool_decide (e.1 = k) then (k, v) else e) m
  else m ++ [(k, v)].

Definition export_role_admin (key : Role) (adminRole : bytes) : M (list (bytes * bytes)) bool :=
  keyBytes ← lift (encodeRBACRoleAdminKey key);
  _ ← modify (fun m => go_assign m keyBytes adminRole);
  mret false.

Definition export_role_member (key : Role * bytes) (marker : bytes) : M (list (bytes * bytes)) bool :=
  keyBytes ← lift (encodeRBACRoleMemberKey key);
  _ ← modify (fun m => go_assign m keyBytes marker);
  mret false.

Definition ExportGenesis : M KState GenesisState :=
  params ← get_or_not_found k_Params;
  genRegistries ← gets (fun s => walk (Registries s));
  genRecords ← gets (fun s => (walk (Records s)).*2);
  roleAdmins ← gets RBAC_RoleAdmins;
  genRoleAdmins ← collect [] (walk_cb export_role_admin (walk roleAdmins));
  roleMembers ← gets RBAC_RoleMembers;
  genRoleMembers ← collect [] (walk_cb export_role_member (walk roleMembers));
  mret (mkGenesis params genRegistries genRecords genRoleAdmins genRoleMembers).
End genesis.

(** ** Version groups *)

Definition version_group (l : list Record_) (gk : group_key) : RecordVersionGroup :=
  fold_left RecordVersionGroup_Add (filter (fun r => record_gk r = gk) l) empty_group.

Definition groups_of (l : list Record_) : groups_map :=
  fold_left (fun g r => add_to_group r g) l ∅.

Lemma version_group_snoc l r gk :
  version_group (l ++ [r]) gk =
  if decide (record_gk r = gk) then RecordVersionGroup_Add (version_group l gk) r
  else version_group l gk.
Proof.
  unfold version_group. rewrite filter_app, filter_cons, filter_nil.
  case_decide; [by rewrite fold_left_app|by rewrite app_nil_r].
Qed.

Lemma groups_of_snoc l r : groups_of (l ++ [r]) = add_to_group r (groups_of l).
Proof. unfold groups_of. by rewrite fold_left_app. Qed.

(** The map of groups holds, for each (registry, record) that occurs, the summary
    of its versions. *)
Lemma groups_of_lookup l gk :
  groups_of l !! gk =
  if decide (gk ∈ record_gk <$> l) then Some (version_group l gk) else None.
Proof.
  induction l as [|r l IH] using rev_ind; [done|].
  rewrite groups_of_snoc, version_group_snoc. unfold add_to_group.
  assert (Hin : gk ∈ record_gk <$> (l ++ [r]) <-> gk ∈ record_gk <$> l \/ gk = record_gk r).
  { rewrite fmap_app, elem_of_app. simpl. by rewrite list_elem_of_singleton. }
  destruct (decide (record_gk r = gk)) as [<-|Hne].
  - rewrite lookup_insert_eq, decide_True by naive_solver. rewrite IH. do 2 f_equal.
    case_decide as Hd; [done|]. unfold version_group.
    rewrite filter_none; [done|]. intros x Hx E. apply Hd.
    rewrite <- E. by apply list_elem_of_fmap_2.
  - rewrite lookup_insert_ne by done. rewrite IH. repeat case_decide; naive_solver.
Qed.

Lemma version_group_max l gk r : r ∈ l -> record_gk r = gk -> rec_Index r <= MaxIndex (version_group l gk).
Proof.
  induction l as [|x l IH] using rev_ind; [by intros ?%not_elem_of_nil|].
  rewrite elem_of_app, list_elem_of_singleton, version_group_snoc. intros Hr Hg.
  unfold RecordVersionGroup_Add.
  destruct Hr as [Hr| ->]; repeat case_decide; subst; simpl; repeat case_match; simpl;
    try specialize (IH Hr eq_refl); try rewrite Z.ltb_lt in *; try rewrite Z.ltb_ge in *; try lia; done.
Qed.

Lemma version_group_max_in l gk :
  gk ∈ record_gk <$> l -> (forall r, r ∈ l -> 0 < rec_Index r) ->
  exists r, r ∈ l /\ record_gk r = gk /\ MaxIndex (version_group l gk) = rec_Index r.
Proof.
  induction l as [|x l IH] using rev_ind; [by intros ?%not_elem_of_nil|].
  rewrite fmap_app, elem_of_app, version_group_snoc. simpl. rewrite list_elem_of_singleton.
  intros Hin Hpos.
  destruct (decide (record_gk x = gk)) as [Hx|Hx].
  - unfold RecordVersionGroup_Add.
    destruct (MaxIndex (version_group l gk) <? rec_Index x) eqn:Elt.
    + exists x. rewrite elem_of_app, list_elem_of_singleton. split_and!; [by right|done|].
      by destruct (rec_IsLatest x).
    + destruct (decide (gk ∈ record_gk <$> l)) as [Hl|Hl].
      * destruct IH as (r & Hr & Hg & Hm); [done|intros; apply Hpos, elem_of_app; by left|].
        exists r. rewrite elem_of_app. split_and!; [by left|done|]. by destruct (rec_IsLatest x).
      * exfalso. apply Z.ltb_ge in Elt. specialize (Hpos x ltac:(apply elem_of_app; right; by left)).
        unfold version_group in Elt. rewrite filter_none in Elt; [simpl in Elt; lia|].
        intros y Hy E. apply Hl. rewrite <- E. by apply list_elem_of_fmap_2.
  - destruct Hin as [Hin|?]; [|by subst].
    destruct IH as (r & Hr & Hg & Hm); [done|intros; apply Hpos, elem_of_app; by left|].
    exists r. rewrite elem_of_app. eauto.
Qed.

Definition latest_of (l : list Record_) (gk : group_key) : list Record_ :=
  filter (fun r => record_gk r = gk /\ rec_IsLatest r = true) l.

Lemma version_group_latest l gk :
  LatestCount (version_group l gk) = Z.of_nat (length (latest_of l gk)) /\
  LatestIndex (version_group l gk) = default 0 (rec_Index <$> last (latest_of l gk)).
Proof.
  induction l as [|x l [IH1 IH2]] using rev_ind; [done|].
  rewrite version_group_snoc. unfold latest_of in *. rewrite filter_app, filter_cons, filter_nil.
  case_decide as Hx; [|rewrite decide_False by tauto; by rewrite app_nil_r].
  unfold RecordVersionGroup_Add. destruct (rec_IsLatest x) eqn:El.
  - rewrite decide_True by done. rewrite length_app, last_snoc. simpl.
    split; [|done]. destruct (_ <? _); simpl; lia.
  - rewrite decide_False by naive_solver. rewrite app_nil_r. by destruct (_ <? _).
Qed.

(** A group whose only latest version is the one with the greatest index is
    accepted. *)
Lemma ValidateIsLatest_ok l gk top :
  NoDup (record_rk <$> l) ->
  (forall r, r ∈ l -> record_gk r = gk -> rec_Index r <= top) ->
  (forall r, r ∈ l -> record_gk r = gk -> (rec_IsLatest r = true <-> rec_Index r = top)) ->
  (exists r, r ∈ l /\ record_gk r = gk /\ rec_Index r = top) ->
  (forall r, r ∈ l -> 0 < rec_Index r) ->
  ValidateIsLatest (version_group l gk) = Ok tt.
Proof.
  intros Hnd Hle Hlat (r & Hr & Hg & Ht) Hpos.
  assert (Hone : latest_of l gk = [r]).
  { assert (Hin : r ∈ latest_of l gk) by (apply list_elem_of_filter; naive_solver).
    assert (Hall : forall y, y ∈ latest_of l gk -> y = r).
    { intros y [[Hy1 Hy2] Hy]%list_elem_of_filter. apply (Hlat y Hy Hy1) in Hy2.
      apply (NoDup_fmap_inj_in record_rk l); try done. unfold record_rk, record_gk in *.
      congruence. }
    assert (Hnd' : NoDup (latest_of l gk)) by (apply NoDup_filter; by apply (NoDup_fmap_1 record_rk)).
    destruct (latest_of l gk) as [|y1 [|y2 l']]; [by apply not_elem_of_nil in Hin| |].
    - f_equal. apply Hall. by left.
    - rewrite (Hall y1 ltac:(by left)), (Hall y2 ltac:(right; by left)) in Hnd'.
      apply NoDup_cons in Hnd' as [Hn _]. destruct Hn. by left. }
  destruct (version_group_latest l gk) as [H1 H2]. rewrite Hone in H1, H2. simpl in H1, H2.
  destruct (version_group_max_in l gk) as (z & Hz & Hzg & Hzm); [rewrite <- Hg; by apply list_elem_of_fmap_2|done|].
  pose proof (version_group_max l gk r Hr Hg). specialize (Hle z Hz Hzg).
  unfold ValidateIsLatest. rewrite H1, H2. run_unfold.
  assert (MaxIndex (version_group l gk) = rec_Index r) as -> by lia. by rewrite Z.eqb_refl.
Qed.

(** ** What makes a genesis loadable *)

Section loading.
Context {ENV : Env} {MC : MemberCodec}.
Context (range_groups : groups_map -> list (group_key * RecordVersionGroup)).
Context (Hrange : forall g, range_groups g ≡ₚ map_to_list g).

(** The conditions on registries and records that [Validate] and [InitGenesis]
    check in different ways. *)
Record well_formed (gs : GenesisState) : Prop := {
  wg_regs : Forall (fun e => e.1 = reg_Id e.2 /\ ValidateRegistry e.2 = Ok tt) (gen_Registries gs);
  wg_recs : Forall (fun r => ValidateRecord r = Ok tt /\
              rec_RegistryId r ∈ (gen_Registries gs).*1) (gen_Records gs);
  wg_unique : NoDup (record_rk <$> gen_Records gs);
  wg_latest : forall gk, gk ∈ record_gk <$> gen_Records gs ->
    ValidateIsLatest (version_group (gen_Records gs) gk) = Ok tt
}.

Lemma validate_registries_ok l ids :
  for_each validate_registry l ∅ = (Ok tt, ids) <->
  Forall (fun e => e.1 = reg_Id e.2 /\ ValidateRegistry e.2 = Ok tt) l /\ ids = list_to_set l.*1.
Proof.
  rewrite <- (union_empty_r_L (list_to_set l.*1)). generalize (∅ : gset Z) as seen.
  induction l as [|[k r] l IH]; intros seen; simpl.
  { rewrite union_empty_l_L. split; [by intros [= <-]|]. by intros [_ ->]. }
  rewrite bind_ok. run_unfold. destruct (Z.eqb_spec k (reg_Id r)) as [->|Hne]; simpl.
  2: { split; [naive_solver|]. by intros [[[? _] _]%Forall_cons _]. }
  destruct (ValidateRegistry r) as [[]|e] eqn:Er.
  2: { split; [naive_solver|]. intros [[[_ Hv] _]%Forall_cons _]. simpl in Hv. congruence. }
  rewrite Forall_cons. simpl. split.
  - intros ([] & s1 & [= <-] & E). apply IH in E as [? ->]. split; [naive_solver|set_solver].
  - intros [[_ Hl] ->]. do 2 eexists. split; [done|]. apply IH. split; [done|set_solver].
Qed.

Lemma validate_records_ok ids l st :
  for_each (validate_record ids) l (∅, ∅) = (Ok tt, st) <->
  Forall (fun r => ValidateRecord r = Ok tt /\ rec_RegistryId r ∈ ids) l /\
  NoDup (record_rk <$> l) /\ st = (list_to_set (record_rk <$> l), groups_of l).
Proof.
  unfold groups_of. rewrite <- (union_empty_r_L (list_to_set _)).
  cut (forall seen g, for_each (validate_record ids) l (seen, g) = (Ok tt, st) <->
    Forall (fun r => ValidateRecord r = Ok tt /\ rec_RegistryId r ∈ ids) l /\
    (NoDup (record_rk <$> l) /\ forall k, k ∈ record_rk <$> l -> k ∉ seen) /\
    st = (list_to_set (record_rk <$> l) ∪ seen, fold_left (fun g r => add_to_group r g) l g)).
  { intros Hc. rewrite Hc. split; [naive_solver|]. intros (? & ? & ?). split_and!; try done;
    intros k _; apply not_elem_of_empty. }
  induction l as [|r l IH]; intros seen g; simpl.
  { rewrite union_empty_l_L. split; [intros [= <-]|by intros (_ & _ & ->)].
    split_and!; [done|apply NoDup_nil_2|by intros k ?%not_elem_of_nil|done]. }
  rewrite Forall_cons, NoDup_cons, bind_ok. unfold validate_record at 1. run_unfold.
  destruct (ValidateRecord r) as [[]|e]; [|split; [by intros (? & ? & ? & ?)|by intros ([[? _] _] & _)]].
  destruct (bool_decide_reflect (rec_RegistryId r ∈ ids)); simpl;
    [|split; [by intros (? & ? & ? & ?)|by intros ([[_ ?] _] & _)]].
  destruct (bool_decide_reflect (record_rk r ∈ seen)) as [Hin|Hnin]; simpl.
  { split; [by intros (? & ? & ? & ?)|]. intros (_ & [_ Hd] & _). destruct (Hd (record_rk r)); [by left|done]. }
  split.
  - intros ([] & s1 & [= <-] & E). apply IH in E as (? & [? Hd] & ->). split_and!; try done.
    + intros Hr. apply (Hd _ Hr). set_solver.
    + intros k [->|Hk]%elem_of_cons; [done|]. specialize (Hd k Hk). set_solver.
    + f_equal. set_solver.
  - intros ([_ Hl] & [[Hr Hnd] Hd] & ->). do 2 eexists. split; [done|]. apply IH.
    split_and!; try done; [|f_equal; set_solver].
    intros k Hk Hs. apply elem_of_union in Hs as [->%elem_of_singleton|Hs]; [done|].
    apply (Hd k); [by right|done].
Qed.

Lemma check_groups_ok {S} (check : RecordVersionGroup -> M S unit) s l :
  (forall g, check g s = (Ok tt, s) <-> ValidateIsLatest g = Ok tt) ->
  (forall g, (check g s).2 = s) ->
  for_each (fun e => check e.2) (range_groups (groups_of l)) s = (Ok tt, s) <->
  forall gk, gk ∈ record_gk <$> l -> ValidateIsLatest (version_group l gk) = Ok tt.
Proof.
  intros Hc Hs.
  assert (Hl : forall m, for_each (fun e : group_key * _ => check e.2) m s = (Ok tt, s) <->
    forall e, e ∈ m -> ValidateIsLatest e.2 = Ok tt).
  { induction m as [|e m IH]; simpl; [split; [by intros _ e ?%not_elem_of_nil|done]|].
    rewrite bind_ok. split.
    - intros ([] & s1 & E & E') e' [->|He]%elem_of_cons.
      + specialize (Hs e.2). rewrite E in Hs. simpl in Hs. subst s1. by apply Hc.
      + specialize (Hs e.2). rewrite E in Hs. simpl in Hs. subst s1. by apply IH.
    - intros Ha. exists tt, s. split; [apply Hc, Ha; by left|]. apply IH. intros e' He.
      apply Ha. by right. }
  rewrite Hl. split.
  - intros Ha gk Hgk. apply (Ha (gk, version_group l gk)). rewrite Hrange, elem_of_map_to_list,
      groups_of_lookup. by rewrite decide_True.
  - intros Ha [gk g]. rewrite Hrange, elem_of_map_to_list, groups_of_lookup.
    case_decide; [|done]. intros [= <-]. by apply Ha.
Qed.

Lemma for_each_unit_ok {A} (f : A -> M unit unit) l :
  (for_each f l tt).1 = Ok tt <-> Forall (fun x => (f x tt).1 = Ok tt) l.
Proof.
  induction l as [|x l IH]; simpl; [done|]. rewrite Forall_cons. cbv [mbind M_bind].
  destruct (f x tt) as [[[]|] []]; simpl; [rewrite IH; naive_solver|naive_solver].
Qed.

(** The checks of [Validate] as a proposition. *)
Lemma Validate_spec gs :
  GenesisState_Validate range_groups gs = Ok tt <->
  Params_Validate (gen_Params gs) = Ok tt /\ well_formed gs /\
  Forall (fun e => e.1 <> [] /\ e.2 <> []) (gen_RoleAdmins gs) /\
  Forall (fun e => e.1 <> []) (gen_RoleMembers gs).
Proof.
  unfold GenesisState_Validate. cbv [mbind result_bind].
  destruct (Params_Validate _) as [[]|]; [|naive_solver].
  destruct (for_each validate_registry _ ∅) as [[[]|e] ids] eqn:E1.
  2: { split; [done|]. intros (_ & [Hr _ _ _] & _).
       by rewrite (proj2 (validate_registries_ok _ _) (conj Hr eq_refl)) in E1. }
  apply validate_registries_ok in E1 as [Hregs ->].
  destruct (for_each (validate_record _) _ _) as [[[]|e] st] eqn:E2.
  2: { split; [done|]. intros (_ & [_ Hr Hu _] & _).
       rewrite (proj2 (validate_records_ok _ _
         (list_to_set (record_rk <$> gen_Records gs), groups_of (gen_Records gs)))) in E2; [done|]. split_and!; [|done|reflexivity].
       eapply Forall_impl; [exact Hr|]. intros r [? ?]. split; [done|]. by apply elem_of_list_to_set. }
  apply validate_records_ok in E2 as (Hrecs & Hu & ->). simpl.
  pose proof (check_groups_ok (fun g => lift (ValidateIsLatest g)) tt (gen_Records gs)) as Hg.
  unfold lift in Hg at 1 2. specialize (Hg ltac:(intros g; destruct (ValidateIsLatest g) as [[]|]; naive_solver) ltac:(done)).
  assert (Hrecs' : Forall (fun r => ValidateRecord r = Ok tt /\ rec_RegistryId r ∈ (gen_Registries gs).*1) (gen_Records gs)).
  { eapply Forall_impl; [exact Hrecs|]. intros r [? Hr%elem_of_list_to_set]. done. }
  destruct (for_each (fun e => lift (ValidateIsLatest e.2)) _ tt) as [[[]|e] []] eqn:E3; simpl.
  2: { split; [done|]. intros (_ & [_ _ _ Hl] & _). apply Hg in Hl. unfold lift in *. congruence. }
  assert (Hl : forall gk, gk ∈ record_gk <$> gen_Records gs ->
    ValidateIsLatest (version_group (gen_Records gs) gk) = Ok tt) by (by apply Hg).
  assert (Hadm : (for_each validate_role_admin (gen_RoleAdmins gs) tt).1 = Ok tt <->
    Forall (fun e => e.1 <> [] /\ e.2 <> []) (gen_RoleAdmins gs)).
  { rewrite for_each_unit_ok. apply Forall_iff. intros [[] []]; simpl; naive_solver. }
  assert (Hmem : (for_each validate_role_member (gen_RoleMembers gs) tt).1 = Ok tt <->
    Forall (fun e => e.1 <> []) (gen_RoleMembers gs)).
  { rewrite for_each_unit_ok. apply Forall_iff. intros [[] ?]; simpl; naive_solver. }
  destruct (for_each validate_role_admin _ tt) as [[[]|e] []]; simpl in *.
  - rewrite Hmem. split; [|naive_solver]. intros ?. split_and!; [done|by split|by apply Hadm|done].
  - split; [done|]. intros (_ & _ & Ha & _). apply Hadm in Ha. done.
Qed.

(** ** What [InitGenesis] leaves in the store *)

Definition max_record_id (l : list Record_) (id : Z) : Z :=
  fold_left Z.max (rec_RecordId <$> filter (fun r => rec_RegistryId r = id) l) 0.

(** The tables after the records [l] were loaded. *)
Record records_loaded (l : list Record_) (s : KState) : Prop := {
  rl_records : Records s = list_to_map ((fun r => (record_rk r, r)) <$> l);
  rl_indices : RecordIndices s = MaxIndex <$> groups_of l;
  rl_byRC : forall id c rid, RecordIdByRegistryAndChecksum s !! (id, c) = Some rid ->
    exists r, r ∈ l /\ rec_RegistryId r = id /\ rec_Checksum r = c /\ rec_RecordId r = rid;
  rl_indexed : forall r, r ∈ l ->
    is_Some (RecordIdByRegistryAndChecksum s !! (rec_RegistryId r, rec_Checksum r));
  rl_byCR : forall id c,
    RecordIdByChecksumAndRegistry s !! (c, id) = RecordIdByRegistryAndChecksum s !! (id, c);
  rl_count : forall id, RecordsCountByRegistry s !! id = (fun _ => max_record_id l id) <$> Registries s !! id
}.

Definition registries_loaded (p : Params) (l : list (Z * Registry)) : KState :=
  set_RecordsCountByRegistry (list_to_map ((fun e => (e.1, 0)) <$> l))
    (set_Registries (list_to_map l) (set_Params (Some p) empty_state)).

Lemma init_registries_ok p l :
  Forall (fun e => e.1 = reg_Id e.2 /\ ValidateRegistry e.2 = Ok tt) l -> NoDup l.*1 ->
  for_each init_registry l (set_Params (Some p) empty_state, 0)
  = (Ok tt, (registries_loaded p l, fold_left Z.max l.*1 0)).
Proof.
  intros Hl Hnd.
  edestruct (for_each_ok (fun d st => st = (registries_loaded p d, fold_left Z.max d.*1 0))
    init_registry l) as (st & E & ->); [| |exact E]; [done|].
  intros d [k r] rest st Hd ->. eexists. split; [|done]. subst l.
  apply Forall_app in Hl as [_ [[Hk Hv] _]%Forall_cons]. simpl in Hk, Hv. subst k.
  rewrite fmap_app, fmap_cons in Hnd. simpl in Hnd. apply NoDup_app in Hnd as (_ & Hnd & _).
  assert (reg_Id r ∉ d.*1) as Hni by (intros Hin; apply (Hnd _ Hin); by left).
  unfold init_registry, initializeRegistryRecordCounter. run_unfold.
  rewrite Z.eqb_refl, Hv. simpl. f_equal. unfold registries_loaded, set_Registries,
    set_RecordsCountByRegistry. simpl. rewrite !fmap_app, fold_left_app. simpl.
  rewrite !list_to_map_snoc by (done || by rewrite <- list_fmap_compose).
  f_equal. destruct (Z.ltb_spec (fold_left Z.max d.*1 0) (reg_Id r)); lia.
Qed.

Lemma max_record_id_snoc l r id :
  max_record_id (l ++ [r]) id =
  if decide (rec_RegistryId r = id) then Z.max (max_record_id l id) (rec_RecordId r)
  else max_record_id l id.
Proof.
  unfold max_record_id. rewrite filter_app, filter_cons, filter_nil, fmap_app.
  case_decide; [by rewrite fold_left_app|by rewrite app_nil_r].
Qed.

(** Everything the record loop does not write. *)
Definition same_others (s s' : KState) : Prop :=
  k_Params s' = k_Params s /\ Registries s' = Registries s /\ RegistryCount s' = RegistryCount s /\
  RBAC_RoleAdmins s' = RBAC_RoleAdmins s /\ RBAC_RoleMembers s' = RBAC_RoleMembers s /\
  k_events s' = k_events s.

Lemma init_record_step l r s g :
  ValidateRecord r = Ok tt -> is_Some (Registries s !! rec_RegistryId r) ->
  record_rk r ∉ record_rk <$> l -> key_string_ok (rec_Checksum r) = true ->
  records_loaded l s -> g = groups_of l ->
  exists s', init_record r (s, g) = (Ok tt, (s', groups_of (l ++ [r]))) /\
    records_loaded (l ++ [r]) s' /\ same_others s s'.
Proof.
  intros Hv [reg Hreg] Hni Hk [Hrec Hidx Hrc Hin Hcr Hcnt] ->.
  assert (Hpos : 0 < rec_Index r).
  { unfold ValidateRecord in Hv. run_unfold. destruct (rec_RecordId r <=? 0); [done|].
    destruct (Z.leb_spec (rec_Index r) 0); [done|lia]. }
  assert (Hnone : Records s !! record_rk r = None).
  { rewrite Hrec. apply not_elem_of_list_to_map_1. by rewrite <- list_fmap_compose. }
  unfold init_record, put_record, get_or_not_found. run_unfold. rewrite Hv. simpl. rewrite Hreg. simpl.
  fold (record_rk r). rewrite Hnone. simpl. fold (record_gk r). rewrite groups_of_snoc.
  assert (Hnew : forall i, RecordIndices s !! record_gk r = i ->
    MaxIndex <$> add_to_group r (groups_of l) =
    if match i with Some i => i <? rec_Index r | None => true end
    then <[record_gk r := rec_Index r]> (RecordIndices s) else RecordIndices s).
  { intros i Hi. rewrite Hidx in Hi |- *. unfold add_to_group. rewrite fmap_insert, lookup_fmap in *.
    destruct (groups_of l !! record_gk r) as [g0|] eqn:Eg; simpl in *; subst i.
    - unfold RecordVersionGroup_Add. destruct (MaxIndex g0 <? rec_Index r).
      + by destruct (rec_IsLatest r).
      + apply insert_id. rewrite lookup_fmap, Eg. by destruct (rec_IsLatest r).
    - unfold RecordVersionGroup_Add. simpl. rewrite (proj2 (Z.ltb_lt _ _)) by done.
      by destruct (rec_IsLatest r). }
  specialize (Hnew _ eq_refl).
  assert (Hc : RecordsCountByRegistry s !! rec_RegistryId r = Some (max_record_id l (rec_RegistryId r)))
    by (by rewrite Hcnt, Hreg).
  assert (Hcount : forall id, (if max_record_id l (rec_RegistryId r) <? rec_RecordId r
     then <[rec_RegistryId r := rec_RecordId r]> (RecordsCountByRegistry s)
     else RecordsCountByRegistry s) !! id = (fun _ => max_record_id (l ++ [r]) id) <$> Registries s !! id).
  { intros id. rewrite max_record_id_snoc.
    destruct (Z.ltb_spec (max_record_id l (rec_RegistryId r)) (rec_RecordId r));
      destruct (decide (rec_RegistryId r = id)) as [<-|Hne].
    - rewrite lookup_insert_eq, Hreg. simpl. f_equal. lia.
    - by rewrite lookup_insert_ne, Hcnt.
    - rewrite Hc, Hreg. simpl. f_equal. lia.
    - by rewrite Hcnt. }
  destruct (match RecordIndices s !! record_gk r with Some i => i <? rec_Index r | None => true end);
    simpl; rewrite Hk; simpl; rewrite Hc; simpl;
    destruct (max_record_id l (rec_RegistryId r) <? rec_RecordId r); simpl;
    (eexists; split; [done|]; split; [|done]); split; simpl; try done.
  all: try (rewrite groups_of_snoc; by rewrite Hnew).
  all: try (rewrite fmap_app; simpl; rewrite list_to_map_snoc;
            [by rewrite Hrec|by rewrite <- list_fmap_compose]).
  all: try (intros id c; destruct (decide ((rec_Checksum r, rec_RegistryId r) = (c, id))) as [E|E];
            [simplify_eq; by rewrite !lookup_insert_eq|
             rewrite !lookup_insert_ne by congruence; apply Hcr]).
  all: try (intros id c rid; destruct (decide ((rec_RegistryId r, rec_Checksum r) = (id, c))) as [E|E];
            [simplify_eq; rewrite lookup_insert_eq; intros [= <-]; exists r; rewrite elem_of_app;
             set_solver|
             rewrite lookup_insert_ne by done; intros (x & ? & ?)%Hrc; exists x; rewrite elem_of_app; eauto]).
  all: intros x [Hx|Hx%list_elem_of_singleton]%elem_of_app; subst; rewrite lookup_insert_is_Some; [|by left].
  all: destruct (decide ((rec_RegistryId r, rec_Checksum r) = (rec_RegistryId x, rec_Checksum x)));
    [by left|right; by auto].
Qed.

Lemma records_loaded_nil p l n : NoDup l.*1 ->
  records_loaded [] (set_RegistryCount n (registries_loaded p l)).
Proof.
  intros Hnd. split; simpl; try done; intros.
  all: try (by rewrite !lookup_empty in *).
  all: try (by match goal with H : _ ∈ [] |- _ => apply not_elem_of_nil in H end).
  rewrite <- lookup_fmap, <- list_to_map_fmap. do 2 f_equal.
Qed.

Lemma init_records_ok l s :
  Forall (fun r => ValidateRecord r = Ok tt /\ is_Some (Registries s !! rec_RegistryId r) /\
            key_string_ok (rec_Checksum r) = true) l ->
  NoDup (record_rk <$> l) -> records_loaded [] s ->
  exists s', for_each init_record l (s, ∅) = (Ok tt, (s', groups_of l)) /\
    records_loaded l s' /\ same_others s s'.
Proof.
  intros Hl Hnd H0.
  destruct (for_each_ok (fun d st => st.2 = groups_of d /\ records_loaded d st.1 /\ same_others s st.1)
    init_record l (s, ∅)) as ([s' g] & E & Hg & Hr & Ho); [done| |].
  - intros d r rest [s1 g] -> (Hg & Hr & Ho). simpl in Hg, Hr, Ho.
    apply Forall_app in Hl as [_ [(Hv & Hreg & Hk) _]%Forall_cons].
    rewrite fmap_app, fmap_cons in Hnd. apply NoDup_app in Hnd as (_ & Hnd & _).
    destruct Ho as (? & Hregs & Ho).
    destruct (init_record_step d r s1 g Hv) as (s2 & E & Hr2 & Ho2); try done.
    + by rewrite Hregs.
    + intros Hin. apply (Hnd _ Hin). by left.
    + eexists. split; [exact E|]. unfold same_others in *. simpl. naive_solver congruence.
  - simpl in Hg. subst g. eauto.
Qed.

Definition same_but_roles (s s' : KState) : Prop :=
  k_Params s' = k_Params s /\ Registries s' = Registries s /\ RegistryCount s' = RegistryCount s /\
  Records s' = Records s /\
  RecordIdByRegistryAndChecksum s' = RecordIdByRegistryAndChecksum s /\
  RecordsCountByRegistry s' = RecordsCountByRegistry s /\ RecordIndices s' = RecordIndices s /\
  RecordIdByChecksumAndRegistry s' = RecordIdByChecksumAndRegistry s /\ k_events s' = k_events s.

Definition decoded_admins (l : list (bytes * bytes)) : list (Role * bytes) :=
  (fun e => (NewRole e.1, e.2)) <$> l.

Definition decodes_member (e : bytes * bytes) (m : Role * bytes * bytes) : Prop :=
  member_key_decode e.1 = Ok m.1 /\ m.2 = e.2.

Lemma init_role_admins_ok l s :
  RBAC_RoleAdmins s = ∅ -> NoDup (decoded_admins l).*1 ->
  exists s', for_each init_role_admin l s = (Ok tt, s') /\
    RBAC_RoleAdmins s' = list_to_map (decoded_admins l) /\
    RBAC_RoleMembers s' = RBAC_RoleMembers s /\ same_but_roles s s'.
Proof.
  intros H0 Hnd.
  apply (for_each_ok (fun d s' => RBAC_RoleAdmins s' = list_to_map (decoded_admins d) /\
    RBAC_RoleMembers s' = RBAC_RoleMembers s /\ same_but_roles s s')); [done|].
  intros d [k v] rest s1 -> (Ha & Hm & Hs). eexists. split; [done|]. simpl. split_and!; [|done|done].
  unfold decoded_admins in *. rewrite !fmap_app in *. simpl in *.
  apply NoDup_app in Hnd as (_ & Hnd & _). rewrite list_to_map_snoc; [by rewrite Ha|].
  intros Hin. apply (Hnd _ Hin). by left.
Qed.

Lemma init_role_members_ok l l' s :
  RBAC_RoleMembers s = ∅ -> Forall2 decodes_member l l' -> NoDup l'.*1 ->
  exists s', for_each init_role_member l s = (Ok tt, s') /\
    RBAC_RoleMembers s' = list_to_map l' /\
    RBAC_RoleAdmins s' = RBAC_RoleAdmins s /\ same_but_roles s s'.
Proof.
  intros H0 HF Hnd.
  destruct (for_each_ok (fun d s' => RBAC_RoleMembers s' = list_to_map (take (length d) l') /\
    RBAC_RoleAdmins s' = RBAC_RoleAdmins s /\ same_but_roles s s') init_role_member l s)
    as (s' & E & Hm & ?); [done| |].
  - intros d [k v] rest s1 -> (Hm & Ha & Hs).
    apply Forall2_app_inv_l in HF as (d' & rest' & Hd & Hrest & ->).
    apply Forall2_cons_inv_l in Hrest as ([m v'] & rest'' & [Hk Hv] & Hrest & ->). simpl in *. subst v'.
    apply Forall2_length in Hd. unfold init_role_member. run_unfold. simpl. rewrite Hk.
    eexists. split; [done|]. simpl. split_and!; [|done|done].
    rewrite Hm, take_app_length' by done. rewrite length_app. simpl.
    rewrite (app_assoc d' [(m, v)] rest'' : d' ++ (m, v) :: rest'' = _) in Hnd |- *.
    rewrite take_app_length' by (rewrite length_app; simpl; lia).
    rewrite fmap_app in Hnd. apply NoDup_app in Hnd as (Hnd & _ & _). rewrite fmap_app in Hnd.
    apply NoDup_app in Hnd as (_ & Hnd & _). rewrite list_to_map_snoc; [done|].
    intros Hin. apply (Hnd _ Hin). by left.
  - exists s'. rewrite take_ge in Hm by (by rewrite (Forall2_length _ _ _ HF)). done.
Qed.

(** The store a genesis describes. *)
Record loaded (gs : GenesisState) (members : list (Role * bytes * bytes)) (s : KState) : Prop := {
  ld_params : k_Params s = Some (gen_Params gs);
  ld_regs : Registries s = list_to_map (gen_Registries gs);
  ld_regcount : RegistryCount s = Some (fold_left Z.max (gen_Registries gs).*1 0);
  ld_records : records_loaded (gen_Records gs) s;
  ld_admins : RBAC_RoleAdmins s = list_to_map (decoded_admins (gen_RoleAdmins gs));
  ld_members : RBAC_RoleMembers s = list_to_map members;
  ld_events : k_events s = []
}.

Lemma InitGenesis_loads gs members :
  well_formed gs -> NoDup (gen_Registries gs).*1 ->
  Forall (fun r => key_string_ok (rec_Checksum r) = true) (gen_Records gs) ->
  NoDup (decoded_admins (gen_RoleAdmins gs)).*1 ->
  Forall2 decodes_member (gen_RoleMembers gs) members -> NoDup members.*1 ->
  exists s, InitGenesis range_groups gs empty_state = (Ok tt, s) /\ loaded gs members s.
Proof.
  intros [Hregs Hrecs Hu Hl] Hnd Hkeys Hadm HF Hmem.
  unfold InitGenesis, with_local. cbv [mbind M_bind modify].
  rewrite init_registries_ok by done.
  set (s1 := set_RegistryCount _ (registries_loaded _ _)).
  destruct (init_records_ok (gen_Records gs) s1) as (s2 & -> & Hr & Ho); [|done|by apply records_loaded_nil|].
  { rewrite Forall_forall in *. intros r Hr. destruct (Hrecs r Hr) as [? Hin]. split_and!; auto. simpl.
    apply list_elem_of_fmap in Hin as ([k reg] & -> & Hin). exists reg.
    by apply elem_of_list_to_map_1. }
  assert (Hcg : for_each check_group (range_groups (groups_of (gen_Records gs))) s2 = (Ok tt, s2)).
  { exact (proj2 (check_groups_ok
      (fun g => lift (match ValidateIsLatest g with Ok _ => Ok tt | Err _ => Err ErrInvalidGenesisState end))
      s2 (gen_Records gs) ltac:(intros g; unfold lift; destruct (ValidateIsLatest g) as [[]|]; naive_solver)
      ltac:(done)) Hl). }
  rewrite Hcg. destruct Ho as (Hp & Hg & Hc & Ha & Hm & He).
  destruct (init_role_admins_ok (gen_RoleAdmins gs) s2) as (s4 & -> & Ha4 & Hm4 & Hs4); [done|done|].
  destruct (init_role_members_ok (gen_RoleMembers gs) members s4) as (s5 & -> & Hm5 & Ha5 & Hs5);
    [by rewrite Hm4, Hm|done|done|].
  exists s5. split; [done|]. subst s1. simpl in Hp, Hg, Hc, Ha, Hm, He.
  unfold same_but_roles in *. destruct_and!. split; try congruence.
  destruct Hr as [? ? ? ? ? ?]. split; intros; repeat match goal with
    E : ?f s5 = _ |- context [?f s5] => rewrite E | E : ?f s5 = _, H : context [?f s5] |- _ => rewrite E in H
    | E : ?f s4 = _ |- context [?f s4] => rewrite E | E : ?f s4 = _, H : context [?f s4] |- _ => rewrite E in H end;
    eauto; congruence.
Qed.
End loading.
