(* ===== verification/Export.v ===== *)
(** Export and re-import of reachable stores: what [ExportGenesis] writes,
    [Validate] accepts and [InitGenesis] reads back to the same store. *)

From S2P Require Import Prelude Types Rbac Keeper MsgServer Spec Refine Ledger Access Concrete Genesis.

(** ** Reachable stores are exportable *)

Section export.
Context {ENV : Env} {LAWS : EnvLaws}.
Implicit Types s : KState.

(** What the message handlers have checked of everything in the store. *)
Record checked (s : KState) : Prop := {
  ck_params : forall p, k_Params s = Some p -> Params_Validate p = Ok tt;
  ck_regs : forall id r, Registries s !! id = Some r -> 0 < reg_Id r -> ValidateRegistry r = Ok tt;
  ck_recs : forall k r, Records s !! k = Some r -> ValidateRecordForCreate r = Ok tt;
  ck_keys : forall k, is_Some (RecordIdByRegistryAndChecksum s !! k) -> key_string_ok k.2 = true;
  ck_admins : forall h v, RBAC_RoleAdmins s !! h = Some v -> length h = RoleSize /\ length v = RoleSize;
  ck_members : forall k v, RBAC_RoleMembers s !! k = Some v -> length k.1 = RoleSize
}.

Lemma role_length id role : length (RegistryRole id role) = RoleSize.
Proof. apply keccak256_length. Qed.

Lemma scoped_length id c role : length (scopedRole id c role) = RoleSize.
Proof. unfold scopedRole. destruct (isRecordRole id c); apply keccak256_length. Qed.

Lemma checked_empty p : Params_Validate p = Ok tt -> checked (genesis_store p).
Proof.
  intros Hp. split; simpl; try (by intros; rewrite lookup_empty in * ).
  by intros ? [= <-].
Qed.

Lemma checked_AddRegistry ctx m sender s :
  StringToBytes (mar_Sender m) = Some sender -> checked s ->
  checked (AddRegistry ctx sender (mar_Name m) (mar_Description m) (mar_Metadata m) s).2.
Proof.
  intros Hs [Hp Hr Hc Hk Ha Hm].
  unfold AddRegistry, get_or_not_found, rbac, SetRoleAdmin, initializeRegistryRecordCounter, emit.
  run_unfold. destruct (ValidateRegistryForCreate _ _ _) as [[]|] eqn:Ev; simpl; [|by split].
  destruct (RegistryCount s) as [n|]; simpl; [|by split].
  rewrite (StringToBytes_String _ _ Hs). simpl.
  split; simpl; try done.
  - intros id r. rewrite lookup_insert_Some. intros [[<- <-]|[_ ?]]; [|by eauto]. simpl. intros Hid.
    unfold ValidateRegistry. simpl. run_unfold. rewrite (proj2 (Z.leb_gt _ _)) by done.
    destruct (FromBech32_String _ _ Hs) as [a' Ea].
    destruct (AccAddress_String sender) eqn:E; [by rewrite FromBech32_empty in Ea|].
    simpl. by rewrite Ea.
  - intros h v. rewrite lookup_insert_Some. intros [[<- <-]|[_ ?]]; [|by eauto].
    by rewrite role_length.
  - intros k v. rewrite lookup_insert_Some. intros [[<- <-]|[_ ?]]; [|by eauto]. apply role_length.
Qed.

Lemma checked_put_record k r s :
  ValidateRecordForCreate r = Ok tt -> checked s -> checked (set_Records (<[k := r]> (Records s)) s).
Proof.
  intros Hr []. split; simpl; try done. intros k' r'.
  rewrite lookup_insert_Some. intros [[<- <-]|[_ ?]]; eauto.
Qed.

Lemma checked_assign id c s : checked s -> checked (assign_record_id id c s).2.
Proof.
  intros [Hp Hr Hc Hk Ha Hm]. unfold assign_record_id, get_or_not_found. run_unfold.
  destruct (RecordIdByRegistryAndChecksum s !! (id, c)); simpl; [by split|].
  destruct (RecordsCountByRegistry s !! id); simpl; [|by split].
  destruct (key_string_ok c) eqn:Ek; simpl; [|by split].
  split; simpl; try done. intros k'. rewrite lookup_insert_is_Some. intros [<-|[_ ?]]; eauto.
Qed.

Lemma validate_same x y :
  rec_Checksum x = rec_Checksum y -> rec_ChecksumAlgo x = rec_ChecksumAlgo y ->
  rec_Uri x = rec_Uri y -> rec_Metadata x = rec_Metadata y ->
  rec_RegistryId x = rec_RegistryId y -> rec_Status x = rec_Status y ->
  ValidateRecordForCreate x = ValidateRecordForCreate y.
Proof. intros E1 E2 E3 E4 E5 E6. unfold ValidateRecordForCreate. by rewrite E1, E2, E3, E4, E5, E6. Qed.

Lemma checked_events e s : checked s -> checked (set_events e s).
Proof. by intros []. Qed.

Lemma checked_AddRecord ctx sender r s : checked s -> checked (AddRecord ctx sender r s).2.
Proof.
  intros Hs. unfold AddRecord, put_record, emit, get_or_not_found. run_unfold.
  destruct (ValidateRecordForCreate r) as [[]|] eqn:Ev; simpl; [|done].
  destruct (Registries s !! _); simpl; [|done]. rewrite checkPermission_spec.
  destruct (permitted s sender _ _ _); simpl; [|done].
  pose proof (checked_assign (rec_RegistryId r) (rec_Checksum r) s Hs) as Ha.
  destruct (assign_record_id _ _ s) as [[rid|] s1]; simpl in *; [|done].
  set (idx := match _ with Some i => _ | None => 1 end). set (r' := set_rec_ids _ _ _ _).
  assert (Hr' : ValidateRecordForCreate r' = Ok tt) by (by rewrite <- Ev; apply validate_same).
  assert (H1 : checked (set_RecordIndices (<[(rec_RegistryId r, rid):=idx]> (RecordIndices s1)) s1))
    by (destruct Ha; by split).
  apply (checked_put_record (rec_RegistryId r, rid, idx) r') in H1; [|done].
  destruct (1 <? idx); simpl; [|by apply (checked_events _ _ H1)].
  destruct (<[_ := r']> (Records s1) !! _) as [prev|] eqn:Ep; simpl; [|done].
  eapply checked_events.
  refine (checked_put_record (rec_RegistryId r, rid, idx - 1) (set_IsLatest false prev) _ _ H1).
  rewrite (validate_same _ prev) by done. by apply (ck_recs _ H1 _ _ Ep).
Qed.

Lemma checked_UpdateRecordStatus sender id rid i st s :
  checked s -> checked (UpdateRecordStatus sender id rid i st s).2.
Proof.
  intros Hs. rewrite UpdateRecordStatus_spec. destruct (ValidateRecordStatus st) as [[]|] eqn:Ev; [|done].
  destruct (Records s !! (id, rid, i)) as [r|] eqn:Er; [|done]. destruct (permitted _ _ _ _ _); [|done].
  apply checked_events, checked_put_record; [|done]. pose proof (ck_recs _ Hs _ _ Er) as Hv.
  unfold ValidateRecordForCreate in *. run_unfold. simpl.
  repeat (case_match; [|done]). done.
Qed.

Lemma checked_SetRoleAdmin role adm s :
  length role = RoleSize -> length adm = RoleSize -> checked s ->
  checked (rbac (SetRoleAdmin role adm) s).2.
Proof.
  intros Hr Hl []. split; simpl; try done. intros h v.
  rewrite lookup_insert_Some. intros [[<- <-]|[_ ?]]; eauto.
Qed.

Lemma checked_GrantRoleUnchecked role x who s :
  length role = RoleSize -> checked s -> checked (rbac (GrantRoleUnchecked role x who) s).2.
Proof.
  intros Hr []. split; simpl; try done. intros h v.
  rewrite lookup_insert_Some. intros [[<- <-]|[_ ?]]; eauto.
Qed.

Lemma checked_GrantRole role x who s :
  length role = RoleSize -> checked s -> checked (rbac (GrantRole role x who) s).2.
Proof.
  intros Hr Hs. rewrite rbac_GrantRole. destruct (grants _ _ _); [done|].
  by apply checked_GrantRoleUnchecked.
Qed.

Lemma checked_RevokeRole role x who s : checked s -> checked (rbac (RevokeRole role x who) s).2.
Proof.
  intros Hs. rewrite rbac_RevokeRole. destruct (grants _ _ _); [done|].
  destruct Hs. split; simpl; try done. intros h v. rewrite lookup_delete_Some. intros [_ ?]. eauto.
Qed.

Lemma checked_Msg_GrantRole req s : checked s -> checked (Msg_GrantRole req s).2.
Proof.
  intros Hs. unfold Msg_GrantRole. apply (handler_store _ req mr_Admin); [done|].
  intros m a -> Ha. cbv [mbind M_bind]. rewrite decode_address_spec.
  destruct (spec_address _); [|done].
  pose proof (ensureRoleScopeExists_store (mr_RegistryId m) (mr_Checksum m) s) as Hst.
  destruct (ensureRoleScopeExists _ _ s) as [[[]|] s0]; simpl in Hst; subst s0; [|done].
  set (role := scopedRole _ _ _). set (adm := RegistryRole _ _).
  pose proof (checked_SetRoleAdmin role adm s (scoped_length _ _ _) (role_length _ _) Hs) as H1.
  destruct (rbac (SetRoleAdmin role adm) s) as [[[]|] s1] eqn:E1; simpl in H1; [|done].
  assert (Hb : exists o, (if negb (isRecordRole (mr_RegistryId m) (mr_Checksum m)) && bool_decide (mr_Role m = RoleAdmin)
    then isModuleAdmin (mr_Admin m) else mret false) s1 = (o, s1)).
  { unfold isModuleAdmin, get_or_not_found. run_unfold. destruct (_ && _); [|by eexists].
    destruct (k_Params s1); by eexists. }
  destruct Hb as [o ->]. destruct o as [[]|]; [| |done].
  - apply checked_GrantRoleUnchecked; [apply scoped_length|done].
  - apply checked_GrantRole; [apply scoped_length|done].
Qed.

Lemma checked_Msg_RevokeRole req s : checked s -> checked (Msg_RevokeRole req s).2.
Proof.
  intros Hs. unfold Msg_RevokeRole. apply (handler_store _ req mr_Admin); [done|].
  intros m a -> Ha. cbv [mbind M_bind]. rewrite decode_address_spec.
  destruct (spec_address _); [|done].
  pose proof (ensureRoleScopeExists_store (mr_RegistryId m) (mr_Checksum m) s) as Hst.
  destruct (ensureRoleScopeExists _ _ s) as [[[]|] s0]; simpl in Hst; subst s0; [|done].
  rewrite rbac_HasRole. destruct (holds s _ _); [|done]. cbn [negb].
  assert (Hb : exists b, (if negb (isRecordRole (mr_RegistryId m) (mr_Checksum m)) && bool_decide (mr_Role m = RoleAdmin)
    then rbac (IsSoleAdmin (RegistryRole (mr_RegistryId m) RoleAdmin)) else mret false) s = (Ok b, s)).
  { destruct (_ && _); [|by eexists].
    destruct (rbac_IsSoleAdmin (RegistryRole (mr_RegistryId m) RoleAdmin) s) as (b & -> & _). by eexists. }
  destruct Hb as [b ->]. destruct b; [done|]. by apply checked_RevokeRole.
Qed.

Lemma checked_Msg_UpdateParams req s : checked s -> checked (Msg_UpdateParams req s).2.
Proof.
  intros Hs. unfold Msg_UpdateParams, get_or_not_found. run_unfold.
  destruct (StringToBytes _); [|done]. destruct (k_Params s) as [p|] eqn:Ep; [|done].
  destruct (bool_decide _); simpl; [|done]. rewrite Ep.
  destruct (Params_Validate _) as [[]|] eqn:Ev; simpl; [|done].
  destruct Hs. split; simpl; try done. by intros ? [= <-].
Qed.

Lemma checked_deliver ctx msg s : checked s -> checked (deliver ctx msg s).
Proof.
  intros Hs. destruct (deliver_store ctx msg s) as [-> | ->]; [done|]. rewrite handle_store.
  destruct msg as [req|req|req|req|req|req].
  - unfold Msg_AddRegistry. apply (handler_store _ req mar_Sender); [done|]. intros. by apply checked_AddRegistry.
  - unfold Msg_AddRecord. apply (handler_store _ req marec_Sender); [done|]. intros m a _ _. run_unfold.
    destruct (marec_Record m); [|done]. by apply checked_AddRecord.
  - unfold Msg_UpdateRecordStatus. apply (handler_store _ req murs_Editor); [done|]. intros. by apply checked_UpdateRecordStatus.
  - by apply checked_Msg_GrantRole.
  - by apply checked_Msg_RevokeRole.
  - by apply checked_Msg_UpdateParams.
Qed.

Lemma checked_trace txs s : checked s -> checked (deliver_all txs s).
Proof.
  revert s. induction txs as [|tx txs IH]; intros s Hs; [done|]. by apply IH, checked_deliver.
Qed.
End export.

(** The relations between the tables that an export depends on. *)
Record consistent (s : KState) : Prop := {
  cs_params : is_Some (k_Params s);
  cs_count : exists n, RegistryCount s = Some n /\ 0 <= n /\
    forall id, is_Some (Registries s !! id) <-> 1 <= id <= n;
  cs_regid : forall id r, Registries s !! id = Some r -> reg_Id r = id;
  cs_rk : forall k r, Records s !! k = Some r -> record_rk r = k;
  cs_top : forall gk top, RecordIndices s !! gk = Some top ->
    1 <= top /\ (forall i, is_Some (Records s !! (gk, i)) <-> 1 <= i <= top) /\
    (forall i x, Records s !! (gk, i) = Some x -> (rec_IsLatest x = true <-> i = top));
  cs_indexed : forall gk i, is_Some (Records s !! (gk, i)) -> is_Some (RecordIndices s !! gk);
  cs_byRC : forall id c rid, RecordIdByRegistryAndChecksum s !! (id, c) = Some rid <->
    exists i x, Records s !! (id, rid, i) = Some x /\ rec_Checksum x = c;
  cs_byCR : forall id c,
    RecordIdByRegistryAndChecksum s !! (id, c) = RecordIdByChecksumAndRegistry s !! (c, id);
  cs_reccount : forall id m, RecordsCountByRegistry s !! id = Some m ->
    0 <= m /\ forall rid, is_Some (RecordIndices s !! (id, rid)) <-> 1 <= rid <= m;
  cs_counted : forall id, is_Some (RecordsCountByRegistry s !! id) <-> is_Some (Registries s !! id);
  cs_registry : forall id rid, is_Some (RecordIndices s !! (id, rid)) -> is_Some (Registries s !! id)
}.

Lemma consistent_reachable {ENV : Env} {LAWS : EnvLaws} p txs :
  good_trace p txs -> consistent (deliver_all txs (genesis_store p)).
Proof.
  intros Hg. destruct (reachable_ledger p txs Hg) as (_ & HR & _).
  pose proof (fun id rid c => index_facts p txs id rid c Hg) as Hidx. simpl in Hidx.
  destruct (dense_facts p txs Hg) as (n & Hn & _ & Hdense & Hregid & _ & Hcnt & _).
  set (s := deliver_all txs (genesis_store p)) in *.
  assert (Hn0 : 0 <= n) by (rewrite (R_count _ _ _ HR) in Hn; simplify_eq; lia).
  split.
  - rewrite (R_params _ _ _ HR). by eexists.
  - eauto.
  - done.
  - intros [[id rid] i] r Hr. destruct (Hidx id rid []) as (_ & _ & _ & H4).
    destruct (H4 i r Hr) as (<- & <- & <-). done.
  - intros [id rid] top Ht. exact (latest_facts p txs id rid top Hg Ht).
  - intros [id rid] i. rewrite (R_records _ _ _ HR), (R_indices _ _ _ HR). unfold a_record.
    destruct (a_doc _ id rid); [by eexists|by intros []].
  - intros id c rid. apply (Hidx id rid c).
  - intros id c. apply (Hidx id 0 c).
  - intros id m Hm. split; [|by apply Hcnt]. rewrite (R_reccount _ _ _ HR) in Hm.
    apply fmap_Some in Hm as (r & _ & ->). lia.
  - intros id. by rewrite (R_reccount _ _ _ HR), (R_regs _ _ _ HR), !fmap_is_Some.
  - intros id rid. rewrite (R_indices _ _ _ HR), (R_regs _ _ _ HR), !fmap_is_Some. unfold a_doc.
    destruct (a_reg _ id); [by eexists|by intros []].
Qed.

(** ** Round trip *)

Lemma fold_max_eq l n :
  0 <= n -> (forall x, x ∈ l -> x <= n) -> n = 0 \/ n ∈ l -> fold_left Z.max l 0 = n.
Proof.
  intros H0 Hle Hin.
  assert (Hb : forall l a, fold_left Z.max l a = a \/ fold_left Z.max l a ∈ l).
  { clear. induction l as [|x l IH]; intros a; simpl; [by left|]. destruct (IH (Z.max a x)) as [E|E].
    - rewrite E. destruct (Z.max_spec a x) as [[_ ->]|[_ ->]]; [right; by left|by left].
    - right. by right. }
  assert (Hge : forall l a, a <= fold_left Z.max l a /\ forall x, x ∈ l -> x <= fold_left Z.max l a).
  { clear. induction l as [|x l IH]; intros a; simpl; [split; [lia|by intros ? ?%not_elem_of_nil]|].
    destruct (IH (Z.max a x)) as [H1 H2]. split; [lia|]. intros y [->|Hy]%elem_of_cons; [lia|by apply H2]. }
  destruct (Hge l 0) as [H1 H2].
  destruct (Hb l 0) as [E|E]; [|specialize (Hle _ E)]; destruct Hin as [->|Hin]; try specialize (H2 _ Hin); lia.
Qed.

Section roundtrip.
Context {ENV : Env} {LAWS : EnvLaws} {MC : MemberCodec} {MCL : MemberCodecLaws}.
Context (range_groups : groups_map -> list (group_key * RecordVersionGroup)).
Context (Hrange : forall g, range_groups g ≡ₚ map_to_list g).

Lemma walk_cb_assign {K V : Type} (enc : K -> result bytes) (l : list (K * V)) (acc : list (bytes * V)) :
  (forall e, e ∈ l -> exists k, enc e.1 = Ok k /\ k ∉ acc.*1) ->
  (forall x y k, x ∈ l -> y ∈ l -> enc x.1 = Ok k -> enc y.1 = Ok k -> x = y) -> NoDup l ->
  exists l', walk_cb (fun k v => keyBytes ← lift (enc k);
                       _ ← modify (fun m => go_assign m keyBytes v); mret false) l acc
             = (Ok tt, acc ++ l') /\
    Forall2 (fun e e' => enc e.1 = Ok e'.1 /\ e'.2 = e.2) l l'.
Proof.
  revert acc. induction l as [|[k v] l IH]; intros acc Hk Hinj Hnd.
  { exists []. rewrite app_nil_r. by split. }
  apply NoDup_cons in Hnd as [Hni Hnd].
  destruct (Hk (k, v) ltac:(by left)) as (kb & Hkb & Hacc). simpl in Hkb.
  destruct (IH (acc ++ [(kb, v)])) as (l' & E & HF); [| |done|].
  - intros e He. destruct (Hk e ltac:(by right)) as (k' & Hk' & Hacc'). exists k'. split; [done|].
    rewrite fmap_app, elem_of_app. intros [?|Heq]; [done|]. simpl in Heq.
    apply list_elem_of_singleton in Heq. subst k'.
    destruct Hni. rewrite (Hinj (k, v) e kb); [done|by left|by right|done|done].
  - intros x y k' Hx Hy. apply Hinj; by right.
  - exists ((kb, v) :: l'). split; [|by constructor].
    simpl. run_unfold. rewrite Hkb. simpl. unfold go_assign at 2.
    rewrite bool_decide_false by done. rewrite <- app_assoc in E. simpl in E. by rewrite <- E.
Qed.

(** The same genesis with its maps visited in another order. *)
Record reordered (g g' : GenesisState) : Prop := {
  ro_params : gen_Params g' = gen_Params g;
  ro_regs : gen_Registries g' ≡ₚ gen_Registries g;
  ro_recs : gen_Records g' = gen_Records g;
  ro_admins : gen_RoleAdmins g' ≡ₚ gen_RoleAdmins g;
  ro_members : gen_RoleMembers g' ≡ₚ gen_RoleMembers g
}.

(** The genesis [ExportGenesis] writes for a store. *)
Definition exports (s : KState) (g : GenesisState) : Prop :=
  k_Params s = Some (gen_Params g) /\ gen_Registries g ≡ₚ walk (Registries s) /\
  gen_Records g = (walk (Records s)).*2 /\ gen_RoleAdmins g ≡ₚ walk (RBAC_RoleAdmins s) /\
  exists l, l ≡ₚ walk (RBAC_RoleMembers s) /\ Forall2 decodes_member (gen_RoleMembers g) l /\
    Forall (fun e => e.1 <> []) (gen_RoleMembers g).

Lemma exports_reordered s g g' : exports s g -> reordered g g' -> exports s g'.
Proof.
  intros (Hp & Hr & Hc & Ha & l & Hl & HF & Hne) [H1 H2 H3 H4 H5]. unfold exports.
  rewrite H1, H3. split_and!; try done; [by rewrite H2|by rewrite H4|].
  destruct (Permutation_Forall2 (symmetry H5) HF) as (l' & Hl' & HF').
  exists l'. split_and!; [by rewrite <- Hl'|done|by rewrite H5].
Qed.

Lemma ExportGenesis_ok s :
  checked s -> is_Some (k_Params s) -> exists g, ExportGenesis s = (Ok g, s) /\ exports s g.
Proof.
  intros Hck [p Hp].
  assert (Hadm : forall e, e ∈ walk (RBAC_RoleAdmins s) -> encodeRBACRoleAdminKey e.1 = Ok e.1).
  { intros [h v] [Hl _]%elem_of_walk%(ck_admins _ Hck).
    transitivity (@Ok bytes (role_key h)); [|by rewrite role_key_id].
    unfold encodeRBACRoleAdminKey, role_key. by destruct (RoleCodec_Encode _ _). }
  assert (Hmem : forall e, e ∈ walk (RBAC_RoleMembers s) -> exists k,
    encodeRBACRoleMemberKey e.1 = Ok k /\ member_key_decode k = Ok e.1 /\ k <> []).
  { intros [[h a] v] Hl%elem_of_walk%(ck_members _ Hck). by apply member_key_roundtrip. }
  destruct (walk_cb_assign encodeRBACRoleAdminKey (walk (RBAC_RoleAdmins s)) []) as (la & Ea & Fa).
  { intros e He. exists e.1. split; [by apply Hadm|apply not_elem_of_nil]. }
  { intros x y k Hx Hy. rewrite !Hadm by done. intros [= <-] [= E].
    by apply (NoDup_fmap_inj_in fst (walk (RBAC_RoleAdmins s))); [apply walk_NoDup_fst|..]. }
  { apply (NoDup_fmap_1 fst), walk_NoDup_fst. }
  destruct (walk_cb_assign encodeRBACRoleMemberKey (walk (RBAC_RoleMembers s)) []) as (lm & Em & Fm).
  { intros e He. destruct (Hmem e He) as (k & ? & _). exists k. split; [done|apply not_elem_of_nil]. }
  { intros x y k Hx Hy E1 E2. destruct (Hmem x Hx) as (k1 & ? & ? & _), (Hmem y Hy) as (k2 & ? & ? & _).
    apply (NoDup_fmap_inj_in fst (walk (RBAC_RoleMembers s))); [apply walk_NoDup_fst|done|done|]. congruence. }
  { apply (NoDup_fmap_1 fst), walk_NoDup_fst. }
  simpl in Ea, Em. unfold export_role_admin, export_role_member in *.
  exists (mkGenesis p (walk (Registries s)) (walk (Records s)).*2 la lm). split.
  { unfold ExportGenesis, collect, get_or_not_found, export_role_admin, export_role_member.
    cbv [mbind M_bind gets] in *. rewrite Hp. simpl. setoid_rewrite Ea. setoid_rewrite Em. done. }
  unfold exports. simpl. split_and!; [done..| |].
  - replace la with (walk (RBAC_RoleAdmins s)); [done|]. clear Ea.
    assert (Hall : Forall (fun e => encodeRBACRoleAdminKey e.1 = Ok e.1) (walk (RBAC_RoleAdmins s)))
      by (apply Forall_forall; exact Hadm).
    clear Hadm. induction Fa as [|[] [] l l' [E1 E2] _ IH]; [done|]. apply Forall_cons in Hall as [E Hall].
    simpl in *. rewrite E in E1. simplify_eq. f_equal. by apply IH.
  - exists (walk (RBAC_RoleMembers s)). split; [done|]. clear Em.
    assert (Hall : Forall (fun e => exists k, encodeRBACRoleMemberKey e.1 = Ok k /\
      member_key_decode k = Ok e.1 /\ k <> []) (walk (RBAC_RoleMembers s))) by (apply Forall_forall; exact Hmem).
    clear Hmem. induction Fm as [|e e' l l' [E1 E2] _ IH]; [by split|].
    apply Forall_cons in Hall as [(k & E & Hd & Hne) Hall]. destruct (IH Hall) as [IH1 IH2].
    assert (k = e'.1) as -> by congruence. split; constructor; try done.
Qed.

Section reimport.
Context (s : KState) (g : GenesisState).
Context (Hck : checked s) (Hcs : consistent s) (Hex : exports s g).

Lemma exported_record r : r ∈ gen_Records g <-> Records s !! record_rk r = Some r.
Proof.
  destruct Hex as (_ & _ & -> & _). rewrite list_elem_of_fmap. split.
  - intros ([k r'] & -> & Hr%elem_of_walk). simpl. by rewrite (cs_rk _ Hcs _ _ Hr).
  - intros Hr. exists (record_rk r, r). split; [done|]. by apply elem_of_walk.
Qed.

Lemma exported_keys : (fun r => (record_rk r, r)) <$> gen_Records g = walk (Records s).
Proof.
  destruct Hex as (_ & _ & -> & _). rewrite <- list_fmap_compose.
  transitivity (id <$> walk (Records s)); [|apply list_fmap_id].
  apply list_fmap_ext. intros i [k r] Hi. simpl. apply list_elem_of_lookup_2, elem_of_walk in Hi.
  by rewrite (cs_rk _ Hcs _ _ Hi).
Qed.

Lemma exported_unique : NoDup (record_rk <$> gen_Records g).
Proof.
  replace (record_rk <$> gen_Records g) with (walk (Records s)).*1; [apply walk_NoDup_fst|].
  rewrite <- exported_keys, <- list_fmap_compose. done.
Qed.

(** A version that is stored has its record's ids in range. *)
Lemma stored_ids r : Records s !! record_rk r = Some r ->
  exists top, RecordIndices s !! record_gk r = Some top /\ 1 <= rec_Index r <= top /\ 1 <= rec_RecordId r /\
    is_Some (Registries s !! rec_RegistryId r).
Proof.
  intros Hr. destruct (cs_indexed _ Hcs (record_gk r) (rec_Index r)) as [top Ht]; [by eexists|].
  exists top. destruct (cs_top _ Hcs _ _ Ht) as (H1 & H2 & _).
  destruct (cs_registry _ Hcs (rec_RegistryId r) (rec_RecordId r)) as [reg Hreg]; [by eexists|].
  destruct (proj2 (cs_counted _ Hcs (rec_RegistryId r))) as [m Hm]; [by eexists|].
  destruct (cs_reccount _ Hcs _ _ Hm) as [_ Hm']. split_and!; try done.
  - apply H2. by eexists.
  - apply H2. by eexists.
  - apply Hm'. by eexists.
Qed.

Lemma exported_well_formed : well_formed g.
Proof.
  assert (Hrec := exported_record). split.
  - destruct Hex as (_ & -> & _). apply Forall_forall. intros [k r] Hr%elem_of_walk. simpl.
    pose proof (cs_regid _ Hcs _ _ Hr) as Hid. split; [done|]. apply (ck_regs _ Hck _ _ Hr).
    destruct (cs_count _ Hcs) as (n & _ & _ & Hn). assert (1 <= k <= n) by (apply Hn; by eexists). lia.
  - apply Forall_forall. intros r Hr%Hrec. destruct (stored_ids r Hr) as (top & _ & ? & ? & [reg Hreg]).
    split.
    + unfold ValidateRecord. run_unfold. rewrite !(proj2 (Z.leb_gt _ _)) by lia.
      by apply (ck_recs _ Hck _ _ Hr).
    + destruct Hex as (_ & -> & _). apply list_elem_of_fmap. exists (rec_RegistryId r, reg).
      split; [done|]. by apply elem_of_walk.
  - apply exported_unique.
  - intros gk (r & -> & Hr)%list_elem_of_fmap. pose proof (proj1 (Hrec r) Hr) as Hr'.
    destruct (stored_ids r Hr') as (top & Ht & ? & _).
    destruct (cs_top _ Hcs _ _ Ht) as (Hge & Hall & Hlat).
    assert (Hin : forall x, x ∈ gen_Records g -> record_gk x = record_gk r ->
      Records s !! (record_gk r, rec_Index x) = Some x).
    { intros x Hx%Hrec E. by rewrite <- E. }
    apply (ValidateIsLatest_ok _ _ top exported_unique).
    + intros x Hx E. apply Hall. rewrite (Hin x Hx E). by eexists.
    + intros x Hx E. by apply Hlat, Hin.
    + destruct (proj2 (Hall top) ltac:(lia)) as [x Hx]. pose proof (cs_rk _ Hcs _ _ Hx) as E.
      exists x. rewrite Hrec, E. unfold record_rk in E. unfold record_gk in *.
      split_and!; [done|congruence..].
    + intros x Hx%Hrec. destruct (stored_ids x Hx) as (? & _ & ? & _). lia.
Qed.

Lemma reimport_indices : MaxIndex <$> groups_of (gen_Records g) = RecordIndices s.
Proof.
  apply map_eq. intros gk. rewrite lookup_fmap, groups_of_lookup.
  assert (Hpos : forall r, r ∈ gen_Records g -> 0 < rec_Index r).
  { intros r Hr%exported_record. destruct (stored_ids r Hr) as (? & _ & ? & _). lia. }
  case_decide as Hin.
  - destruct (version_group_max_in _ _ Hin Hpos) as (r & Hr & <- & Hmax). simpl. rewrite Hmax.
    destruct (stored_ids r (proj1 (exported_record r) Hr)) as (top & Ht & Hle & _). rewrite Ht. f_equal.
    destruct (cs_top _ Hcs _ _ Ht) as (H1 & Hall & _).
    destruct (proj2 (Hall top) ltac:(lia)) as [x Hx]. pose proof (cs_rk _ Hcs _ _ Hx) as Ex.
    unfold record_rk, record_gk in Ex. injection Ex as Ex1 Ex2 Ex3.
    pose proof (version_group_max (gen_Records g) (record_gk r) x) as Hm.
    rewrite Ex3, Hmax in Hm. apply Z.le_antisymm; [lia|]. apply Hm.
    + apply exported_record. unfold record_rk. by rewrite Ex1, Ex2, Ex3.
    + unfold record_gk. by rewrite Ex1, Ex2.
  - simpl. destruct (RecordIndices s !! gk) as [top|] eqn:Ht; [|done]. exfalso. apply Hin.
    destruct (cs_top _ Hcs _ _ Ht) as (H1 & Hall & _). destruct (proj2 (Hall 1) ltac:(lia)) as [x Hx].
    pose proof (cs_rk _ Hcs _ _ Hx) as Ex. apply list_elem_of_fmap. exists x.
    rewrite exported_record, Ex. split; [|done]. destruct gk. unfold record_rk, record_gk in *. congruence.
Qed.

Lemma reimport_regcount : RegistryCount s = Some (fold_left Z.max (gen_Registries g).*1 0).
Proof.
  destruct (cs_count _ Hcs) as (n & Hn & H0 & Hids). rewrite Hn. f_equal. symmetry.
  assert (Hin : forall id, id ∈ (gen_Registries g).*1 <-> is_Some (Registries s !! id)).
  { intros id. destruct Hex as (_ & -> & _). rewrite list_elem_of_fmap. split.
    - intros ([k r] & -> & Hr%elem_of_walk). by eexists.
    - intros [r Hr]. exists (id, r). split; [done|]. by apply elem_of_walk. }
  apply fold_max_eq; [done| |].
  - intros x Hx%Hin%Hids. lia.
  - destruct (decide (n = 0)); [by left|right]. apply Hin, Hids. lia.
Qed.

Lemma reimport_reccount id :
  RecordsCountByRegistry s !! id = (fun _ => max_record_id (gen_Records g) id) <$> Registries s !! id.
Proof.
  destruct (Registries s !! id) as [reg|] eqn:Hreg; simpl.
  2: { destruct (RecordsCountByRegistry s !! id) eqn:E; [|done].
       destruct (proj1 (cs_counted _ Hcs id)) as [? ?]; [by eexists|congruence]. }
  destruct (proj2 (cs_counted _ Hcs id)) as [m Hm]; [by eexists|]. rewrite Hm. f_equal. symmetry.
  destruct (cs_reccount _ Hcs _ _ Hm) as [H0 Hrid].
  assert (Hin : forall rid, rid ∈ rec_RecordId <$> filter (fun r => rec_RegistryId r = id) (gen_Records g)
    <-> is_Some (RecordIndices s !! (id, rid))).
  { intros rid. rewrite list_elem_of_fmap. split.
    - intros (r & -> & [<- Hr%exported_record]%list_elem_of_filter).
      destruct (stored_ids r Hr) as (top & Ht & _). by eexists.
    - intros [top Ht]. destruct (cs_top _ Hcs _ _ Ht) as (H1 & Hall & _).
      destruct (proj2 (Hall 1) ltac:(lia)) as [x Hx]. pose proof (cs_rk _ Hcs _ _ Hx) as Ex.
      exists x. rewrite list_elem_of_filter, exported_record, Ex. unfold record_rk in Ex.
      by simplify_eq. }
  apply fold_max_eq; [done| |].
  - intros x Hx%Hin%Hrid. lia.
  - destruct (decide (m = 0)); [by left|right]. apply Hin, Hrid. lia.
Qed.

Lemma reimport_checksums s' :
  records_loaded (gen_Records g) s' ->
  RecordIdByRegistryAndChecksum s' = RecordIdByRegistryAndChecksum s /\
  RecordIdByChecksumAndRegistry s' = RecordIdByChecksumAndRegistry s.
Proof.
  intros [_ _ Hrc Hind Hcr _].
  assert (E : forall id c, RecordIdByRegistryAndChecksum s' !! (id, c) = RecordIdByRegistryAndChecksum s !! (id, c)).
  { intros id c. destruct (RecordIdByRegistryAndChecksum s' !! (id, c)) as [rid|] eqn:E'.
    - destruct (Hrc _ _ _ E') as (r & Hr%exported_record & <- & <- & <-). symmetry.
      apply (cs_byRC _ Hcs). by exists (rec_Index r), r.
    - destruct (RecordIdByRegistryAndChecksum s !! (id, c)) as [rid|] eqn:Es; [|done].
      apply (cs_byRC _ Hcs) in Es as (i & x & Hx & <-). pose proof (cs_rk _ Hcs _ _ Hx) as Ex.
      destruct (Hind x) as [v Hv]; [apply exported_record; by rewrite Ex|].
      unfold record_rk in Ex. congruence. }
  split; apply map_eq.
  - intros [id c]. apply E.
  - intros [c id]. by rewrite Hcr, E, (cs_byCR _ Hcs).
Qed.

(** Importing what was exported gives the store back; only the pending events,
    which are not part of the state, are gone. *)
Lemma reimport : exists s', InitGenesis range_groups g empty_state = (Ok tt, s') /\ s' = set_events [] s.
Proof.
  assert (Hrec := exported_record). assert (Hwf := exported_well_formed).
  pose proof Hex as (Hp & Hregs & Hrecs & Hadm & members & Hmem & HF & _).
  assert (Hdec : decoded_admins (gen_RoleAdmins g) = gen_RoleAdmins g).
  { unfold decoded_admins. transitivity (id <$> gen_RoleAdmins g); [|apply list_fmap_id].
    apply list_fmap_ext. intros i [h v] Hi%list_elem_of_lookup_2. simpl.
    rewrite Hadm in Hi. apply elem_of_walk, (ck_admins _ Hck) in Hi as [Hl _].
    unfold NewRole. by rewrite BytesToHash_id. }
  destruct (InitGenesis_loads range_groups Hrange g members) as (s' & E & [L1 L2 L3 [L4 L5 L6 L7 L8 L9] L10 L11 L12]);
    [done| | | |done| |].
  - rewrite Hregs. apply walk_NoDup_fst.
  - apply Forall_forall. intros r Hr%Hrec. apply (ck_keys _ Hck (rec_RegistryId r, rec_Checksum r)).
    exists (rec_RecordId r). apply (cs_byRC _ Hcs). exists (rec_Index r), r. done.
  - rewrite Hdec, Hadm. apply walk_NoDup_fst.
  - rewrite Hmem. apply walk_NoDup_fst.
  - exists s'. split; [done|].
    assert (E_regs : Registries s' = Registries s).
    { rewrite L2, <- (list_to_map_walk (Registries s)). apply list_to_map_proper; [|done].
      rewrite Hregs. apply walk_NoDup_fst. }
    assert (E_recs : Records s' = Records s) by (rewrite L4, exported_keys; apply list_to_map_walk).
    destruct (reimport_checksums s' (Build_records_loaded _ _ L4 L5 L6 L7 L8 L9)) as [E_rc E_cr].
    assert (E_idx : RecordIndices s' = RecordIndices s) by (by rewrite L5, reimport_indices).
    assert (E_cnt : RecordsCountByRegistry s' = RecordsCountByRegistry s).
    { apply map_eq. intros id. by rewrite L9, E_regs, reimport_reccount. }
    assert (E_adm : RBAC_RoleAdmins s' = RBAC_RoleAdmins s).
    { rewrite L10, Hdec, <- (list_to_map_walk (RBAC_RoleAdmins s)). apply list_to_map_proper; [|done].
      rewrite Hadm. apply walk_NoDup_fst. }
    assert (E_mem : RBAC_RoleMembers s' = RBAC_RoleMembers s).
    { rewrite L11, <- (list_to_map_walk (RBAC_RoleMembers s)). apply list_to_map_proper; [|done].
      rewrite Hmem. apply walk_NoDup_fst. }
    rewrite <- reimport_regcount in L3. rewrite <- Hp in L1.
    destruct s', s. simpl in *. by subst.
Qed.
End reimport.
End roundtrip.

(** ** A concrete key codec and concrete genesis files *)

#[export] Instance concrete_member_codec : MemberCodec := {|
  member_key_encode := fun k => Ok (role_key k.1 ++ k.2);
  member_key_decode := fun b =>
    key ← RoleCodec_DecodeNonTerminal b; Ok (key.2, drop (key.1) b)
|}.

#[export] Instance concrete_member_codec_laws : MemberCodecLaws.
Proof.
  split. intros role a Hl. eexists. split; [done|]. simpl. cbv [mbind result_bind].
  rewrite RoleCodec_nonterminal_roundtrip by done. simpl.
  rewrite drop_app_length' by (by rewrite role_key_id).
  split; [done|]. rewrite role_key_id by done. by destruct role.
Qed.

(** ** Properties *)

Section properties.
Context {ENV : Env} {LAWS : EnvLaws} {MC : MemberCodec} {MCL : MemberCodecLaws}.

Lemma exported_validates range_groups s g :
  (forall m, range_groups m ≡ₚ map_to_list m) -> checked s -> consistent s -> exports s g ->
  GenesisState_Validate range_groups g = Ok tt.
Proof.
  intros Hrange Hck Hcs Hex. apply Validate_spec; [done|]. split_and!.
  - apply (ck_params _ Hck), Hex.
  - by apply (exported_well_formed s).
  - destruct Hex as (_ & _ & _ & -> & _). apply Forall_forall.
    intros [h v] [H1 H2]%elem_of_walk%(ck_admins _ Hck). by destruct h, v.
  - by destruct Hex as (_ & _ & _ & _ & l & _ & _ & ?).
Qed.

(** C14: export and import are inverse.  The store of every reachable state can be
    exported, the exported genesis passes [Validate], and importing it into an
    empty store, whatever order its Go maps are visited in, gives back exactly
    that store: the counters, the indices and the two checksum tables, which are
    not exported, are rebuilt. *)
Theorem genesis_roundtrip range_groups (p : Params) (txs : list (Ctx * Msg)) :
  (forall g, range_groups g ≡ₚ map_to_list g) ->
  good_trace p txs -> Params_Validate p = Ok tt ->
  let s := deliver_all txs (genesis_store p) in
  exists g, ExportGenesis s = (Ok g, s) /\
    GenesisState_Validate range_groups g = Ok tt /\
    forall g', reordered g g' -> InitGenesis range_groups g' empty_state = (Ok tt, set_events [] s).
Proof.
  intros Hrange Hg Hp s.
  assert (Hck : checked s) by (by apply checked_trace, checked_empty).
  assert (Hcs : consistent s) by (by apply consistent_reachable).
  destruct (ExportGenesis_ok s Hck (cs_params _ Hcs)) as (g & E & Hex). exists g. split_and!; [done|by apply (exported_validates _ s)|].
  - intros g' Hr. destruct (reimport range_groups Hrange s g' Hck Hcs) as (s' & -> & ->); [|done].
    by apply (exports_reordered s g g').
Qed.

(** validation is enough to start the chain.  A genesis that passes
    [Validate], whose checksums the key codec can hold and whose role keys are
    distinct and decodable, is loaded by [InitGenesis] without an error, in
    whatever order the version groups are visited, and the store is the one the
    genesis describes. *)
Theorem validated_genesis_loads range_groups (gs : GenesisState) members :
  (forall g, range_groups g ≡ₚ map_to_list g) ->
  GenesisState_Validate range_groups gs = Ok tt ->
  NoDup (gen_Registries gs).*1 ->
  Forall (fun r => key_string_ok (rec_Checksum r) = true) (gen_Records gs) ->
  NoDup (decoded_admins (gen_RoleAdmins gs)).*1 ->
  Forall2 decodes_member (gen_RoleMembers gs) members -> NoDup members.*1 ->
  exists s, InitGenesis range_groups gs empty_state = (Ok tt, s) /\ loaded gs members s.
Proof.
  intros Hrange (_ & Hwf & _ & _)%Validate_spec; [|done]. by apply InitGenesis_loads.
Qed.

(** The default genesis starts the module with no registry and the counter
    at zero, the state all traces are taken from. *)
Theorem default_genesis range_groups :
  (forall g, range_groups g ≡ₚ map_to_list g) ->
  InitGenesis range_groups DefaultGenesis empty_state = (Ok tt, genesis_store DefaultParams).
Proof.
  intros Hrange. pose proof (Hrange ∅) as E. rewrite map_to_list_empty in E.
  apply symmetry, Permutation_nil in E. unfold InitGenesis, with_local. simpl. run_unfold. by rewrite E.
Qed.
End properties.

Lemma genesis_roundtrip_witness :
  exists g, ExportGenesis Demo.store = (Ok g, Demo.store) /\
    GenesisState_Validate map_to_list g = Ok tt /\
    forall g', reordered g g' ->
      InitGenesis map_to_list g' empty_state = (Ok tt, set_events [] Demo.store).
Proof.
  apply (genesis_roundtrip map_to_list Demo.params Demo.trace); [done|exact demo_good|].
  vm_compute. reflexivity.
Defined.

(** Two genesis files with one registry and two records. *)
Module DemoGenesis.
Definition registry : Registry := mkRegistry 1 (bs "deeds") [] (addr_to_text Demo.alice) (bs "t0") [].
Definition record (rid : Z) (checksum : bytes) : Record_ :=
  mkRecord (bs "ipfs://1") checksum (bs "sha256") (bs "{a:1}") (bs "t0") (bs "active") rid 1 true 1.
Definition gs (c1 c2 : bytes) : GenesisState :=
  mkGenesis Demo.params [(1, registry)] [record 1 c1; record 2 c2] [] [].
End DemoGenesis.

Lemma validated_genesis_loads_witness :
  exists s, InitGenesis map_to_list (DemoGenesis.gs (bs "abc") (bs "def")) empty_state = (Ok tt, s) /\
    loaded (DemoGenesis.gs (bs "abc") (bs "def")) [] s.
Proof.
  apply (validated_genesis_loads map_to_list); [done|vm_compute; reflexivity|by_eval|by_eval|by_eval|constructor|by_eval].
Defined.

Lemma default_genesis_witness :
  InitGenesis map_to_list DefaultGenesis empty_state = (Ok tt, genesis_store DefaultParams).
Proof. apply default_genesis. done. Defined.

(** ** Gaps of the genesis validation *)

(** a genesis in which two records of a registry carry the same checksum
    passes [Validate] and is loaded, but the checksum index then leads to the
    second record only: the first record is stored and cannot be found by its
    checksum, a state no sequence of messages reaches. *)
Theorem genesis_admits_shared_checksum :
  let gs := DemoGenesis.gs (bs "abc") (bs "abc") in
  let s := (InitGenesis map_to_list gs empty_state).2 in
  GenesisState_Validate map_to_list gs = Ok tt /\
  (InitGenesis map_to_list gs empty_state).1 = Ok tt /\
  rec_Checksum <$> Records s !! (1, 1, 1) = Some (bs "abc") /\
  RecordIdByRegistryAndChecksum s !! (1, bs "abc") = Some 2.
Proof. vm_compute. done. Qed.

(** role keys of a genesis are not required to be 32 bytes long, and shorter
    keys are padded.  Two keys that become the same role pass [Validate], and
    which admin role is stored depends on the order in which Go visits the map:
    two nodes can start from different states. *)
Theorem genesis_role_admins_order_dependent :
  let e1 := ([x01], [x0a]) in let e2 := ([x00; x01], [x0b]) in
  let gs l := mkGenesis Demo.params [] [] l [] in
  let s l := (InitGenesis map_to_list (gs l) empty_state).2 in
  GenesisState_Validate map_to_list (gs [e1; e2]) = Ok tt /\
  RBAC_RoleAdmins (s [e1; e2]) !! NewRole [x01] = Some [x0b] /\
  RBAC_RoleAdmins (s [e2; e1]) !! NewRole [x01] = Some [x0a].
Proof. vm_compute. done. Qed.
