(* ===== verification/Proto.v ===== *)
(** The wire format of the stored messages: the protobuf code of
    src/x/anchoring/types/document.pb.go for [Registry] and [Record].

    [Marshal] fills a buffer of [Size] bytes from its end; [Unmarshal] reads
    tagged fields with an index that the code keeps in a 64-bit [int].  A write
    or read outside of a slice is a panic, the result [Err ErrPanic]. *)

From S2P Require Import Prelude Types.

Definition ErrIntOverflowDocument : err := ErrPlain "proto: integer overflow".
Definition ErrInvalidLengthDocument : err :=
  ErrPlain "proto: negative length found during unmarshaling".
Definition ErrUnexpectedEndOfGroupDocument : err := ErrPlain "proto: unexpected end of group".
Definition ErrOutOfFuel : err := ErrPlain "out of fuel".

(** The conversion of a [uint64] to a Go [int], and the wrap-around of [int]. *)
Definition to_int (z : Z) : Z := let w := wrap64 z in if w <? 2 ^ 63 then w else w - two64.

Definition byte_at (dAtA : bytes) (i : Z) : result byte :=
  if i <? 0 then Err ErrPanic else of_option (dAtA !! Z.to_nat i) ErrPanic.

(** ** Sizes *)

(** [math/bits.Len64] *)
Definition Len64 (x : Z) : Z := if x =? 0 then 0 else Z.log2 x + 1.

Definition sovDocument (x : Z) : Z := (Len64 (Z.lor x 1) + 6) / 7.

Definition size_string (s : bytes) : Z :=
  let l := blen s in if 0 <? l then 1 + l + sovDocument l else 0.
Definition size_uint (x : Z) : Z := if x =? 0 then 0 else 1 + sovDocument x.

(** A bool field: its tag and one byte. *)
Definition size_bool (b : bool) : Z := if b then 2 else 0.
(** [n += 1 + l + sov(uint64(l))] for a nested message of size [l]. *)
Definition size_len (l : Z) : Z := 1 + l + sovDocument l.

Definition size_enum (x : Z) : Z := if x =? 0 then 0 else 1 + sovDocument (wrap64 x).

Definition Registry_Size (m : Registry) : Z :=
  size_uint (reg_Id m) + size_string (reg_Name m) + size_string (reg_Description m)
  + size_string (reg_Creator m) + size_string (reg_CreatedAt m) + size_string (reg_Metadata m).

Definition Record_Size (m : Record_) : Z :=
  size_string (rec_Uri m) + size_string (rec_Checksum m) + size_string (rec_ChecksumAlgo m)
  + size_string (rec_Metadata m) + size_string (rec_Timestamp m) + size_string (rec_Status m)
  + size_uint (rec_RecordId m) + size_uint (rec_Index m)
  + size_bool (rec_IsLatest m) + size_uint (rec_RegistryId m).

(** ** Marshal *)

(** The buffer and the index [i] below which it is still to be filled. *)
Abbreviation Buf := (bytes * Z)%type.

(** [dAtA[i] = b] *)
Definition put_byte (dAtA : bytes) (i : Z) (b : byte) : result bytes :=
  if (i <? 0) || (blen dAtA <=? i) then Err ErrPanic else Ok (<[Z.to_nat i := b]> dAtA).

(** [dAtA[i:j]], also [dAtA[:j]] and [dAtA[i:]]: bounds out of order or past the end are a
    panic.  (Go allows an end up to the capacity of the slice; reaching past the length
    is counted as a panic here too.) *)
Definition slice (dAtA : bytes) (i j : Z) : result bytes :=
  if (0 <=? i) && (i <=? j) && (j <=? blen dAtA) then Ok (take (Z.to_nat (j - i)) (drop (Z.to_nat i) dAtA))
  else Err ErrPanic.

(** [copy(dAtA[i:], s)] *)
Definition put_bytes (dAtA : bytes) (i : Z) (s : bytes) : result bytes :=
  if (i <? 0) || (blen dAtA <? i) then Err ErrPanic
  else Ok (take (Z.to_nat i) dAtA ++ (go_copy (drop (Z.to_nat i) dAtA) s).2).

(** The loop of [encodeVarintDocument]: at most ten bytes of a [uint64]. *)
Fixpoint put_varint (fuel : nat) (dAtA : bytes) (offset v : Z) : result bytes :=
  match fuel with
  | O => Err ErrOutOfFuel
  | S fuel' =>
      if 2 ^ 7 <=? v then
        dAtA ← put_byte dAtA offset (z2b (Z.lor (Z.land v 127) 128));
        put_varint fuel' dAtA (offset + 1) (Z.shiftr v 7)
      else put_byte dAtA offset (z2b v)
  end.

Definition varint_fuel : nat := 10.

Definition encodeVarintDocument (dAtA : bytes) (offset v : Z) : result Buf :=
  let offset := offset - sovDocument v in
  dAtA ← put_varint varint_fuel dAtA offset v;
  Ok (dAtA, offset).

(** [i--; dAtA[i] = tag] *)
Definition put_tag (tag : Z) (st : Buf) : result Buf :=
  let i := st.2 - 1 in
  dAtA ← put_byte st.1 i (z2b tag);
  Ok (dAtA, i).

Definition put_string_field (tag : Z) (s : bytes) (st : Buf) : result Buf :=
  if 0 <? blen s then
    let i := st.2 - blen s in
    dAtA ← put_bytes st.1 i s;
    st ← encodeVarintDocument dAtA i (blen s);
    put_tag tag st
  else Ok st.

Definition put_uint_field (tag x : Z) (st : Buf) : result Buf :=
  if x =? 0 then Ok st
  else st ← encodeVarintDocument st.1 st.2 x; put_tag tag st.

(** The enum of a message, [uint64(m.F)]. *)
Definition put_enum_field (tag x : Z) (st : Buf) : result Buf :=
  if x =? 0 then Ok st
  else st ← encodeVarintDocument st.1 st.2 (wrap64 x); put_tag tag st.

Definition put_bool_field (tag : Z) (b : bool) (st : Buf) : result Buf :=
  if b then
    let i := st.2 - 1 in
    dAtA ← put_byte st.1 i (if b then z2b 1 else z2b 0);
    put_tag tag (dAtA, i)
  else Ok st.

(** [size, err := x.MarshalToSizedBuffer(dAtA[:i])] and what follows it, with the
    method as [body]. *)
Definition put_len_field (tag : Z) (body : bytes -> result (bytes * Z)) (st : Buf) : result Buf :=
  head ← slice st.1 0 st.2;
  r ← body head;
  let dAtA := r.1 ++ drop (Z.to_nat st.2) st.1 in
  st ← encodeVarintDocument dAtA (st.2 - r.2) r.2;
  put_tag tag st.

(** [i := len(dAtA)], the fields from the last to the first, [len(dAtA) - i]. *)
Definition sized (fields : Buf -> result Buf) (dAtA : bytes) : result (bytes * Z) :=
  st ← fields (dAtA, blen dAtA);
  Ok (st.1, blen dAtA - st.2).

Definition Registry_MarshalToSizedBuffer (m : Registry) : bytes -> result (bytes * Z) :=
  sized (fun st =>
    st ← put_string_field 0x32 (reg_Metadata m) st;
    st ← put_string_field 0x2a (reg_CreatedAt m) st;
    st ← put_string_field 0x22 (reg_Creator m) st;
    st ← put_string_field 0x1a (reg_Description m) st;
    st ← put_string_field 0x12 (reg_Name m) st;
    put_uint_field 0x8 (reg_Id m) st).

Definition Record_MarshalToSizedBuffer (m : Record_) : bytes -> result (bytes * Z) :=
  sized (fun st =>
    st ← put_uint_field 0x58 (rec_RegistryId m) st;
    st ← put_bool_field 0x50 (rec_IsLatest m) st;
    st ← put_uint_field 0x48 (rec_Index m) st;
    st ← put_uint_field 0x40 (rec_RecordId m) st;
    st ← put_string_field 0x3a (rec_Status m) st;
    st ← put_string_field 0x32 (rec_Timestamp m) st;
    st ← put_string_field 0x2a (rec_Metadata m) st;
    st ← put_string_field 0x22 (rec_ChecksumAlgo m) st;
    st ← put_string_field 0x1a (rec_Checksum m) st;
    put_string_field 0x12 (rec_Uri m) st).

(** [Marshal] of a message with these two methods. *)
Definition marshal_with (size : Z) (to_sized_buffer : bytes -> result (bytes * Z)) : result bytes :=
  r ← to_sized_buffer (replicate (Z.to_nat size) x00);
  slice r.1 0 r.2.

Definition Registry_Marshal (m : Registry) : result bytes :=
  marshal_with (Registry_Size m) (Registry_MarshalToSizedBuffer m).

Definition Record_Marshal (m : Record_) : result bytes :=
  marshal_with (Record_Size m) (Record_MarshalToSizedBuffer m).

(** ** Unmarshal *)

(** [for shift := uint(0); ; shift += 7]: the eleventh round has a shift of 70. *)
Fixpoint read_varint_aux (fuel : nat) (dAtA : bytes) (iNdEx shift acc : Z) : result (Z * Z) :=
  match fuel with
  | O => Err ErrOutOfFuel
  | S fuel' =>
      if 64 <=? shift then Err ErrIntOverflowDocument else
      if blen dAtA <=? iNdEx then Err ErrUnexpectedEOF else
      b ← byte_at dAtA iNdEx;
      let acc := Z.lor acc (wrap64 (Z.shiftl (Z.land (b2z b) 127) shift)) in
      if b2z b <? 128 then Ok (acc, iNdEx + 1)
      else read_varint_aux fuel' dAtA (iNdEx + 1) (shift + 7) acc
  end.

Definition read_varint (dAtA : bytes) (iNdEx : Z) : result (Z * Z) :=
  read_varint_aux 11 dAtA iNdEx 0 0.

(** The length of a length-delimited field and its bounds: [iNdEx] and [postIndex]. *)
Definition read_len (dAtA : bytes) (iNdEx : Z) : result (Z * Z) :=
  lenIdx ← read_varint dAtA iNdEx;
  let '(stringLen, iNdEx) := lenIdx in
  let intStringLen := to_int stringLen in
  _ ← guard_err (intStringLen <? 0) ErrInvalidLengthDocument;
  let postIndex := to_int (iNdEx + intStringLen) in
  _ ← guard_err (postIndex <? 0) ErrInvalidLengthDocument;
  _ ← guard_err (blen dAtA <? postIndex) ErrUnexpectedEOF;
  Ok (iNdEx, postIndex).

Definition read_string (dAtA : bytes) (iNdEx : Z) : result (bytes * Z) :=
  bounds ← read_len dAtA iNdEx;
  s ← slice dAtA bounds.1 bounds.2;
  Ok (s, bounds.2).

(** The varint of a skipped field: its bytes are passed over. *)
Fixpoint skip_varint (fuel : nat) (dAtA : bytes) (iNdEx shift : Z) : result Z :=
  match fuel with
  | O => Err ErrOutOfFuel
  | S fuel' =>
      if 64 <=? shift then Err ErrIntOverflowDocument else
      if blen dAtA <=? iNdEx then Err ErrUnexpectedEOF else
      b ← byte_at dAtA iNdEx;
      if b2z b <? 128 then Ok (iNdEx + 1) else skip_varint fuel' dAtA (iNdEx + 1) (shift + 7)
  end.

Fixpoint skip_loop (fuel : nat) (dAtA : bytes) (iNdEx depth : Z) : result Z :=
  match fuel with
  | O => Err ErrOutOfFuel
  | S fuel' =>
      if blen dAtA <=? iNdEx then Err ErrUnexpectedEOF else
      wireIdx ← read_varint dAtA iNdEx;
      let '(wire, iNdEx) := wireIdx in
      let wireType := Z.land wire 7 in
      next ← (if wireType =? 0 then i ← skip_varint 11 dAtA iNdEx 0; Ok (i, depth)
              else if wireType =? 1 then Ok (to_int (iNdEx + 8), depth)
              else if wireType =? 2 then
                lenIdx ← read_varint dAtA iNdEx;
                let length := to_int lenIdx.1 in
                _ ← guard_err (length <? 0) ErrInvalidLengthDocument;
                Ok (to_int (lenIdx.2 + length), depth)
              else if wireType =? 3 then Ok (iNdEx, depth + 1)
              else if wireType =? 4 then
                _ ← guard_err (depth =? 0) ErrUnexpectedEndOfGroupDocument; Ok (iNdEx, depth - 1)
              else if wireType =? 5 then Ok (to_int (iNdEx + 4), depth)
              else Err (ErrPlain "proto: illegal wireType"));
      let '(iNdEx, depth) := next in
      _ ← guard_err (iNdEx <? 0) ErrInvalidLengthDocument;
      if depth =? 0 then Ok iNdEx else skip_loop fuel' dAtA iNdEx depth
  end.

Definition skipDocument (dAtA : bytes) : result Z := skip_loop (S (length dAtA)) dAtA 0 0.

(** A case of the [switch fieldNum].  A [LenCase] is a field with a length that is
    not a string: its body reads [dAtA] between [iNdEx] and [postIndex]. *)
Inductive FieldCase (A : Type) :=
| StringCase (set : bytes -> A -> A)
| UintCase (set : Z -> A -> A)
| EnumCase (set : Z -> A -> A)
| BoolCase (set : bool -> A -> A)
| LenCase (read : bytes -> Z -> Z -> A -> result A).
Arguments StringCase {_} _.
Arguments UintCase {_} _.
Arguments EnumCase {_} _.
Arguments BoolCase {_} _.
Arguments LenCase {_} _.

(** The conversion to [int32], of a field number or of an enum. *)
Definition to_int32 (z : Z) : Z := let w := z mod 2 ^ 32 in if w <? 2 ^ 31 then w else w - 2 ^ 32.

(** [int32(wire >> 3)] *)
Definition field_num (wire : Z) : Z := to_int32 (Z.shiftr wire 3).

(** The skip of a field the [switch] does not know, not past [limit]. *)
Definition skip_field (dAtA : bytes) (preIndex limit : Z) : result Z :=
  rest ← slice dAtA preIndex (blen dAtA);
  skippy ← skipDocument rest;
  _ ← guard_err ((skippy <? 0) || (to_int (preIndex + skippy) <? 0)) ErrInvalidLengthDocument;
  _ ← guard_err (limit <? to_int (preIndex + skippy)) ErrUnexpectedEOF;
  Ok (to_int (preIndex + skippy)).

(** The [switch fieldNum] of a loop that looked at the tag at [preIndex]. *)
Definition read_case {A} (c : option (FieldCase A)) (wireType : Z) (dAtA : bytes) (m : A)
    (preIndex iNdEx : Z) : result (A * Z) :=
  match c with
  | Some (UintCase set) =>
      _ ← guard_err (negb (wireType =? 0)) (ErrPlain "proto: wrong wireType");
      vIdx ← read_varint dAtA iNdEx; Ok (set vIdx.1 m, vIdx.2)
  | Some (EnumCase set) =>
      _ ← guard_err (negb (wireType =? 0)) (ErrPlain "proto: wrong wireType");
      vIdx ← read_varint dAtA iNdEx; Ok (set (to_int32 vIdx.1) m, vIdx.2)
  | Some (BoolCase set) =>
      _ ← guard_err (negb (wireType =? 0)) (ErrPlain "proto: wrong wireType");
      vIdx ← read_varint dAtA iNdEx; Ok (set (negb (to_int vIdx.1 =? 0)) m, vIdx.2)
  | Some (StringCase set) =>
      _ ← guard_err (negb (wireType =? 2)) (ErrPlain "proto: wrong wireType");
      sIdx ← read_string dAtA iNdEx; Ok (set sIdx.1 m, sIdx.2)
  | Some (LenCase read) =>
      _ ← guard_err (negb (wireType =? 2)) (ErrPlain "proto: wrong wireType");
      bounds ← read_len dAtA iNdEx;
      m ← read dAtA bounds.1 bounds.2 m; Ok (m, bounds.2)
  | None => iNdEx ← skip_field dAtA preIndex (blen dAtA); Ok (m, iNdEx)
  end.

Definition read_field {A} (cases : Z -> option (FieldCase A)) (dAtA : bytes) (m : A) (preIndex : Z) :
    result (A * Z) :=
  wireIdx ← read_varint dAtA preIndex;
  let '(wire, iNdEx) := wireIdx in
  let fieldNum := field_num wire in
  let wireType := Z.land wire 7 in
  _ ← guard_err (wireType =? 4) (ErrPlain "proto: wiretype end group for non-group");
  _ ← guard_err (fieldNum <=? 0) (ErrPlain "proto: illegal tag");
  read_case (cases fieldNum) wireType dAtA m preIndex iNdEx.

(** [for iNdEx < l]: every round consumes a byte, so [l + 1] rounds are enough. *)
Fixpoint read_fields {A} (cases : Z -> option (FieldCase A)) (fuel : nat) (dAtA : bytes) (m : A)
    (iNdEx : Z) : result A :=
  match fuel with
  | O => Err ErrOutOfFuel
  | S fuel' =>
      if iNdEx <? blen dAtA then
        next ← read_field cases dAtA m iNdEx;
        read_fields cases fuel' dAtA next.1 next.2
      else if blen dAtA <? iNdEx then Err ErrUnexpectedEOF else Ok m
  end.

(** The loop of a generated [Unmarshal]. *)
Definition unmarshal_with {A} (cases : Z -> option (FieldCase A)) (m : A) (dAtA : bytes) : result A :=
  read_fields cases (S (length dAtA)) dAtA m 0.

(** The assignments [m.Field = v]. *)
Definition Registry_set_Id (v : Z) (m : Registry) : Registry :=
  mkRegistry v (reg_Name m) (reg_Description m) (reg_Creator m) (reg_CreatedAt m)
    (reg_Metadata m).
Definition Registry_set_Name (v : bytes) (m : Registry) : Registry :=
  mkRegistry (reg_Id m) v (reg_Description m) (reg_Creator m) (reg_CreatedAt m) (reg_Metadata m).
Definition Registry_set_Description (v : bytes) (m : Registry) : Registry :=
  mkRegistry (reg_Id m) (reg_Name m) v (reg_Creator m) (reg_CreatedAt m) (reg_Metadata m).
Definition Registry_set_Creator (v : bytes) (m : Registry) : Registry :=
  mkRegistry (reg_Id m) (reg_Name m) (reg_Description m) v (reg_CreatedAt m) (reg_Metadata m).
Definition Registry_set_CreatedAt (v : bytes) (m : Registry) : Registry :=
  mkRegistry (reg_Id m) (reg_Name m) (reg_Description m) (reg_Creator m) v (reg_Metadata m).
Definition Registry_set_Metadata (v : bytes) (m : Registry) : Registry :=
  mkRegistry (reg_Id m) (reg_Name m) (reg_Description m) (reg_Creator m) (reg_CreatedAt m) v.
Definition Record_set_Uri (v : bytes) (m : Record_) : Record_ :=
  mkRecord v (rec_Checksum m) (rec_ChecksumAlgo m) (rec_Metadata m) (rec_Timestamp m)
    (rec_Status m) (rec_RecordId m) (rec_Index m) (rec_IsLatest m) (rec_RegistryId m).
Definition Record_set_Checksum (v : bytes) (m : Record_) : Record_ :=
  mkRecord (rec_Uri m) v (rec_ChecksumAlgo m) (rec_Metadata m) (rec_Timestamp m) (rec_Status m)
    (rec_RecordId m) (rec_Index m) (rec_IsLatest m) (rec_RegistryId m).
Definition Record_set_ChecksumAlgo (v : bytes) (m : Record_) : Record_ :=
  mkRecord (rec_Uri m) (rec_Checksum m) v (rec_Metadata m) (rec_Timestamp m) (rec_Status m)
    (rec_RecordId m) (rec_Index m) (rec_IsLatest m) (rec_RegistryId m).
Definition Record_set_Metadata (v : bytes) (m : Record_) : Record_ :=
  mkRecord (rec_Uri m) (rec_Checksum m) (rec_ChecksumAlgo m) v (rec_Timestamp m) (rec_Status m)
    (rec_RecordId m) (rec_Index m) (rec_IsLatest m) (rec_RegistryId m).
Definition Record_set_Timestamp (v : bytes) (m : Record_) : Record_ :=
  mkRecord (rec_Uri m) (rec_Checksum m) (rec_ChecksumAlgo m) (rec_Metadata m) v (rec_Status m)
    (rec_RecordId m) (rec_Index m) (rec_IsLatest m) (rec_RegistryId m).
Definition Record_set_Status (v : bytes) (m : Record_) : Record_ :=
  mkRecord (rec_Uri m) (rec_Checksum m) (rec_ChecksumAlgo m) (rec_Metadata m) (rec_Timestamp m) v
    (rec_RecordId m) (rec_Index m) (rec_IsLatest m) (rec_RegistryId m).
Definition Record_set_RecordId (v : Z) (m : Record_) : Record_ :=
  mkRecord (rec_Uri m) (rec_Checksum m) (rec_ChecksumAlgo m) (rec_Metadata m) (rec_Timestamp m)
    (rec_Status m) v (rec_Index m) (rec_IsLatest m) (rec_RegistryId m).
Definition Record_set_Index (v : Z) (m : Record_) : Record_ :=
  mkRecord (rec_Uri m) (rec_Checksum m) (rec_ChecksumAlgo m) (rec_Metadata m) (rec_Timestamp m)
    (rec_Status m) (rec_RecordId m) v (rec_IsLatest m) (rec_RegistryId m).
Definition Record_set_IsLatest (v : bool) (m : Record_) : Record_ :=
  mkRecord (rec_Uri m) (rec_Checksum m) (rec_ChecksumAlgo m) (rec_Metadata m) (rec_Timestamp m)
    (rec_Status m) (rec_RecordId m) (rec_Index m) v (rec_RegistryId m).
Definition Record_set_RegistryId (v : Z) (m : Record_) : Record_ :=
  mkRecord (rec_Uri m) (rec_Checksum m) (rec_ChecksumAlgo m) (rec_Metadata m) (rec_Timestamp m)
    (rec_Status m) (rec_RecordId m) (rec_Index m) (rec_IsLatest m) v.

Definition Registry_cases (fieldNum : Z) : option (FieldCase Registry) :=
  match fieldNum with
  | 1 => Some (UintCase Registry_set_Id)
  | 2 => Some (StringCase Registry_set_Name)
  | 3 => Some (StringCase Registry_set_Description)
  | 4 => Some (StringCase Registry_set_Creator)
  | 5 => Some (StringCase Registry_set_CreatedAt)
  | 6 => Some (StringCase Registry_set_Metadata)
  | _ => None
  end.

Definition Record_cases (fieldNum : Z) : option (FieldCase Record_) :=
  match fieldNum with
  | 2 => Some (StringCase Record_set_Uri)
  | 3 => Some (StringCase Record_set_Checksum)
  | 4 => Some (StringCase Record_set_ChecksumAlgo)
  | 5 => Some (StringCase Record_set_Metadata)
  | 6 => Some (StringCase Record_set_Timestamp)
  | 7 => Some (StringCase Record_set_Status)
  | 8 => Some (UintCase Record_set_RecordId)
  | 9 => Some (UintCase Record_set_Index)
  | 10 => Some (BoolCase Record_set_IsLatest)
  | 11 => Some (UintCase Record_set_RegistryId)
  | _ => None
  end.

Definition zero_Registry : Registry := mkRegistry 0 [] [] [] [] [].
Definition zero_Record : Record_ := mkRecord [] [] [] [] [] [] 0 0 false 0.

(** [Unmarshal] into a message that already has the fields of [m]. *)
Definition Registry_Unmarshal : Registry -> bytes -> result Registry := unmarshal_with Registry_cases.
Definition Record_Unmarshal : Record_ -> bytes -> result Record_ := unmarshal_with Record_cases.

(** [Record.Equal] of two messages that are not nil. *)
Definition Record_Equal (this that : Record_) : bool :=
  if negb (bool_decide (rec_Uri this = rec_Uri that)) then false
  else if negb (bool_decide (rec_Checksum this = rec_Checksum that)) then false
  else if negb (bool_decide (rec_ChecksumAlgo this = rec_ChecksumAlgo that)) then false
  else if negb (bool_decide (rec_Metadata this = rec_Metadata that)) then false
  else if negb (bool_decide (rec_Timestamp this = rec_Timestamp that)) then false
  else if negb (bool_decide (rec_Status this = rec_Status that)) then false
  else if negb (rec_RecordId this =? rec_RecordId that) then false
  else if negb (rec_Index this =? rec_Index that) then false
  else if negb (eqb (rec_IsLatest this) (rec_IsLatest that)) then false
  else if negb (rec_RegistryId this =? rec_RegistryId that) then false
  else true.

(** ** Varints *)

Fixpoint varint_aux (fuel : nat) (v : Z) : bytes :=
  match fuel with
  | O => []
  | S fuel' =>
      if 128 <=? v then z2b (v mod 128 + 128) :: varint_aux fuel' (v / 128) else [z2b v]
  end.

Definition varint (v : Z) : bytes := varint_aux varint_fuel v.

Lemma land_127 v : Z.land v 127 = v mod 128.
Proof. change 127 with (Z.ones 7). by rewrite Z.land_ones. Qed.

Lemma shiftr_7 v : Z.shiftr v 7 = v / 128.
Proof. by rewrite Z.shiftr_div_pow2. Qed.

Lemma lor_128 x : 0 <= x < 128 -> Z.lor x 128 = x + 128.
Proof.
  intros Hx. assert (Hl : Z.land x 128 = 0).
  { apply Z.bits_inj'. intros n Hn. rewrite Z.land_spec, Z.bits_0.
    destruct (decide (n = 7)) as [->|Hne].
    - rewrite andb_false_iff. left. change 7 with (0 + 7). rewrite <- Z.shiftr_spec by lia.
      rewrite shiftr_7, Z.div_small by done. apply Z.bits_0.
    - change 128 with (2 ^ 7). rewrite (Z.pow2_bits_false 7 n), andb_false_r; done || lia. }
  by rewrite Z.add_nocarry_lxor, Z.lxor_lor.
Qed.

Lemma sov_small v : 0 <= v < 128 -> sovDocument v = 1.
Proof.
  intros Hv. unfold sovDocument, Len64.
  assert (1 <= Z.lor v 1 < 128).
  { assert (Z.lor v 1 <> 0) by (intros [_ ?]%Z.lor_eq_0_iff; lia).
    assert (0 <= Z.lor v 1) by (apply Z.lor_nonneg; lia). split; [lia|].
    destruct (Z.eq_dec v 0) as [->|]; [done|].
    change 128 with (2 ^ 7). apply Z.log2_lt_pow2; [lia|]. rewrite Z.log2_lor by lia.
    apply Z.max_lub_lt; [|done]. apply Z.log2_lt_pow2; lia. }
  destruct (Z.eqb_spec (Z.lor v 1) 0); [lia|].
  assert (0 <= Z.log2 (Z.lor v 1) < 7).
  { split; [apply Z.log2_nonneg|]. apply Z.log2_lt_pow2; lia. }
  symmetry. apply (Z.div_unique _ 7 1 (Z.log2 (Z.lor v 1))); lia.
Qed.

Lemma sov_log2 v : 1 <= v -> sovDocument v = (Z.log2 v + 7) / 7.
Proof.
  intros Hv. unfold sovDocument, Len64.
  destruct (Z.eqb_spec (Z.lor v 1) 0) as [[_ ?]%Z.lor_eq_0_iff|]; [lia|].
  rewrite Z.log2_lor by lia. change (Z.log2 1) with 0.
  rewrite Z.max_l by apply Z.log2_nonneg. f_equal. lia.
Qed.

Lemma sov_step v : 128 <= v -> sovDocument v = 1 + sovDocument (v / 128).
Proof.
  intros Hv. assert (1 <= v / 128) by (apply Z.div_le_lower_bound; lia).
  rewrite !sov_log2 by lia. rewrite <- shiftr_7, Z.log2_shiftr by lia.
  assert (7 <= Z.log2 v) by (by apply Z.log2_le_pow2; lia).
  rewrite Z.max_r by lia. replace (Z.log2 v + 7) with (Z.log2 v - 7 + 7 + 1 * 7) by lia.
  rewrite Z.div_add by lia. lia.
Qed.

Lemma pow_128_S n : 128 ^ Z.of_nat (S n) = 128 * 128 ^ Z.of_nat n.
Proof. rewrite Nat2Z.inj_succ. apply Z.pow_succ_r. lia. Qed.

Lemma varint_aux_length n v :
  0 <= v < 128 ^ Z.of_nat n -> Z.of_nat (length (varint_aux n v)) = if (n =? 0)%nat then 0 else sovDocument v.
Proof.
  revert v. induction n as [|n IH]; intros v Hv; [done|]. rewrite pow_128_S in Hv. simpl.
  destruct (Z.leb_spec 128 v) as [Hge|Hlt]; simpl; [|by rewrite sov_small by lia].
  assert (v / 128 < 128 ^ Z.of_nat n) by (apply Z.div_lt_upper_bound; lia).
  assert (1 <= v / 128) by (apply Z.div_le_lower_bound; lia).
  rewrite sov_step by lia. specialize (IH (v / 128) ltac:(lia)).
  destruct n as [|n]; [|change (S n =? 0)%nat with false in IH; cbv iota in IH; lia].
  change (128 ^ Z.of_nat 0) with 1 in *. lia.
Qed.

Lemma u64_varint v : is_u64 v -> 0 <= v < 128 ^ Z.of_nat varint_fuel.
Proof. unfold is_u64, two64. intros [? ?]. assert (2 ^ 64 < 128 ^ Z.of_nat varint_fuel) by done. lia. Qed.

Lemma varint_length v : is_u64 v -> blen (varint v) = sovDocument v.
Proof. intros Hv. unfold blen, varint. by rewrite varint_aux_length by (by apply u64_varint). Qed.

(** ** Writing *)

Lemma put_byte_ok pre x suf b :
  put_byte (pre ++ x :: suf) (blen pre) b = Ok (pre ++ b :: suf).
Proof.
  unfold put_byte. pose proof (blen_nonneg pre).
  rewrite (proj2 (Z.ltb_ge _ _)) by done.
  rewrite (proj2 (Z.leb_gt _ _)) by (rewrite blen_app; unfold blen; simpl; lia). simpl.
  unfold blen. rewrite Nat2Z.id. f_equal. by rewrite insert_app_r_alt, Nat.sub_diag by lia.
Qed.

Lemma put_varint_ok n v pre mid suf :
  0 <= v < 128 ^ Z.of_nat n -> length mid = length (varint_aux n v) -> (0 < n)%nat ->
  put_varint n (pre ++ mid ++ suf) (blen pre) v = Ok (pre ++ varint_aux n v ++ suf).
Proof.
  revert v pre mid. induction n as [|n IH]; intros v pre mid Hv Hl Hn; [lia|].
  rewrite pow_128_S in Hv. simpl in Hl |- *. change (2 ^ 7) with 128.
  destruct (Z.leb_spec 128 v) as [Hge|Hlt]; destruct mid as [|x mid]; try done; simpl in Hl.
  - cbv [mbind result_bind]. simpl. rewrite put_byte_ok, shiftr_7, land_127.
    rewrite lor_128 by (by apply Z.mod_pos_bound).
    assert (v / 128 < 128 ^ Z.of_nat n) by (apply Z.div_lt_upper_bound; lia).
    assert (1 <= v / 128) by (apply Z.div_le_lower_bound; lia).
    set (b := z2b _). specialize (IH (v / 128) (pre ++ [b]) mid ltac:(lia) ltac:(lia)).
    rewrite blen_app, <- !app_assoc in IH. apply IH.
    destruct n; [change (128 ^ Z.of_nat 0) with 1 in *; lia|lia].
  - destruct mid; [|done]. simpl. apply put_byte_ok.
Qed.

Lemma slice_of_app (pre s suf : bytes) : slice (pre ++ s ++ suf) (blen pre) (blen (pre ++ s)) = Ok s.
Proof.
  unfold slice. pose proof (blen_nonneg pre). pose proof (blen_nonneg s). pose proof (blen_nonneg suf).
  rewrite !(proj2 (Z.leb_le _ _)) by (rewrite ?blen_app; lia). simpl.
  rewrite blen_app, Z.add_simpl_l. unfold blen. rewrite !Nat2Z.id.
  by rewrite drop_app_length, take_app_length.
Qed.

Lemma slice_prefix (s suf : bytes) : slice (s ++ suf) 0 (blen s) = Ok s.
Proof. exact (slice_of_app [] s suf). Qed.

(** A slice within bounds is the bytes between them, and no longer than the whole. *)
Lemma slice_ok dAtA i j : 0 <= i <= j -> j <= blen dAtA ->
  exists x, slice dAtA i j = Ok x /\ blen x = j - i.
Proof.
  intros Hi Hj. unfold slice. rewrite !(proj2 (Z.leb_le _ _)) by lia. simpl. eexists. split; [done|].
  unfold blen in *. rewrite length_take, length_drop. lia.
Qed.

(** A write that prepends [enc] to the filled part of the buffer. *)
Definition emits (step : Buf -> result Buf) (enc : bytes) : Prop :=
  forall pre suf, (length enc <= length pre)%nat ->
  let rest := take (length pre - length enc) pre in
  step (pre ++ suf, blen pre) = Ok (rest ++ enc ++ suf, blen rest).

Lemma emits_skip : emits Ok [].
Proof.
  intros pre suf _. simpl. by rewrite Nat.sub_0_r, take_ge by lia.
Qed.

Lemma emits_seq s1 s2 e1 e2 :
  emits s1 e1 -> emits s2 e2 -> emits (fun st => st ← s1 st; s2 st) (e2 ++ e1).
Proof.
  intros H1 H2 pre suf Hl. rewrite length_app in *. cbv [mbind result_bind].
  rewrite H1 by lia. rewrite H2 by (rewrite length_take; lia).
  rewrite length_take, take_take, <- app_assoc. do 3 f_equal; f_equal; lia.
Qed.

(** The unused part of the buffer splits off what a write of [n] bytes takes. *)
Lemma take_split (pre : bytes) n : (n <= length pre)%nat ->
  pre = take (length pre - n) pre ++ drop (length pre - n) pre /\
  length (drop (length pre - n) pre) = n /\ blen (take (length pre - n) pre) = blen pre - Z.of_nat n.
Proof.
  intros Hn. split_and!; [by rewrite take_drop|rewrite length_drop; lia|].
  unfold blen. rewrite length_take. lia.
Qed.

Lemma emits_tag tag : emits (put_tag tag) [z2b tag].
Proof.
  intros pre suf Hl. simpl in *. destruct (take_split pre 1 Hl) as (Hp & Hd & Hb). unfold put_tag. simpl.
  change (Z.of_nat 1) with 1 in Hb. rewrite <- Hb.
  destruct (drop (length pre - 1) pre) as [|x [|]] eqn:E; try done.
  rewrite Hp at 1. rewrite <- app_assoc. simpl. cbv [mbind result_bind]. by rewrite put_byte_ok.
Qed.

Lemma emits_varint v : is_u64 v -> emits (fun st => encodeVarintDocument st.1 st.2 v) (varint v).
Proof.
  intros Hv pre suf Hl. destruct (take_split pre _ Hl) as (Hp & Hd & Hb).
  unfold encodeVarintDocument. cbn [fst snd]. rewrite <- (varint_length v Hv).
  fold (blen (varint v)) in Hb. rewrite <- Hb. rewrite Hp at 1. rewrite <- app_assoc.
  cbv [mbind result_bind]. rewrite put_varint_ok; [done|by apply u64_varint|done|unfold varint_fuel; lia].
Qed.

Lemma emits_bytes s : emits (fun st => dAtA ← put_bytes st.1 (st.2 - blen s) s; Ok (dAtA, st.2 - blen s)) s.
Proof.
  intros pre suf Hl. destruct (take_split pre _ Hl) as (Hp & Hd & Hb). simpl.
  fold (blen s) in Hb. rewrite <- Hb. set (rest := take _ pre) in *.
  unfold put_bytes. rewrite (proj2 (Z.ltb_ge _ _)) by apply blen_nonneg.
  rewrite (proj2 (Z.ltb_ge _ _)) by (rewrite blen_app; pose proof (blen_nonneg suf); pose proof (blen_nonneg s); lia).
  set (mid := drop _ pre) in *.
  assert (E1 : take (Z.to_nat (blen rest)) (pre ++ suf) = rest).
  { unfold blen. by rewrite Nat2Z.id, Hp, <- app_assoc, take_app_length. }
  assert (E2 : drop (Z.to_nat (blen rest)) (pre ++ suf) = mid ++ suf).
  { unfold blen. by rewrite Nat2Z.id, Hp, <- app_assoc, drop_app_length. }
  cbv [orb mbind result_bind]. rewrite E1, E2. unfold go_copy. cbn [fst snd].
  rewrite length_app, Nat.min_r by lia. by rewrite take_ge, drop_app_length' by (done || lia).
Qed.

(** The encodings of the three kinds of fields; a default value is left out. *)
Definition enc_string (tag : Z) (s : bytes) : bytes :=
  if 0 <? blen s then z2b tag :: varint (blen s) ++ s else [].
Definition enc_uint (tag x : Z) : bytes := if x =? 0 then [] else z2b tag :: varint x.
Definition enc_bool (tag : Z) (b : bool) : bytes := if b then [z2b tag; x01] else [].

Definition is_len (s : bytes) : Prop := blen s < 2 ^ 63.

Lemma is_len_u64 s : is_len s -> is_u64 (blen s).
Proof. unfold is_len, is_u64, two64. pose proof (blen_nonneg s). lia. Qed.

Lemma emits_string tag s : is_len s -> emits (put_string_field tag s) (enc_string tag s).
Proof.
  intros Hs. unfold put_string_field, enc_string. destruct (0 <? blen s); [|apply emits_skip].
  pose proof (emits_seq _ _ _ _ (emits_seq _ _ _ _ (emits_bytes s) (emits_varint _ (is_len_u64 _ Hs)))
    (emits_tag tag)) as He.
  intros pre suf Hl. specialize (He pre suf Hl). cbv [mbind result_bind] in *. cbn [fst snd] in *.
  destruct (put_bytes _ _ _); [|done]. exact He.
Qed.

Lemma emits_uint tag x : is_u64 x -> emits (put_uint_field tag x) (enc_uint tag x).
Proof.
  intros Hx. unfold put_uint_field, enc_uint. destruct (x =? 0); [apply emits_skip|].
  exact (emits_seq _ _ _ _ (emits_varint _ Hx) (emits_tag tag)).
Qed.

Definition is_i32 (x : Z) : Prop := - 2 ^ 31 <= x < 2 ^ 31.

Lemma wrap64_i32_zero x : is_i32 x -> (wrap64 x =? 0) = (x =? 0).
Proof.
  unfold is_i32, wrap64, two64. intros Hx. destruct (Z.eqb_spec x 0) as [->|]; [done|].
  apply Z.eqb_neq. intros [k Hk]%Z.mod_divide; lia.
Qed.

Lemma emits_enum tag x : is_i32 x -> emits (put_enum_field tag x) (enc_uint tag (wrap64 x)).
Proof.
  intros Hx. unfold put_enum_field, enc_uint. rewrite wrap64_i32_zero by done.
  destruct (x =? 0); [apply emits_skip|].
  exact (emits_seq _ _ _ _ (emits_varint _ (wrap64_u64 x)) (emits_tag tag)).
Qed.

Lemma emits_bool tag b : emits (put_bool_field tag b) (enc_bool tag b).
Proof.
  unfold put_bool_field, enc_bool. destruct b; [|apply emits_skip].
  pose proof (emits_seq _ _ _ _ (emits_tag 1) (emits_tag tag)) as He.
  intros pre suf Hl. specialize (He pre suf Hl). unfold put_tag in *.
  cbv [mbind result_bind] in *. cbn [fst snd] in *.
  destruct (put_byte (pre ++ suf) _ _); [|done]. exact He.
Qed.

(** A field with a length, written even when it is empty. *)
Definition enc_len (tag : Z) (body : bytes) : bytes := z2b tag :: varint (blen body) ++ body.

(** A [MarshalToSizedBuffer] that fills the end of its buffer with [enc]. *)
Definition fills (to_sized_buffer : bytes -> result (bytes * Z)) (enc : bytes) : Prop :=
  forall pre, (length enc <= length pre)%nat ->
  to_sized_buffer pre = Ok (take (length pre - length enc) pre ++ enc, blen enc).

Lemma emits_len tag body enc :
  is_len enc -> fills body enc -> emits (put_len_field tag body) (enc_len tag enc).
Proof.
  intros Hl Hb. unfold enc_len.
  pose proof (emits_seq _ _ _ _ (emits_varint _ (is_len_u64 _ Hl)) (emits_tag tag)) as Hs.
  intros pre suf Hle. assert (Hle' : (length enc <= length pre)%nat) by (simpl in Hle; rewrite length_app in Hle; lia).
  destruct (take_split pre _ Hle') as (_ & _ & Hrest). unfold put_len_field. cbn [fst snd].
  pose proof (slice_prefix pre suf) as E1.
  assert (E2 : drop (Z.to_nat (blen pre)) (pre ++ suf) = suf) by (unfold blen; by rewrite Nat2Z.id, drop_app_length).
  cbv [mbind result_bind] in *. rewrite E1, E2, Hb by done. cbn [fst snd].
  set (rest := take _ pre) in *. specialize (Hs rest (enc ++ suf)). rewrite Hrest in Hs.
  rewrite <- app_assoc. cbn [fst snd app] in Hs. unfold blen at 2. rewrite Hs.
  - subst rest. rewrite length_take, take_take. simpl length. rewrite !length_app.
    replace (_ `min` _)%nat with (length pre - S (length (varint (blen enc)) + length enc))%nat by lia.
    cbn [app]. by rewrite <- app_assoc.
  - subst rest. rewrite length_take. simpl in *. rewrite length_app in *. lia.
Qed.

Lemma sized_fills fields enc : emits fields enc -> fills (sized fields) enc.
Proof.
  intros He pre Hle. specialize (He pre [] Hle). rewrite !app_nil_r in He.
  unfold sized. cbv [mbind result_bind]. rewrite He. cbn [fst snd].
  destruct (take_split pre _ Hle) as (_ & _ & ->). f_equal. f_equal. unfold blen. lia.
Qed.

Lemma marshal_fills size body enc : fills body enc -> blen enc = size -> marshal_with size body = Ok enc.
Proof.
  intros Hf <-. unfold marshal_with, blen. rewrite Nat2Z.id. cbv [mbind result_bind].
  rewrite Hf by (rewrite length_replicate; lia). cbn [fst snd].
  rewrite length_replicate, Nat.sub_diag. rewrite take_0, app_nil_l, <- (app_nil_r enc) at 1. apply slice_prefix.
Qed.

(** ** Reading back *)

Lemma byte_at_app pre b suf : byte_at (pre ++ b :: suf) (blen pre) = Ok b.
Proof.
  unfold byte_at. rewrite (proj2 (Z.ltb_ge _ _)) by apply blen_nonneg.
  unfold blen. rewrite Nat2Z.id, lookup_app_r, Nat.sub_diag by lia. done.
Qed.

Lemma blen_app_cons pre (b : byte) suf : (blen (pre ++ b :: suf) <=? blen pre) = false.
Proof. apply Z.leb_gt. unfold blen. rewrite length_app. simpl. lia. Qed.

Lemma wrap64_small z : is_u64 z -> wrap64 z = z.
Proof. intros [? ?]. by apply Z.mod_small. Qed.

Lemma lor_shift v shift acc : 0 <= shift ->
  Z.lor (Z.lor acc (Z.shiftl (v mod 128) shift)) (Z.shiftl (v / 128) (shift + 7))
  = Z.lor acc (Z.shiftl v shift).
Proof.
  intros Hs. rewrite <- Z.lor_assoc. f_equal.
  rewrite (Z.add_comm shift 7), <- Z.shiftl_shiftl by lia. rewrite <- Z.shiftl_lor. f_equal.
  rewrite <- land_127, <- shiftr_7. apply Z.bits_inj'. intros n Hn.
  rewrite Z.lor_spec, Z.land_spec, Z.shiftl_spec by done. change 127 with (Z.ones 7).
  destruct (Z_lt_le_dec n 7).
  - rewrite Z.ones_spec_low, (Z.testbit_neg_r _ (n - 7)) by lia. by rewrite andb_true_r, orb_false_r.
  - rewrite Z.ones_spec_high, andb_false_r by lia. rewrite Z.shiftr_spec by lia. simpl. f_equal. lia.
Qed.

Lemma read_varint_aux_ok n extra v pre suf shift acc :
  0 <= v < 128 ^ Z.of_nat n -> (0 < n)%nat -> 0 <= shift < 64 -> v * 2 ^ shift < two64 ->
  read_varint_aux (n + extra) (pre ++ varint_aux n v ++ suf) (blen pre) shift acc
  = Ok (Z.lor acc (Z.shiftl v shift), blen pre + blen (varint_aux n v)).
Proof.
  revert v pre shift acc. induction n as [|n IH]; intros v pre shift acc Hv Hn Hsh Hbound; [lia|].
  rewrite pow_128_S in Hv. cbn [read_varint_aux Nat.add varint_aux].
  rewrite (proj2 (Z.leb_gt 64 shift)) by lia.
  assert (Hp : 0 < 2 ^ shift) by (apply Z.pow_pos_nonneg; lia).
  assert (Hw : forall x, 0 <= x <= v -> wrap64 (Z.shiftl x shift) = Z.shiftl x shift).
  { intros x Hx. rewrite Z.shiftl_mul_pow2 by lia. apply wrap64_small. unfold is_u64. nia. }
  destruct (Z.leb_spec 128 v) as [Hge|Hlt]; cbn [app]; rewrite blen_app_cons, byte_at_app;
    cbv [mbind result_bind]; rewrite land_127.
  - assert (0 <= v mod 128 < 128) by (by apply Z.mod_pos_bound).
    assert (v / 128 < 128 ^ Z.of_nat n) by (apply Z.div_lt_upper_bound; lia).
    assert (1 <= v / 128) by (apply Z.div_le_lower_bound; lia).
    assert (Hdm : v = 128 * (v / 128) + v mod 128) by (apply Z.div_mod; lia).
    rewrite b2z_z2b by lia. rewrite (proj2 (Z.ltb_ge _ 128)) by lia.
    replace ((v mod 128 + 128) mod 128) with (v mod 128)
      by (rewrite <- Z.add_mod_idemp_r, Z.add_0_r, Z.mod_mod by lia; done).
    rewrite Hw by lia. set (b := z2b _).
    assert (Hpow : 2 ^ (shift + 7) = 2 ^ shift * 128) by (by rewrite Z.pow_add_r by lia).
    assert (shift + 7 < 64).
    { apply (Z.pow_lt_mono_r_iff 2); [lia|lia|]. rewrite Hpow. unfold two64 in Hbound. nia. }
    specialize (IH (v / 128) (pre ++ [b]) (shift + 7) (Z.lor acc (Z.shiftl (v mod 128) shift))).
    rewrite blen_app, <- !app_assoc in IH. change (blen [b]) with 1 in IH. cbn [app] in IH.
    rewrite IH; [|lia| |lia|rewrite Hpow; nia].
    + rewrite lor_shift by lia. do 2 f_equal. unfold blen. simpl length. lia.
    + destruct n; [change (128 ^ Z.of_nat 0) with 1 in *; lia|lia].
  - rewrite b2z_z2b by lia. rewrite (proj2 (Z.ltb_lt v 128)) by lia.
    rewrite Z.mod_small, Hw by lia. done.
Qed.

Lemma read_varint_ok v pre suf : is_u64 v ->
  read_varint (pre ++ varint v ++ suf) (blen pre) = Ok (v, blen (pre ++ varint v)).
Proof.
  intros Hv. unfold read_varint, varint. change 11%nat with (varint_fuel + 1)%nat.
  rewrite read_varint_aux_ok; [|by apply u64_varint|unfold varint_fuel; lia|lia|].
  - rewrite Z.lor_0_l, Z.shiftl_0_r, blen_app. done.
  - rewrite Z.mul_1_r. apply Hv.
Qed.

Lemma to_int_small z : 0 <= z < 2 ^ 63 -> to_int z = z.
Proof.
  intros Hz. unfold to_int. rewrite wrap64_small by (unfold is_u64, two64; lia).
  by rewrite (proj2 (Z.ltb_lt _ _)) by lia.
Qed.

Lemma read_len_ok s pre suf : is_len (pre ++ varint (blen s) ++ s ++ suf) ->
  read_len (pre ++ varint (blen s) ++ s ++ suf) (blen pre)
  = Ok (blen (pre ++ varint (blen s)), blen (pre ++ varint (blen s) ++ s)).
Proof.
  unfold is_len. intros Hl.
  pose proof (blen_nonneg pre). pose proof (blen_nonneg s). pose proof (blen_nonneg suf).
  pose proof (blen_nonneg (varint (blen s))).
  unfold read_len. rewrite !blen_app in Hl.
  rewrite read_varint_ok by (unfold is_u64, two64; lia). cbv [mbind result_bind].
  rewrite (to_int_small (blen s)) by lia. unfold guard_err.
  rewrite (proj2 (Z.ltb_ge _ 0)) by lia. rewrite blen_app, (to_int_small (_ + _)) by lia.
  rewrite (proj2 (Z.ltb_ge _ 0)) by lia.
  rewrite (proj2 (Z.ltb_ge _ (blen pre + blen (varint (blen s)) + blen s))) by (rewrite !blen_app; lia).
  by rewrite !blen_app, Z.add_assoc.
Qed.

Lemma read_string_ok s pre suf : is_len (pre ++ varint (blen s) ++ s ++ suf) ->
  read_string (pre ++ varint (blen s) ++ s ++ suf) (blen pre)
  = Ok (s, blen (pre ++ varint (blen s) ++ s)).
Proof.
  intros Hl. unfold read_string. rewrite read_len_ok by done. cbv [mbind result_bind]. cbn [fst snd].
  pose proof (slice_of_app (pre ++ varint (blen s)) s suf) as Hs. rewrite <- !app_assoc in Hs. by rewrite Hs.
Qed.

(** Fields of a message, and the message after they were read. *)
Section fields.
Context {A : Type} (cases : Z -> option (FieldCase A)).

(** The bytes [enc] are read as fields that turn the message [m] into [m']. *)
Definition reads (enc : bytes) (m m' : A) : Prop :=
  forall pre suf fuel, is_len (pre ++ enc ++ suf) ->
  (length enc + length suf < fuel)%nat ->
  exists fuel', (length suf < fuel')%nat /\
  read_fields cases fuel (pre ++ enc ++ suf) m (blen pre)
  = read_fields cases fuel' ((pre ++ enc) ++ suf) m' (blen (pre ++ enc)).

Lemma reads_nil m : reads [] m m.
Proof. intros pre suf fuel _ Hf. exists fuel. split; [simpl in Hf; lia|]. by rewrite app_nil_r. Qed.

Lemma reads_app e1 e2 m m1 m2 : reads e1 m m1 -> reads e2 m1 m2 -> reads (e1 ++ e2) m m2.
Proof.
  intros H1 H2 pre suf fuel Hl Hf. rewrite length_app in Hf. rewrite <- app_assoc in Hl |- *.
  destruct (H1 pre (e2 ++ suf) fuel Hl) as (f1 & Hf1 & ->); [rewrite length_app; lia|].
  rewrite length_app in Hf1.
  destruct (H2 (pre ++ e1) suf f1) as (f2 & Hf2 & ->); [by rewrite <- app_assoc|lia|].
  exists f2. split; [done|]. by rewrite !app_assoc.
Qed.

Lemma reads_eq enc m m1 m2 : reads enc m m1 -> m1 = m2 -> reads enc m m2.
Proof. by intros ? <-. Qed.

(** A tag of one byte: field number and wire type. *)
Lemma read_field_tag num wt pre suf m :
  1 <= num < 16 -> 0 <= wt < 4 -> let dAtA := (pre ++ [z2b (num * 8 + wt)]) ++ suf in
  read_field cases dAtA m (blen pre)
  = read_case (cases num) wt dAtA m (blen pre) (blen (pre ++ [z2b (num * 8 + wt)])).
Proof.
  intros Hn Hw dAtA. unfold read_field, dAtA. rewrite <- app_assoc.
  assert (Ht : varint (num * 8 + wt) = [z2b (num * 8 + wt)]).
  { unfold varint, varint_fuel. simpl. by rewrite (proj2 (Z.leb_gt 128 _)) by lia. }
  assert (Hf : field_num (num * 8 + wt) = num).
  { unfold field_num, to_int32. rewrite Z.shiftr_div_pow2 by lia. change (2 ^ 3) with 8.
    rewrite Z.div_add_l, (Z.div_small wt), Z.add_0_r by lia. rewrite Z.mod_small by lia.
    by rewrite (proj2 (Z.ltb_lt _ _)) by lia. }
  assert (Hl : Z.land (num * 8 + wt) 7 = wt).
  { change 7 with (Z.ones 3). rewrite Z.land_ones by lia. change (2 ^ 3) with 8.
    rewrite Z.add_comm, Z.mod_add, Z.mod_small by lia. done. }
  pose proof (read_varint_ok (num * 8 + wt) pre suf) as Hr. rewrite Ht in Hr.
  rewrite Hr by (unfold is_u64, two64; lia). cbv [mbind result_bind]. rewrite Hf, Hl. unfold guard_err.
  by rewrite (proj2 (Z.eqb_neq wt 4)), (proj2 (Z.leb_gt num 0)) by lia.
Qed.

(** A field that is present, by what its case of the [switch] does. *)
Lemma reads_field num wt body m m' :
  1 <= num < 16 -> 0 <= wt < 4 ->
  (forall preIndex pre suf, is_len (pre ++ body ++ suf) ->
     read_case (cases num) wt (pre ++ body ++ suf) m preIndex (blen pre) = Ok (m', blen (pre ++ body))) ->
  reads (z2b (num * 8 + wt) :: body) m m'.
Proof.
  intros Hn Hw Hr pre suf fuel Hl Hf. destruct fuel as [|fuel]; [lia|]. exists fuel.
  split; [simpl in Hf; lia|]. cbn [read_fields].
  rewrite (proj2 (Z.ltb_lt _ _)) by (rewrite !blen_app; unfold blen; simpl; lia).
  pose proof (read_field_tag num wt pre (body ++ suf) m Hn Hw) as Ht. cbv zeta in Ht.
  specialize (Hr (blen pre) (pre ++ [z2b (num * 8 + wt)]) suf). rewrite <- !app_assoc in Hr, Ht.
  cbn [app] in *. cbv [mbind result_bind]. rewrite Ht, Hr by done. cbn [fst snd].
  by rewrite <- !app_assoc.
Qed.

Lemma reads_uint num x set m :
  1 <= num < 16 -> is_u64 x -> cases num = Some (UintCase set) -> set 0 m = m ->
  reads (enc_uint (num * 8) x) m (set x m).
Proof.
  intros Hn Hx Hc H0. unfold enc_uint. destruct (Z.eqb_spec x 0) as [->|_]; [rewrite H0; apply reads_nil|].
  rewrite <- (Z.add_0_r (num * 8)). apply reads_field; [done|lia|]. intros i pre suf Hl.
  rewrite Hc. cbv [read_case guard_err mbind result_bind Z.eqb negb]. by rewrite read_varint_ok.
Qed.

Lemma reads_enum num x set m :
  1 <= num < 16 -> is_i32 x -> cases num = Some (EnumCase set) -> set 0 m = m ->
  reads (enc_uint (num * 8) (wrap64 x)) m (set x m).
Proof.
  unfold is_i32. intros Hn Hx Hc H0. assert (Hw : to_int32 (wrap64 x) = x).
  { unfold to_int32, wrap64, two64. rewrite Z.mod_mod_divide by (by exists (2 ^ 32)).
    destruct (Z_lt_le_dec x 0); [rewrite <- (Z.mod_add x 1) by lia|]; rewrite Z.mod_small by lia;
      [rewrite (proj2 (Z.ltb_ge _ _)) by lia; lia|by rewrite (proj2 (Z.ltb_lt _ _)) by lia]. }
  unfold enc_uint. destruct (Z.eqb_spec (wrap64 x) 0) as [E|_].
  { rewrite E in Hw. change (to_int32 0) with 0 in Hw. rewrite <- Hw, H0. apply reads_nil. }
  rewrite <- (Z.add_0_r (num * 8)). apply reads_field; [done|lia|]. intros i pre suf Hl.
  rewrite Hc. cbv [read_case guard_err mbind result_bind Z.eqb negb].
  rewrite read_varint_ok by apply wrap64_u64. cbn [fst snd]. by rewrite Hw.
Qed.

Lemma reads_bool num b set m :
  1 <= num < 16 -> cases num = Some (BoolCase set) -> set false m = m ->
  reads (enc_bool (num * 8) b) m (set b m).
Proof.
  intros Hn Hc H0. unfold enc_bool. destruct b; [|rewrite H0; apply reads_nil].
  rewrite <- (Z.add_0_r (num * 8)). apply reads_field; [done|lia|]. intros i pre suf Hl.
  rewrite Hc. cbv [read_case guard_err mbind result_bind Z.eqb negb].
  pose proof (read_varint_ok 1 pre suf ltac:(done)) as Hr. change (varint 1) with [x01] in Hr.
  by rewrite Hr.
Qed.

Lemma reads_string num s set m :
  1 <= num < 16 -> cases num = Some (StringCase set) -> set [] m = m ->
  reads (enc_string (num * 8 + 2) s) m (set s m).
Proof.
  intros Hn Hc H0. unfold enc_string. destruct (Z.ltb_spec 0 (blen s)) as [_|Hle].
  2: { assert (s = []) as -> by (apply blen_nil; pose proof (blen_nonneg s); lia). rewrite H0. apply reads_nil. }
  apply reads_field; [done|lia|]. intros i pre suf Hl. rewrite <- app_assoc in Hl |- *.
  rewrite Hc. cbv [read_case guard_err mbind result_bind Z.eqb Pos.eqb negb]. by rewrite read_string_ok.
Qed.

Lemma reads_len num body read m m' :
  1 <= num < 16 -> cases num = Some (LenCase read) ->
  (forall pre suf, is_len (pre ++ body ++ suf) ->
     read (pre ++ body ++ suf) (blen pre) (blen (pre ++ body)) m = Ok m') ->
  reads (enc_len (num * 8 + 2) body) m m'.
Proof.
  intros Hn Hc Hr. apply reads_field; [done|lia|]. intros i pre suf Hl. rewrite <- app_assoc in Hl |- *.
  rewrite Hc. cbv [read_case guard_err mbind result_bind Z.eqb Pos.eqb negb]. rewrite read_len_ok by done.
  cbn [fst snd]. specialize (Hr (pre ++ varint (blen body)) suf). rewrite <- !app_assoc in Hr.
  by rewrite Hr.
Qed.

(** Reading a whole message. *)
Lemma reads_all enc m m' : reads enc m m' -> is_len enc ->
  read_fields cases (S (length enc)) enc m 0 = Ok m'.
Proof.
  intros Hr Hl. destruct (Hr [] [] (S (length enc))) as (fuel & Hf & E).
  - simpl. by rewrite app_nil_r.
  - simpl. lia.
  - cbn [app] in E. rewrite !app_nil_r in E. change (blen []) with 0 in E. rewrite E.
    destruct fuel as [|fuel]; [lia|]. cbn [read_fields]. by rewrite Z.ltb_irrefl.
Qed.
End fields.

(** ** Arbitrary input *)

(** A run that neither panics nor runs out of fuel. *)
Definition safe {A} (r : result A) : Prop := r <> Err ErrOutOfFuel /\ r <> Err ErrPanic.

Lemma safe_Ok {A} (a : A) : safe (Ok a).
Proof. done. Qed.

Lemma safe_Err {A B} e : safe (@Err A e) -> safe (@Err B e).
Proof. intros [H1 H2]. split; congruence. Qed.

Lemma safe_bind {A B} (r : result A) (f : A -> result B) :
  safe r -> (forall a, r = Ok a -> safe (f a)) -> safe (r ≫= f).
Proof.
  intros [H1 H2] Hf. cbv [mbind result_bind]. destruct r as [a|e]; [by apply Hf|].
  split; congruence.
Qed.

Lemma safe_guard (b : bool) e : e <> ErrOutOfFuel -> e <> ErrPanic -> safe (guard_err b e).
Proof. intros. unfold guard_err. destruct b; [|done]. split; congruence. Qed.

Lemma byte_at_safe dAtA i : 0 <= i < blen dAtA -> exists b, byte_at dAtA i = Ok b.
Proof.
  intros Hi. unfold byte_at. rewrite (proj2 (Z.ltb_ge _ _)) by lia.
  destruct (lookup_lt_is_Some_2 dAtA (Z.to_nat i)) as [b ->]; [unfold blen in Hi; lia|]. by exists b.
Qed.

Lemma read_varint_aux_safe fuel dAtA i shift acc :
  0 <= i -> (0 < fuel)%nat -> 64 <= shift + 7 * (Z.of_nat fuel - 1) ->
  safe (read_varint_aux fuel dAtA i shift acc) /\
  (forall v i', read_varint_aux fuel dAtA i shift acc = Ok (v, i') -> i < i' <= blen dAtA).
Proof.
  revert i shift acc. induction fuel as [|fuel IH]; intros i shift acc Hi Hf Hs; [lia|].
  cbn [read_varint_aux]. destruct (Z.leb_spec 64 shift); [done|].
  destruct (Z.leb_spec (blen dAtA) i); [done|].
  destruct (byte_at_safe dAtA i) as [b ->]; [lia|]. cbv [mbind result_bind].
  destruct (b2z b <? 128).
  - split; [done|]. intros v i' E. simplify_eq. lia.
  - destruct (IH (i + 1) (shift + 7) (Z.lor acc (wrap64 (Z.shiftl (Z.land (b2z b) 127) shift))))
      as [H1 H2]; [lia|destruct fuel; lia|lia|]. split; [done|]. intros v i' E. apply H2 in E. lia.
Qed.

Lemma read_varint_safe dAtA i : 0 <= i ->
  safe (read_varint dAtA i) /\ (forall v i', read_varint dAtA i = Ok (v, i') -> i < i' <= blen dAtA).
Proof. intros Hi. apply read_varint_aux_safe; [done|lia|lia]. Qed.

Lemma skip_varint_safe fuel dAtA i shift :
  0 <= i -> (0 < fuel)%nat -> 64 <= shift + 7 * (Z.of_nat fuel - 1) ->
  safe (skip_varint fuel dAtA i shift) /\
  (forall i', skip_varint fuel dAtA i shift = Ok i' -> i < i' <= blen dAtA).
Proof.
  revert i shift. induction fuel as [|fuel IH]; intros i shift Hi Hf Hs; [lia|].
  cbn [skip_varint]. destruct (Z.leb_spec 64 shift); [done|].
  destruct (Z.leb_spec (blen dAtA) i); [done|].
  destruct (byte_at_safe dAtA i) as [b ->]; [lia|]. cbv [mbind result_bind].
  destruct (b2z b <? 128).
  - split; [done|]. intros i' E. simplify_eq. lia.
  - destruct (IH (i + 1) (shift + 7)) as [H1 H2]; [lia|destruct fuel; lia|lia|].
    split; [done|]. intros i' E. apply H2 in E. lia.
Qed.

(** An [int] sum of two lengths is exact or negative. *)
Lemma to_int_sum x y : 0 <= x < 2 ^ 63 -> 0 <= y < 2 ^ 63 -> to_int (x + y) = x + y \/ to_int (x + y) < 0.
Proof.
  intros Hx Hy. unfold to_int. rewrite wrap64_small by (unfold is_u64, two64; lia).
  destruct (Z.ltb_spec (x + y) (2 ^ 63)); [by left|right]. unfold two64. lia.
Qed.

Lemma to_int_range z : - 2 ^ 63 <= to_int z < 2 ^ 63.
Proof.
  unfold to_int, wrap64, two64. pose proof (Z.mod_pos_bound z (2 ^ 64) ltac:(lia)).
  destruct (Z.ltb_spec (z mod 2 ^ 64) (2 ^ 63)); lia.
Qed.

(** What is known of the next index of a skip: past the tag, or negative. *)
Lemma skip_loop_safe fuel dAtA i depth :
  is_len dAtA -> 0 <= i -> blen dAtA - i < Z.of_nat fuel -> (0 < fuel)%nat ->
  safe (skip_loop fuel dAtA i depth) /\
  (forall n, skip_loop fuel dAtA i depth = Ok n -> i < n < 2 ^ 63).
Proof.
  unfold is_len. intros Hl. revert i depth. induction fuel as [|fuel IH]; intros i depth Hi Hf H0; [lia|].
  cbn [skip_loop]. destruct (Z.leb_spec (blen dAtA) i) as [|Hlt]; [done|].
  destruct (read_varint_safe dAtA i Hi) as [Hs Hn].
  cbv [mbind result_bind].
  destruct (read_varint dAtA i) as [[wire i1]|e]; [|split; [by eapply safe_Err|done]]. specialize (Hn wire i1 eq_refl).
  set (wt := Z.land wire 7).
  set (next := if wt =? 0 then _ else _).
  assert (Hnext : safe next /\ forall i2 d, next = Ok (i2, d) -> i < i2 < 2 ^ 63 \/ i2 < 0).
  { subst next. assert (Hsum : forall y, 0 <= y < 2 ^ 63 -> i < to_int (i1 + y) < 2 ^ 63 \/ to_int (i1 + y) < 0).
    { intros y Hy. pose proof (to_int_range (i1 + y)). destruct (to_int_sum i1 y); lia. }
    destruct (wt =? 0).
    { destruct (skip_varint_safe 11 dAtA i1 0) as [S1 S2]; [lia..|].
      destruct (skip_varint 11 dAtA i1 0) as [i2|e]; [|split; [by eapply safe_Err|done]].
      split; [done|]. intros ? ? [= <- <-]. specialize (S2 _ eq_refl). lia. }
    destruct (wt =? 1); [split; [done|]; intros ? ? [= <- <-]; apply Hsum; lia|].
    destruct (wt =? 2).
    { destruct (read_varint_safe dAtA i1) as [S1 S2]; [lia|].
      destruct (read_varint dAtA i1) as [[v i3]|e]; [|split; [by eapply safe_Err|done]].
      specialize (S2 _ _ eq_refl). cbn [fst snd]. unfold guard_err.
      destruct (Z.ltb_spec (to_int v) 0); [done|]. split; [done|]. intros ? ? [= <- <-].
      pose proof (to_int_range v). pose proof (to_int_range (i3 + to_int v)).
      destruct (to_int_sum i3 (to_int v)); lia. }
    destruct (wt =? 3); [split; [done|]; intros ? ? [= <- <-]; lia|].
    destruct (wt =? 4);
      [unfold guard_err; destruct (depth =? 0); [done|]; split; [done|]; intros ? ? [= <- <-]; lia|].
    destruct (wt =? 5); [split; [done|]; intros ? ? [= <- <-]; apply Hsum; lia|done]. }
  clearbody next. destruct Hnext as [Hsafe Hrange].
  destruct next as [[i2 d]|e]; [|split; [by eapply safe_Err|done]].
  specialize (Hrange i2 d eq_refl). unfold guard_err. destruct (Z.ltb_spec i2 0); [done|].
  destruct (d =? 0); [split; [done|]; intros n E; simplify_eq; lia|].
  destruct (IH i2 d) as [H1 H2]; [lia|lia|lia|]. split; [done|]. intros n E. apply H2 in E. lia.
Qed.

Lemma read_len_safe dAtA i : is_len dAtA -> 0 <= i ->
  safe (read_len dAtA i) /\
  (forall i1 post, read_len dAtA i = Ok (i1, post) -> i < i1 <= post /\ post <= blen dAtA).
Proof.
  unfold is_len. intros Hl Hi. unfold read_len. destruct (read_varint_safe dAtA i Hi) as [S1 S2].
  cbv [mbind result_bind]. destruct (read_varint dAtA i) as [[v i1]|e]; [|split; [by eapply safe_Err|done]].
  specialize (S2 _ _ eq_refl). unfold guard_err. destruct (Z.ltb_spec (to_int v) 0); [done|].
  pose proof (to_int_range v). destruct (Z.ltb_spec (to_int (i1 + to_int v)) 0); [done|].
  destruct (Z.ltb_spec (blen dAtA) (to_int (i1 + to_int v))); [done|]. split; [done|].
  intros i2 post [= <- <-]. destruct (to_int_sum i1 (to_int v)); lia.
Qed.

Lemma skip_field_safe dAtA i limit : is_len dAtA -> 0 <= i < blen dAtA -> limit <= blen dAtA ->
  safe (skip_field dAtA i limit) /\
  (forall i', skip_field dAtA i limit = Ok i' -> i < i' <= limit).
Proof.
  intros Hl Hi Hlim. unfold skip_field.
  destruct (slice_ok dAtA i (blen dAtA)) as (rest & -> & Hrl); [lia|lia|].
  destruct (skip_loop_safe (S (length rest)) rest 0 0) as [R1 R2];
    [unfold is_len in *; lia|lia|unfold blen in *; lia|lia|].
  fold (skipDocument rest) in R1, R2. cbv [mbind result_bind].
  destruct (skipDocument rest) as [n|e]; [|split; [by eapply safe_Err|done]].
  specialize (R2 _ eq_refl). unfold is_len in Hl. unfold guard_err.
  destruct ((n <? 0) || _) eqn:Eb; [done|]. apply orb_false_iff in Eb as [_ Eb%Z.ltb_ge].
  destruct (Z.ltb_spec limit (to_int (i + n))); [done|]. split; [done|].
  intros ? [= <-]. destruct (to_int_sum i n); lia.
Qed.

(** The length-delimited cases of a [switch] are safe on every slice. *)
Definition case_safe {A} (c : FieldCase A) : Prop :=
  match c with
  | LenCase read => forall dAtA i post m,
      is_len dAtA -> 0 <= i <= post -> post <= blen dAtA -> safe (read dAtA i post m)
  | _ => True
  end.

Definition cases_safe {A} (cases : Z -> option (FieldCase A)) : Prop :=
  forall num c, cases num = Some c -> case_safe c.

(** A reader of a part within bounds is safe when it is safe on every slice. *)
Lemma slice_safe {A} (f : bytes -> result A) dAtA i j :
  0 <= i <= j -> j <= blen dAtA -> is_len dAtA -> (forall x, is_len x -> safe (f x)) ->
  safe (x ← slice dAtA i j; f x).
Proof.
  intros Hi Hj Hl Hf. destruct (slice_ok dAtA i j Hi Hj) as (x & -> & Hx). apply Hf.
  unfold is_len in *. lia.
Qed.

Section total.
Context {A : Type} (cases : Z -> option (FieldCase A)) (Hcases : cases_safe cases).

Lemma read_field_safe dAtA m i : is_len dAtA -> 0 <= i < blen dAtA ->
  safe (read_field cases dAtA m i) /\
  (forall m' i', read_field cases dAtA m i = Ok (m', i') -> i < i' <= blen dAtA).
Proof.
  intros Hl Hi. unfold read_field. destruct (read_varint_safe dAtA i) as [S1 S2]; [lia|].
  cbv [mbind result_bind]. destruct (read_varint dAtA i) as [[wire i1]|e]; [|split; [by eapply safe_Err|done]].
  specialize (S2 _ _ eq_refl). unfold guard_err. destruct (_ =? 4); [done|].
  destruct (field_num wire <=? 0); [done|].
  destruct (read_varint_safe dAtA i1 ltac:(lia)) as [V1 V2].
  destruct (read_len_safe dAtA i1 Hl ltac:(lia)) as [L1 L2].
  destruct (skip_field_safe dAtA i (blen dAtA) Hl Hi ltac:(lia)) as [K1 K2].
  pose proof (Hcases (field_num wire)) as Hc.
  unfold read_case, read_string. cbv [mbind result_bind]. unfold guard_err.
  destruct (cases (field_num wire)) as [[set|set|set|set|read]|].
  1-5: destruct (negb _); [done|].
  2-4: destruct (read_varint dAtA i1) as [[v i2]|e]; [|split; [by eapply safe_Err|done]];
    specialize (V2 _ _ eq_refl); split; [done|]; cbn [fst snd]; intros ? ? [= _ <-]; lia.
  1-2: destruct (read_len dAtA i1) as [[i2 post]|e]; [|split; [by eapply safe_Err|done]];
    specialize (L2 _ _ eq_refl); cbn [fst snd].
  - destruct (slice_ok dAtA i2 post) as (x & -> & _); [lia|lia|].
    split; [done|]. intros ? ? [= _ <-]. lia.
  - specialize (Hc _ eq_refl dAtA i2 post m Hl ltac:(lia) ltac:(lia)).
    destruct (read dAtA i2 post m) as [m2|e]; [|split; [by eapply safe_Err|done]].
    split; [done|]. intros ? ? [= _ <-]. lia.
  - destruct (skip_field dAtA i (blen dAtA)) as [i2|e]; [|split; [by eapply safe_Err|done]].
    split; [done|]. intros ? ? [= _ <-]. by apply K2.
Qed.

Lemma read_fields_safe fuel dAtA m i :
  is_len dAtA -> 0 <= i <= blen dAtA -> blen dAtA - i < Z.of_nat fuel ->
  safe (read_fields cases fuel dAtA m i).
Proof.
  intros Hl. revert m i. induction fuel as [|fuel IH]; intros m i Hi Hf; [lia|].
  cbn [read_fields]. destruct (Z.ltb_spec i (blen dAtA)); [|by destruct (_ <? _)].
  destruct (read_field_safe dAtA m i Hl ltac:(lia)) as [S1 S2].
  cbv [mbind result_bind]. destruct (read_field cases dAtA m i) as [[m' i']|e]; [|by eapply safe_Err].
  specialize (S2 _ _ eq_refl). apply IH; cbn [fst snd]; lia.
Qed.
End total.

(** ** Sizes of the fields *)

Lemma sov_pos x : 0 <= x -> 1 <= sovDocument x.
Proof.
  intros Hx. destruct (Z_lt_le_dec x 128); [by rewrite sov_small by lia|].
  rewrite sov_log2 by lia. apply Z.div_le_lower_bound; [lia|]. pose proof (Z.log2_nonneg x). lia.
Qed.

Lemma size_string_len s : size_string s < 2 ^ 63 -> 0 <= size_string s /\ is_len s.
Proof.
  unfold size_string, is_len. pose proof (blen_nonneg s). pose proof (sov_pos (blen s)).
  destruct (Z.ltb_spec 0 (blen s)); lia.
Qed.

Lemma size_string_nonneg s : 0 <= size_string s.
Proof.
  unfold size_string. pose proof (blen_nonneg s). pose proof (sov_pos (blen s) ltac:(lia)).
  destruct (0 <? blen s); lia.
Qed.

Lemma size_uint_nonneg x : 0 <= x -> 0 <= size_uint x.
Proof. intros. unfold size_uint. pose proof (sov_pos x). destruct (x =? 0); lia. Qed.

Lemma size_enum_uint x : is_i32 x -> size_enum x = size_uint (wrap64 x).
Proof. intros Hx. unfold size_enum, size_uint. by rewrite wrap64_i32_zero. Qed.

(** A [uint64] takes at most ten bytes. *)
Lemma size_uint_le x : is_u64 x -> size_uint x <= 11.
Proof.
  intros [H0 Hx]. unfold size_uint. destruct (Z.eqb_spec x 0); [lia|]. rewrite sov_log2 by lia.
  assert (Z.log2 x < 64) by (apply Z.log2_lt_pow2; unfold two64 in *; lia).
  assert ((Z.log2 x + 7) / 7 < 11) by (apply Z.div_lt_upper_bound; lia). lia.
Qed.

Lemma enc_string_size tag s : is_len s -> blen (enc_string tag s) = size_string s.
Proof.
  intros Hs. unfold enc_string, size_string. destruct (0 <? blen s); [|done].
  rewrite <- (varint_length (blen s)) by (by apply is_len_u64).
  change (z2b tag :: varint (blen s) ++ s) with ([z2b tag] ++ varint (blen s) ++ s).
  rewrite !blen_app. change (blen [_]) with 1. lia.
Qed.

Lemma enc_uint_size tag x : is_u64 x -> blen (enc_uint tag x) = size_uint x.
Proof.
  intros Hx. unfold enc_uint, size_uint. destruct (x =? 0); [done|].
  rewrite <- (varint_length x Hx). change (z2b tag :: varint x) with ([z2b tag] ++ varint x).
  by rewrite blen_app.
Qed.

Lemma enc_bool_size tag b : blen (enc_bool tag b) = size_bool b.
Proof. by destruct b. Qed.

Lemma size_bool_nonneg b : 0 <= size_bool b.
Proof. by destruct b. Qed.

Lemma enc_len_size tag body : is_len body -> blen (enc_len tag body) = size_len (blen body).
Proof.
  intros Hb. unfold enc_len, size_len. rewrite <- (varint_length (blen body)) by (by apply is_len_u64).
  change (z2b tag :: varint (blen body) ++ body) with ([z2b tag] ++ varint (blen body) ++ body).
  rewrite !blen_app. change (blen [_]) with 1. lia.
Qed.

Lemma size_len_bounds n : 0 <= n -> n < size_len n.
Proof. intros. unfold size_len. pose proof (sov_pos n). lia. Qed.

(** ** Messages *)

(** The methods of a generated message. *)
Class Message (A : Type) := {
  msg_zero : A;
  msg_Size : A -> Z;
  msg_MarshalToSizedBuffer : A -> bytes -> result (bytes * Z);
  msg_Unmarshal : A -> bytes -> result A
}.

Definition Marshal `{Message A} (m : A) : result bytes :=
  marshal_with (msg_Size m) (msg_MarshalToSizedBuffer m).

(** What a message promises to the messages that contain it and to the code that
    sends it: an encoding that [MarshalToSizedBuffer] writes and [Unmarshal] reads
    back, and an [Unmarshal] that no input stops. *)
Class Wire (A : Type) {MA : Message A} := {
  wire_ok : A -> Prop;
  wire : A -> bytes;
  wire_size m : wire_ok m -> blen (wire m) = msg_Size m;
  wire_len m : wire_ok m -> msg_Size m < 2 ^ 63;
  wire_fills m : wire_ok m -> fills (msg_MarshalToSizedBuffer m) (wire m);
  wire_reads m : wire_ok m -> msg_Unmarshal msg_zero (wire m) = Ok m;
  wire_total m dAtA : is_len dAtA -> safe (msg_Unmarshal m dAtA)
}.
#[export] Hint Mode Wire ! - : typeclass_instances.

(** The encoding [enc] of a message whose code is made of fields. *)
Record Generated {A} (zero : A) (Size : A -> Z) (to_sized : A -> bytes -> result (bytes * Z))
    (cases : Z -> option (FieldCase A)) (m : A) (enc : bytes) : Prop := {
  gen_len : Size m < 2 ^ 63;
  gen_size : blen enc = Size m;
  gen_emits : exists fields, to_sized m = sized fields /\ emits fields enc;
  gen_reads : reads cases enc zero m
}.

(** Such a message meets the interface. *)
Definition generated_wire {A} (zero : A) Size to_sized cases (ok : A -> Prop) (enc : A -> bytes)
    (H : forall m, ok m -> Generated zero Size to_sized cases m (enc m)) (Hs : cases_safe cases) :
  @Wire A (Build_Message A zero Size to_sized (unmarshal_with cases)).
Proof.
  refine (@Build_Wire A (Build_Message A zero Size to_sized (unmarshal_with cases)) ok enc _ _ _ _ _);
    cbn [msg_zero msg_Size msg_MarshalToSizedBuffer msg_Unmarshal]; intros m Hm.
  - apply (H m Hm).
  - apply (H m Hm).
  - destruct (gen_emits _ _ _ _ _ _ (H m Hm)) as (fields & -> & He). by apply sized_fills.
  - apply reads_all; [apply (H m Hm)|]. unfold is_len. rewrite (gen_size _ _ _ _ _ _ (H m Hm)).
    apply (H m Hm).
  - intros Hl. apply read_fields_safe; try done; pose proof (blen_nonneg Hm); unfold blen in *; lia.
Defined.

Section wire.
Context {A : Type} {MA : Message A} {WA : Wire A}.

Lemma wire_is_len (m : A) : wire_ok m -> is_len (wire m).
Proof. intros Hm. unfold is_len. rewrite wire_size by done. by apply wire_len. Qed.

(** Marshalling fills a buffer of the announced size, which reads back. *)
Lemma wire_roundtrip (m : A) : wire_ok m ->
  exists b, Marshal m = Ok b /\ blen b = msg_Size m /\ msg_Unmarshal msg_zero b = Ok m.
Proof.
  intros Hm. exists (wire m). split_and!.
  - apply marshal_fills; [by apply wire_fills|by apply wire_size].
  - by apply wire_size.
  - by apply wire_reads.
Qed.

Lemma Marshal_wire (m : A) : wire_ok m -> Marshal m = Ok (wire m).
Proof. intros Hm. apply marshal_fills; [by apply wire_fills|by apply wire_size]. Qed.
End wire.

(** *** Fields that are messages *)

Section nested.
Context {A : Type} {MA : Message A}.

(** A message, a pointer to one that may be nil, and a slice of them, which is
    written from its last element to its first. *)
Definition put_message_field (tag : Z) (m : A) : Buf -> result Buf :=
  put_len_field tag (msg_MarshalToSizedBuffer m).

Definition put_opt_field (tag : Z) (x : option A) (st : Buf) : result Buf :=
  match x with Some m => put_message_field tag m st | None => Ok st end.

Fixpoint put_repeated_field (tag : Z) (l : list A) (st : Buf) : result Buf :=
  match l with
  | [] => Ok st
  | m :: l => st ← put_repeated_field tag l st; put_message_field tag m st
  end.

Definition size_message (m : A) : Z := size_len (msg_Size m).
Definition size_opt (x : option A) : Z := match x with Some m => size_message m | None => 0 end.
Fixpoint size_repeated (l : list A) : Z :=
  match l with [] => 0 | m :: l => size_message m + size_repeated l end.

(** The cases of the [switch]: [m.F.Unmarshal(dAtA[iNdEx:postIndex])], after
    [m.F = &F{}] when the pointer is nil, or of a new last element of [m.F]. *)
Definition message_case {B} (get : B -> A) (set : A -> B -> B) : FieldCase B :=
  LenCase (fun dAtA iNdEx postIndex m =>
    sub ← slice dAtA iNdEx postIndex; x ← msg_Unmarshal (get m) sub; Ok (set x m)).

Definition opt_case {B} (get : B -> option A) (set : option A -> B -> B) : FieldCase B :=
  LenCase (fun dAtA iNdEx postIndex m =>
    sub ← slice dAtA iNdEx postIndex; x ← msg_Unmarshal (default msg_zero (get m)) sub; Ok (set (Some x) m)).

Definition repeated_case {B} (get : B -> list A) (set : list A -> B -> B) : FieldCase B :=
  LenCase (fun dAtA iNdEx postIndex m =>
    sub ← slice dAtA iNdEx postIndex; x ← msg_Unmarshal msg_zero sub; Ok (set (get m ++ [x]) m)).

Context {WA : Wire A}.

Definition enc_message (tag : Z) (m : A) : bytes := enc_len tag (wire m).
Definition enc_opt (tag : Z) (x : option A) : bytes :=
  match x with Some m => enc_message tag m | None => [] end.
Fixpoint enc_repeated (tag : Z) (l : list A) : bytes :=
  match l with [] => [] | m :: l => enc_message tag m ++ enc_repeated tag l end.

Definition opt_ok (x : option A) : Prop := match x with Some m => wire_ok m | None => True end.
Definition repeated_ok (l : list A) : Prop := Forall wire_ok l.

Lemma enc_message_size tag m : wire_ok m -> blen (enc_message tag m) = size_message m.
Proof.
  intros Hm. unfold enc_message, size_message. rewrite enc_len_size by (by apply wire_is_len).
  by rewrite wire_size.
Qed.

Lemma size_message_nonneg m : wire_ok m -> 0 <= size_message m.
Proof.
  intros Hm. rewrite <- (enc_message_size 0) by done. apply blen_nonneg.
Qed.

Lemma enc_opt_size tag x : opt_ok x -> blen (enc_opt tag x) = size_opt x.
Proof. destruct x; [apply enc_message_size|done]. Qed.

Lemma enc_repeated_size tag l : repeated_ok l -> blen (enc_repeated tag l) = size_repeated l.
Proof.
  induction 1 as [|m l Hm Hl IH]; [done|]. cbn [enc_repeated size_repeated]. by rewrite blen_app, enc_message_size, IH by done.
Qed.

Lemma size_opt_nonneg x : opt_ok x -> 0 <= size_opt x.
Proof. intros Hx. rewrite <- (enc_opt_size 0) by done. apply blen_nonneg. Qed.

Lemma size_repeated_nonneg l : repeated_ok l -> 0 <= size_repeated l.
Proof. intros Hl. rewrite <- (enc_repeated_size 0) by done. apply blen_nonneg. Qed.

Lemma emits_message tag m : wire_ok m -> emits (put_message_field tag m) (enc_message tag m).
Proof. intros Hm. apply emits_len; [by apply wire_is_len|by apply wire_fills]. Qed.

Lemma emits_opt tag x : opt_ok x -> emits (put_opt_field tag x) (enc_opt tag x).
Proof. destruct x; [apply emits_message|intros _; apply emits_skip]. Qed.

Lemma emits_repeated tag l : repeated_ok l -> emits (put_repeated_field tag l) (enc_repeated tag l).
Proof.
  induction 1 as [|m l Hm Hl IH]; [apply emits_skip|]. apply emits_seq; [done|by apply emits_message].
Qed.

Lemma message_case_safe {B} (get : B -> A) set : case_safe (message_case get set).
Proof.
  intros dAtA i post m ???. apply slice_safe; [done..|]. intros x Hx.
  apply safe_bind; [by apply wire_total|done].
Qed.

Lemma opt_case_safe {B} (get : B -> option A) set : case_safe (opt_case get set).
Proof.
  intros dAtA i post m ???. apply slice_safe; [done..|]. intros x Hx.
  apply safe_bind; [by apply wire_total|done].
Qed.

Lemma repeated_case_safe {B} (get : B -> list A) set : case_safe (repeated_case get set).
Proof.
  intros dAtA i post m ???. apply slice_safe; [done..|]. intros x Hx.
  apply safe_bind; [by apply wire_total|done].
Qed.

Section reading.
Context {B : Type} (cases : Z -> option (FieldCase B)) (num : Z) (Hnum : 1 <= num < 16).

Lemma reads_message get set x b :
  wire_ok x -> cases num = Some (message_case get set) -> get b = msg_zero ->
  reads cases (enc_message (num * 8 + 2) x) b (set x b).
Proof.
  intros Hx Hc Hg. eapply reads_len; [done|exact Hc|]. intros pre suf Hl. cbv beta.
  rewrite slice_of_app, Hg. cbv [mbind result_bind]. by rewrite wire_reads.
Qed.

Lemma reads_opt get set x b :
  opt_ok x -> cases num = Some (opt_case get set) -> get b = None -> set None b = b ->
  reads cases (enc_opt (num * 8 + 2) x) b (set x b).
Proof.
  intros Hx Hc Hg Hn. destruct x as [x|]; [|rewrite Hn; apply reads_nil].
  eapply reads_len; [done|exact Hc|]. intros pre suf Hl. cbv beta.
  rewrite slice_of_app, Hg. cbv [mbind result_bind]. simpl default. by rewrite wire_reads.
Qed.

Lemma reads_repeated get set l b :
  repeated_ok l -> cases num = Some (repeated_case get set) ->
  get b = [] -> set [] b = b ->
  (forall l, get (set l b) = l) -> (forall l l', set l' (set l b) = set l' b) ->
  reads cases (enc_repeated (num * 8 + 2) l) b (set l b).
Proof.
  intros Hl Hc Hg Hn Hgs Hss.
  assert (H : forall l0, reads cases (enc_repeated (num * 8 + 2) l) (set l0 b) (set (l0 ++ l) b)).
  { induction Hl as [|x l Hx Hl IH]; intros l0; [rewrite app_nil_r; apply reads_nil|].
    rewrite (cons_middle x l0 l), app_assoc.
    eapply reads_app; [|apply IH]. eapply reads_len; [done|exact Hc|]. intros pre suf Hlen. cbv beta.
    rewrite slice_of_app. cbv [mbind result_bind]. rewrite wire_reads by done. by rewrite Hgs, Hss. }
  specialize (H []). by rewrite Hn in H.
Qed.
End reading.
End nested.

(** *** Proof automation *)

(** The size of every field is a length. *)
Ltac field_sizes := repeat match goal with
  | H : context [size_string ?s] |- _ => lazymatch goal with
      | _ : 0 <= size_string s |- _ => fail | _ => pose proof (size_string_nonneg s) end
  | H : context [size_bool ?b] |- _ => lazymatch goal with
      | _ : 0 <= size_bool b |- _ => fail | _ => pose proof (size_bool_nonneg b) end
  | H : context [size_uint ?x], Hx : is_u64 ?x |- _ => lazymatch goal with
      | _ : 0 <= size_uint x |- _ => fail | _ => pose proof (size_uint_nonneg x (proj1 Hx)) end
  | H : context [size_message ?x], Hx : wire_ok ?x |- _ => lazymatch goal with
      | _ : 0 <= size_message x |- _ => fail | _ => pose proof (size_message_nonneg x Hx) end
  | H : context [size_opt ?x], Hx : opt_ok ?x |- _ => lazymatch goal with
      | _ : 0 <= size_opt x |- _ => fail | _ => pose proof (size_opt_nonneg x Hx) end
  | H : context [size_repeated ?x], Hx : repeated_ok ?x |- _ => lazymatch goal with
      | _ : 0 <= size_repeated x |- _ => fail | _ => pose proof (size_repeated_nonneg x Hx) end
  end.

(** Hence every string of a message that fits is short enough. *)
Ltac string_lens := field_sizes; repeat match goal with
  | _ : 0 <= size_string ?s |- _ => lazymatch goal with
      | _ : is_len s |- _ => fail
      | _ => assert (is_len s) by (apply size_string_len; lia) end
  end.

Ltac emits_fields := rewrite ?app_assoc;
  repeat (apply emits_seq; [solve [eauto with emits]|]); solve [eauto with emits].

(** The next field of a message; the number of the field is read off its tag. *)
Ltac reads_next tac := lazymatch goal with
  | |- reads _ (enc_string ?t _) _ _ => let n := eval vm_compute in (t / 8) in
      apply (reads_string _ n); [lia|reflexivity|reflexivity]
  | |- reads _ (enc_uint ?t (wrap64 _)) _ _ => let n := eval vm_compute in (t / 8) in
      apply (reads_enum _ n); [lia|done|reflexivity|reflexivity]
  | |- reads _ (enc_uint ?t _) _ _ => let n := eval vm_compute in (t / 8) in
      apply (reads_uint _ n); [lia|done|reflexivity|reflexivity]
  | |- reads _ (enc_bool ?t _) _ _ => let n := eval vm_compute in (t / 8) in
      apply (reads_bool _ n); [lia|reflexivity|reflexivity]
  | |- reads _ (enc_message ?t _) _ _ => let n := eval vm_compute in (t / 8) in
      eapply (reads_message _ n); [lia|done|reflexivity|reflexivity]
  | |- reads _ (enc_opt ?t _) _ _ => let n := eval vm_compute in (t / 8) in
      eapply (reads_opt _ n); [lia|done|reflexivity|reflexivity|reflexivity]
  | |- reads _ (enc_repeated ?t _) _ _ => let n := eval vm_compute in (t / 8) in
      eapply (reads_repeated _ n); [lia|done|reflexivity|reflexivity|reflexivity|reflexivity|reflexivity]
  | |- reads _ [] _ _ => apply reads_nil
  | |- _ => tac
  end.
Ltac reads_fields tac :=
  repeat (eapply reads_app; [reads_next tac|]); reads_next tac.

(** The four parts of [Generated]; [tac] reads a nested field. *)
Ltac generated_with m tac :=
  lazymatch goal with Hs : _ < 2 ^ 63 |- Generated _ ?size _ _ _ (?enc _) =>
    split; [exact Hs|..]; unfold size in *; string_lens;
    [unfold enc; rewrite ?blen_app, ?enc_string_size, ?enc_uint_size, ?enc_bool_size,
       ?enc_message_size, ?enc_opt_size, ?enc_repeated_size by done; lia
    |eexists; split; [reflexivity|]; unfold enc; emits_fields
    |unfold enc; eapply reads_eq; [reads_fields tac|destruct m; reflexivity]]
  end.
Tactic Notation "generated" ident(m) := generated_with m fail.

(** The cases of the [switch] one by one. *)
Ltac cases_of := let E := fresh "E" in intros num c E;
  lazymatch type of E with ?cases _ = _ => unfold cases in E end;
  repeat (case_match; try discriminate E); try discriminate E; apply (inj Some) in E; subst c;
  first [exact I|apply message_case_safe|apply opt_case_safe|apply repeated_case_safe|solve [eauto with emits]].

Create HintDb emits.
#[export] Hint Resolve emits_skip emits_string emits_uint emits_enum emits_bool emits_len emits_message emits_opt
  emits_repeated : emits.

(** ** The two messages *)

Definition enc_Registry (m : Registry) : bytes :=
  enc_uint 0x8 (reg_Id m) ++ enc_string 0x12 (reg_Name m) ++ enc_string 0x1a (reg_Description m)
  ++ enc_string 0x22 (reg_Creator m) ++ enc_string 0x2a (reg_CreatedAt m)
  ++ enc_string 0x32 (reg_Metadata m).

Definition enc_Record (m : Record_) : bytes :=
  enc_string 0x12 (rec_Uri m) ++ enc_string 0x1a (rec_Checksum m)
  ++ enc_string 0x22 (rec_ChecksumAlgo m) ++ enc_string 0x2a (rec_Metadata m)
  ++ enc_string 0x32 (rec_Timestamp m) ++ enc_string 0x3a (rec_Status m)
  ++ enc_uint 0x40 (rec_RecordId m) ++ enc_uint 0x48 (rec_Index m)
  ++ enc_bool 0x50 (rec_IsLatest m) ++ enc_uint 0x58 (rec_RegistryId m).

(** The ids are [uint64] values and the encoding has an [int] length. *)
Definition Registry_ok (m : Registry) : Prop := is_u64 (reg_Id m) /\ Registry_Size m < 2 ^ 63.
Definition Record_ok (m : Record_) : Prop :=
  is_u64 (rec_RecordId m) /\ is_u64 (rec_Index m) /\ is_u64 (rec_RegistryId m) /\
  Record_Size m < 2 ^ 63.

#[export] Instance Registry_message : Message Registry :=
  {| msg_zero := zero_Registry; msg_Size := Registry_Size;
     msg_MarshalToSizedBuffer := Registry_MarshalToSizedBuffer; msg_Unmarshal := Registry_Unmarshal |}.
#[export] Instance Record_message : Message Record_ :=
  {| msg_zero := zero_Record; msg_Size := Record_Size;
     msg_MarshalToSizedBuffer := Record_MarshalToSizedBuffer; msg_Unmarshal := Record_Unmarshal |}.

Lemma Registry_generated m : Registry_ok m ->
  Generated zero_Registry Registry_Size Registry_MarshalToSizedBuffer Registry_cases m (enc_Registry m).
Proof. intros [? Hs]. generated m. Qed.

Lemma Record_generated m : Record_ok m ->
  Generated zero_Record Record_Size Record_MarshalToSizedBuffer Record_cases m (enc_Record m).
Proof. intros (? & ? & ? & Hs). generated m. Qed.

#[export] Instance Registry_wire : Wire Registry.
Proof. apply (generated_wire _ _ _ _ _ _ Registry_generated). cases_of. Defined.
#[export] Instance Record_wire : Wire Record_.
Proof. apply (generated_wire _ _ _ _ _ _ Record_generated). cases_of. Defined.

Lemma enc_Registry_size m : Registry_ok m -> blen (enc_Registry m) = Registry_Size m.
Proof. exact (wire_size m). Qed.
Lemma Registry_Marshal_enc m : Registry_ok m -> Registry_Marshal m = Ok (enc_Registry m).
Proof. exact (Marshal_wire m). Qed.
Lemma Registry_Unmarshal_enc m : Registry_ok m -> Registry_Unmarshal zero_Registry (enc_Registry m) = Ok m.
Proof. exact (wire_reads m). Qed.

(** ** Properties *)

(** [Record.Equal] compares all fields. *)
Theorem record_equal_spec (x y : Record_) : Record_Equal x y = true <-> x = y.
Proof.
  unfold Record_Equal. split.
  - destruct x, y. simpl. intros E.
    repeat match type of E with
    | context [bool_decide ?P] => destruct (bool_decide_reflect P); simpl in E; [|done]
    | context [?a =? ?b] => destruct (Z.eqb_spec a b); simpl in E; [|done]
    | context [eqb ?a ?b] => destruct (eqb_spec a b); simpl in E; [|done]
    end. by subst.
  - intros ->. rewrite !bool_decide_true, !Z.eqb_refl, eqb_reflx by done. done.
Qed.

Definition demo_registry : Registry :=
  mkRegistry 300 (bs "deeds") [] (bs "nvnm1alice") (bs "2026-01-30") (bs "{}").
Definition demo_record : Record_ :=
  mkRecord (bs "ipfs://1") (bs "abc123") (bs "sha256") (bs "{a:1}") (bs "t0") (bs "active")
    (two64 - 1) 1 true 300.
