(* ===== verification/NameIndex.v ===== *)
(** The opt-in local index of registry names: src/x/anchoring/nameindex
    (store.go, listener.go) and src/x/anchoring/keeper/nameindex_backfill.go.

    The index is an SQLite table of rows keyed by registry id.  SQLite itself is
    not part of the program: how it matches a LIKE pattern and a full-text
    phrase, and when it fails, are the parameters of the class [SQL].  The
    statements the code runs are translated as operations on the table. *)

From S2P Require Import Prelude Types Rbac Keeper Proto.

(** ** Go strings as runes: [[]rune(s)], [string(runes)], [utf8.RuneCountInString] *)

Definition RuneError : Z := 0xFFFD.

Definition is_cont (b : byte) : bool := (128 <=? b2z b) && (b2z b <? 192).
Definition cont_bits (b : byte) : Z := b2z b - 128.

(** The range of the second byte for a first byte of a longer sequence. *)
Definition second_ok (b0 b1 : byte) : bool :=
  let x := b2z b0 in let y := b2z b1 in
  if x =? 0xE0 then (0xA0 <=? y) && (y <? 0xC0)
  else if x =? 0xED then (0x80 <=? y) && (y <? 0xA0)
  else if x =? 0xF0 then (0x90 <=? y) && (y <? 0xC0)
  else if x =? 0xF4 then (0x80 <=? y) && (y <? 0x90)
  else is_cont b1.

(** One invalid byte is one [RuneError]. *)
Fixpoint runes (s : bytes) : list Z :=
  match s with
  | [] => []
  | b0 :: s1 =>
      let x := b2z b0 in
      if x <? 0x80 then x :: runes s1 else
      if (0xC2 <=? x) && (x <? 0xE0) then
        match s1 with
        | b1 :: s2 => if is_cont b1 then ((x - 0xC0) * 64 + cont_bits b1) :: runes s2
                      else RuneError :: runes s1
        | [] => [RuneError]
        end
      else if (0xE0 <=? x) && (x <? 0xF0) then
        match s1 with
        | b1 :: b2 :: s3 =>
            if second_ok b0 b1 && is_cont b2
            then ((x - 0xE0) * 4096 + cont_bits b1 * 64 + cont_bits b2) :: runes s3
            else RuneError :: runes s1
        | _ => RuneError :: runes s1
        end
      else if (0xF0 <=? x) && (x <? 0xF5) then
        match s1 with
        | b1 :: b2 :: b3 :: s4 =>
            if second_ok b0 b1 && is_cont b2 && is_cont b3
            then ((x - 0xF0) * 262144 + cont_bits b1 * 4096 + cont_bits b2 * 64 + cont_bits b3)
                 :: runes s4
            else RuneError :: runes s1
        | _ => RuneError :: runes s1
        end
      else RuneError :: runes s1
  end.

Definition rune_bytes (r : Z) : bytes :=
  if r <? 0x80 then [z2b r]
  else if r <? 0x800 then [z2b (0xC0 + r / 64); z2b (0x80 + r mod 64)]
  else if r <? 0x10000 then
    [z2b (0xE0 + r / 4096); z2b (0x80 + r / 64 mod 64); z2b (0x80 + r mod 64)]
  else [z2b (0xF0 + r / 262144); z2b (0x80 + r / 4096 mod 64); z2b (0x80 + r / 64 mod 64);
        z2b (0x80 + r mod 64)].

Definition string_of_runes (l : list Z) : bytes := concat (map rune_bytes l).

(** ** The database *)

Record Row := mkRow { name_lower : bytes; name_rev_lower : bytes; row_data : bytes }.

#[export] Instance Row_eq_dec : EqDecision Row.
Proof. solve_decision. Defined.

Abbreviation DB := (gmap Z Row).

Inductive SqlOp := OpBegin | OpExec (id : Z) | OpCommit | OpCount | OpQuery | OpScan (id : Z).

(** [like pattern text] is [text LIKE pattern ESCAPE '\'] with
    [case_sensitive_like] on, [fts_match phrase text] the MATCH of the trigram
    table, [fold_char] the folding of a character by its tokenizer, [sql_error] the
    failure of an operation, and [lower_rune] is [unicode.ToLower]. *)
Class SQL := {
  like : bytes -> bytes -> bool;
  fts_match : bytes -> bytes -> bool;
  fold_char : Z -> Z;
  sql_error : SqlOp -> option err;
  lower_rune : Z -> Z
}.

(** [strings.ToLower]: every rune is mapped, an invalid byte becomes [RuneError]. *)
Definition ToLower `{SQL} (s : bytes) : bytes := string_of_runes (lower_rune <$> runes s).

Definition backslash : byte := x5c.
Definition percent : byte := x25.
Definition underscore : byte := x5f.
Definition dquote : byte := x22.

(** The string syntax of FTS5: quotes around, a quote inside is doubled. *)
Fixpoint fts_body (s : bytes) : option bytes :=
  match s with
  | [] => None
  | b :: s' =>
      if bool_decide (b = dquote) then
        match s' with
        | [] => Some []
        | c :: s'' => if bool_decide (c = dquote) then cons dquote <$> fts_body s'' else None
        end
      else cons b <$> fts_body s'
  end.

Definition fts_string (s : bytes) : option bytes :=
  match s with
  | b :: s' => if bool_decide (b = dquote) then fts_body s' else None
  | [] => None
  end.

Definition is_substring {A} (q t : list A) : Prop := exists u v, t = u ++ q ++ v.

(** A code point that UTF-8 encodes. *)
Definition is_rune (r : Z) : Prop := 0 <= r < 0xD800 \/ 0xE000 <= r <= 0x10FFFF.

(** What SQLite documents as a text: valid UTF-8 without NUL. *)
Definition sql_text (t : bytes) : Prop := string_of_runes (runes t) = t /\ 0 ∉ runes t.

(** The LIKE operator on characters, as documented: the escape character makes the next
    one literal, [%] matches any sequence, [_] any character, another one itself. *)
Fixpoint like_chars (p t : list Z) : bool :=
  match p with
  | [] => match t with [] => true | _ => false end
  | c :: p' =>
      if c =? b2z backslash then
        match p' with
        | [] => false
        | c' :: p'' => match t with [] => false | d :: t' => (c' =? d) && like_chars p'' t' end
        end
      else if c =? b2z percent then
        (fix any t := like_chars p' t || match t with [] => false | _ :: t' => any t' end) t
      else if c =? b2z underscore then
        match t with [] => false | _ :: t' => like_chars p' t' end
      else match t with [] => false | d :: t' => (c =? d) && like_chars p' t' end
  end.

(** What the code relies on of SQLite's documentation, on texts: LIKE works on
    characters; an FTS5 string of at least three characters, in a trigram table made
    with the default options, matches the texts that contain it up to the case of
    characters.  And of [unicode.ToLower]: it maps code points to code points, and none
    but NUL to NUL. *)
Class SQLLaws `{SQL} := {
  like_text : forall p t, sql_text p -> sql_text t -> like p t = like_chars (runes p) (runes t);
  fts_contains : forall s q t, fts_string s = Some q -> sql_text q -> sql_text t ->
    (3 <= length (runes q))%nat ->
    (fts_match s t = true <-> is_substring (fold_char <$> runes q) (fold_char <$> runes t));
  lower_rune_ok : forall r, is_rune r -> is_rune (lower_rune r);
  lower_rune_nul : forall r, lower_rune r = 0 -> r = 0
}.

(** ** store.go *)

Definition MinContainsQueryLen : Z := 3.
Definition ErrContainsTooShort : err := ErrPlain "contains query needs at least 3 characters".

(** [strings.NewReplacer] with single-byte keys replaces byte by byte. *)
Definition escapeLike (s : bytes) : bytes :=
  flat_map (fun b => if bool_decide (b = backslash) then [backslash; backslash]
                     else if bool_decide (b = percent) then [backslash; percent]
                     else if bool_decide (b = underscore) then [backslash; underscore]
                     else [b]) s.

Definition ftsPhrase (s : bytes) : bytes :=
  [dquote] ++ flat_map (fun b => if bool_decide (b = dquote) then [dquote; dquote] else [b]) s
  ++ [dquote].

(** The loop of [reverse] swaps the ends inwards. *)
Fixpoint swap_loop (fuel : nat) (l : list Z) (i j : Z) : list Z :=
  match fuel with
  | O => l
  | S fuel' =>
      if i <? j then
        match l !! Z.to_nat i, l !! Z.to_nat j with
        | Some x, Some y => swap_loop fuel' (<[Z.to_nat j := x]> (<[Z.to_nat i := y]> l)) (i + 1) (j - 1)
        | _, _ => l
        end
      else l
  end.

Definition reverse (s : bytes) : bytes :=
  let rs := runes s in
  string_of_runes (swap_loop (length rs) rs 0 (Z.of_nat (length rs) - 1)).

Inductive RegistryNameMatchMode := UNSPECIFIED | EXACT | PREFIX | SUFFIX | CONTAINS | OtherMode (n : Z).

Definition MaxInt64 : Z := 2 ^ 63 - 1.

Definition wrap_err {A} (msg : string) (r : result A) : result A :=
  match r with Ok a => Ok a | Err e => Err (ErrWrap msg e) end.

Section store.
Context {SQ : SQL}.

Definition sql (op : SqlOp) : result unit :=
  match sql_error op with Some e => Err e | None => Ok tt end.

(** The row that the upsert statement writes. *)
Definition row_of (reg : Registry) (data : bytes) : Row :=
  let lower := ToLower (reg_Name reg) in mkRow lower (reverse lower) data.

(** [upsert]: an id above MaxInt64 is not accepted as an SQL argument. *)
Definition upsert (reg : Registry) : M DB unit :=
  data ← lift (wrap_err "nameindex: marshal registry" (Registry_Marshal reg));
  _ ← lift (guard_err (MaxInt64 <? reg_Id reg) (ErrWrap "nameindex: upsert registry" (ErrPlain "uint64 values with high bit set are not supported")));
  _ ← lift (wrap_err "nameindex: upsert registry" (sql (OpExec (reg_Id reg))));
  modify (fun db => <[reg_Id reg := row_of reg data]> db).

(** [Begin], the upserts and [Commit] of a batch; [defer batch.Close()] rolls the
    transaction back when it was not committed. *)
Definition in_batch (body : M DB unit) : M DB unit := fun db =>
  match wrap_err "nameindex: begin" (sql OpBegin) with
  | Err e => (Err e, db)
  | Ok _ =>
      match body db with
      | (Err e, _) => (Err e, db)
      | (Ok _, db') =>
          match wrap_err "nameindex: commit" (sql OpCommit) with
          | Err e => (Err e, db)
          | Ok _ => (Ok tt, db')
          end
      end
  end.

Definition Count : M DB Z :=
  _ ← lift (wrap_err "nameindex: count" (sql OpCount));
  gets (fun db => Z.of_nat (size db)).

(** The WHERE condition of [searchStmt], on the bound pattern. *)
Definition searchStmt (mode : RegistryNameMatchMode) (lower : bytes) : Row -> bool :=
  match mode with
  | CONTAINS => fun r => fts_match (ftsPhrase lower) (name_lower r)
  | PREFIX => fun r => like (escapeLike lower ++ [percent]) (name_lower r)
  | SUFFIX => fun r => like (escapeLike (reverse lower) ++ [percent]) (name_rev_lower r)
  | _ => fun r => bool_decide (name_lower r = lower)
  end.

(** [... AND id >= ? ORDER BY id LIMIT ? OFFSET ?] *)
Definition run_query (cond : Row -> bool) (start limit offset : Z) (db : DB) : list (Z * Row) :=
  take (Z.to_nat limit) (drop (Z.to_nat offset)
    (filter (fun e => cond e.2 = true /\ start <= e.1) (walk db))).

(** The loop over the rows: the first row past the limit gives the next id. *)
Fixpoint scan_rows (limit : Z) (results : list Registry) (rows : list (Z * Row)) :
    result (list Registry * Z) :=
  match rows with
  | [] => Ok (results, 0)
  | (id, r) :: rows' =>
      _ ← wrap_err "nameindex: scan" (sql (OpScan id));
      if Z.of_nat (length results) =? limit then Ok (results, id)
      else reg ← wrap_err "nameindex: decode registry" (Registry_Unmarshal zero_Registry (row_data r));
           scan_rows limit (results ++ [reg]) rows'
  end.

Definition Search (mode : RegistryNameMatchMode) (query : bytes) (start limit offset : Z) :
    M DB (list Registry * Z) :=
  match mode with
  | CONTAINS => lift (guard_err (Z.of_nat (length (runes query)) <? MinContainsQueryLen) ErrContainsTooShort)
  | _ => mret tt
  end ≫= fun _ =>
  let cond := searchStmt mode (ToLower query) in
  let start := Z.min start MaxInt64 in
  let limit := Z.min limit (MaxInt64 - 1) in
  let offset := Z.min offset MaxInt64 in
  _ ← lift (wrap_err "nameindex: search" (sql OpQuery));
  rows ← gets (run_query cond start (limit + 1) offset);
  lift (scan_rows limit [] rows).

(** ** listener.go *)

Record StoreKVPair := mkPair { StoreKey : bytes; pair_Delete : bool; pair_Key : bytes; pair_Value : bytes }.

Definition module_StoreKey : bytes := bs "anchoring".
Definition RegistriesKeyPrefix : bytes := [x01].

Definition HasPrefix (s p : bytes) : bool := bool_decide (take (length p) s = p).

Fixpoint registry_writes (changeSet : list StoreKVPair) : result (list Registry) :=
  match changeSet with
  | [] => Ok []
  | kv :: rest =>
      if negb (bool_decide (StoreKey kv = module_StoreKey)) || pair_Delete kv
         || negb (HasPrefix (pair_Key kv) RegistriesKeyPrefix)
      then registry_writes rest
      else reg ← wrap_err "nameindex: decode registry write" (Registry_Unmarshal zero_Registry (pair_Value kv));
           regs ← registry_writes rest; Ok (reg :: regs)
  end.

Definition ListenCommit (changeSet : list StoreKVPair) : M DB unit :=
  regs ← lift (registry_writes changeSet);
  match regs with
  | [] => mret tt
  | _ => in_batch (for_each upsert regs)
  end.

(** ** nameindex_backfill.go *)

(** The chain store and the index; [None] is a node without the index. *)
Definition BackfillNameIndex (s : KState) (index : option DB) : result unit * option DB :=
  match index with
  | None => (Ok tt, None)
  | Some db =>
      let total := default 0 (RegistryCount s) in
      match Count db with
      | (Err e, _) => (Err e, Some db)
      | (Ok indexed, _) =>
          if indexed =? total then (Ok tt, Some db)
          else
            let body := walk_cb (fun (_ : Z) reg => fun db =>
                          match upsert reg db with
                          | (Ok _, db') => (Ok false, db')
                          | (Err e, db') => (Err (ErrWrap "backfill registry" e), db')
                          end) (walk (Registries s)) in
            let '(r, db') := in_batch body db in (r, Some db')
      end
  end.
End store.

(** ** UTF-8 *)

Lemma RuneError_rune : is_rune RuneError.
Proof. unfold is_rune, RuneError. lia. Qed.

(** A code point and what follows it are read back. *)
Lemma runes_cons r s : is_rune r -> runes (rune_bytes r ++ s) = r :: runes s.
Proof.
  intros Hr. assert (Hd : forall a b, 0 < b -> a = b * (a / b) + a mod b /\ 0 <= a mod b < b).
  { intros a b Hb. split; [by apply Z.div_mod; lia|by apply Z.mod_pos_bound]. }
  unfold is_rune in Hr. unfold rune_bytes. destruct (Z.ltb_spec r 0x80).
  { simpl. rewrite b2z_z2b by lia. by rewrite (proj2 (Z.ltb_lt r 128)). }
  destruct (Hd r 64 ltac:(lia)) as [D1 M1]. destruct (Z.ltb_spec r 0x800).
  { simpl. unfold is_cont, cont_bits. rewrite !b2z_z2b by lia.
    rewrite (proj2 (Z.ltb_ge _ 128)), (proj2 (Z.leb_le 194 _)), (proj2 (Z.ltb_lt _ 224)) by lia.
    rewrite (proj2 (Z.leb_le 128 _)), (proj2 (Z.ltb_lt _ 192)) by lia. simpl. f_equal. lia. }
  destruct (Hd (r / 64) 64 ltac:(lia)) as [D2 M2].
  rewrite Z.div_div in D2 by lia. change (64 * 64) with 4096 in D2. destruct (Z.ltb_spec r 0x10000).
  { simpl. unfold second_ok, is_cont, cont_bits. rewrite !b2z_z2b by lia.
    rewrite (proj2 (Z.ltb_ge _ 128)), (proj2 (Z.ltb_ge _ 224)), andb_false_r by lia.
    rewrite (proj2 (Z.leb_le 224 _)), (proj2 (Z.ltb_lt _ 240)) by lia.
    rewrite (proj2 (Z.leb_le 128 (128 + r mod 64))), (proj2 (Z.ltb_lt (128 + r mod 64) 192)) by lia. simpl.
    rewrite (proj2 (Z.eqb_neq _ 240)), (proj2 (Z.eqb_neq _ 244)) by lia.
    assert (Hs : (if 224 + r / 4096 =? 224 then (160 <=? 128 + r / 64 mod 64) && (128 + r / 64 mod 64 <? 192)
      else if 224 + r / 4096 =? 237 then (128 <=? 128 + r / 64 mod 64) && (128 + r / 64 mod 64 <? 160)
      else (128 <=? 128 + r / 64 mod 64) && (128 + r / 64 mod 64 <? 192)) = true).
    { destruct (Z.eqb_spec (224 + r / 4096) 224); [|destruct (Z.eqb_spec (224 + r / 4096) 237)];
        apply andb_true_iff; rewrite Z.leb_le, Z.ltb_lt; lia. }
    rewrite Hs. simpl. f_equal. lia. }
  destruct (Hd (r / 4096) 64 ltac:(lia)) as [D3 M3].
  rewrite Z.div_div in D3 by lia. change (4096 * 64) with 262144 in D3.
  simpl. unfold second_ok, is_cont, cont_bits. rewrite !b2z_z2b by lia.
  rewrite (proj2 (Z.ltb_ge _ 128)), (proj2 (Z.ltb_ge _ 224)), andb_false_r by lia.
  rewrite (proj2 (Z.ltb_ge _ 240)), andb_false_r by lia.
  rewrite (proj2 (Z.leb_le 240 _)), (proj2 (Z.ltb_lt _ 245)) by lia.
  rewrite !(proj2 (Z.leb_le 128 (128 + r mod 64))), !(proj2 (Z.ltb_lt (128 + r mod 64) 192)) by lia.
  rewrite !(proj2 (Z.leb_le 128 (128 + r / 64 mod 64))), !(proj2 (Z.ltb_lt (128 + r / 64 mod 64) 192)) by lia. simpl.
  rewrite (proj2 (Z.eqb_neq _ 224)), (proj2 (Z.eqb_neq _ 237)) by lia.
  assert (Hs : (if 240 + r / 262144 =? 240 then (144 <=? 128 + r / 4096 mod 64) && (128 + r / 4096 mod 64 <? 192)
    else if 240 + r / 262144 =? 244 then (128 <=? 128 + r / 4096 mod 64) && (128 + r / 4096 mod 64 <? 144)
    else (128 <=? 128 + r / 4096 mod 64) && (128 + r / 4096 mod 64 <? 192)) = true).
  { destruct (Z.eqb_spec (240 + r / 262144) 240); [|destruct (Z.eqb_spec (240 + r / 262144) 244)];
      apply andb_true_iff; rewrite Z.leb_le, Z.ltb_lt; lia. }
  rewrite Hs. simpl. f_equal. lia.
Qed.

Lemma runes_of_string l : Forall is_rune l -> runes (string_of_runes l) = l.
Proof.
  induction 1 as [|r l Hr Hl IH]; [done|].
  change (string_of_runes (r :: l)) with (rune_bytes r ++ string_of_runes l). by rewrite runes_cons, IH.
Qed.

(** What is read of any bytes are code points. *)
Lemma runes_ok s : Forall is_rune (runes s).
Proof.
  induction s as [s IH] using (induction_ltof1 _ (@length byte)). unfold ltof in IH.
  assert (Herr : forall s', (length s' < length s)%nat -> Forall is_rune (RuneError :: runes s')).
  { intros s' Hs'. constructor; [apply RuneError_rune|by apply IH]. }
  destruct s as [|b0 s1]; [constructor|]. simpl in Herr, IH |- *.
  pose proof (b2z_range b0) as H0. destruct (Z.ltb_spec (b2z b0) 0x80).
  { constructor; [unfold is_rune; lia|apply IH; lia]. }
  destruct ((0xC2 <=? b2z b0) && (b2z b0 <? 0xE0)) eqn:E2.
  { apply andb_true_iff in E2 as [E2%Z.leb_le E3%Z.ltb_lt].
    destruct s1 as [|b1 s2]; [by apply (Herr []); simpl; lia|].
    unfold is_cont. destruct ((128 <=? b2z b1) && _) eqn:Ec; [|apply Herr; simpl; lia].
    apply andb_true_iff in Ec as [?%Z.leb_le ?%Z.ltb_lt].
    constructor; [unfold is_rune, cont_bits; lia|apply IH; simpl; lia]. }
  destruct ((0xE0 <=? b2z b0) && (b2z b0 <? 0xF0)) eqn:E3.
  { apply andb_true_iff in E3 as [?%Z.leb_le ?%Z.ltb_lt].
    destruct s1 as [|b1 [|b2 s3]]; [apply Herr; simpl; lia..|].
    destruct (second_ok b0 b1 && _) eqn:Ec; [|apply Herr; simpl; lia].
    apply andb_true_iff in Ec as [Es Ec]. unfold second_ok, is_cont in Es, Ec.
    apply andb_true_iff in Ec as [?%Z.leb_le ?%Z.ltb_lt].
    rewrite (proj2 (Z.eqb_neq _ 0xF0)), (proj2 (Z.eqb_neq _ 0xF4)) in Es by lia.
    constructor; [|apply IH; simpl; lia]. unfold is_rune, cont_bits.
    destruct (Z.eqb_spec (b2z b0) 0xE0); [|destruct (Z.eqb_spec (b2z b0) 0xED)];
      apply andb_true_iff in Es as [?%Z.leb_le ?%Z.ltb_lt]; lia. }
  destruct ((0xF0 <=? b2z b0) && (b2z b0 <? 0xF5)) eqn:E4; [|apply Herr; lia].
  apply andb_true_iff in E4 as [?%Z.leb_le ?%Z.ltb_lt].
  destruct s1 as [|b1 [|b2 [|b3 s4]]]; [apply Herr; simpl; lia..|].
  destruct (second_ok b0 b1 && _ && _) eqn:Ec; [|apply Herr; simpl; lia].
  apply andb_true_iff in Ec as [[Es Ec]%andb_true_iff Ed]. unfold second_ok, is_cont in Es, Ec, Ed.
  apply andb_true_iff in Ec as [?%Z.leb_le ?%Z.ltb_lt], Ed as [?%Z.leb_le ?%Z.ltb_lt].
  rewrite (proj2 (Z.eqb_neq _ 0xE0)), (proj2 (Z.eqb_neq _ 0xED)) in Es by lia.
  constructor; [|apply IH; simpl; lia]. unfold is_rune, cont_bits.
  destruct (Z.eqb_spec (b2z b0) 0xF0); [|destruct (Z.eqb_spec (b2z b0) 0xF4)];
    apply andb_true_iff in Es as [?%Z.leb_le ?%Z.ltb_lt]; lia.
Qed.

Lemma string_of_runes_app l k : string_of_runes (l ++ k) = string_of_runes l ++ string_of_runes k.
Proof. unfold string_of_runes. by rewrite map_app, concat_app. Qed.

Lemma sql_text_of l : Forall is_rune l -> 0 ∉ l -> sql_text (string_of_runes l).
Proof. intros Hl H0. unfold sql_text. by rewrite runes_of_string. Qed.

(** The bytes of a code point beyond ASCII are beyond ASCII. *)
Lemma rune_bytes_high r b : is_rune r -> 0x80 <= r -> b ∈ rune_bytes r -> 0x80 <= b2z b.
Proof.
  intros Hr Hge. unfold is_rune in Hr. unfold rune_bytes. rewrite (proj2 (Z.ltb_ge r 0x80)) by lia.
  assert (Hm : forall x, b2z (z2b (0x80 + x mod 64)) = 0x80 + x mod 64).
  { intros x. pose proof (Z.mod_pos_bound x 64 ltac:(lia)). apply b2z_z2b. lia. }
  assert (Hm' : forall x, 0x80 <= b2z (z2b (0x80 + x mod 64))).
  { intros x. rewrite Hm. pose proof (Z.mod_pos_bound x 64 ltac:(lia)). lia. }
  destruct (Z.ltb_spec r 0x800); [|destruct (Z.ltb_spec r 0x10000)]; rewrite !elem_of_cons.
  all: intros [->|Hin]; [rewrite b2z_z2b; Z.to_euclidean_division_equations; lia|].
  all: repeat destruct Hin as [->|Hin]; try apply Hm'; by apply not_elem_of_nil in Hin.
Qed.

(** ** Literal matching *)

(** [escapeLike] on characters. *)
Definition escape_chars (l : list Z) : list Z :=
  flat_map (fun c => if (c =? b2z backslash) || (c =? b2z percent) || (c =? b2z underscore)
                     then [b2z backslash; c] else [c]) l.

Lemma escapeLike_high s : (forall b, b ∈ s -> 0x80 <= b2z b) -> escapeLike s = s.
Proof.
  induction s as [|b s IH]; intros Hs; [done|]. unfold escapeLike. cbn [flat_map]. fold (escapeLike s).
  rewrite IH by (intros c Hc; apply Hs; by right). specialize (Hs b (list_elem_of_here _ _)).
  rewrite !bool_decide_false; [done|..]; intros ->; by vm_compute in Hs.
Qed.

Lemma escapeLike_app s t : escapeLike (s ++ t) = escapeLike s ++ escapeLike t.
Proof. apply flat_map_app. Qed.

Lemma escapeLike_runes l : Forall is_rune l ->
  escapeLike (string_of_runes l) = string_of_runes (escape_chars l).
Proof.
  induction 1 as [|r l Hr Hl IH]; [done|]. unfold escape_chars. cbn [flat_map]. fold (escape_chars l).
  change (string_of_runes (r :: l)) with (rune_bytes r ++ string_of_runes l).
  rewrite escapeLike_app, string_of_runes_app, IH. f_equal.
  destruct (Z.ltb_spec r 0x80) as [Hlt|Hge].
  - assert (Hb : forall c, bool_decide (z2b r = c) = (r =? b2z c)).
    { intros c. destruct (Z.eqb_spec r (b2z c)) as [->|Hne]; [by rewrite z2b_b2z, bool_decide_true|].
      apply bool_decide_false. intros <-. unfold is_rune in Hr. rewrite b2z_z2b in Hne; lia. }
    unfold rune_bytes. rewrite (proj2 (Z.ltb_lt r 0x80)) by done. unfold escapeLike. cbn [flat_map].
    rewrite !Hb. destruct (Z.eqb_spec r (b2z backslash)) as [->|]; [done|].
    destruct (Z.eqb_spec r (b2z percent)) as [->|]; [done|].
    destruct (Z.eqb_spec r (b2z underscore)) as [->|]; [done|]. cbn [orb].
    unfold string_of_runes. simpl. unfold rune_bytes. by rewrite (proj2 (Z.ltb_lt r 0x80)).
  - rewrite escapeLike_high by (intros b Hb; by apply (rune_bytes_high r b)).
    rewrite !(proj2 (Z.eqb_neq r _)) by (vm_compute; lia). cbn [orb].
    unfold string_of_runes. simpl. by rewrite app_nil_r.
Qed.

Lemma like_chars_any t : like_chars [b2z percent] t = true.
Proof.
  change (like_chars [b2z percent] t)
    with ((fix any t := match t with [] => true | _ => false end || match t with [] => false | _ :: t' => any t' end) t).
  induction t as [|c t IH]; [done|exact IH].
Qed.

Lemma like_chars_prefix l t : like_chars (escape_chars l ++ [b2z percent]) t = true <-> l `prefix_of` t.
Proof.
  revert t. induction l as [|c l IH]; intros t.
  { change (escape_chars [] ++ [b2z percent]) with [b2z percent]. rewrite like_chars_any.
    split; [|done]. intros _. apply prefix_nil. }
  assert (Hcons : forall t, match t with [] => false | d :: t' => (c =? d) &&
      like_chars (escape_chars l ++ [b2z percent]) t' end = true <-> c :: l `prefix_of` t).
  { intros [|d t'].
    - split; [done|]. by intros [k E].
    - rewrite andb_true_iff, Z.eqb_eq, IH. split.
      + intros [-> Hp]. by apply prefix_cons.
      + intros Hp. split; [by apply prefix_cons_inv_1 in Hp|by apply prefix_cons_inv_2 in Hp]. }
  rewrite <- (Hcons t). unfold escape_chars. cbn [flat_map]. fold (escape_chars l).
  destruct ((c =? b2z backslash) || (c =? b2z percent) || (c =? b2z underscore)) eqn:E; [done|].
  apply orb_false_iff in E as [[E1 E2]%orb_false_iff E3]. cbn [app like_chars]. by rewrite E1, E2, E3.
Qed.

Lemma escape_chars_ok l : Forall is_rune l -> 0 ∉ l ->
  Forall is_rune (escape_chars l ++ [b2z percent]) /\ 0 ∉ escape_chars l ++ [b2z percent].
Proof.
  assert (Hp : is_rune (b2z percent) /\ is_rune (b2z backslash)) by (split; left; by vm_compute).
  induction 1 as [|r l Hr Hl IH]; intros H0.
  { split; [constructor; [apply Hp|constructor]|]. intros E%list_elem_of_singleton. done. }
  rewrite not_elem_of_cons in H0. destruct H0 as [H0 H0']. destruct (IH H0') as [IH1 IH2].
  unfold escape_chars. cbn [flat_map]. fold (escape_chars l). destruct (_ || _); cbn [app].
  - rewrite !Forall_cons, !not_elem_of_cons. split_and!; try done; apply Hp.
  - rewrite Forall_cons, not_elem_of_cons. by split_and!.
Qed.

Section literal.
Context {SQ : SQL} {LAWS : SQLLaws}.

Lemma ToLower_ok s : Forall is_rune (lower_rune <$> runes s).
Proof. apply Forall_fmap. eapply Forall_impl; [apply runes_ok|]. intros r. apply lower_rune_ok. Qed.

Lemma runes_ToLower s : runes (ToLower s) = lower_rune <$> runes s.
Proof. apply runes_of_string, ToLower_ok. Qed.

Lemma ToLower_text s : 0 ∉ runes s -> sql_text (ToLower s).
Proof.
  intros H0. apply sql_text_of; [apply ToLower_ok|].
  intros (r & E & Hr)%list_elem_of_fmap. symmetry in E. apply lower_rune_nul in E as ->. done.
Qed.

(** A pattern made of a text matches the texts that start with it. *)
Lemma like_prefix q t : sql_text q -> sql_text t ->
  (like (escapeLike q ++ [percent]) t = true <-> runes q `prefix_of` runes t).
Proof.
  intros [Hq Hq0] Ht. pose proof (runes_ok q) as Hok.
  assert (E : escapeLike q ++ [percent] = string_of_runes (escape_chars (runes q) ++ [b2z percent])).
  { rewrite string_of_runes_app, <- escapeLike_runes, Hq by done. done. }
  destruct (escape_chars_ok (runes q) Hok Hq0) as [Hok' H0'].
  rewrite E, like_text by (done || by apply sql_text_of).
  rewrite runes_of_string by done. apply like_chars_prefix.
Qed.

Lemma ftsPhrase_string q : fts_string (ftsPhrase q) = Some q.
Proof.
  change (fts_body (flat_map (fun b => if bool_decide (b = dquote) then [dquote; dquote] else [b]) q
    ++ [dquote]) = Some q).
  induction q as [|b q IH]; [done|]. simpl.
  destruct (bool_decide_reflect (b = dquote)) as [->|Hne]; simpl.
  - by rewrite IH.
  - rewrite (bool_decide_false (b = dquote)) by done. by rewrite IH.
Qed.
End literal.

(** The swapping loop reverses. *)
Lemma swap_loop_rev fuel l a m b :
  l = a ++ m ++ b -> (length m <= 2 * fuel + 1)%nat ->
  swap_loop fuel l (Z.of_nat (length a)) (Z.of_nat (length a + length m) - 1) = a ++ rev m ++ b.
Proof.
  revert l a m b. induction fuel as [|fuel IH]; intros l a m b -> Hl.
  { simpl. destruct m as [|x [|y m]]; [done|done|simpl in Hl; lia]. }
  simpl. destruct m as [|x m].
  { simpl. by rewrite (proj2 (Z.ltb_ge _ _)) by lia. }
  destruct (decide (m = [])) as [->|Hne].
  { simpl. by rewrite (proj2 (Z.ltb_ge _ _)) by lia. }
  destruct (exists_last Hne) as (m' & y & ->). simpl in *. rewrite length_app in *. simpl in *.
  rewrite (proj2 (Z.ltb_lt _ _)) by lia.
  replace (Z.to_nat (Z.of_nat (length a))) with (length a) by lia.
  replace (Z.to_nat (Z.of_nat (length a + S (length m' + 1)) - 1)) with (length a + S (length m'))%nat by lia.
  rewrite (lookup_app_r a) by lia. rewrite Nat.sub_diag. simpl.
  rewrite (lookup_app_r a) by lia. replace (length a + S (length m') - length a)%nat with (S (length m')) by lia.
  simpl. rewrite <- app_assoc. rewrite (lookup_app_r m') by lia. rewrite Nat.sub_diag. simpl.
  rewrite (insert_app_r_alt a) by lia. rewrite Nat.sub_diag. simpl.
  rewrite (insert_app_r_alt a) by lia. replace (length a + S (length m') - length a)%nat with (S (length m')) by lia.
  simpl. rewrite (insert_app_r_alt m') by lia. rewrite Nat.sub_diag. simpl.
  specialize (IH (a ++ y :: m' ++ x :: b) (a ++ [y]) m' (x :: b)).
  rewrite length_app in IH. simpl in IH.
  replace (Z.of_nat (length a) + 1) with (Z.of_nat (length a + 1)) by lia.
  replace (Z.of_nat (length a + S (length m' + 1)) - 1 - 1) with (Z.of_nat (length a + 1 + length m') - 1) by lia.
  rewrite IH; [|by rewrite <- app_assoc|lia].
  rewrite rev_app_distr. simpl. by rewrite <- !app_assoc.
Qed.

Lemma reverse_spec s : reverse s = string_of_runes (rev (runes s)).
Proof.
  unfold reverse. f_equal.
  pose proof (swap_loop_rev (length (runes s)) (runes s) [] (runes s) []) as E. simpl in E.
  rewrite !app_nil_r in E. apply E; [done|lia].
Qed.

Lemma reverse_text s : sql_text s -> sql_text (reverse s) /\ runes (reverse s) = rev (runes s).
Proof.
  intros [_ H0]. rewrite reverse_spec.
  assert (Hok : Forall is_rune (rev (runes s))) by (apply Forall_rev, runes_ok).
  split; [|by apply runes_of_string]. apply sql_text_of; [done|].
  by rewrite list_elem_of_In, <- in_rev, <- list_elem_of_In.
Qed.

Lemma rev_prefix_suffix {A} (l k : list A) : rev l `prefix_of` rev k <-> l `suffix_of` k.
Proof.
  split; intros [m E].
  - exists (rev m). by rewrite <- (rev_involutive k), E, rev_app_distr, rev_involutive.
  - exists (rev m). by rewrite E, rev_app_distr.
Qed.

(** ** What a search answers *)

(** The meaning of the modes, on the characters of the lower-case query and name: the
    name is the query, starts with it, ends with it, or contains it up to the folding
    of the full-text index. *)
Definition name_matches `{SQL} (mode : RegistryNameMatchMode) (q name : bytes) : Prop :=
  match mode with
  | CONTAINS => is_substring (fold_char <$> runes q) (fold_char <$> runes name)
  | PREFIX => runes q `prefix_of` runes name
  | SUFFIX => runes q `suffix_of` runes name
  | _ => name = q
  end.

Section search.
Context {SQ : SQL} {LAWS : SQLLaws}.

(** A registry the index can hold. *)
Definition indexable (id : Z) (r : Registry) : Prop :=
  reg_Id r = id /\ 1 <= id <= MaxInt64 /\ Registry_ok r.

Definition index_row (r : Registry) : Row := row_of r (enc_Registry r).

(** The index holds exactly the rows of the registries [regs]. *)
Record in_sync (regs : gmap Z Registry) (db : DB) : Prop := {
  sync_rows : db = index_row <$> regs;
  sync_ok : forall id r, regs !! id = Some r -> indexable id r
}.

(** The matches from an id on, in id order; no database is consulted. *)
Definition is_hit (mode : RegistryNameMatchMode) (query : bytes) (start : Z) (e : Z * Registry) : Prop :=
  name_matches mode (ToLower query) (ToLower (reg_Name e.2)) /\ start <= e.1.

(** The condition the database evaluates on the row of a registry. *)
Definition hitb (mode : RegistryNameMatchMode) (query : bytes) (start : Z) (e : Z * Registry) : Prop :=
  searchStmt mode (ToLower query) (index_row e.2) = true /\ start <= e.1.

#[export] Instance hitb_dec mode query start e : Decision (hitb mode query start e).
Proof. unfold hitb. apply _. Defined.

Definition hits (mode : RegistryNameMatchMode) (query : bytes) (start : Z) (regs : gmap Z Registry) :
    list (Z * Registry) := filter (hitb mode query start) (walk regs).

(** The statement selects by the meaning of the mode, never by a wildcard or an
    operator in the query. *)
Lemma hitb_spec mode query start e :
  (mode = CONTAINS -> (3 <= length (runes query))%nat) ->
  0 ∉ runes query -> 0 ∉ runes (reg_Name e.2) ->
  (hitb mode query start e <-> is_hit mode query start e).
Proof.
  intros Hlen Hq%ToLower_text Hn%ToLower_text. unfold hitb, is_hit. apply and_iff_compat_r.
  destruct mode; simpl; rewrite ?bool_decide_eq_true; try done.
  - by apply like_prefix.
  - destruct (reverse_text _ Hq) as [Hq' Eq], (reverse_text _ Hn) as [Hn' En].
    by rewrite like_prefix, Eq, En, rev_prefix_suffix.
  - apply fts_contains; [apply ftsPhrase_string|done..|]. rewrite runes_ToLower, length_fmap. by apply Hlen.
Qed.

Lemma scan_rows_ok limit results l :
  (forall op, sql_error op = None) -> Forall (fun e => indexable e.1 e.2) l ->
  Z.of_nat (length results) <= limit -> (length l <= Z.to_nat (limit + 1) - length results)%nat ->
  scan_rows limit results (prod_map id index_row <$> l)
  = Ok (results ++ (take (Z.to_nat limit - length results) l).*2,
        default 0 (fst <$> l !! (Z.to_nat limit - length results)%nat)).
Proof.
  intros Hsql. revert results. induction l as [|[k r] l IH]; intros results Hl Hle Hlen.
  { simpl. by rewrite take_nil, app_nil_r. }
  apply Forall_cons in Hl as [(Hid & _ & Hok) Hl]. simpl in Hid, Hok. rewrite fmap_cons.
  change (prod_map id index_row (k, r)) with (k, index_row r). cbn [scan_rows]. unfold sql. rewrite Hsql. cbn [wrap_err]. cbv [mbind result_bind].
  destruct (Z.eqb_spec (Z.of_nat (length results)) limit) as [E|E].
  - subst limit. rewrite Nat2Z.id, Nat.sub_diag. simpl. by rewrite app_nil_r.
  - unfold index_row at 1. simpl row_data. rewrite Registry_Unmarshal_enc by done. cbn [wrap_err].
    simpl in Hlen.
    rewrite IH; [|done|rewrite length_app; simpl; lia|rewrite length_app; simpl; lia].
    rewrite length_app. simpl length.
    replace (Z.to_nat limit - length results)%nat with (S (Z.to_nat limit - (length results + 1)))%nat by lia.
    simpl. by rewrite <- app_assoc.
Qed.

Lemma run_query_ok mode query start limit offset regs db :
  in_sync regs db ->
  run_query (searchStmt mode (ToLower query)) start limit offset db
  = prod_map id index_row <$>
      take (Z.to_nat limit) (drop (Z.to_nat offset) (hits mode query start regs)).
Proof.
  intros [-> _]. unfold run_query, hits. rewrite walk_fmap.
  rewrite (filter_fmap_list _ _ (hitb mode query start)) by done.
  by rewrite fmap_take, fmap_drop.
Qed.

Lemma hits_indexable mode query start regs db :
  in_sync regs db -> Forall (fun e => indexable e.1 e.2) (hits mode query start regs).
Proof.
  intros [_ Hok]. apply Forall_forall. intros [id r] [_ Hin%elem_of_walk]%list_elem_of_filter. by apply Hok.
Qed.

(** The page of a search, and the id of the first match after it. *)
Lemma Search_ok mode query start limit offset regs db :
  in_sync regs db -> (forall op, sql_error op = None) ->
  (mode = CONTAINS -> (3 <= length (runes query))%nat) ->
  0 <= start <= MaxInt64 -> 0 <= limit < MaxInt64 -> 0 <= offset <= MaxInt64 ->
  let page := drop (Z.to_nat offset) (hits mode query start regs) in
  Search mode query start limit offset db
  = (Ok ((take (Z.to_nat limit) page).*2, default 0 (fst <$> page !! Z.to_nat limit)), db).
Proof.
  intros Hs Hsql Hlen Hst Hli Hof page. unfold Search.
  assert (Hg : (match mode with
    | CONTAINS => lift (guard_err (Z.of_nat (length (runes query)) <? MinContainsQueryLen) ErrContainsTooShort)
    | _ => mret tt end) db = (Ok tt, db)).
  { destruct mode; try done. unfold lift, guard_err, MinContainsQueryLen.
    by rewrite (proj2 (Z.ltb_ge _ _)) by (specialize (Hlen eq_refl); lia). }
  cbv [mbind M_bind]. rewrite Hg. rewrite !Z.min_l by (unfold MaxInt64 in *; lia).
  unfold sql, lift, gets. rewrite Hsql. cbn [wrap_err]. rewrite (run_query_ok _ _ _ _ _ regs) by done.
  fold page. f_equal. rewrite scan_rows_ok; [|done| |simpl; lia|].
  - simpl length. rewrite Nat.sub_0_r, take_take, lookup_take, decide_True by lia.
    by rewrite Nat.min_l by lia.
  - apply Forall_take, Forall_drop. by apply (hits_indexable mode query start regs db).
  - rewrite length_take. simpl. lia.
Qed.

(** Following the next ids page by page. *)
Fixpoint search_all (fuel : nat) (mode : RegistryNameMatchMode) (query : bytes) (start limit : Z)
    (db : DB) : result (list Registry) :=
  match fuel with
  | O => Err ErrOutOfFuel
  | S fuel' =>
      match Search mode query start limit 0 db with
      | (Err e, _) => Err e
      | (Ok (page, next), _) =>
          if next =? 0 then Ok page
          else rest ← search_all fuel' mode query next limit db; Ok (page ++ rest)
      end
  end.

(** The matches from the id of one of them on are the rest of the list. *)
Lemma hits_from mode query start regs n e :
  hits mode query start regs !! n = Some e ->
  hits mode query e.1 regs = drop n (hits mode query start regs).
Proof.
  unfold hits. pose proof (walk_sorted regs) as Hs. pose proof (walk_NoDup_fst regs) as Hnd.
  revert n. induction Hs as [|x l Hs IH Hf]; intros n; [done|].
  rewrite fmap_cons, NoDup_cons in Hnd. destruct Hnd as [Hx Hnd].
  assert (Hlt : Forall (fun y => x.1 < y.1) l).
  { rewrite Forall_forall in Hf |- *. intros y Hy. specialize (Hf y Hy). unfold pair_rel in Hf. simpl in Hf.
    assert (x.1 <> y.1) by (intros E; apply Hx; rewrite E; by apply list_elem_of_fmap_2). lia. }
  rewrite !filter_cons. destruct (decide (hitb mode query start x)) as [Hhit|Hno].
  - destruct n as [|n]; simpl.
    + intros [= <-]. rewrite decide_True by (unfold hitb in *; split; [tauto|lia]). f_equal.
      apply filter_ext_in. intros y Hy. rewrite Forall_forall in Hlt.
      specialize (Hlt y Hy). unfold hitb in *. intuition lia.
    + intros Hn. rewrite decide_False; [by apply IH|].
      apply list_elem_of_lookup_2, list_elem_of_filter in Hn as [_ Hin].
      rewrite Forall_forall in Hlt. specialize (Hlt e Hin). unfold hitb. lia.
  - intros Hn. rewrite decide_False; [by apply IH|].
    pose proof Hn as Hin%list_elem_of_lookup_2. apply list_elem_of_filter in Hin as [He Hin].
    rewrite Forall_forall in Hlt. specialize (Hlt e Hin). unfold hitb in *. intuition lia.
Qed.

Lemma search_all_ok fuel mode query start limit regs db :
  in_sync regs db -> (forall op, sql_error op = None) ->
  (mode = CONTAINS -> (3 <= length (runes query))%nat) ->
  0 <= start <= MaxInt64 -> 1 <= limit < MaxInt64 ->
  (length (hits mode query start regs) < fuel)%nat ->
  search_all fuel mode query start limit db = Ok (hits mode query start regs).*2.
Proof.
  intros Hs Hsql Hlen. revert start. induction fuel as [|fuel IH]; intros start Hst Hli Hf; [lia|].
  cbn [search_all]. rewrite (Search_ok mode query start limit 0 regs db) by first [done|unfold MaxInt64 in *; lia].
  simpl drop. rewrite drop_0. set (hs := hits mode query start regs) in *.
  destruct (hs !! Z.to_nat limit) as [[k r]|] eqn:E; simpl.
  - assert (Hk : indexable k r).
    { pose proof (hits_indexable mode query start regs db Hs) as Hall. rewrite Forall_forall in Hall.
      apply (Hall (k, r)). by apply list_elem_of_lookup_2 in E. }
    destruct Hk as (_ & Hk & _). rewrite (proj2 (Z.eqb_neq _ _)) by lia.
    pose proof (hits_from mode query start regs _ _ E) as Hd. simpl in Hd. fold hs in Hd.
    cbv [mbind result_bind]. rewrite IH; [|lia|lia|].
    + rewrite Hd, <- fmap_app, take_drop. done.
    + rewrite Hd, length_drop. apply lookup_lt_Some in E. lia.
  - apply lookup_ge_None in E. by rewrite take_ge.
Qed.
End search.

(** ** Keeping the index in step with the chain *)

Section sync.
Context {SQ : SQL}.

Lemma upsert_ok reg db : (forall op, sql_error op = None) -> indexable (reg_Id reg) reg ->
  upsert reg db = (Ok tt, <[reg_Id reg := index_row reg]> db).
Proof.
  intros Hsql (_ & Hid & Hok). unfold upsert, sql. rewrite (Registry_Marshal_enc reg Hok), Hsql.
  run_unfold. cbn [wrap_err]. by rewrite (proj2 (Z.ltb_ge _ _)) by lia.
Qed.

(** Whatever the database does, an upsert that succeeds wrote the row. *)
Lemma upsert_inv reg db db' : Registry_ok reg ->
  upsert reg db = (Ok tt, db') -> db' = <[reg_Id reg := index_row reg]> db.
Proof.
  intros Hok. unfold upsert. rewrite (Registry_Marshal_enc reg Hok). run_unfold. cbn [wrap_err].
  destruct (MaxInt64 <? reg_Id reg); [done|]. destruct (sql _); [|done]. by intros [= <-].
Qed.

(** A batch that fails leaves the index as it was. *)
Lemma in_batch_atomic body db e db' : in_batch body db = (Err e, db') -> db' = db.
Proof.
  unfold in_batch. destruct (wrap_err _ (sql OpBegin)); [|by intros [= _ <-]].
  destruct (body db) as [[[]|] db1]; [|by intros [= _ <-]].
  destruct (wrap_err _ (sql OpCommit)); [done|by intros [= _ <-]].
Qed.

Lemma in_batch_inv body db db' : in_batch body db = (Ok tt, db') -> body db = (Ok tt, db').
Proof.
  unfold in_batch. destruct (wrap_err _ (sql OpBegin)); [|done].
  destruct (body db) as [[[]|] db1]; [|done]. destruct (wrap_err _ (sql OpCommit)); [|done].
  by intros [= <-].
Qed.

Definition register (regs : gmap Z Registry) (r : Registry) : gmap Z Registry := <[reg_Id r := r]> regs.

Lemma for_each_upsert_inv l db db' : Forall Registry_ok l ->
  for_each upsert l db = (Ok tt, db') ->
  db' = fold_left (fun db r => <[reg_Id r := index_row r]> db) l db.
Proof.
  revert db. induction l as [|r l IH]; intros db Hl; simpl; [by intros [= <-]|].
  apply Forall_cons in Hl as [Hr Hl]. intros ([] & db1 & E1 & E2)%bind_ok.
  apply upsert_inv in E1 as ->; [|done]. by apply IH.
Qed.

Lemma index_fold l regs :
  fold_left (fun db r => <[reg_Id r := index_row r]> db) l (index_row <$> regs)
  = index_row <$> fold_left register l regs.
Proof.
  revert regs. induction l as [|r l IH]; intros regs; simpl; [done|].
  rewrite <- fmap_insert. apply IH.
Qed.

Lemma registry_writes_ok kvs regs :
  registry_writes kvs = Ok regs -> forall r, r ∈ regs -> exists kv, kv ∈ kvs /\ StoreKey kv = module_StoreKey /\
    pair_Delete kv = false /\ HasPrefix (pair_Key kv) RegistriesKeyPrefix = true /\
    Registry_Unmarshal zero_Registry (pair_Value kv) = Ok r.
Proof.
  revert regs. induction kvs as [|kv kvs IH]; intros regs; simpl.
  { intros [= <-] r ?%not_elem_of_nil. done. }
  destruct (negb _ || _ || _) eqn:Eb.
  { intros E r Hr. destruct (IH regs E r Hr) as (kv' & ? & ?). exists kv'. split; [by right|done]. }
  apply orb_false_iff in Eb as [[E1 E2]%orb_false_iff E3].
  apply negb_false_iff in E1, E3. apply bool_decide_eq_true in E1.
  cbv [mbind result_bind]. destruct (Registry_Unmarshal _ _) as [reg|] eqn:Eu; [|done]. cbn [wrap_err].
  destruct (registry_writes kvs) as [l|] eqn:Ew; [|done]. intros [= <-] r [->|Hr]%elem_of_cons.
  - exists kv. split; [by left|done].
  - destruct (IH l eq_refl r Hr) as (kv' & ? & ?). exists kv'. split; [by right|done].
Qed.

(** The rows of an index that holds some of the registries. *)
Definition partial_sync (regs : gmap Z Registry) (db : DB) : Prop :=
  forall id row, db !! id = Some row -> exists r, regs !! id = Some r /\ row = index_row r.

Lemma walk_upsert_inv (l : list (Z * Registry)) db db' :
  (forall e, e ∈ l -> reg_Id e.2 = e.1 /\ Registry_ok e.2) ->
  walk_cb (fun (_ : Z) reg => fun db =>
     match upsert reg db with
     | (Ok _, db') => (Ok false, db')
     | (Err e, db') => (Err (ErrWrap "backfill registry" e), db')
     end) l db = (Ok tt, db') ->
  db' = fold_left (fun db e => <[e.1 := index_row e.2]> db) l db.
Proof.
  revert db. induction l as [|[k r] l IH]; intros db Hl; simpl; [by intros [= <-]|].
  destruct (Hl (k, r) ltac:(by left)) as [Hk Hok]. simpl in Hk, Hok.
  cbv [mbind M_bind]. destruct (upsert r db) as [[[]|] db1] eqn:E; [|done]. intros E2.
  apply upsert_inv in E as ->; [|done]. rewrite Hk in E2. apply IH in E2; [done|].
  intros e He. apply Hl. by right.
Qed.

Lemma sql_err op e : sql op = Err e -> sql_error op <> None.
Proof. unfold sql. by destruct (sql_error op). Qed.

(** A registry the index can hold is refused only by the database. *)
Lemma upsert_err reg db e db' : indexable (reg_Id reg) reg ->
  upsert reg db = (Err e, db') -> exists op, sql_error op <> None.
Proof.
  intros (_ & Hid & Hok). unfold upsert. rewrite (Registry_Marshal_enc reg Hok). run_unfold. cbn [wrap_err].
  rewrite (proj2 (Z.ltb_ge _ _)) by lia. destruct (sql (OpExec (reg_Id reg))) eqn:E; [done|].
  intros _. by eapply ex_intro, sql_err.
Qed.

Lemma walk_upsert_err (l : list (Z * Registry)) db e db' :
  (forall x, x ∈ l -> indexable x.1 x.2) ->
  walk_cb (fun (_ : Z) reg => fun db =>
     match upsert reg db with
     | (Ok _, db') => (Ok false, db')
     | (Err e, db') => (Err (ErrWrap "backfill registry" e), db')
     end) l db = (Err e, db') -> exists op, sql_error op <> None.
Proof.
  revert db. induction l as [|[k r] l IH]; intros db Hl; simpl; [done|].
  cbv [mbind M_bind]. destruct (upsert r db) as [[[]|e1] db1] eqn:E.
  - apply IH. intros x Hx. apply Hl. by right.
  - intros _. apply upsert_err in E; [done|]. destruct (Hl (k, r) ltac:(by left)) as (H1 & H2). simpl in *.
    by rewrite H1.
Qed.

Lemma fold_insert_covers (l : list (Z * Registry)) (db : DB) id :
  NoDup l.*1 ->
  fold_left (fun db e => <[e.1 := index_row e.2]> db) l db !! id
  = match (list_to_map l : gmap Z Registry) !! id with Some r => Some (index_row r) | None => db !! id end.
Proof.
  revert db. induction l as [|[k r] l IH]; intros db; simpl; [done|].
  rewrite NoDup_cons. intros [Hk Hnd]. rewrite IH by done.
  destruct (decide (k = id)) as [->|Hne].
  - rewrite lookup_insert_eq. by rewrite (not_elem_of_list_to_map_1 l id Hk), lookup_insert_eq.
  - by rewrite (lookup_insert_ne (list_to_map l)), (lookup_insert_ne db) by done.
Qed.

(** A partial index of a dense collection with as many rows is complete. *)
Lemma partial_full regs db :
  partial_sync regs db -> size db = size regs -> db = index_row <$> regs.
Proof.
  intros Hp Hsz. assert (Hsub : dom db ⊆ dom regs).
  { intros id [row Hr]%elem_of_dom. destruct (Hp id row Hr) as (r & Hreg & _). apply elem_of_dom. by eexists. }
  assert (Heq : dom db = dom regs).
  { apply set_subseteq_size_eq; [done|]. by rewrite !size_dom, Hsz. }
  apply map_eq. intros id. rewrite lookup_fmap.
  destruct (db !! id) as [row|] eqn:E.
  - destruct (Hp id row E) as (r & -> & ->). done.
  - destruct (regs !! id) as [r|] eqn:Er; [|done]. exfalso.
    assert (Hin : id ∈ dom db) by (rewrite Heq; apply elem_of_dom; by eexists).
    apply elem_of_dom in Hin as [? Hin]. congruence.
Qed.

Lemma Count_inv db n db' : Count db = (Ok n, db') -> n = Z.of_nat (size db).
Proof.
  unfold Count. run_unfold. destruct (wrap_err _ _) as [[]|]; [|done]. by intros [= <- _].
Qed.
End sync.

(** ** A concrete matcher *)

Fixpoint substringb (q t : list Z) : bool :=
  bool_decide (q `prefix_of` t) || match t with [] => false | _ :: t' => substringb q t' end.

Lemma substringb_spec q t : substringb q t = true <-> is_substring q t.
Proof.
  induction t as [|b t IH]; simpl; rewrite orb_true_iff, bool_decide_eq_true.
  - split; [intros [[v E]|]; [by exists [], v|done]|]. intros (u & v & E). left.
    destruct u; [by exists v|done].
  - rewrite IH. split.
    + intros [[v E]|(u & v & ->)]; [by exists [], v|by exists (b :: u), v].
    + intros ([|c u] & v & E); [left; by exists v|right]. simplify_eq/=. by exists u, v.
Qed.

Definition ascii_lower (r : Z) : Z := if (65 <=? r) && (r <=? 90) then r + 32 else r.

#[export] Instance concrete_sql : SQL := {|
  like := fun p t => like_chars (runes p) (runes t);
  fts_match := fun s t => match fts_string s with
    | Some q => substringb (ascii_lower <$> runes q) (ascii_lower <$> runes t) | None => false end;
  fold_char := ascii_lower;
  sql_error := fun _ => None;
  lower_rune := ascii_lower
|}.

#[export] Instance concrete_sql_laws : SQLLaws.
Proof.
  split; simpl.
  - done.
  - intros s q t -> _ _ _. apply substringb_spec.
  - intros r. unfold ascii_lower, is_rune. destruct (_ && _) eqn:E; [|done].
    apply andb_true_iff in E as [?%Z.leb_le ?%Z.leb_le]. lia.
  - intros r. unfold ascii_lower. destruct (_ && _) eqn:E; [|done].
    apply andb_true_iff in E as [?%Z.leb_le ?%Z.leb_le]. lia.
Qed.

(** ** Properties *)

Lemma StronglySorted_filter {A} (R : A -> A -> Prop) (P : A -> Prop) `{!forall x, Decision (P x)} l :
  StronglySorted R l -> StronglySorted R (filter P l).
Proof.
  induction 1 as [|x l Hs IH Hf]; [constructor|]. rewrite filter_cons. case_decide; [|done].
  constructor; [done|]. rewrite Forall_forall in Hf |- *. intros y [_ Hy]%list_elem_of_filter. by apply Hf.
Qed.

Lemma NoDup_filter_fmap {A B} (f : A -> B) (P : A -> Prop) `{!forall x, Decision (P x)} l :
  NoDup (f <$> l) -> NoDup (f <$> filter P l).
Proof.
  induction l as [|x l IH]; [done|]. rewrite fmap_cons, filter_cons, NoDup_cons. intros [Hx Hl].
  case_decide; [|by apply IH]. rewrite fmap_cons. apply NoDup_cons. split; [|by apply IH].
  intros (y & E & [_ Hy]%list_elem_of_filter)%list_elem_of_fmap. apply Hx. rewrite E.
  by apply list_elem_of_fmap_2.
Qed.

Section properties.
Context {SQ : SQL}.

(** C24: a search answers exactly the matching registries.  On an index that is in
    step with the chain, with names and a query without NUL characters, the page is the
    slice of the registries whose lower-case name equals, starts with, ends with or
    contains (up to the case folding of the full-text index) the lower-case query,
    character by character, in id order from [start] on; no character of the query acts
    as a wildcard or operator; [next] is the id of the first match after the page, or 0. *)
Theorem search_exact {LAWS : SQLLaws} mode query start limit offset regs db :
  in_sync regs db -> (forall op, sql_error op = None) ->
  0 ∉ runes query -> (forall id r, regs !! id = Some r -> 0 ∉ runes (reg_Name r)) ->
  (mode = CONTAINS -> (3 <= length (runes query))%nat) ->
  0 <= start <= MaxInt64 -> 0 <= limit < MaxInt64 -> 0 <= offset <= MaxInt64 ->
  exists hs : list (Z * Registry),
    (forall e, e ∈ hs <-> regs !! e.1 = Some e.2 /\ is_hit mode query start e) /\
    StronglySorted pair_rel hs /\ NoDup hs.*1 /\
    let page := drop (Z.to_nat offset) hs in
    Search mode query start limit offset db
    = (Ok ((take (Z.to_nat limit) page).*2, default 0 (fst <$> page !! Z.to_nat limit)), db).
Proof.
  intros Hs Hsql Hq Hn Hlen Hst Hli Hof. exists (hits mode query start regs). split_and!.
  - intros [k r]. unfold hits. rewrite list_elem_of_filter, elem_of_walk. simpl.
    pose proof (fun Hr : regs !! k = Some r => hitb_spec mode query start (k, r) Hlen Hq (Hn k r Hr)).
    intuition.
  - apply StronglySorted_filter, walk_sorted.
  - apply NoDup_filter_fmap, walk_NoDup_fst.
  - by apply Search_ok.
Qed.

(** paging is complete.  Requesting page after page from the returned next
    id, with any page size, ends and lists every match exactly once, in order. *)
Theorem search_pages_complete {LAWS : SQLLaws} mode query limit regs db :
  in_sync regs db -> (forall op, sql_error op = None) ->
  (mode = CONTAINS -> (3 <= length (runes query))%nat) -> 1 <= limit < MaxInt64 ->
  search_all (S (size regs)) mode query 0 limit db = Ok (hits mode query 0 regs).*2.
Proof.
  intros Hs Hsql Hlen Hli. apply search_all_ok; try done.
  unfold hits. pose proof (length_filter (hitb mode query 0) (walk regs)). rewrite length_walk in *. lia.
Qed.

(** the listener keeps the index in step.  A committed block either adds
    exactly its registry writes to the index or, on any failure, leaves the index
    untouched. *)
Theorem listener_in_sync regs db kvs new r db' :
  in_sync regs db -> registry_writes kvs = Ok new ->
  Forall (fun x => indexable (reg_Id x) x) new ->
  ListenCommit kvs db = (r, db') ->
  match r with
  | Ok _ => in_sync (fold_left register new regs) db'
  | Err _ => db' = db
  end.
Proof.
  intros [Hrows Hok] Hnew Hall. unfold ListenCommit. cbv [mbind M_bind lift]. rewrite Hnew.
  destruct new as [|x new']; [by intros [= <- <-]|]. set (new := x :: new') in *. intros E.
  destruct r as [[]|e]; [|by apply in_batch_atomic in E]. apply in_batch_inv, for_each_upsert_inv in E.
  - rewrite Hrows, index_fold in E. split; [done|]. clear E Hrows Hnew. clearbody new.
    revert regs Hok. induction new as [|y new IH]; intros regs Hok; simpl; [done|].
    apply Forall_cons in Hall as [Hy Hall]. apply IH; [done|]. intros k z. unfold register.
    rewrite lookup_insert_Some. intros [[<- <-]|[_ ?]]; [done|by apply Hok].
  - eapply Forall_impl; [exact Hall|]. by intros y (_ & _ & ?).
Qed.

(** the backfill completes the index.  Starting from any index that holds
    some of the chain's registries, a backfill that succeeds leaves all of them;
    this includes the shortcut that compares the row count with the registry
    counter and reads nothing.  A backfill that fails changes nothing, and
    without database errors it succeeds. *)
Theorem backfill_complete (s : KState) n db r db' :
  RegistryCount s = Some n -> 0 <= n ->
  (forall id, is_Some (Registries s !! id) <-> 1 <= id <= n) ->
  (forall id x, Registries s !! id = Some x -> indexable id x) ->
  partial_sync (Registries s) db ->
  BackfillNameIndex s (Some db) = (r, Some db') ->
  match r with
  | Ok _ => in_sync (Registries s) db'
  | Err _ => db' = db /\ exists op, sql_error op <> None
  end.
Proof.
  intros Hn H0 Hdense Hok Hpart. unfold BackfillNameIndex. rewrite Hn. simpl.
  assert (Hsize : Z.of_nat (size (Registries s)) = n).
  { assert (Hd : dom (Registries s) = list_to_set (seqZ 1 n)).
    { apply set_eq. intros id. by rewrite elem_of_dom, Hdense, elem_of_list_to_set, elem_of_seqZ; split; lia || (intros; lia). }
    rewrite <- size_dom, Hd, size_list_to_set by apply NoDup_seqZ. rewrite length_seqZ. lia. }
  destruct (Count db) as [[c|e] db0] eqn:Ec.
  2: { intros [= <- <-]. split; [done|]. exists OpCount. unfold Count in Ec. run_unfold. unfold sql in Ec.
       by destruct (sql_error OpCount). }
  apply Count_inv in Ec. destruct (Z.eqb_spec c n) as [->|_].
  { intros [= <- <-]. split; [|done]. apply partial_full; [done|lia]. }
  destruct (in_batch _ db) as [o db1] eqn:E. intros [= <- <-].
  destruct o as [[]|e].
  - apply in_batch_inv, walk_upsert_inv in E.
    + split; [|done]. apply map_eq. intros id.
      rewrite E, fold_insert_covers, list_to_map_walk, lookup_fmap by apply walk_NoDup_fst.
      destruct (Registries s !! id) eqn:Er; simpl; [done|].
      destruct (db !! id) as [row|] eqn:Ed; [|done]. destruct (Hpart id row Ed) as (x & ? & _). congruence.
    + intros [k x] Hx%elem_of_walk. destruct (Hok k x Hx) as (? & _ & ?). done.
  - split; [by apply in_batch_atomic in E|]. unfold in_batch in E.
    destruct (sql OpBegin) eqn:E1; cbn [wrap_err] in E; [|by eapply ex_intro, sql_err].
    destruct (walk_cb _ _ db) as [[[]|e1] db2] eqn:E2.
    + destruct (sql OpCommit) eqn:E3; cbn [wrap_err] in E; [done|by eapply ex_intro, sql_err].
    + apply walk_upsert_err in E2; [done|]. intros [k x] Hx%elem_of_walk. by apply Hok.
Qed.
End properties.

Module DemoIndex.
Definition reg (id : Z) (name : string) : Registry := mkRegistry id (bs name) [] (bs "alice") (bs "t0") [].
Definition regs : gmap Z Registry :=
  <[1 := reg 1 "deeds"]> (<[2 := reg 2 "100%_deeds"]> (<[3 := reg 3 "wills"]> ∅)).
Definition db : DB := index_row <$> regs.
Definition chain : KState := set_RegistryCount (Some 3) (set_Registries regs empty_state).

Lemma demo_indexable id r : regs !! id = Some r -> indexable id r.
Proof.
  intros Hr. assert (Ha : Forall (fun e => indexable e.1 e.2) (map_to_list regs)) by by_eval.
  rewrite Forall_forall in Ha. apply (Ha (id, r)). by apply elem_of_map_to_list.
Qed.

Lemma no_nul id r : regs !! id = Some r -> 0 ∉ runes (reg_Name r).
Proof.
  intros Hr. assert (Ha : Forall (fun e => 0 ∉ runes (reg_Name e.2)) (map_to_list regs)) by by_eval.
  rewrite Forall_forall in Ha. apply (Ha (id, r)). by apply elem_of_map_to_list.
Qed.

Lemma sync : in_sync regs db.
Proof. split; [done|]. apply demo_indexable. Qed.
End DemoIndex.

(** The query [%_] is literal: it finds the registry that contains it, not all. *)
Lemma search_exact_witness :
  exists hs : list (Z * Registry),
    (forall e, e ∈ hs <-> DemoIndex.regs !! e.1 = Some e.2 /\ is_hit SUFFIX (bs "%_deeds") 0 e) /\
    StronglySorted pair_rel hs /\ NoDup hs.*1 /\
    let page := drop (Z.to_nat 0) hs in
    Search SUFFIX (bs "%_deeds") 0 10 0 DemoIndex.db
    = (Ok ((take (Z.to_nat 10) page).*2, default 0 (fst <$> page !! Z.to_nat 10)), DemoIndex.db).
Proof.
  apply (search_exact SUFFIX (bs "%_deeds") 0 10 0 DemoIndex.regs DemoIndex.db);
    [exact DemoIndex.sync|done|by_eval|exact DemoIndex.no_nul|done|by_eval|by_eval|by_eval].
Defined.

Lemma search_pages_complete_witness :
  search_all 4 CONTAINS (bs "deeds") 0 1 DemoIndex.db = Ok (hits CONTAINS (bs "deeds") 0 DemoIndex.regs).*2.
Proof.
  apply (search_pages_complete CONTAINS (bs "deeds") 1 DemoIndex.regs DemoIndex.db);
    [exact DemoIndex.sync|done|intros _; by_eval|by_eval].
Defined.

Lemma listener_in_sync_witness :
  let kv := mkPair module_StoreKey false [x01; x04] (enc_Registry (DemoIndex.reg 4 "leases")) in
  in_sync (fold_left register [DemoIndex.reg 4 "leases"] DemoIndex.regs)
    (ListenCommit [kv] DemoIndex.db).2.
Proof.
  apply (listener_in_sync DemoIndex.regs DemoIndex.db
    [mkPair module_StoreKey false [x01; x04] (enc_Registry (DemoIndex.reg 4 "leases"))]
    [DemoIndex.reg 4 "leases"] (Ok tt)); [exact DemoIndex.sync|by vm_compute|by_eval|by vm_compute].
Defined.

(** A node that enabled the index late, with one registry indexed, catches up. *)
Lemma backfill_complete_witness :
  in_sync DemoIndex.regs
    (default ∅ (BackfillNameIndex DemoIndex.chain (Some {[ 1 := index_row (DemoIndex.reg 1 "deeds") ]})).2).
Proof.
  apply (backfill_complete DemoIndex.chain 3 {[ 1 := index_row (DemoIndex.reg 1 "deeds") ]} (Ok tt)).
  - done.
  - lia.
  - intros id. simpl. unfold DemoIndex.regs. rewrite !lookup_insert_is_Some, lookup_empty.
    split; [|destruct (decide (id = 1)), (decide (id = 2)), (decide (id = 3)); try lia; naive_solver].
    intros [<-|[_ [<-|[_ [<-|[_ []]]]]]]; lia || done.
  - exact DemoIndex.demo_indexable.
  - intros id row [<- <-]%lookup_singleton_Some. by exists (DemoIndex.reg 1 "deeds").
  - vm_compute. reflexivity.
Defined.
