(* ===== verification/IndexTables.v ===== *)
(** The schema of the name index: the tables and triggers of [schema] in
    src/x/anchoring/nameindex/store.go.

    NameIndex.v takes the index as its rows.  The database has a second table, the
    trigram index of the CONTAINS mode, which does not hold the names but postings made
    from them, and which triggers keep current.  This file models both tables and the
    triggers, and proves that the searches on them are the ones on the rows. *)

From S2P Require Import Prelude Types Keeper Proto NameIndex.

(** The table registries and the postings of registries_fts: the row id and the text each
    posting was made from. *)
Record Tables := mkTables { tab_registries : DB; tab_fts : list (Z * bytes) }.

(** [INSERT INTO registries_fts(rowid, name_lower)], and the same with the command
    'delete', which removes the postings of a text. *)
Inductive FtsStmt := FtsInsert (rowid : Z) (name_lower : bytes) | FtsDelete (rowid : Z) (name_lower : bytes).

(** The triggers. *)
Definition registries_fts_ai (new : Z * Row) : list FtsStmt := [FtsInsert new.1 (name_lower new.2)].

Definition registries_fts_au (old new : Z * Row) : list FtsStmt :=
  [FtsDelete old.1 (name_lower old.2); FtsInsert new.1 (name_lower new.2)].

Definition registries_fts_ad (old : Z * Row) : list FtsStmt := [FtsDelete old.1 (name_lower old.2)].

(** An external-content table is corrupted by the removal of a text it was not given. *)
Definition ErrCorrupt : err := ErrPlain "database disk image is malformed".

Fixpoint remove_one {A} `{EqDecision A} (x : A) (l : list A) : option (list A) :=
  match l with
  | [] => None
  | y :: l => if decide (x = y) then Some l else cons y <$> remove_one x l
  end.

Definition exec_fts (fts : list (Z * bytes)) (stmt : FtsStmt) : result (list (Z * bytes)) :=
  match stmt with
  | FtsInsert rowid text => Ok (fts ++ [(rowid, text)])
  | FtsDelete rowid text => of_option (remove_one (rowid, text) fts) ErrCorrupt
  end.

Fixpoint fire (stmts : list FtsStmt) (fts : list (Z * bytes)) : result (list (Z * bytes)) :=
  match stmts with
  | [] => Ok fts
  | stmt :: stmts => fts ← exec_fts fts stmt; fire stmts fts
  end.

(** [INSERT INTO registries ... ON CONFLICT(id) DO UPDATE SET ...] *)
Definition upsert_stmt (id : Z) (row : Row) (t : Tables) : result Tables :=
  fts ← fire (match tab_registries t !! id with
              | None => registries_fts_ai (id, row)
              | Some old => registries_fts_au (id, old) (id, row)
              end) (tab_fts t);
  Ok (mkTables (<[id := row]> (tab_registries t)) fts).

(** [DELETE FROM registries WHERE id = ?], which the program does not run. *)
Definition delete_stmt (id : Z) (t : Tables) : result Tables :=
  match tab_registries t !! id with
  | None => Ok t
  | Some old => fts ← fire (registries_fts_ad (id, old)) (tab_fts t); Ok (mkTables (delete id (tab_registries t)) fts)
  end.

(** A statement is executed as a whole, with the triggers it fires, or not at all. *)
Definition run_stmt (stmt : Tables -> result Tables) : M Tables unit := fun t =>
  match stmt t with Ok t' => (Ok tt, t') | Err e => (Err e, t) end.

Section tables.
Context {SQ : SQL}.

(** [upsert], on the tables. *)
Definition upsert_tables (reg : Registry) : M Tables unit :=
  data ← lift (wrap_err "nameindex: marshal registry" (Registry_Marshal reg));
  _ ← lift (guard_err (MaxInt64 <? reg_Id reg) (ErrWrap "nameindex: upsert registry" (ErrPlain "uint64 values with high bit set are not supported")));
  _ ← lift (wrap_err "nameindex: upsert registry" (sql (OpExec (reg_Id reg))));
  run_stmt (fun t => wrap_err "nameindex: upsert registry" (upsert_stmt (reg_Id reg) (row_of reg data) t)).

(** [SELECT r.id, r.data FROM registries_fts f JOIN registries r ON r.id = f.rowid
    WHERE f.name_lower MATCH ? AND f.rowid >= ? ORDER BY f.rowid LIMIT ? OFFSET ?] *)
Definition fts_query (phrase : bytes) (start limit offset : Z) (t : Tables) : list (Z * Row) :=
  take (Z.to_nat limit) (drop (Z.to_nat offset)
    (omap (fun f => (fun r => (f.1, r)) <$> tab_registries t !! f.1)
      (filter (fun f => fts_match phrase f.2 = true /\ start <= f.1) (merge_sort pair_rel (tab_fts t))))).

(** The statement of [searchStmt] on the table each mode reads. *)
Definition query_tables (mode : RegistryNameMatchMode) (lower : bytes) (start limit offset : Z) (t : Tables) :
    list (Z * Row) :=
  match mode with
  | CONTAINS => fts_query (ftsPhrase lower) start limit offset t
  | _ => run_query (searchStmt mode lower) start limit offset (tab_registries t)
  end.

Definition Search_tables (mode : RegistryNameMatchMode) (query : bytes) (start limit offset : Z) :
    M Tables (list Registry * Z) :=
  match mode with
  | CONTAINS => lift (guard_err (Z.of_nat (length (runes query)) <? MinContainsQueryLen) ErrContainsTooShort)
  | _ => mret tt
  end ≫= fun _ =>
  let start := Z.min start MaxInt64 in
  let limit := Z.min limit (MaxInt64 - 1) in
  let offset := Z.min offset MaxInt64 in
  _ ← lift (wrap_err "nameindex: search" (sql OpQuery));
  rows ← gets (query_tables mode (ToLower query) start (limit + 1) offset);
  lift (scan_rows limit [] rows).
End tables.

(** ** The trigram table is current *)

(** There is one posting for each row, made from the name it has now. *)
Definition fts_current (t : Tables) : Prop :=
  tab_fts t ≡ₚ prod_map id name_lower <$> map_to_list (tab_registries t).

Lemma fts_removes {A} `{EqDecision A} (l : list A) x k :
  l ≡ₚ x :: k -> exists l', remove_one x l = Some l' /\ l' ≡ₚ k.
Proof.
  revert k. induction l as [|y l IH]; intros k Hp; [by apply Permutation_nil_cons in Hp|].
  cbn [remove_one]. case_decide as Hxy; [subst y; exists l; split; [done|]; by apply Permutation_cons_inv in Hp|].
  apply Permutation_cons_inv_r in Hp as ([|z k1] & k2 & E & Hp); injection E as <- ->; [done|].
  destruct (IH (k1 ++ k2)) as (l' & -> & Hl'); [by rewrite Permutation_middle|].
  exists (y :: l'). split; [done|]. by rewrite Hl', Hp.
Qed.

Lemma upsert_stmt_current rowid row t :
  fts_current t -> exists t', upsert_stmt rowid row t = Ok t' /\
    tab_registries t' = <[rowid := row]> (tab_registries t) /\ fts_current t'.
Proof.
  intros Hc. unfold upsert_stmt, fts_current in *. destruct (tab_registries t !! rowid) as [old|] eqn:E.
  - rewrite <- (insert_delete_id _ _ _ E) in Hc at 1. rewrite map_to_list_insert in Hc by apply lookup_delete_eq.
    destruct (fts_removes _ _ _ Hc) as (l & Hl & Hp). cbn [fire registries_fts_au exec_fts fst snd].
    cbn [prod_map id fst snd] in Hl. rewrite Hl. eexists. split; [done|]. split; [done|].
    cbn [tab_fts tab_registries]. rewrite <- insert_delete_eq, map_to_list_insert by apply lookup_delete_eq.
    rewrite Hp. by rewrite <- Permutation_cons_append.
  - eexists. split; [done|]. split; [done|]. cbn [tab_fts tab_registries].
    rewrite map_to_list_insert by done. rewrite Hc. by rewrite <- Permutation_cons_append.
Qed.

Lemma delete_stmt_current rowid t :
  fts_current t -> exists t', delete_stmt rowid t = Ok t' /\
    tab_registries t' = delete rowid (tab_registries t) /\ fts_current t'.
Proof.
  intros Hc. unfold delete_stmt. destruct (tab_registries t !! rowid) as [old|] eqn:E.
  - pose proof Hc as Hc'. unfold fts_current in Hc'. rewrite <- (insert_delete_id _ _ _ E) in Hc' at 1.
    rewrite map_to_list_insert in Hc' by apply lookup_delete_eq.
    destruct (fts_removes _ _ _ Hc') as (l & Hl & Hp). cbn [fire registries_fts_ad exec_fts fst snd].
    cbn [prod_map id fst snd] in Hl. rewrite Hl. eexists. split; [done|]. by split.
  - exists t. split; [done|]. split; [by rewrite delete_id|done].
Qed.

(** The postings in the order of their row ids are the rows in the order of theirs. *)
Lemma fts_order t : fts_current t ->
  merge_sort pair_rel (tab_fts t) = prod_map id name_lower <$> walk (tab_registries t).
Proof.
  intros Hc. rewrite <- walk_fmap. apply walk_unique.
  - etransitivity; [apply merge_sort_Permutation|]. unfold fts_current in Hc. by rewrite Hc, map_to_list_fmap.
  - apply StronglySorted_merge_sort; apply _.
Qed.

Lemma join_rows (db : DB) (P : bytes -> bool) start (l : list (Z * Row)) :
  (forall e, e ∈ l -> db !! e.1 = Some e.2) ->
  omap (fun f => (fun r => (f.1, r)) <$> db !! f.1)
    (filter (fun f => P f.2 = true /\ start <= f.1) (prod_map id name_lower <$> l))
  = filter (fun e => P (name_lower e.2) = true /\ start <= e.1) l.
Proof.
  intros Hl. induction l as [|[k r] l IH]; [done|]. cbn [fmap list_fmap prod_map id fst snd]. rewrite !filter_cons.
  cbn [fst snd]. rewrite <- IH by (intros e He; apply Hl; by right).
  pose proof (Hl (k, r) (list_elem_of_here _ _)) as Hk. cbn [fst snd] in Hk.
  case_decide; [|done]. cbn [omap list_omap fst]. by rewrite Hk.
Qed.

Section refinement.
Context {SQ : SQL}.

Lemma fts_query_rows phrase start limit offset t : fts_current t ->
  fts_query phrase start limit offset t
  = run_query (fun r => fts_match phrase (name_lower r)) start limit offset (tab_registries t).
Proof.
  intros Hc. unfold fts_query, run_query. rewrite fts_order by done. do 2 f_equal.
  apply join_rows. intros [k r] He. by apply elem_of_walk in He.
Qed.

(** The tables implement the rows: an upsert fails when the one of NameIndex.v does, and
    otherwise writes the same row and keeps the trigram table current, never corrupting
    it; and a search has the same answer, the CONTAINS mode through the trigram table. *)
Theorem tables_refine_rows t :
  fts_current t ->
  (forall reg, let '(r, t') := upsert_tables reg t in
     upsert reg (tab_registries t) = (r, tab_registries t') /\ fts_current t') /\
  (forall mode query start limit offset,
     Search_tables mode query start limit offset t
     = ((Search mode query start limit offset (tab_registries t)).1, t)).
Proof.
  intros Hc. split.
  - intros reg. unfold upsert_tables, upsert, run_stmt. cbv [mbind M_bind lift modify].
    destruct (wrap_err _ (Registry_Marshal reg)) as [data|]; [|done].
    destruct (guard_err _ _); [|done]. destruct (wrap_err _ (sql _)); [|done].
    destruct (upsert_stmt_current (reg_Id reg) (row_of reg data) t Hc) as (t' & -> & Hr & Hc').
    cbn [wrap_err]. by rewrite Hr.
  - intros mode query start limit offset. unfold Search_tables, Search.
    assert (Hq : forall a b c, query_tables mode (ToLower query) a b c t
      = run_query (searchStmt mode (ToLower query)) a b c (tab_registries t)).
    { intros. destruct mode; try done. by apply fts_query_rows. }
    destruct mode; cbv [mbind M_bind lift gets mret M_ret]; try (destruct (guard_err _ _); [|done]);
      (destruct (wrap_err _ (sql _)); [|done]); by rewrite Hq; destruct (scan_rows _ _ _).
Qed.

(** So through any sequence of upserts into a new database, the trigram table has one
    posting for each row. *)
Corollary upserts_keep_current regs :
  fts_current (fold_left (fun t reg => (upsert_tables reg t).2) regs (mkTables ∅ [])).
Proof.
  assert (Hc : fts_current (mkTables ∅ [])) by (unfold fts_current; cbn; by rewrite map_to_list_empty).
  revert Hc. generalize (mkTables ∅ []). induction regs as [|reg regs IH]; intros t Hc; [done|].
  cbn [fold_left]. apply IH. pose proof (proj1 (tables_refine_rows t Hc) reg) as Hu.
  destruct (upsert_tables reg t) as [r t']. apply Hu.
Qed.
End refinement.

(** Two registries, one of them renamed: the search finds the name it has now. *)
Example renamed_registry :
  let reg id name := mkRegistry id name [] [] [] [] in
  let t := fold_left (fun t r => (upsert_tables r t).2) [reg 1 (bs "Deeds"); reg 2 (bs "Wills"); reg 1 (bs "Land")]
             (mkTables ∅ []) in
  (Search_tables CONTAINS (bs "Lan") 0 10 0 t).1 = Ok ([reg 1 (bs "Land")], 0) /\
  (Search_tables CONTAINS (bs "eed") 0 10 0 t).1 = Ok ([], 0).
Proof. vm_compute. by split. Qed.
