(* ===== verification/IndexLife.v ===== *)
(** The life of the name index on a node: src/x/anchoring/nameindex/config.go and the
    parts of [New] in src/app/app.go that open the index, listen to commits and
    backfill it at start-up. *)

From S2P Require Import Prelude Types Rbac Keeper Proto NameIndex.

(** ** Paths: the package filepath on Unix *)

Definition slash : byte := x2f.

Definition IsAbs (path : bytes) : bool := match path with b :: _ => bool_decide (b = slash) | [] => false end.

(** The elements between slashes. *)
Fixpoint split_path (path : bytes) : list bytes :=
  match path with
  | [] => [[]]
  | b :: path' =>
      if bool_decide (b = slash) then [] :: split_path path'
      else match split_path path' with
           | e :: es => (b :: e) :: es
           | [] => [[b]]
           end
  end.

(** One element of a path added to the elements before it, the last one first:
    nothing for an empty element or a dot; two dots drop the element before, stay at
    the root, or are kept at the start of a relative path. *)
Definition clean_step (rooted : bool) (acc : list bytes) (e : bytes) : list bytes :=
  if is_empty e || bool_decide (e = bs ".") then acc
  else if bool_decide (e = bs "..") then
    match acc with
    | [] => if rooted then [] else [e]
    | x :: acc' => if bool_decide (x = bs "..") then e :: acc else acc'
    end
  else e :: acc.

Definition join_slash (es : list bytes) : bytes :=
  match es with
  | [] => []
  | e :: es' => e ++ concat (map (fun x => slash :: x) es')
  end.

Definition Clean (path : bytes) : bytes :=
  let rooted := IsAbs path in
  let es := rev (fold_left (clean_step rooted) (split_path path) []) in
  if rooted then slash :: join_slash es
  else match es with [] => bs "." | _ => join_slash es end.

(** [filepath.Join]: empty elements in front are skipped. *)
Fixpoint Join (elems : list bytes) : bytes :=
  match elems with
  | [] => []
  | e :: es => if is_empty e then Join es else Clean (join_slash (e :: es))
  end.

(** ** config.go *)

Definition TomlSection : bytes := bs "anchoring-name-index".
Definition defaultDBPath : bytes := bs "anchoring_name_index.db".

Record Config := mkConfig { Enabled : bool; DBPath : bytes }.

(** [appOpts.Get] with the casts of the values to a boolean and a string, the zero
    value for what is not set. *)
Record AppOptions := mkAppOptions { opt_bool : bytes -> bool; opt_string : bytes -> bytes }.

Definition ReadConfig (appOpts : AppOptions) (homeDir : bytes) : Config :=
  let enabled := opt_bool appOpts (TomlSection ++ bs ".enabled") in
  let dbPath := opt_string appOpts (TomlSection ++ bs ".db-path") in
  let dbPath := if is_empty dbPath then defaultDBPath else dbPath in
  let dbPath := if negb (IsAbs dbPath) then Join [homeDir; bs "data"; dbPath] else dbPath in
  mkConfig enabled dbPath.

Definition DefaultConfig : Config := mkConfig false defaultDBPath.

(** ** app.go *)

Section start.
Context {SQ : SQL}.

(** The index the keeper gets: none unless the node enables it; a file that cannot
    be opened stops the node. *)
Definition open_index (cfg : Config) (Open : bytes -> result DB) : result (option DB) :=
  if Enabled cfg then
    match Open (DBPath cfg) with
    | Ok nameIndexStore => Ok (Some nameIndexStore)
    | Err e => Err (ErrWrap "failed to open anchoring name index" e)
    end
  else Ok None.

(** After the latest version is loaded: a backfill that fails stops the node. *)
Definition start_index (loadLatest : bool) (s : KState) (index : option DB) : result (option DB) :=
  if loadLatest then
    match index with
    | None => Ok None
    | Some _ => match BackfillNameIndex s index with
                | (Ok _, index') => Ok index'
                | (Err e, _) => Err (ErrWrap "failed to backfill anchoring name index" e)
                end
    end
  else Ok index.
End start.

(** ** Paths stay under the home directory *)

Lemma split_path_app x y : exists e es, split_path y = e :: es /\
  split_path (x ++ slash :: y) = split_path x ++ split_path y.
Proof.
  destruct (split_path y) as [|e es] eqn:Ey.
  { destruct y as [|b y]; [done|]. cbn in Ey. destruct (bool_decide _); [done|]. by destruct (split_path y). }
  exists e, es. split; [done|]. rewrite <- Ey. clear. induction x as [|b x IH].
  - cbn [app]. cbn [split_path]. by rewrite bool_decide_eq_true_2.
  - cbn [app split_path]. rewrite IH. destruct (bool_decide (b = slash)); [done|].
    destruct (split_path x) eqn:E; [|done]. destruct x as [|c x]; [done|]. cbn in E.
    destruct (bool_decide _); [done|]. by destruct (split_path x).
Qed.

(** The elements a path contributes when none of them is two dots. *)
Definition plain_elems (path : bytes) : list bytes :=
  filter (fun e => e <> [] /\ e <> bs ".") (split_path path).

Lemma clean_plain rooted es acc : Forall (fun e => e <> bs "..") es ->
  fold_left (clean_step rooted) es acc = rev (filter (fun e => e <> [] /\ e <> bs ".") es) ++ acc.
Proof.
  revert acc. induction es as [|e es IH]; intros acc Hes; [done|]. apply Forall_cons in Hes as [He Hes].
  cbn [fold_left]. rewrite IH by done. unfold clean_step. rewrite filter_cons. rewrite (bool_decide_eq_false_2 (e = bs "..")) by done.
  destruct (is_empty e || bool_decide (e = bs ".")) eqn:Eb.
  - rewrite decide_False; [done|]. intros [H1 H2]. apply orb_true_iff in Eb as [Eb|Eb]; [by destruct e|].
    by apply bool_decide_eq_true in Eb.
  - apply orb_false_iff in Eb as [E1 E2]. apply bool_decide_eq_false in E2.
    rewrite decide_True by (split; [by destruct e|done]). cbn [rev]. by rewrite <- app_assoc.
Qed.

Lemma join_slash_app xs ys : xs <> [] -> join_slash (xs ++ ys) = join_slash xs ++ concat (map (fun x => slash :: x) ys).
Proof.
  destruct xs as [|x xs]; [done|]. intros _. cbn [app join_slash]. by rewrite map_app, concat_app, app_assoc.
Qed.

Definition data_dir (home : bytes) : bytes := Join [home; bs "data"].

Lemma join_data home p : IsAbs home = true -> Forall (fun e => e <> bs "..") (split_path p) ->
  Join [home; bs "data"; p] = data_dir home ++ concat (map (fun x => slash :: x) (plain_elems p)).
Proof.
  intros Ha Hp. unfold data_dir. destruct home as [|b home]; [done|]. cbn [Join is_empty].
  assert (Hab : b = slash) by (cbn in Ha; by apply bool_decide_eq_true in Ha). subst b.
  cbn [join_slash map concat]. rewrite !app_nil_r.
  set (h := slash :: home). set (d := bs "data"). change (slash :: p) with ([slash] ++ p).
  replace (h ++ (slash :: d) ++ [slash] ++ p) with (h ++ slash :: (d ++ slash :: p)) by done.
  unfold Clean. change (IsAbs (h ++ _)) with true. change (IsAbs (h ++ slash :: d)) with true. cbv iota zeta.
  destruct (split_path_app h (d ++ slash :: p)) as (_ & _ & _ & ->).
  destruct (split_path_app d p) as (_ & _ & _ & ->). destruct (split_path_app h d) as (_ & _ & _ & ->).
  change (split_path d) with [d]. rewrite !fold_left_app. cbn [fold_left].
  set (acc := fold_left (clean_step true) (split_path h) []).
  change (clean_step true acc d) with (d :: acc). rewrite clean_plain by done.
  rewrite rev_app_distr, rev_involutive. cbn [rev]. rewrite join_slash_app by (by destruct (rev acc)). done.
Qed.

(** where the index is kept.  An absolute db-path is used as it is.  A relative
    one, or none, names a file under the data directory of the node's home: when no
    element of it is two dots, the path is that directory followed by its
    elements.  The index is off unless the operator turns it on. *)
Theorem index_path opts home :
  let path := opt_string opts (TomlSection ++ bs ".db-path") in
  let cfg := ReadConfig opts home in
  Enabled cfg = opt_bool opts (TomlSection ++ bs ".enabled") /\
  (IsAbs path = true -> DBPath cfg = path) /\
  (path = [] -> IsAbs home = true -> DBPath cfg = data_dir home ++ slash :: defaultDBPath) /\
  (path <> [] -> IsAbs path = false -> IsAbs home = true -> Forall (fun e => e <> bs "..") (split_path path) ->
   DBPath cfg = data_dir home ++ concat (map (fun x => slash :: x) (plain_elems path))) /\
  Enabled DefaultConfig = false.
Proof.
  intros path cfg. unfold cfg, ReadConfig. cbn [Enabled DBPath]. fold path. split_and!; try done.
  - intros Ha. destruct path as [|b p]; [done|]. cbn [is_empty]. by rewrite Ha.
  - intros -> Hh. cbn [is_empty]. change (IsAbs defaultDBPath) with false. cbn [negb].
    rewrite join_data; [done|done|by_eval].
  - intros Hne Ha Hh Hp. destruct path as [|b p] eqn:E; [done|]. cbn [is_empty]. rewrite Ha. cbn [negb].
    by apply join_data.
Qed.

(** ** The index follows the chain *)

Section life.
Context {SQ : SQL}.

(** The database, failing now in the operations [errs] says. *)
Definition failing (errs : SqlOp -> option err) : SQL := {|
  like := like; fts_match := fts_match; fold_char := fold_char; sql_error := errs; lower_rune := lower_rune
|}.

(** The registries of a chain: numbered from one without gaps. *)
Record chain_regs (regs : gmap Z Registry) (n : Z) : Prop := {
  cr_pos : 0 <= n;
  cr_dense : forall id, is_Some (regs !! id) <-> 1 <= id <= n;
  cr_ok : forall id r, regs !! id = Some r -> indexable id r
}.

(** The registries of a block: those that come next. *)
Fixpoint next_regs (n : Z) (new : list Registry) : Prop :=
  match new with
  | [] => True
  | r :: new' => reg_Id r = n + 1 /\ indexable (n + 1) r /\ next_regs (n + 1) new'
  end.

(** A node's index over time, against the registries of the chain; the flag says
    whether the node has been following the chain without a failure since it
    started.  The database may fail differently in each step. *)
Inductive node_index : gmap Z Registry -> Z -> DB -> bool -> Prop :=
| index_created regs n : chain_regs regs n -> node_index regs n ∅ false
| index_started errs loaded s regs n db b db' :
    node_index regs n db b -> Registries s = regs -> RegistryCount s = Some n ->
    start_index (SQ := failing errs) loaded s (Some db) = Ok (Some db') ->
    node_index regs n db' (loaded || b)
| index_commit errs kvs new r regs n db b db' :
    node_index regs n db b -> registry_writes kvs = Ok new -> next_regs n new ->
    ListenCommit (SQ := failing errs) kvs db = (r, db') ->
    node_index (fold_left register new regs) (n + Z.of_nat (length new)) db' (b && is_ok r)
| index_off new regs n db b :
    node_index regs n db b -> next_regs n new ->
    node_index (fold_left register new regs) (n + Z.of_nat (length new)) db false.

Lemma chain_next regs n new : chain_regs regs n -> next_regs n new ->
  chain_regs (fold_left register new regs) (n + Z.of_nat (length new)).
Proof.
  revert regs n. induction new as [|r new IH]; intros regs n Hc Hn; cbn [fold_left length].
  { by rewrite Z.add_0_r. }
  destruct Hn as (Hid & Hix & Hn). rewrite Nat2Z.inj_succ, <- Z.add_1_l, Z.add_assoc. apply IH; [|done].
  destruct Hc as [H0 Hd Hok]. unfold register. rewrite Hid. split; [lia| |].
  - intros id. rewrite lookup_insert_is_Some, Hd. destruct (decide (n + 1 = id)); [naive_solver lia|]. split; [|lia].
    intros [?|[_ ?]]; lia.
  - intros id x [[<- <-]|[_ ?]]%lookup_insert_Some; [done|by apply Hok].
Qed.

Lemma partial_next regs n new db : partial_sync regs db -> next_regs n new ->
  (forall id, n < id -> regs !! id = None) -> partial_sync (fold_left register new regs) db.
Proof.
  intros Hp Hn. revert regs n Hp Hn. induction new as [|r new IH]; intros regs n Hp Hn Hnone; cbn [fold_left]; [done|].
  destruct Hn as (Hid & _ & Hn). apply (IH _ (n + 1)); [|done|].
  - intros id row Hr. destruct (Hp id row Hr) as (x & Hx & ->). exists x. split; [|done]. unfold register.
    rewrite lookup_insert_ne; [done|]. intros E. rewrite Hnone in Hx; [done|lia].
  - intros id Hlt. unfold register. rewrite lookup_insert_ne by lia. apply Hnone. lia.
Qed.

Lemma partial_rows new regs db : partial_sync regs db ->
  partial_sync (fold_left register new regs) (fold_left (fun db r => <[reg_Id r := index_row r]> db) new db).
Proof.
  revert regs db. induction new as [|r new IH]; intros regs db Hp; cbn [fold_left]; [done|]. apply IH.
  intros id row. unfold register. rewrite lookup_insert_Some. intros [[<- <-]|[Hne Hr]].
  - exists r. by rewrite lookup_insert_eq.
  - destruct (Hp id row Hr) as (x & Hx & ->). exists x. by rewrite lookup_insert_ne.
Qed.

Lemma next_indexable n new : next_regs n new -> Forall (fun r => indexable (reg_Id r) r) new.
Proof.
  revert n. induction new as [|r new IH]; intros n Hn; [constructor|]. destruct Hn as (Hid & Hix & Hn).
  constructor; [by rewrite Hid|by eapply IH].
Qed.

(** What a commit leaves in the index. *)
Lemma commit_rows errs kvs new r db db' : registry_writes kvs = Ok new ->
  Forall (fun r => indexable (reg_Id r) r) new -> ListenCommit (SQ := failing errs) kvs db = (r, db') ->
  db' = match r with
        | Ok _ => fold_left (fun db r => <[reg_Id r := index_row r]> db) new db
        | Err _ => db
        end.
Proof.
  intros Hw Hall. unfold ListenCommit. cbv [mbind M_bind lift]. rewrite Hw.
  destruct new as [|x new]; [by intros [= <- <-]|]. intros E. destruct r as [[]|e].
  - apply in_batch_inv in E. apply (for_each_upsert_inv (SQ := failing errs)) in E; [exact E|].
    eapply Forall_impl; [exact Hall|]. by intros y (_ & _ & ?).
  - by apply in_batch_atomic in E.
Qed.

Lemma start_rows errs s regs n db db' : chain_regs regs n -> partial_sync regs db ->
  Registries s = regs -> RegistryCount s = Some n ->
  BackfillNameIndex (SQ := failing errs) s (Some db) = (Ok tt, Some db') -> db' = index_row <$> regs.
Proof.
  intros [H0 Hd Hok] Hp Er Ec E. rewrite <- Er in Hd, Hok, Hp.
  pose proof (backfill_complete (SQ := failing errs) s n db (Ok tt) db' Ec H0 Hd Hok Hp E) as [Hrows _].
  rewrite <- Er. exact Hrows.
Qed.

(** C25: the index follows the chain.  At any time of a node's life, whatever the
    database fails to do, through restarts and through times the index is off, the
    index holds only rows of registries of the chain; and from a start that loads
    the chain on, as long as no commit fails, it holds exactly the rows of all of
    them. *)
Theorem index_follows_chain regs n db b :
  node_index regs n db b ->
  partial_sync regs db /\ (b = true -> in_sync regs db).
Proof.
  intros H. cut (chain_regs regs n /\ partial_sync regs db /\ (b = true -> db = index_row <$> regs)).
  { intros (Hc & Hp & Hb). split; [done|]. intros ->. split; [by apply Hb|apply Hc]. }
  induction H as [regs n Hc|errs loaded s regs n db b db' _ (Hc & Hp & Hb) Er Ec E
    |errs kvs new r regs n db b db' _ (Hc & Hp & Hb) Hw Hn E|new regs n db b _ (Hc & Hp & Hb) Hn].
  - split; [done|]. split; [|done]. intros id row Hr. by rewrite lookup_empty in Hr.
  - split; [done|]. unfold start_index in E. destruct loaded; [|injection E as <-; done].
    destruct (BackfillNameIndex _ _) as [[[]|] idx] eqn:Eb; [|done]. injection E as ->.
    rewrite (start_rows errs s regs n db db' Hc Hp Er Ec Eb). split; [|done].
    intros id row. rewrite lookup_fmap. destruct (regs !! id) as [x|] eqn:Ex; [|done]. intros [= <-]. eauto.
  - pose proof (chain_next regs n new Hc Hn) as Hc'. split; [done|].
    rewrite (commit_rows errs kvs new r db db' Hw (next_indexable n new Hn) E).
    destruct r as [[]|e]; cbn [is_ok].
    + split; [by apply partial_rows|]. rewrite andb_true_r. intros ->. rewrite (Hb eq_refl). apply index_fold.
    + rewrite andb_false_r. split; [|done]. apply (partial_next regs n); [done|done|].
      intros id Hlt. apply eq_None_not_Some. rewrite (cr_dense _ _ Hc). lia.
  - split; [by apply chain_next|]. split; [|done]. apply (partial_next regs n); [done|done|].
    intros id Hlt. apply eq_None_not_Some. rewrite (cr_dense _ _ Hc). lia.
Qed.
End life.

(** ** Witnesses *)

Module DemoLife.
Definition opts : AppOptions := mkAppOptions (fun _ => true) (fun _ => bs "idx/names.db").

Lemma demo_chain : chain_regs DemoIndex.regs 3.
Proof.
  split; [lia| |exact DemoIndex.demo_indexable].
  intros id. unfold DemoIndex.regs. rewrite !lookup_insert_is_Some, lookup_empty.
  split; [|destruct (decide (id = 1)), (decide (id = 2)), (decide (id = 3)); try lia; naive_solver].
  intros [<-|[_ [<-|[_ [<-|[_ []]]]]]]; lia || done.
Qed.

Definition broken (op : SqlOp) : option err := if op is OpBegin then Some (ErrPlain "disk full") else None.

Definition kv : StoreKVPair := mkPair module_StoreKey false [x01; x04] (enc_Registry (DemoIndex.reg 4 "leases")).

(** A node that enables the index on a chain of three registries, loses a commit to a
    full disk, and is restarted. *)
Definition db1 : DB := default ∅ (BackfillNameIndex DemoIndex.chain (Some ∅)).2.
Definition regs4 : gmap Z Registry := register DemoIndex.regs (DemoIndex.reg 4 "leases").
Definition chain4 : KState := set_RegistryCount (Some 4) (set_Registries regs4 empty_state).
Definition db2 : DB := default ∅ (BackfillNameIndex chain4 (Some db1)).2.

Lemma restarted : node_index regs4 4 db2 true.
Proof.
  eapply (index_started (fun _ => None) true chain4 regs4 4 db1 false); [|reflexivity|reflexivity|vm_compute; reflexivity].
  apply (index_commit broken [kv] [DemoIndex.reg 4 "leases"] (Err (ErrWrap "nameindex: begin" (ErrPlain "disk full")))
    DemoIndex.regs 3 db1 true).
  - eapply (index_started (fun _ => None) true DemoIndex.chain DemoIndex.regs 3 ∅ false);
      [apply index_created, demo_chain|reflexivity|reflexivity|vm_compute; reflexivity].
  - vm_compute. reflexivity.
  - split; [done|]. split; [|done]. split; [done|]. split; [by_eval|by vm_compute].
  - vm_compute. reflexivity.
Qed.
End DemoLife.

Lemma index_follows_chain_witness : in_sync DemoLife.regs4 DemoLife.db2.
Proof. exact (proj2 (index_follows_chain _ _ _ _ DemoLife.restarted) eq_refl). Defined.

Lemma index_path_witness : DBPath (ReadConfig DemoLife.opts (bs "/home/n")) = bs "/home/n/data/idx/names.db".
Proof.
  destruct (index_path DemoLife.opts (bs "/home/n")) as (_ & _ & _ & H & _).
  rewrite H; [vm_compute; reflexivity|done|reflexivity|reflexivity|by_eval].
Defined.

Example cleaned : map (fun p => Clean (bs p)) ["/a/./b//c/../d"; "../x/.."; ""; "/.."]
  = [bs "/a/b/d"; bs ".."; bs "."; bs "/"].
Proof. vm_compute. reflexivity. Qed.
