(* ===== verification/Query.v ===== *)
(** The query service of x/anchoring: src/x/anchoring/keeper/query.go and
    query_params.go.

    Queries read the committed store and never change it.  The pagination helper
    of the SDK that [Registries] delegates to is a parameter. *)

From S2P Require Import Prelude Types Rbac Keeper MsgServer Spec Refine Ledger Concrete Genesis Export Proto NameIndex.

Definition defaultPageLimit : Z := 50.
Definition maxPageLimit : Z := 200.

(** [query.PageRequest] and [query.PageResponse] of the SDK. *)
Record PageRequest := mkPageRequest {
  pr_Key : bytes; pr_Offset : Z; pr_Limit : Z; pr_CountTotal : bool; pr_Reverse : bool
}.
Record PageResponse := mkPageResponse { NextKey : bytes; Total : Z }.

Definition zero_PageRequest : PageRequest := mkPageRequest [] 0 0 false false.
Definition zero_PageResponse : PageResponse := mkPageResponse [] 0.

Definition sanitizePageRequest (pr : option PageRequest) (defaultLimit maxLimit : Z) : PageRequest :=
  let pageReq := default zero_PageRequest pr in
  let limit := if pr_Limit pageReq =? 0 then defaultLimit else pr_Limit pageReq in
  let limit := if maxLimit <? limit then maxLimit else limit in
  mkPageRequest (pr_Key pageReq) (pr_Offset pageReq) limit false (pr_Reverse pageReq).

Record QueryRecordsRequest := mkQueryRecords {
  qr_Checksum : bytes; qr_RegistryId : Z; qr_RecordId : Z; qr_Index : Z;
  qr_Pagination : option PageRequest
}.
Record QueryRecordsResponse := mkRecordsResponse {
  qrr_Records : list Record_; qrr_Pagination : option PageResponse
}.

Definition InvalidArgument (msg : string) : err := ErrStatus "InvalidArgument" msg.

(** The local type [paginator] and the closure [step] of [Records]. *)
Record paginator := mkPaginator { p_offset : Z; p_limit : Z; p_seen : Z; p_collected : Z }.

Definition newPaginator (pr : option PageRequest) : paginator :=
  let pageReq := sanitizePageRequest pr defaultPageLimit maxPageLimit in
  mkPaginator (pr_Offset pageReq) (pr_Limit pageReq) 0 0.

(** (include, stop) and the paginator afterwards. *)
Definition step (p : paginator) : bool * bool * paginator :=
  if p_seen p <? p_offset p then
    (false, false, mkPaginator (p_offset p) (p_limit p) (p_seen p + 1) (p_collected p))
  else if p_collected p <? p_limit p then
    let p' := mkPaginator (p_offset p) (p_limit p) (p_seen p + 1) (p_collected p + 1) in
    if p_collected p' =? p_limit p' then (true, true, p') else (true, false, p')
  else (false, true, p).

(** The variables a walk callback closes over: the paginator and the slice. *)
Definition paged {K V A} (pick : K -> V -> result A) (k : K) (v : V) : M (paginator * list A) bool :=
  fun st =>
    let '(incl, stop, p') := step st.1 in
    if (incl : bool) then
      match pick k v with
      | Ok a => (Ok stop, (p', st.2 ++ [a]))
      | Err e => (Err e, (p', st.2))
      end
    else (Ok stop, (p', st.2)).

Definition page_walk {K V A} (pick : K -> V -> result A) (l : list (K * V)) (p : paginator) :
    result (list A) :=
  match walk_cb (paged pick) l (p, []) with
  | (Ok _, (_, out)) => Ok out
  | (Err e, _) => Err e
  end.

Definition page_response (pr : option PageRequest) : option PageResponse :=
  match pr with Some _ => Some zero_PageResponse | None => None end.

Definition get {A} (o : option A) : result A := of_option o ErrCollNotFound.

Fixpoint map_result {A B} (f : A -> result B) (l : list A) : result (list B) :=
  match l with
  | [] => Ok []
  | x :: l' => y ← f x; ys ← map_result f l'; Ok (y :: ys)
  end.

Section query.
Context {ENV : Env}.

Definition Records_by_id (s : KState) (registryId recordId index : Z) : result QueryRecordsResponse :=
  index ← (if index =? 0 then get (RecordIndices s !! (registryId, recordId)) else Ok index);
  record ← get (Keeper.Records s !! (registryId, recordId, index));
  Ok (mkRecordsResponse [record] None).

Definition Records_by_registry (s : KState) (registryId : Z) (pr : option PageRequest) :
    result QueryRecordsResponse :=
  records ← page_walk (fun (key : Z * Z) index => get (Keeper.Records s !! (registryId, key.2, index)))
              (prefixed registryId (walk (RecordIndices s))) (newPaginator pr);
  Ok (mkRecordsResponse records (page_response pr)).

Definition Records_by_checksum (s : KState) (checksum : bytes) (pr : option PageRequest) :
    result QueryRecordsResponse :=
  _ ← guard_err (negb (key_string_ok checksum)) ErrCollEncoding;
  selected ← page_walk (fun (key : bytes * Z) recordId => Ok (key.2, recordId))
               (prefixed checksum (walk (RecordIdByChecksumAndRegistry s))) (newPaginator pr);
  records ← map_result (fun pair : Z * Z =>
      index ← get (RecordIndices s !! pair);
      get (Keeper.Records s !! (pair.1, pair.2, index))) selected;
  Ok (mkRecordsResponse records (page_response pr)).

Definition Records_all (s : KState) (pr : option PageRequest) : result QueryRecordsResponse :=
  records ← page_walk (fun (key : Z * Z) index => get (Keeper.Records s !! (key.1, key.2, index)))
              (walk (RecordIndices s)) (newPaginator pr);
  Ok (mkRecordsResponse records (page_response pr)).

Definition Query_Records (req : option QueryRecordsRequest) (s : KState) : result QueryRecordsResponse :=
  let req := default (mkQueryRecords [] 0 0 0 None) req in
  let registryId := qr_RegistryId req in
  let checksum := qr_Checksum req in
  _ ← guard_err (negb (qr_RecordId req =? 0) && (registryId =? 0))
        (InvalidArgument "record_id requires registry_id");
  _ ← guard_err (negb (qr_Index req =? 0)
                 && ((registryId =? 0) || ((qr_RecordId req =? 0) && is_empty checksum)))
        (InvalidArgument "index requires registry_id and either record_id or checksum");
  recordId ← (if (qr_RecordId req =? 0) && negb (is_empty checksum) && negb (registryId =? 0)
              then get (RecordIdByRegistryAndChecksum s !! (registryId, checksum))
              else Ok (qr_RecordId req));
  if negb (registryId =? 0) && negb (recordId =? 0) then Records_by_id s registryId recordId (qr_Index req)
  else if negb (registryId =? 0) && (recordId =? 0) then Records_by_registry s registryId (qr_Pagination req)
  else if negb (is_empty checksum) && (registryId =? 0) then Records_by_checksum s checksum (qr_Pagination req)
  else Records_all s (qr_Pagination req).

Record QueryRegistriesRequest := mkQueryRegistries {
  qreg_RegistryId : Z; qreg_Pagination : option PageRequest
}.

Record QueryRegistryRequest := mkQueryRegistry { qry_Id : Z }.

(** [query.CollectionPaginate] over the registries. *)
Context (CollectionPaginate : list (Z * Registry) -> PageRequest -> result (list Registry * PageResponse)).

Definition Query_Registries (req : QueryRegistriesRequest) (s : KState) :
    result (list Registry * option PageResponse) :=
  if negb (qreg_RegistryId req =? 0) then
    registry ← get (Registries s !! qreg_RegistryId req);
    Ok ([registry], None)
  else
    let pageReq := sanitizePageRequest (qreg_Pagination req) defaultPageLimit maxPageLimit in
    out ← CollectionPaginate (walk (Registries s)) pageReq;
    Ok (out.1, Some out.2).

Definition Query_Registry (id : Z) (s : KState) : result Registry :=
  _ ← guard_err (id =? 0) (InvalidArgument "id must be provided");
  get (Registries s !! id).

Record QuerySearchRequest := mkQuerySearch {
  qs_Name : bytes; qs_Mode : RegistryNameMatchMode; qs_Pagination : option PageRequest
}.

Definition is_contains_too_short (e : err) : bool :=
  match e, ErrContainsTooShort with
  | ErrPlain m, ErrPlain m' => String.eqb m m'
  | _, _ => false
  end.

Definition SearchRegistriesByName {SQ : SQL} (index : option DB) (req : option QuerySearchRequest) :
    result (list Registry * option PageResponse) :=
  match index with
  | None => Err (ErrStatus "FailedPrecondition" "registry name index is not enabled on this node")
  | Some db =>
      req ← of_option (r ← req; if is_empty (qs_Name r) then None else Some r)
              (InvalidArgument "name must be provided");
      let pageReq := sanitizePageRequest (qs_Pagination req) defaultPageLimit maxPageLimit in
      start ← (if negb (is_empty (pr_Key pageReq)) then
                 _ ← guard_err (negb (pr_Offset pageReq =? 0))
                       (InvalidArgument "pagination: either offset or key is expected, got both");
                 _ ← guard_err (negb (blen (pr_Key pageReq) =? 8))
                       (InvalidArgument "pagination: invalid key");
                 Ok (be_value (pr_Key pageReq))
               else Ok 0);
      match (Search (qs_Mode req) (qs_Name req) start (pr_Limit pageReq) (pr_Offset pageReq) db).1 with
      | Err e => if is_contains_too_short e then Err (InvalidArgument "contains query too short")
                 else Err (ErrStatus "Internal" "search")
      | Ok (registries, next) =>
          let pageRes := match qs_Pagination req with
                         | Some _ => Some zero_PageResponse
                         | None => if next =? 0 then None else Some zero_PageResponse
                         end in
          let pageRes := if next =? 0 then pageRes
                         else (fun r => mkPageResponse (be_bytes 8 next) (Total r)) <$> pageRes in
          Ok (registries, pageRes)
      end
  end.

Definition Query_Params (req : option unit) (s : KState) : result Params :=
  match req with
  | None => Err (InvalidArgument "invalid request")
  | Some _ => of_option (k_Params s) (ErrStatus "NotFound" "not found")
  end.
End query.

(** ** Pagination *)

Lemma sanitize_limit pr :
  (forall p, pr = Some p -> 0 <= pr_Limit p) ->
  1 <= pr_Limit (sanitizePageRequest pr defaultPageLimit maxPageLimit) <= maxPageLimit.
Proof.
  intros Hp. unfold sanitizePageRequest, defaultPageLimit, maxPageLimit. simpl.
  assert (0 <= pr_Limit (default zero_PageRequest pr)) by (destruct pr; [by apply Hp|done]).
  destruct (Z.eqb_spec (pr_Limit (default zero_PageRequest pr)) 0); [done|].
  destruct (Z.ltb_spec 200 (pr_Limit (default zero_PageRequest pr))); lia.
Qed.

Section paging.
Context {K V A : Type} (pick : K -> V -> result A) (f : K * V -> A).

Lemma paged_walk l off lim seen coll out :
  0 <= seen -> 0 <= coll < lim -> (seen < off -> coll = 0) ->
  (forall e, e ∈ l -> pick e.1 e.2 = Ok (f e)) ->
  exists p', walk_cb (paged pick) l (mkPaginator off lim seen coll, out)
  = (Ok tt, (p', out ++ (f <$> take (Z.to_nat (lim - coll)) (drop (Z.to_nat (off - seen)) l)))).
Proof.
  revert seen coll out. induction l as [|[k v] l IH]; intros seen coll out Hs Hc Hsc Hp.
  { eexists. simpl. by rewrite drop_nil, take_nil, app_nil_r. }
  assert (Hp' : forall e, e ∈ l -> pick e.1 e.2 = Ok (f e)) by (intros e He; apply Hp; by right).
  cbn [walk_cb]. cbv [mbind M_bind]. unfold paged at 1. unfold step. cbn [fst snd p_offset p_limit p_seen p_collected].
  destruct (Z.ltb_spec seen off) as [Hlt|Hge].
  - destruct (IH (seen + 1) coll out) as [p' E]; [lia|lia|intros; by apply Hsc|done|]. rewrite E. exists p'.
    replace (Z.to_nat (off - seen)) with (S (Z.to_nat (off - (seen + 1)))) by lia. done.
  - rewrite (proj2 (Z.ltb_lt coll lim)) by lia. replace (Z.to_nat (off - seen)) with 0%nat by lia.
    pose proof (Hp (k, v) ltac:(by left)) as Hkv. simpl in Hkv.
    destruct (Z.eqb_spec (coll + 1) lim) as [<-|Hne]; rewrite Hkv.
    + eexists. simpl. replace (Z.to_nat (coll + 1 - coll)) with 1%nat by lia. done.
    + destruct (IH (seen + 1) (coll + 1) (out ++ [f (k, v)])) as [p' E]; [lia|lia|lia|done|].
      rewrite E. exists p'. replace (Z.to_nat (lim - coll)) with (S (Z.to_nat (lim - (coll + 1)))) by lia.
      replace (Z.to_nat (off - (seen + 1))) with 0%nat by lia. simpl. by rewrite <- app_assoc.
Qed.

(** A walk with the closure [step] collects one slice of the entries. *)
Lemma page_walk_ok l pr :
  (forall p, pr = Some p -> 0 <= pr_Limit p) ->
  (forall e, e ∈ l -> pick e.1 e.2 = Ok (f e)) ->
  let pageReq := sanitizePageRequest pr defaultPageLimit maxPageLimit in
  page_walk pick l (newPaginator pr)
  = Ok (f <$> take (Z.to_nat (pr_Limit pageReq)) (drop (Z.to_nat (pr_Offset pageReq)) l)).
Proof.
  intros Hpr Hp pageReq. pose proof (sanitize_limit pr Hpr) as Hl.
  fold pageReq in Hl. unfold page_walk, newPaginator.
  destruct (paged_walk l (pr_Offset pageReq) (pr_Limit pageReq) 0 0 []) as [p' E]; [lia|lia|lia|done|].
  fold pageReq. rewrite E. simpl. by rewrite !Z.sub_0_r.
Qed.
End paging.

Lemma map_result_ok {A B} (g : A -> result B) (h : A -> B) l :
  (forall x, x ∈ l -> g x = Ok (h x)) -> map_result g l = Ok (h <$> l).
Proof.
  induction l as [|x l IH]; intros Hl; [done|]. simpl. cbv [mbind result_bind].
  rewrite (Hl x) by (by left). rewrite IH; [done|]. intros y Hy. apply Hl. by right.
Qed.

(** ** The latest versions *)

(** The version an entry of the index table points to. *)
Definition latest_at (s : KState) (e : Z * Z * Z) : Record_ := default zero_Record (Keeper.Records s !! e).

(** What a page request asks for: so many entries are skipped, and at most so many are
    answered, 50 when the request does not say and never more than 200. *)
Definition skipped (pr : option PageRequest) : Z := match pr with Some q => pr_Offset q | None => 0 end.
Definition asked (pr : option PageRequest) : Z :=
  match pr with
  | Some q => if decide (pr_Limit q = 0) then 50 else Z.min (pr_Limit q) 200
  | None => 50
  end.

Lemma sanitize_asked pr :
  let pageReq := sanitizePageRequest pr defaultPageLimit maxPageLimit in
  pr_Limit pageReq = asked pr /\ pr_Offset pageReq = skipped pr.
Proof.
  destruct pr as [q|]; [|done]. split; [|done]. unfold sanitizePageRequest, asked, defaultPageLimit, maxPageLimit. simpl.
  destruct (Z.eqb_spec (pr_Limit q) 0); [by rewrite decide_True|]. rewrite decide_False by done.
  destruct (Z.ltb_spec 200 (pr_Limit q)); lia.
Qed.

Section latest.
Context (s : KState) (Hcs : consistent s).

Lemma index_entry gk top : RecordIndices s !! gk = Some top ->
  exists x, Keeper.Records s !! (gk, top) = Some x /\ latest_at s (gk, top) = x /\
    rec_IsLatest x = true /\ record_gk x = gk.
Proof.
  intros Ht. destruct (cs_top _ Hcs _ _ Ht) as (H1 & Hall & Hlat).
  destruct (proj2 (Hall top) ltac:(lia)) as [x Hx]. exists x. unfold latest_at. rewrite Hx.
  split_and!; [done|done|by apply (Hlat top x)|].
  pose proof (cs_rk _ Hcs _ _ Hx) as E. unfold record_rk, record_gk in *. destruct gk. congruence.
Qed.

Lemma indices_pick (l : list (Z * Z * Z)) (g : Z * Z * Z -> Z * Z * Z) :
  (forall e, e ∈ l -> RecordIndices s !! e.1 = Some e.2 /\ g e = e) ->
  forall e, e ∈ l -> get (Keeper.Records s !! g e) = Ok (latest_at s e).
Proof.
  intros Hl [gk top] He. destruct (Hl _ He) as [Ht ->]. destruct (index_entry gk top Ht) as (x & Hx & Hlx & _).
  unfold get. by rewrite Hx, Hlx.
Qed.
End latest.

(** The entries of one registry in the index table are ordered by record id. *)
Lemma prefixed_sorted (s : KState) id :
  StronglySorted (fun e f : Z * Z * Z => e.1.2 < f.1.2) (prefixed id (walk (RecordIndices s))).
Proof.
  pose proof (walk_sorted (RecordIndices s)) as Hs. pose proof (walk_NoDup_fst (RecordIndices s)) as Hnd.
  unfold prefixed. induction Hs as [|e l Hs IH Hf]; [constructor|].
  rewrite fmap_cons, NoDup_cons in Hnd. destruct Hnd as [He Hnd]. rewrite filter_cons.
  case_decide as Hid; [|by apply IH]. constructor; [by apply IH|].
  rewrite Forall_forall in Hf |- *. intros f [Hid' Hin]%list_elem_of_filter. specialize (Hf f Hin).
  unfold pair_rel in Hf. simpl in Hf. unfold lex_leb in Hf.
  rewrite decide_True in Hf by congruence. simpl in Hf. apply Z.leb_le in Hf.
  assert (e.1.2 <> f.1.2); [|lia]. intros E. apply He.
  assert (e.1 = f.1) as ->; [|by apply list_elem_of_fmap_2].
  destruct e as [[? ?] ?], f as [[? ?] ?]. simpl in *. congruence.
Qed.

(** ** Properties *)

Section properties.
Context {ENV : Env} {LAWS : EnvLaws}.

(** C26: a registry is listed by its latest versions.  On every reachable store the
    registry filter, asked by offset and limit, answers one page of the latest versions
    of that registry's records in the order of their record ids: all of them are listed,
    no stale version and no record of another registry is, [offset] of them are skipped,
    and the page has at most [limit] entries, 50 when no limit is given and never more
    than 200. *)
Theorem query_registry_page p txs id pr :
  good_trace p txs -> id <> 0 ->
  (forall q, pr = Some q -> pr_Key q = [] /\ pr_Reverse q = false /\ 0 <= pr_Limit q) ->
  let s := deliver_all txs (genesis_store p) in
  exists resp (latest : list Record_),
    Query_Records (Some (mkQueryRecords [] id 0 0 pr)) s = Ok resp /\
    (forall x, x ∈ latest <-> exists k, Keeper.Records s !! k = Some x /\
       rec_RegistryId x = id /\ rec_IsLatest x = true) /\
    StronglySorted (fun x y => rec_RecordId x < rec_RecordId y) latest /\
    qrr_Records resp = take (Z.to_nat (asked pr)) (drop (Z.to_nat (skipped pr)) latest).
Proof.
  intros Hg Hid Hpr s. pose proof (consistent_reachable p txs Hg) as Hcs. fold s in Hcs.
  set (l := prefixed id (walk (RecordIndices s))).
  assert (Hin : forall e, e ∈ l <-> RecordIndices s !! e.1 = Some e.2 /\ e.1.1 = id).
  { intros [k v]. unfold l, prefixed. rewrite list_elem_of_filter, elem_of_walk. simpl. tauto. }
  assert (Hent : forall e, e ∈ l -> exists x, Keeper.Records s !! e = Some x /\ latest_at s e = x /\
    rec_IsLatest x = true /\ record_gk x = e.1).
  { intros [gk top] [Ht _]%Hin. by apply index_entry. }
  eexists (mkRecordsResponse _ (page_response pr)), (latest_at s <$> l). split_and!.
  - unfold Query_Records. cbn [default from_option Datatypes.id qr_RegistryId qr_Checksum qr_RecordId qr_Index qr_Pagination is_empty].
    unfold guard_err. rewrite (proj2 (Z.eqb_neq id 0)) by done. simpl.
    unfold Records_by_registry. cbv [mbind result_bind]. fold l.
    rewrite (page_walk_ok _ (latest_at s)); [done|naive_solver|].
    intros e He. pose proof He as [Ht <-]%Hin.
    apply (indices_pick s Hcs l (fun e => (e.1.1, e.1.2, e.2))); [|done].
    intros [[a b] c] Hx. by apply Hin in Hx as [? ?].
  - intros x. rewrite list_elem_of_fmap. split.
    + intros (e & -> & He). destruct (Hent e He) as (x & Hx & -> & Hlat & Hgk). exists e.
      split_and!; try done. apply Hin in He as [_ <-]. by rewrite <- Hgk.
    + intros ([gk i] & Hx & Hreg & Hlat). pose proof (cs_rk _ Hcs _ _ Hx) as E.
      destruct (cs_indexed _ Hcs gk i) as [top Ht]; [by eexists|].
      destruct (cs_top _ Hcs _ _ Ht) as (_ & _ & Hl). apply (Hl i x) in Hx as Hi. apply Hi in Hlat as ->.
      exists (gk, top). unfold latest_at. rewrite Hx. split; [done|]. apply Hin. split; [done|].
      unfold record_rk in E. simpl. destruct gk. simpl. congruence.
  - assert (Hss := prefixed_sorted s id). fold l in Hss.
    assert (Hrid : forall e, e ∈ l -> rec_RecordId (latest_at s e) = e.1.2).
    { intros e He. destruct (Hent e He) as (x & _ & -> & _ & Hgk). by rewrite <- Hgk. }
    clear Hin Hent. induction Hss as [|e k Hs IH Hf]; [constructor|]. rewrite fmap_cons. constructor.
    + apply IH. intros f Hf'. apply Hrid. by right.
    + apply Forall_fmap, Forall_forall. intros f Hf'. simpl. rewrite !Hrid by (by left || by right).
      rewrite Forall_forall in Hf. by apply Hf.
  - destruct (sanitize_asked pr) as [-> ->]. simpl. by rewrite fmap_take, fmap_drop.
Qed.

(** a document is found by its checksum.  The filter (registry, checksum)
    answers the latest version of the record with that checksum when the registry
    has one, and the collections' not-found error when it has none. *)
Theorem query_checksum_lookup p txs id c pr :
  good_trace p txs -> id <> 0 -> c <> [] ->
  let s := deliver_all txs (genesis_store p) in
  match Query_Records (Some (mkQueryRecords c id 0 0 pr)) s with
  | Ok resp => exists x, resp = mkRecordsResponse [x] None /\
      rec_RegistryId x = id /\ rec_Checksum x = c /\ rec_IsLatest x = true /\
      Keeper.Records s !! record_rk x = Some x
  | Err e => e = ErrCollNotFound /\
      forall k x, Keeper.Records s !! k = Some x -> rec_RegistryId x = id -> rec_Checksum x <> c
  end.
Proof.
  intros Hg Hid Hc s. pose proof (consistent_reachable p txs Hg) as Hcs. fold s in Hcs.
  unfold Query_Records. cbn [default from_option Datatypes.id qr_RegistryId qr_Checksum qr_RecordId qr_Index qr_Pagination].
  assert (is_empty c = false) as -> by (by destruct c).
  rewrite (proj2 (Z.eqb_neq id 0)) by done. unfold guard_err. cbn [negb andb orb Z.eqb]. cbv [mbind result_bind].
  unfold get. destruct (RecordIdByRegistryAndChecksum s !! (id, c)) as [rid|] eqn:Erc; cbn [of_option].
  - apply (cs_byRC _ Hcs) in Erc as (i & x & Hx & Hck).
    destruct (cs_indexed _ Hcs (id, rid) i) as [top Ht]; [by eexists|].
    destruct (index_entry s Hcs _ _ Ht) as (y & Hy & _ & Hlat & Hgk).
    assert (rid <> 0).
    { destruct (cs_registry _ Hcs id rid) as [reg Hreg]; [by eexists|].
      destruct (proj2 (cs_counted _ Hcs id)) as [m Hm]; [by eexists|].
      destruct (cs_reccount _ Hcs _ _ Hm) as [_ Hr]. assert (1 <= rid <= m) by (apply Hr; by eexists). lia. }
    rewrite (proj2 (Z.eqb_neq rid 0)) by done. cbn [negb].
    unfold Records_by_id, get. simpl. rewrite Ht. cbn [of_option]. cbv [mbind result_bind].
    rewrite Hy. cbn [of_option]. exists y. unfold record_gk in Hgk. simplify_eq. split_and!; try done.
    + destruct (index_facts p txs (rec_RegistryId y) (rec_RecordId y) [] Hg) as (_ & _ & Hsame & _).
      simpl in Hsame. by apply (Hsame top i).
    + pose proof (cs_rk _ Hcs _ _ Hy) as E. by rewrite E.
  - split; [done|]. intros [[a b] i] x Hx <- <-. pose proof (cs_rk _ Hcs _ _ Hx) as E.
    unfold record_rk in E. simplify_eq.
    assert (Hs : RecordIdByRegistryAndChecksum s !! (rec_RegistryId x, rec_Checksum x) = Some (rec_RecordId x)).
    { apply (cs_byRC _ Hcs). eauto. }
    congruence.
Qed.
End properties.

Lemma query_registry_page_witness :
  let pr := Some (mkPageRequest [] 0 7 false false) in
  let s := deliver_all Demo.trace (genesis_store Demo.params) in
  exists resp (latest : list Record_),
    Query_Records (Some (mkQueryRecords [] 1 0 0 pr)) s = Ok resp /\
    (forall x, x ∈ latest <-> exists k, Keeper.Records s !! k = Some x /\
       rec_RegistryId x = 1 /\ rec_IsLatest x = true) /\
    StronglySorted (fun x y => rec_RecordId x < rec_RecordId y) latest /\
    qrr_Records resp = take (Z.to_nat (asked pr)) (drop (Z.to_nat (skipped pr)) latest).
Proof.
  refine (query_registry_page Demo.params Demo.trace 1 (Some (mkPageRequest [] 0 7 false false)) demo_good _ _).
  - done.
  - intros q [= <-]. done.
Defined.

Lemma query_checksum_lookup_witness :
  match Query_Records (Some (mkQueryRecords (bs "abc123") 1 0 0 None))
          (deliver_all Demo.trace (genesis_store Demo.params)) with
  | Ok resp => exists x, resp = mkRecordsResponse [x] None /\
      rec_RegistryId x = 1 /\ rec_Checksum x = bs "abc123" /\ rec_IsLatest x = true /\
      Keeper.Records (deliver_all Demo.trace (genesis_store Demo.params)) !! record_rk x = Some x
  | Err e => e = ErrCollNotFound /\
      forall k x, Keeper.Records (deliver_all Demo.trace (genesis_store Demo.params)) !! k = Some x ->
        rec_RegistryId x = 1 -> rec_Checksum x <> bs "abc123"
  end.
Proof. apply (query_checksum_lookup Demo.params Demo.trace 1 (bs "abc123") None demo_good); done. Defined.
