(* ===== verification/Tax.v ===== *)
(** The tax module: src/x/tax (keeper/keeper.go, keeper/msg_update_params.go,
    keeper/query_params.go, module/abci.go, module/genesis.go, types/params.go,
    types/genesis.go, types/msg_update_params.go).

    At the end of each block a fraction of the collected fees is sent to the tax
    address.  The decimal arithmetic and the bank module are libraries the code
    calls: they are the classes [Decimal] and [Bank]. *)

From S2P Require Import Prelude Types MsgServer Keeper Concrete.

(** ** Libraries *)

(** A [math.LegacyDec] is an integer number of 10^-18. *)
Definition dec_unit : Z := 10 ^ 18.
Abbreviation Dec := Z (only parsing).

(** [LegacyNewDecFromStr], [String] and [Mul] of [LegacyDec], and the truncation
    [TruncateDecimal] applies to each coin. *)
Class Decimal := {
  LegacyNewDecFromStr : bytes -> option Z;
  Dec_String : Z -> bytes;
  Dec_Mul : Z -> Z -> Z;
  Dec_Truncate : Z -> Z
}.

(** A printed decimal is read back, a product is rounded to the nearest unit, and
    truncation of a decimal that is not negative drops its fraction. *)
Class DecimalLaws `{Decimal} := {
  Dec_roundtrip : forall d, LegacyNewDecFromStr (Dec_String d) = Some d;
  Dec_Mul_nearest : forall a b, 2 * Z.abs (Dec_Mul a b * dec_unit - a * b) <= dec_unit;
  Dec_Truncate_floor : forall d, 0 <= d -> Dec_Truncate d = d / dec_unit
}.

(** [sdk.Coins]: the amounts by denomination. *)
Abbreviation Coins := (gmap bytes Z).

Definition amount (c : Coins) (denom : bytes) : Z := default 0 (c !! denom).

(** The bank keeper and the account keeper the module is given. *)
Class Bank := {
  BankState : Type;
  GetAllBalances : BankState -> bytes -> Coins;
  SendCoinsFromModuleToAccount : bytes -> bytes -> Coins -> BankState -> result BankState;
  BlockedAddr : bytes -> bool;
  ModuleAddress : bytes -> bytes;
  Coins_String : gmap bytes Z -> bytes
}.

(** What the module relies on of the bank: balances are positive amounts; a
    transfer that succeeds moves exactly the coins; the fee collector, which no send
    restriction holds back, can send positive amounts that it has to a recipient that
    is not blocked. *)
Class BankLaws `{Bank} := {
  balances_positive : forall b a denom v, GetAllBalances b a !! denom = Some v -> 0 < v;
  send_moves : forall m to c b b', SendCoinsFromModuleToAccount m to c b = Ok b' ->
    forall a denom, amount (GetAllBalances b' a) denom =
      amount (GetAllBalances b a) denom
      - (if decide (a = ModuleAddress m) then amount c denom else 0)
      + (if decide (a = to) then amount c denom else 0);
  send_succeeds : forall to c b, BlockedAddr to = false ->
    (forall denom v, c !! denom = Some v ->
       0 < v <= amount (GetAllBalances b (ModuleAddress (bs "fee_collector"))) denom) ->
    exists b', SendCoinsFromModuleToAccount (bs "fee_collector") to c b = Ok b'
}.

(** ** types/params.go, types/msg_update_params.go, types/genesis.go *)

Record Params := mkTaxParams { Tax : Dec; TaxAddress : bytes }.

Record MsgUpdateParams := mkTaxUpdate { tu_Authority : bytes; tu_Tax : bytes; tu_TaxAddress : bytes }.

Definition MaxTax : Dec := dec_unit.
Definition DefaultTaxAddress : bytes := bs "nvnm15m77x4pe6w9vtpuqm22qxu0ds7vn4ehzxt8qca".

Section tax.
Context {ENV : Env} {DEC : Decimal} {BANK : Bank}.

(** [ValidateTax] of a string; the call sites pass strings only. *)
Definition ValidateTax (v : bytes) : result unit :=
  tax ← of_option (LegacyNewDecFromStr v) (ErrPlain "invalid tax");
  _ ← guard_err (tax <? 0) (ErrPlain "tax cannot be negative");
  guard_err (MaxTax <? tax) (ErrPlain "tax cannot exceed maximum").

Definition ValidateTaxAddress (address : bytes) : result unit :=
  check_address "tax address" address.

Definition Params_Validate (p : Params) : result unit :=
  _ ← ValidateTax (Dec_String (Tax p));
  ValidateTaxAddress (TaxAddress p).

Definition MsgUpdateParams_ValidateBasic (msg : MsgUpdateParams) : result unit :=
  _ ← check_address "authority address" (tu_Authority msg);
  _ ← (if is_empty (tu_Tax msg) then Ok tt else
         tax ← of_option (LegacyNewDecFromStr (tu_Tax msg)) (ErrPlain "invalid tax");
         _ ← guard_err (tax <? 0) (ErrPlain "tax cannot be negative");
         guard_err (MaxTax <? tax) (ErrPlain "tax cannot exceed maximum"));
  if is_empty (tu_TaxAddress msg) then Ok tt else
    _ ← of_option (AccAddressFromBech32 (tu_TaxAddress msg)) (ErrWrap "invalid tax address" ErrBech32);
    Ok tt.

(** ** The keeper *)

Record TaxState := mkTax {
  tax_Params : option Params;
  bank : BankState;
  tax_events : list Event
}.

Definition feeCollectorName : bytes := bs "fee_collector".

(** [feesCollected.MulDec(tax).TruncateDecimal()]: coins that come to zero are
    dropped. *)
Definition tax_coins (fees : Coins) (tax : Dec) : Coins :=
  filter (fun e => e.2 <> 0) ((fun v => Dec_Truncate (Dec_Mul (v * dec_unit) tax)) <$> fees).

Definition AllocateTax (tax : Dec) (taxAddress : bytes) : M TaxState unit :=
  feesCollected ← gets (fun s => GetAllBalances (bank s) (ModuleAddress feeCollectorName));
  _ ← lift (guard_err ((tax <? 0) || (MaxTax <? tax)) (ErrPlain "invalid tax"));
  let taxAllocation := tax_coins feesCollected tax in
  if bool_decide (taxAllocation = ∅) then mret tt else
  _ ← (fun s => match SendCoinsFromModuleToAccount feeCollectorName taxAddress taxAllocation (bank s) with
                | Ok b => (Ok tt, mkTax (tax_Params s) b (tax_events s))
                | Err e => (Err e, s)
                end);
  modify (fun s => mkTax (tax_Params s) (bank s)
    (tax_events s ++ [mkEvent "tax_amount"
       [("amount", Coins_String taxAllocation); ("recipient", AccAddress_String taxAddress)]])).

(** module/abci.go *)
Definition EndBlocker (ctx : Ctx) : M TaxState unit :=
  params ← (fun s => (of_option (tax_Params s) ErrCollNotFound, s));
  if Tax params =? 0 then mret tt else
  if 1 <? BlockHeight ctx then
    taxAddress ← lift (of_option (AccAddressFromBech32 (TaxAddress params)) ErrBech32);
    AllocateTax (Tax params) taxAddress
  else mret tt.

(** keeper/msg_update_params.go *)
Definition UpdateParams (req : option MsgUpdateParams) : M TaxState unit :=
  req ← lift (of_option req empty_request);
  _ ← lift (invalid_request (MsgUpdateParams_ValidateBasic req));
  _ ← lift (of_option (StringToBytes (tu_Authority req)) (ErrWrap "invalid authority address" ErrBech32));
  params ← (fun s => (of_option (tax_Params s) ErrCollNotFound, s));
  _ ← lift (guard_err (negb (bool_decide (tu_Authority req = TaxAddress params))) ErrInvalidSigner);
  updateParams ← (fun s => (of_option (tax_Params s) ErrCollNotFound, s));
  updateParams ← lift (if is_empty (tu_Tax req) then Ok updateParams else
    t ← of_option (LegacyNewDecFromStr (tu_Tax req)) (ErrPlain "decimal string");
    _ ← guard_err (MaxTax <? t) (ErrPlain "tax cannot exceed maximum");
    Ok (mkTaxParams t (TaxAddress updateParams)));
  updateParams ← lift (if is_empty (tu_TaxAddress req) then Ok updateParams else
    taxAddr ← of_option (StringToBytes (tu_TaxAddress req)) (ErrWrap "invalid tax address" ErrBech32);
    _ ← guard_err (BlockedAddr taxAddr) (ErrPlain "tax address is blocked");
    Ok (mkTaxParams (Tax updateParams) (tu_TaxAddress req)));
  _ ← lift (Params_Validate updateParams);
  modify (fun s => mkTax (Some updateParams) (bank s) (tax_events s)).

(** keeper/query_params.go: the parameters and the maximum. *)
Definition QueryParams (req : option unit) (s : TaxState) : result (Params * Dec) :=
  match req with
  | None => Err (ErrStatus "InvalidArgument" "invalid request")
  | Some _ => match tax_Params s with
              | Some p => Ok (p, MaxTax)
              | None => Err (ErrStatus "NotFound" "not found")
              end
  end.

(** module/genesis.go *)
Definition InitGenesis (p : Params) : M TaxState unit :=
  modify (fun s => mkTax (Some p) (bank s) (tax_events s)).
Definition ExportGenesis (s : TaxState) : result Params := of_option (tax_Params s) ErrCollNotFound.
Definition GenesisState_Validate (p : Params) : result unit := Params_Validate p.
End tax.

(** ** The amount *)

Section amounts.
Context {DEC : Decimal} {DL : DecimalLaws}.

Lemma Dec_Mul_int n t : 0 <= n -> 0 <= t -> Dec_Mul (n * dec_unit) t = n * t.
Proof.
  intros Hn Ht. pose proof (Dec_Mul_nearest (n * dec_unit) t) as H. unfold dec_unit in *.
  set (x := Dec_Mul _ t) in *. replace (n * 10 ^ 18 * t) with (n * t * 10 ^ 18) in H by ring. lia.
Qed.

(** The tax of one denomination is the product rounded down. *)
Lemma tax_amount fees t denom :
  0 <= t <= MaxTax -> (forall d v, fees !! d = Some v -> 0 < v) ->
  amount (tax_coins fees t) denom = amount fees denom * t / dec_unit.
Proof.
  intros Ht Hpos. unfold amount, tax_coins. rewrite map_lookup_filter, lookup_fmap.
  destruct (fees !! denom) as [v|] eqn:E; [|done]. simpl. specialize (Hpos _ _ E).
  rewrite Dec_Mul_int by lia. rewrite Dec_Truncate_floor by lia. simpl.
  destruct (decide (v * t / dec_unit = 0)) as [Ez|Hnz].
  - by rewrite option_guard_False by tauto.
  - by rewrite option_guard_True by done.
Qed.

Lemma tax_at_most v t : 0 <= v -> 0 <= t <= MaxTax -> 0 <= v * t / dec_unit <= v.
Proof.
  intros Hv [Ht1 Ht2]. unfold MaxTax, dec_unit in *. split.
  - apply Z.div_pos; [|done]. apply Z.mul_nonneg_nonneg; lia.
  - apply Z.div_le_upper_bound; [done|]. nia.
Qed.
End amounts.

(** ** Properties *)

(** Parameters the end blocker can work with. *)
Definition params_ok {ENV : Env} {BANK : Bank} (p : Params) : Prop :=
  0 <= Tax p <= MaxTax /\
  exists a, AccAddressFromBech32 (TaxAddress p) = Some a /\ BlockedAddr a = false.

Section properties.
Context {ENV : Env} {LAWS : EnvLaws} {DEC : Decimal} {DL : DecimalLaws} {BANK : Bank} {BL : BankLaws}.

Lemma Params_Validate_ok p : Params_Validate p = Ok tt ->
  0 <= Tax p <= MaxTax /\ is_Some (AccAddressFromBech32 (TaxAddress p)).
Proof.
  unfold Params_Validate, ValidateTax, ValidateTaxAddress, check_address. run_unfold.
  rewrite Dec_roundtrip. simpl. intros E.
  destruct (Z.ltb_spec (Tax p) 0); [done|]. destruct (Z.ltb_spec MaxTax (Tax p)); [done|].
  destruct (is_empty (TaxAddress p)); [done|].
  destruct (AccAddressFromBech32 (TaxAddress p)); [|done]. split; [lia|by eexists].
Qed.

(** The coins [AllocateTax] asks the bank to move. *)
Lemma AllocateTax_ok t a s :
  0 <= t <= MaxTax -> BlockedAddr a = false ->
  let collector := ModuleAddress feeCollectorName in
  exists s', AllocateTax t a s = (Ok tt, s') /\ tax_Params s' = tax_Params s /\
  forall x denom, amount (GetAllBalances (bank s') x) denom =
    let tax := amount (GetAllBalances (bank s) collector) denom * t / dec_unit in
    amount (GetAllBalances (bank s) x) denom
    - (if decide (x = collector) then tax else 0) + (if decide (x = a) then tax else 0).
Proof.
  intros Ht Ha collector. unfold AllocateTax. run_unfold. fold collector.
  rewrite (proj2 (Z.ltb_ge t 0)), (proj2 (Z.ltb_ge MaxTax t)) by lia. simpl.
  set (fees := GetAllBalances (bank s) collector). set (coins := tax_coins fees t).
  assert (Hpos : forall d v, fees !! d = Some v -> 0 < v) by (intros d v; apply balances_positive).
  assert (Hamt : forall d, amount coins d = amount fees d * t / dec_unit) by (intros; by apply tax_amount).
  case_bool_decide as He.
  - exists s. split_and!; try done. intros x denom. specialize (Hamt denom). rewrite He in Hamt.
    change (amount ∅ denom) with 0 in Hamt. cbv zeta. fold fees. rewrite <- Hamt.
    repeat case_decide; lia.
  - destruct (send_succeeds a coins (bank s) Ha) as [b' Hb].
    { intros d v Hv. change (bs "fee_collector") with feeCollectorName. fold collector. fold fees.
      assert (Hd : 0 <= amount fees d).
      { unfold amount. destruct (fees !! d) eqn:E; simpl; [|done]. specialize (Hpos _ _ E). lia. }
      pose proof (tax_at_most _ _ Hd Ht) as Hm. rewrite <- Hamt in Hm.
      assert (Hc : amount coins d = v) by (unfold amount; by rewrite Hv).
      assert (v <> 0) by (by apply map_lookup_filter_Some in Hv as [_ ?]). lia. }
    fold feeCollectorName in Hb.
    rewrite Hb. eexists. split_and!; [done|done|]. intros x denom. simpl.
    rewrite (send_moves _ _ _ _ _ Hb). fold collector. by rewrite Hamt.
Qed.

(** The end blocker with usable parameters, after the first block. *)
Lemma EndBlocker_ok (ctx : Ctx) (s : TaxState) (p : Params) (a : bytes) :
  tax_Params s = Some p -> params_ok p -> 1 < BlockHeight ctx ->
  AccAddressFromBech32 (TaxAddress p) = Some a ->
  exists s', EndBlocker ctx s = (Ok tt, s') /\ tax_Params s' = Some p /\
  forall x denom,
    let collector := ModuleAddress feeCollectorName in
    let tax := amount (GetAllBalances (bank s) collector) denom * Tax p / dec_unit in
    amount (GetAllBalances (bank s') x) denom = amount (GetAllBalances (bank s) x) denom
      - (if decide (x = collector) then tax else 0) + (if decide (x = a) then tax else 0).
Proof.
  intros Hp (Ht & a' & Ha' & Hbl) Hh Ha. assert (a' = a) as -> by congruence.
  unfold EndBlocker. run_unfold. rewrite Hp. simpl.
  destruct (Z.eqb_spec (Tax p) 0) as [E0|_].
  - exists s. rewrite E0. split_and!; try done. intros x denom.
    rewrite Z.mul_0_r. cbv zeta. rewrite Z.div_0_l by done. repeat case_decide; lia.
  - rewrite (proj2 (Z.ltb_lt _ _)) by done. rewrite Ha. simpl.
    destruct (AllocateTax_ok (Tax p) a s Ht Hbl) as (s' & E & Hps & Hb). exists s'.
    rewrite Hps. split_and!; done.
Qed.

(** No tax is created or lost.  Unless the tax address is the fee collector
    itself, what the tax address gains is what the collector loses, and the
    collector never pays more than it holds. *)
Lemma EndBlocker_conserves (ctx : Ctx) (s s' : TaxState) (p : Params) (a denom : bytes) :
  tax_Params s = Some p -> params_ok p ->
  AccAddressFromBech32 (TaxAddress p) = Some a -> a <> ModuleAddress feeCollectorName ->
  EndBlocker ctx s = (Ok tt, s') ->
  let collector := ModuleAddress feeCollectorName in
  let bal st x := amount (GetAllBalances (bank st) x) denom in
  bal s' a + bal s' collector = bal s a + bal s collector /\ 0 <= bal s' collector <= bal s collector.
Proof.
  intros Hp (Ht & a' & Ha' & Hbl) Ha Hne E collector bal. assert (a' = a) as -> by congruence.
  assert (Hnn : forall st x, 0 <= bal st x).
  { intros st x. unfold bal, amount. destruct (GetAllBalances (bank st) x !! denom) eqn:Eb; [|done].
    simpl. apply balances_positive in Eb. lia. }
  pose proof (Hnn s collector) as Hc. pose proof (tax_at_most (bal s collector) (Tax p) Hc Ht) as Hmost.
  unfold EndBlocker in E. run_unfold. rewrite Hp in E. simpl in E.
  assert (Hsame : s' = s -> bal s' a + bal s' collector = bal s a + bal s collector /\
    0 <= bal s' collector <= bal s collector) by (intros ->; split; [done|]; split; [done|apply Z.le_refl]).
  destruct (Tax p =? 0); [apply Hsame; congruence|].
  destruct (1 <? BlockHeight ctx); [|apply Hsame; congruence]. rewrite Ha in E. simpl in E.
  destruct (AllocateTax_ok (Tax p) a s Ht Hbl) as (s1 & E1 & _ & Hb).
  assert (s1 = s') as -> by congruence.
  pose proof (Hb a denom) as Hba. pose proof (Hb collector denom) as Hbc. cbv zeta in Hba, Hbc.
  rewrite decide_False, decide_True in Hba by done. rewrite decide_True, decide_False in Hbc by done.
  unfold bal, collector in *. cbv beta in *. lia.
Qed.

(** C30: the tax split.  In every block after the first, with usable parameters,
    the end blocker succeeds and moves, in each denomination, exactly the
    collected fees times the tax rate rounded down from the fee collector to the
    tax address; every other balance and the parameters stay as they are.  What
    the tax address gains the collector loses, never more than it holds. *)
Theorem end_block_splits_fees (ctx : Ctx) (s : TaxState) (p : Params) (a : bytes) :
  tax_Params s = Some p -> params_ok p -> 1 < BlockHeight ctx ->
  AccAddressFromBech32 (TaxAddress p) = Some a ->
  let collector := ModuleAddress feeCollectorName in
  exists s', EndBlocker ctx s = (Ok tt, s') /\ tax_Params s' = Some p /\
  (forall x denom,
    let tax := amount (GetAllBalances (bank s) collector) denom * Tax p / dec_unit in
    amount (GetAllBalances (bank s') x) denom = amount (GetAllBalances (bank s) x) denom
      - (if decide (x = collector) then tax else 0) + (if decide (x = a) then tax else 0)) /\
  (a <> collector -> forall denom, let bal st x := amount (GetAllBalances (bank st) x) denom in
    bal s' a + bal s' collector = bal s a + bal s collector /\ 0 <= bal s' collector <= bal s collector).
Proof.
  intros Hp Hok Hh Ha collector. destruct (EndBlocker_ok ctx s p a Hp Hok Hh Ha) as (s' & E & Hp' & Hb).
  exists s'. split_and!; try done. intros Hne denom. by eapply EndBlocker_conserves.
Qed.

(** [UpdateParams] either fails and changes nothing, or was signed by the current
    tax address and leaves a rate between 0 and the maximum and a valid tax
    address that the bank does not block; it never touches balances. *)
Lemma UpdateParams_outcome (req : option MsgUpdateParams) (s s' : TaxState) p r :
  tax_Params s = Some p -> params_ok p -> UpdateParams req s = (r, s') ->
  bank s' = bank s /\
  match r with
  | Err _ => s' = s
  | Ok _ => exists m p', req = Some m /\ tu_Authority m = TaxAddress p /\
                         tax_Params s' = Some p' /\ params_ok p'
  end.
Proof.
  intros Hp (Ht & a & Ha & Hbl). unfold UpdateParams. run_unfold. intros E.
  destruct req as [m|]; [|by simplify_eq].
  destruct (invalid_request _) as [[]|]; [|by simplify_eq].
  destruct (StringToBytes (tu_Authority m)); [|by simplify_eq]. rewrite Hp in E. simpl in E.
  case_bool_decide as Hau; simpl in E; [|by simplify_eq].
  set (r1 := if is_empty (tu_Tax m) then _ else _) in E.
  assert (H1 : forall p1, r1 = Ok p1 -> TaxAddress p1 = TaxAddress p).
  { subst r1. intros p1 E1. destruct (is_empty (tu_Tax m)); [by simplify_eq|].
    destruct (LegacyNewDecFromStr _); [|done]. by destruct (MaxTax <? z); simplify_eq/=. }
  clearbody r1. destruct r1 as [p1|]; [|by simplify_eq]. specialize (H1 p1 eq_refl).
  set (r2 := if is_empty (tu_TaxAddress m) then _ else _) in E.
  assert (H2 : forall p2, r2 = Ok p2 -> TaxAddress p2 = TaxAddress p \/
    exists x, StringToBytes (TaxAddress p2) = Some x /\ BlockedAddr x = false).
  { subst r2. intros p2 E2. destruct (is_empty (tu_TaxAddress m)); [left; by simplify_eq|].
    destruct (StringToBytes (tu_TaxAddress m)) as [x|] eqn:Ex; [|done].
    destruct (BlockedAddr x) eqn:Eb; simplify_eq/=. right. eauto. }
  clearbody r2. destruct r2 as [p2|]; [|by simplify_eq]. specialize (H2 p2 eq_refl).
  destruct (Params_Validate p2) as [[]|] eqn:Ev; simplify_eq/=; [|done].
  split; [done|]. exists m, p2. split_and!; try done.
  apply Params_Validate_ok in Ev as [Hr [y Hy]]. split; [done|]. exists y. split; [done|].
  destruct H2 as [H2|(x & Hx & Hbx)]; [congruence|]. apply FromBech32_codec in Hy. congruence.
Qed.

(** *** A chain with the module *)

(** What happens to the state between blocks: messages with any outcome, end blocks,
    and whatever the rest of the application does with the balances. *)
Inductive tax_step : relation TaxState :=
| step_update req r s s' : UpdateParams req s = (r, s') -> tax_step s s'
| step_end ctx r s s' : EndBlocker ctx s = (r, s') -> tax_step s s'
| step_bank b s : tax_step s (mkTax (tax_Params s) b (tax_events s)).

Definition has_usable_params (s : TaxState) : Prop := exists p, tax_Params s = Some p /\ params_ok p.

Lemma EndBlocker_total ctx s : has_usable_params s ->
  exists s', EndBlocker ctx s = (Ok tt, s') /\ tax_Params s' = tax_Params s.
Proof.
  intros (p & Hp & Hok). destruct (Z_lt_le_dec 1 (BlockHeight ctx)) as [Hh|Hh].
  - destruct Hok as (Ht & a & Ha & Hbl).
    destruct (EndBlocker_ok ctx s p a Hp (conj Ht (ex_intro _ a (conj Ha Hbl))) Hh Ha) as (s' & E & Hs & _).
    exists s'. split; [done|]. by rewrite Hs.
  - exists s. unfold EndBlocker. run_unfold. rewrite Hp. simpl. destruct (Tax p =? 0); [done|].
    by rewrite (proj2 (Z.ltb_ge _ _)) by done.
Qed.

Lemma tax_step_usable s s' : tax_step s s' -> has_usable_params s -> has_usable_params s'.
Proof.
  intros Hst Hs. destruct Hst as [req r s s' E|ctx r s s' E|b s]; [| |done].
  - destruct Hs as (p & Hp & Hok). destruct (UpdateParams_outcome req s s' p r Hp Hok E) as [_ Hr]. destruct r.
    + destruct Hr as (m & p' & _ & _ & Hp' & Hok'). by exists p'.
    + subst s'. by exists p.
  - destruct (EndBlocker_total ctx s Hs) as (s1 & E1 & Hp1). assert (s1 = s') as -> by congruence.
    destruct Hs as (p & Hp & Hok). exists p. by rewrite Hp1.
Qed.

End properties.

(** ** A concrete bank and decimals *)

(** Decimals are read and written here by their number of units in base 2, with a
    sign; a product is rounded half up. *)
Definition bin_text (d : Z) : bytes :=
  let fix go p := match p with xH => [x31] | xO p => x30 :: go p | xI p => x31 :: go p end in
  match d with Z0 => [x30] | Zpos p => x2b :: go p | Zneg p => x2d :: go p end.

Fixpoint bin_value (l : bytes) : option positive :=
  match l with
  | [] => None
  | [b] => if bool_decide (b = x31) then Some xH else None
  | b :: l' => (if bool_decide (b = x31) then xI else xO) <$> bin_value l'
  end.

Definition bin_read (s : bytes) : option Z :=
  match s with
  | [] => None
  | b :: l => if bool_decide (b = x30) then Some 0
              else (if bool_decide (b = x2d) then Zneg else Zpos) <$> bin_value l
  end.

Lemma bin_roundtrip d : bin_read (bin_text d) = Some d.
Proof.
  assert (Hp : forall p, bin_value ((fix go p := match p with xH => [x31] | xO p => x30 :: go p
    | xI p => x31 :: go p end) p) = Some p).
  { induction p as [p IH|p IH|]; [| |done].
    - simpl. destruct p; rewrite IH; done.
    - simpl. destruct p; rewrite IH; done. }
  destruct d as [|p|p]; simpl; [done|by rewrite Hp..].
Qed.

#[export] Instance concrete_decimal : Decimal := {|
  LegacyNewDecFromStr := bin_read;
  Dec_String := bin_text;
  Dec_Mul := fun a b => (2 * (a * b) + dec_unit) / (2 * dec_unit);
  Dec_Truncate := fun d => d / dec_unit
|}.

#[export] Instance concrete_decimal_laws : DecimalLaws.
Proof.
  split; simpl; [apply bin_roundtrip| |done].
  intros a b. unfold dec_unit.
  pose proof (Z.div_mod (2 * (a * b) + 10 ^ 18) (2 * 10 ^ 18) ltac:(done)) as Hd.
  pose proof (Z.mod_pos_bound (2 * (a * b) + 10 ^ 18) (2 * 10 ^ 18) ltac:(done)) as Hm. lia.
Qed.

(** A bank that keeps the coins of each address and blocks the fee collector. *)
Definition positive_coins (c : Coins) : Coins := filter (fun e => 0 < e.2) c.
Definition coins_of (b : gmap bytes Coins) (a : bytes) : Coins := positive_coins (default ∅ (b !! a)).
Definition coins_op (op : Z -> Z -> Z) (x y : Coins) : Coins :=
  merge (fun u v => Some (op (default 0 u) (default 0 v))) x y.
Definition can_pay (c x : Coins) : Prop := map_Forall (fun d v => 0 <= v <= amount x d) c.
Definition module_address (name : bytes) : bytes := xff :: name.

Definition bank_send (m to : bytes) (c : Coins) (b : gmap bytes Coins) : result (gmap bytes Coins) :=
  let from := module_address m in
  if bool_decide (to = module_address feeCollectorName) then Err (ErrPlain "blocked") else
  if decide (can_pay c (coins_of b from)) then
    let b1 := <[from := coins_op Z.sub (coins_of b from) c]> b in
    Ok (<[to := coins_op Z.add (coins_of b1 to) c]> b1)
  else Err (ErrPlain "insufficient funds").

#[export] Instance concrete_bank : Bank := {|
  BankState := gmap bytes Coins;
  GetAllBalances := coins_of;
  SendCoinsFromModuleToAccount := bank_send;
  BlockedAddr := fun a => bool_decide (a = module_address feeCollectorName);
  ModuleAddress := module_address;
  Coins_String := fun _ => []
|}.

Lemma amount_positive c d : amount (positive_coins c) d = Z.max 0 (amount c d).
Proof.
  unfold amount, positive_coins. rewrite map_lookup_filter.
  destruct (c !! d) as [v|]; simpl; [|done]. destruct (Z_lt_le_dec 0 v).
  - rewrite option_guard_True by done. simpl. lia.
  - rewrite option_guard_False by lia. simpl. lia.
Qed.

Lemma amount_op op x y d : op 0 0 = 0 -> amount (coins_op op x y) d = op (amount x d) (amount y d).
Proof.
  intros H0. unfold amount, coins_op. rewrite lookup_merge.
  destruct (x !! d), (y !! d); simpl; done.
Qed.

Lemma coins_of_insert b a c x d :
  amount (coins_of (<[a := c]> b) x) d =
  if decide (x = a) then Z.max 0 (amount c d) else amount (coins_of b x) d.
Proof.
  unfold coins_of. case_decide as E; [subst; rewrite lookup_insert_eq; apply amount_positive|].
  by rewrite lookup_insert_ne.
Qed.

Lemma can_pay_amount c x : can_pay c x <-> forall d, is_Some (c !! d) -> 0 <= amount c d <= amount x d.
Proof.
  unfold can_pay, map_Forall, amount. split.
  - intros H d [v Hv]. rewrite Hv. by apply H.
  - intros H d v Hv. specialize (H d ltac:(by eexists)). by rewrite Hv in H.
Qed.

#[export] Instance concrete_bank_laws : BankLaws.
Proof.
  split; simpl.
  - intros b a d v. unfold coins_of, positive_coins. by intros [_ ?]%map_lookup_filter_Some.
  - intros m to c b b'. unfold bank_send. destruct (bool_decide _); [done|].
    destruct (decide _) as [Hpay|]; [|done]. intros [= <-] a d.
    assert (Hc : 0 <= amount c d <= amount (coins_of b (module_address m)) d).
    { destruct (c !! d) eqn:Ed; [apply (proj1 (can_pay_amount _ _) Hpay); by eexists|].
      unfold amount at 1 2. rewrite Ed. simpl. split; [done|]. unfold coins_of. rewrite amount_positive. lia. }
    assert (Hnn : 0 <= amount (coins_of b to) d) by (unfold coins_of; rewrite amount_positive; lia).
    rewrite coins_of_insert. destruct (decide (a = to)) as [->|Hne].
    + rewrite amount_op by done. rewrite coins_of_insert.
      destruct (decide (to = module_address m)) as [->|]; rewrite ?amount_op by done; lia.
    + rewrite coins_of_insert. destruct (decide (a = module_address m)) as [->|]; [|lia].
      rewrite amount_op by done. lia.
  - intros to c b Hb Hpay. unfold bank_send. rewrite Hb. rewrite decide_True; [by eexists|].
    intros d v Hv. specialize (Hpay d v Hv). change (bs "fee_collector") with feeCollectorName in *. lia.
Qed.

Module DemoTax.
Definition alice : bytes := replicate 20 x0a.
Definition params : Params := mkTaxParams (4 * 10 ^ 17) (addr_to_text alice).
Definition state : TaxState :=
  mkTax (Some params) {[ module_address feeCollectorName := {[ bs "anvnm" := 101 ]} ]} [].
Definition ctx : Ctx := mkCtx (bs "t") 7 false.

Lemma demo_params_ok : params_ok params.
Proof. split; [done|]. exists alice. split; by vm_compute. Qed.

(** Alice lowers the rate to 10%. *)
Definition update : MsgUpdateParams := mkTaxUpdate (addr_to_text alice) (bin_text (10 ^ 17)) [].
Definition updated : TaxState := (UpdateParams (Some update) state).2.

Lemma updates : UpdateParams (Some update) state = (Ok tt, updated).
Proof.
  unfold updated. by rewrite (surjective_pairing (UpdateParams (Some update) state)) at 1.
Qed.
End DemoTax.

(** 40% of 101 is 40. *)
Lemma end_block_splits_fees_witness :
  let collector := ModuleAddress feeCollectorName in
  exists s', EndBlocker DemoTax.ctx DemoTax.state = (Ok tt, s') /\
  amount (GetAllBalances (bank s') DemoTax.alice) (bs "anvnm") = 40 /\
  amount (GetAllBalances (bank s') collector) (bs "anvnm") = 61.
Proof.
  destruct (end_block_splits_fees DemoTax.ctx DemoTax.state DemoTax.params DemoTax.alice
    eq_refl DemoTax.demo_params_ok eq_refl ltac:(by vm_compute)) as (s' & E & _ & Hb & _).
  exists s'. split; [exact E|]. rewrite !Hb. split; vm_compute; reflexivity.
Defined.

