(* ===== verification/ProtoMsg.v ===== *)
(** The wire format of the transaction messages: src/x/anchoring/types/tx.pb.go and
    params.pb.go.

    The generated code of these files repeats that of document.pb.go: the varints,
    the sizes and the skipping of unknown fields ([encodeVarintTx], [sovTx], [skipTx]
    and the like) are line for line those of [Proto], under the file's suffix.  Here
    are the parts that differ from message to message: [Size], the fields in the
    order [MarshalToSizedBuffer] writes them, and the [switch] of [Unmarshal].

    [MsgGrantRole] and [MsgRevokeRole] have the same fields and the same code, and
    so have the four responses without fields. *)

From S2P Require Import Prelude Types Proto.

(** ** The messages *)

Definition Params_set_Admin (v : bytes) (m : Params) : Params :=
  mkParams v.

Definition Params_Size (m : Params) : Z :=
  size_string (Admin m).

Definition Params_MarshalToSizedBuffer (m : Params) : bytes -> result (bytes * Z) :=
  sized (fun st =>
    put_string_field 0xa (Admin m) st).

Definition Params_cases (fieldNum : Z) : option (FieldCase Params) :=
  match fieldNum with
  | 1 => Some (StringCase Params_set_Admin)
  | _ => None
  end.

#[export] Instance Params_message : Message Params :=
  {| msg_zero := mkParams []; msg_Size := Params_Size;
     msg_MarshalToSizedBuffer := Params_MarshalToSizedBuffer; msg_Unmarshal := unmarshal_with Params_cases |}.

Definition MsgUpdateParams_set_Authority (v : bytes) (m : MsgUpdateParams) : MsgUpdateParams :=
  mkMsgUpdateParams v (mup_Admin m).

Definition MsgUpdateParams_set_Admin (v : bytes) (m : MsgUpdateParams) : MsgUpdateParams :=
  mkMsgUpdateParams (mup_Authority m) v.

Definition MsgUpdateParams_Size (m : MsgUpdateParams) : Z :=
  size_string (mup_Authority m) + size_string (mup_Admin m).

Definition MsgUpdateParams_MarshalToSizedBuffer (m : MsgUpdateParams) : bytes -> result (bytes * Z) :=
  sized (fun st =>
    st ← put_string_field 0x12 (mup_Admin m) st;
    put_string_field 0xa (mup_Authority m) st).

Definition MsgUpdateParams_cases (fieldNum : Z) : option (FieldCase MsgUpdateParams) :=
  match fieldNum with
  | 1 => Some (StringCase MsgUpdateParams_set_Authority)
  | 2 => Some (StringCase MsgUpdateParams_set_Admin)
  | _ => None
  end.

#[export] Instance MsgUpdateParams_message : Message MsgUpdateParams :=
  {| msg_zero := mkMsgUpdateParams [] []; msg_Size := MsgUpdateParams_Size;
     msg_MarshalToSizedBuffer := MsgUpdateParams_MarshalToSizedBuffer; msg_Unmarshal := unmarshal_with MsgUpdateParams_cases |}.

Definition MsgAddRegistry_set_Sender (v : bytes) (m : MsgAddRegistry) : MsgAddRegistry :=
  mkMsgAddRegistry v (mar_Name m) (mar_Description m) (mar_Metadata m).

Definition MsgAddRegistry_set_Name (v : bytes) (m : MsgAddRegistry) : MsgAddRegistry :=
  mkMsgAddRegistry (mar_Sender m) v (mar_Description m) (mar_Metadata m).

Definition MsgAddRegistry_set_Description (v : bytes) (m : MsgAddRegistry) : MsgAddRegistry :=
  mkMsgAddRegistry (mar_Sender m) (mar_Name m) v (mar_Metadata m).

Definition MsgAddRegistry_set_Metadata (v : bytes) (m : MsgAddRegistry) : MsgAddRegistry :=
  mkMsgAddRegistry (mar_Sender m) (mar_Name m) (mar_Description m) v.

Definition MsgAddRegistry_Size (m : MsgAddRegistry) : Z :=
  size_string (mar_Sender m) + size_string (mar_Name m) + size_string (mar_Description m) + size_string (mar_Metadata m).

Definition MsgAddRegistry_MarshalToSizedBuffer (m : MsgAddRegistry) : bytes -> result (bytes * Z) :=
  sized (fun st =>
    st ← put_string_field 0x22 (mar_Metadata m) st;
    st ← put_string_field 0x1a (mar_Description m) st;
    st ← put_string_field 0x12 (mar_Name m) st;
    put_string_field 0xa (mar_Sender m) st).

Definition MsgAddRegistry_cases (fieldNum : Z) : option (FieldCase MsgAddRegistry) :=
  match fieldNum with
  | 1 => Some (StringCase MsgAddRegistry_set_Sender)
  | 2 => Some (StringCase MsgAddRegistry_set_Name)
  | 3 => Some (StringCase MsgAddRegistry_set_Description)
  | 4 => Some (StringCase MsgAddRegistry_set_Metadata)
  | _ => None
  end.

#[export] Instance MsgAddRegistry_message : Message MsgAddRegistry :=
  {| msg_zero := mkMsgAddRegistry [] [] [] []; msg_Size := MsgAddRegistry_Size;
     msg_MarshalToSizedBuffer := MsgAddRegistry_MarshalToSizedBuffer; msg_Unmarshal := unmarshal_with MsgAddRegistry_cases |}.

Record MsgAddRegistryResponse := mkAddRegistryResponse { resp_RegistryId : Z }.
Definition MsgAddRegistryResponse_set_RegistryId (v : Z) (m : MsgAddRegistryResponse) : MsgAddRegistryResponse :=
  mkAddRegistryResponse v.

Definition MsgAddRegistryResponse_Size (m : MsgAddRegistryResponse) : Z :=
  size_uint (resp_RegistryId m).

Definition MsgAddRegistryResponse_MarshalToSizedBuffer (m : MsgAddRegistryResponse) : bytes -> result (bytes * Z) :=
  sized (fun st =>
    put_uint_field 0x8 (resp_RegistryId m) st).

Definition MsgAddRegistryResponse_cases (fieldNum : Z) : option (FieldCase MsgAddRegistryResponse) :=
  match fieldNum with
  | 1 => Some (UintCase MsgAddRegistryResponse_set_RegistryId)
  | _ => None
  end.

#[export] Instance MsgAddRegistryResponse_message : Message MsgAddRegistryResponse :=
  {| msg_zero := mkAddRegistryResponse 0; msg_Size := MsgAddRegistryResponse_Size;
     msg_MarshalToSizedBuffer := MsgAddRegistryResponse_MarshalToSizedBuffer; msg_Unmarshal := unmarshal_with MsgAddRegistryResponse_cases |}.

Definition MsgAddRecord_set_Sender (v : bytes) (m : MsgAddRecord) : MsgAddRecord :=
  mkMsgAddRecord v (marec_Record m).

Definition MsgAddRecord_set_Record (v : option Record_) (m : MsgAddRecord) : MsgAddRecord :=
  mkMsgAddRecord (marec_Sender m) v.

Definition MsgAddRecord_Size (m : MsgAddRecord) : Z :=
  size_string (marec_Sender m) + size_opt (marec_Record m).

Definition MsgAddRecord_MarshalToSizedBuffer (m : MsgAddRecord) : bytes -> result (bytes * Z) :=
  sized (fun st =>
    st ← put_opt_field 0x12 (marec_Record m) st;
    put_string_field 0xa (marec_Sender m) st).

Definition MsgAddRecord_cases (fieldNum : Z) : option (FieldCase MsgAddRecord) :=
  match fieldNum with
  | 1 => Some (StringCase MsgAddRecord_set_Sender)
  | 2 => Some (opt_case marec_Record MsgAddRecord_set_Record)
  | _ => None
  end.

#[export] Instance MsgAddRecord_message : Message MsgAddRecord :=
  {| msg_zero := mkMsgAddRecord [] None; msg_Size := MsgAddRecord_Size;
     msg_MarshalToSizedBuffer := MsgAddRecord_MarshalToSizedBuffer; msg_Unmarshal := unmarshal_with MsgAddRecord_cases |}.

Record MsgAddRecordResponse := mkAddRecordResponse { resp_RecordId : Z }.
Definition MsgAddRecordResponse_set_RecordId (v : Z) (m : MsgAddRecordResponse) : MsgAddRecordResponse :=
  mkAddRecordResponse v.

Definition MsgAddRecordResponse_Size (m : MsgAddRecordResponse) : Z :=
  size_uint (resp_RecordId m).

Definition MsgAddRecordResponse_MarshalToSizedBuffer (m : MsgAddRecordResponse) : bytes -> result (bytes * Z) :=
  sized (fun st =>
    put_uint_field 0x8 (resp_RecordId m) st).

Definition MsgAddRecordResponse_cases (fieldNum : Z) : option (FieldCase MsgAddRecordResponse) :=
  match fieldNum with
  | 1 => Some (UintCase MsgAddRecordResponse_set_RecordId)
  | _ => None
  end.

#[export] Instance MsgAddRecordResponse_message : Message MsgAddRecordResponse :=
  {| msg_zero := mkAddRecordResponse 0; msg_Size := MsgAddRecordResponse_Size;
     msg_MarshalToSizedBuffer := MsgAddRecordResponse_MarshalToSizedBuffer; msg_Unmarshal := unmarshal_with MsgAddRecordResponse_cases |}.

Definition MsgUpdateRecordStatus_set_Editor (v : bytes) (m : MsgUpdateRecordStatus) : MsgUpdateRecordStatus :=
  mkMsgUpdateRecordStatus v (murs_RegistryId m) (murs_RecordId m) (murs_Index m) (murs_Status m).

Definition MsgUpdateRecordStatus_set_RegistryId (v : Z) (m : MsgUpdateRecordStatus) : MsgUpdateRecordStatus :=
  mkMsgUpdateRecordStatus (murs_Editor m) v (murs_RecordId m) (murs_Index m) (murs_Status m).

Definition MsgUpdateRecordStatus_set_RecordId (v : Z) (m : MsgUpdateRecordStatus) : MsgUpdateRecordStatus :=
  mkMsgUpdateRecordStatus (murs_Editor m) (murs_RegistryId m) v (murs_Index m) (murs_Status m).

Definition MsgUpdateRecordStatus_set_Index (v : Z) (m : MsgUpdateRecordStatus) : MsgUpdateRecordStatus :=
  mkMsgUpdateRecordStatus (murs_Editor m) (murs_RegistryId m) (murs_RecordId m) v (murs_Status m).

Definition MsgUpdateRecordStatus_set_Status (v : bytes) (m : MsgUpdateRecordStatus) : MsgUpdateRecordStatus :=
  mkMsgUpdateRecordStatus (murs_Editor m) (murs_RegistryId m) (murs_RecordId m) (murs_Index m) v.

Definition MsgUpdateRecordStatus_Size (m : MsgUpdateRecordStatus) : Z :=
  size_string (murs_Editor m) + size_uint (murs_RegistryId m) + size_uint (murs_RecordId m) + size_uint (murs_Index m) + size_string (murs_Status m).

Definition MsgUpdateRecordStatus_MarshalToSizedBuffer (m : MsgUpdateRecordStatus) : bytes -> result (bytes * Z) :=
  sized (fun st =>
    st ← put_string_field 0x2a (murs_Status m) st;
    st ← put_uint_field 0x20 (murs_Index m) st;
    st ← put_uint_field 0x18 (murs_RecordId m) st;
    st ← put_uint_field 0x10 (murs_RegistryId m) st;
    put_string_field 0xa (murs_Editor m) st).

Definition MsgUpdateRecordStatus_cases (fieldNum : Z) : option (FieldCase MsgUpdateRecordStatus) :=
  match fieldNum with
  | 1 => Some (StringCase MsgUpdateRecordStatus_set_Editor)
  | 2 => Some (UintCase MsgUpdateRecordStatus_set_RegistryId)
  | 3 => Some (UintCase MsgUpdateRecordStatus_set_RecordId)
  | 4 => Some (UintCase MsgUpdateRecordStatus_set_Index)
  | 5 => Some (StringCase MsgUpdateRecordStatus_set_Status)
  | _ => None
  end.

#[export] Instance MsgUpdateRecordStatus_message : Message MsgUpdateRecordStatus :=
  {| msg_zero := mkMsgUpdateRecordStatus [] 0 0 0 []; msg_Size := MsgUpdateRecordStatus_Size;
     msg_MarshalToSizedBuffer := MsgUpdateRecordStatus_MarshalToSizedBuffer; msg_Unmarshal := unmarshal_with MsgUpdateRecordStatus_cases |}.

Definition MsgRole_set_Admin (v : bytes) (m : MsgRole) : MsgRole :=
  mkMsgRole v (mr_RegistryId m) (mr_Checksum m) (mr_Address m) (mr_Role m).

Definition MsgRole_set_RegistryId (v : Z) (m : MsgRole) : MsgRole :=
  mkMsgRole (mr_Admin m) v (mr_Checksum m) (mr_Address m) (mr_Role m).

Definition MsgRole_set_Checksum (v : bytes) (m : MsgRole) : MsgRole :=
  mkMsgRole (mr_Admin m) (mr_RegistryId m) v (mr_Address m) (mr_Role m).

Definition MsgRole_set_Address (v : bytes) (m : MsgRole) : MsgRole :=
  mkMsgRole (mr_Admin m) (mr_RegistryId m) (mr_Checksum m) v (mr_Role m).

Definition MsgRole_set_Role (v : bytes) (m : MsgRole) : MsgRole :=
  mkMsgRole (mr_Admin m) (mr_RegistryId m) (mr_Checksum m) (mr_Address m) v.

Definition MsgRole_Size (m : MsgRole) : Z :=
  size_string (mr_Admin m) + size_string (mr_Address m) + size_uint (mr_RegistryId m) + size_string (mr_Checksum m) + size_string (mr_Role m).

Definition MsgRole_MarshalToSizedBuffer (m : MsgRole) : bytes -> result (bytes * Z) :=
  sized (fun st =>
    st ← put_string_field 0x2a (mr_Role m) st;
    st ← put_string_field 0x22 (mr_Checksum m) st;
    st ← put_uint_field 0x18 (mr_RegistryId m) st;
    st ← put_string_field 0x12 (mr_Address m) st;
    put_string_field 0xa (mr_Admin m) st).

Definition MsgRole_cases (fieldNum : Z) : option (FieldCase MsgRole) :=
  match fieldNum with
  | 1 => Some (StringCase MsgRole_set_Admin)
  | 2 => Some (StringCase MsgRole_set_Address)
  | 3 => Some (UintCase MsgRole_set_RegistryId)
  | 4 => Some (StringCase MsgRole_set_Checksum)
  | 5 => Some (StringCase MsgRole_set_Role)
  | _ => None
  end.

#[export] Instance MsgRole_message : Message MsgRole :=
  {| msg_zero := mkMsgRole [] 0 [] [] []; msg_Size := MsgRole_Size;
     msg_MarshalToSizedBuffer := MsgRole_MarshalToSizedBuffer; msg_Unmarshal := unmarshal_with MsgRole_cases |}.

(** [MsgUpdateParamsResponse], [MsgUpdateRecordStatusResponse], [MsgGrantRoleResponse]
    and [MsgRevokeRoleResponse] have no fields. *)
Inductive EmptyResponse := mkEmptyResponse.

Definition EmptyResponse_Size (m : EmptyResponse) : Z := 0.

Definition EmptyResponse_MarshalToSizedBuffer (m : EmptyResponse) : bytes -> result (bytes * Z) :=
  sized Ok.

Definition EmptyResponse_cases (fieldNum : Z) : option (FieldCase EmptyResponse) := None.

#[export] Instance EmptyResponse_message : Message EmptyResponse :=
  {| msg_zero := mkEmptyResponse; msg_Size := EmptyResponse_Size;
     msg_MarshalToSizedBuffer := EmptyResponse_MarshalToSizedBuffer;
     msg_Unmarshal := unmarshal_with EmptyResponse_cases |}.

(** ** Their encodings *)

Definition enc_Params (m : Params) : bytes :=
  enc_string 0xa (Admin m).
Definition Params_ok (m : Params) : Prop :=
  Params_Size m < 2 ^ 63.

Lemma Params_generated m : Params_ok m ->
  Generated msg_zero Params_Size Params_MarshalToSizedBuffer Params_cases m (enc_Params m).
Proof. intros Hs. red in Hs. generated m. Qed.
#[export] Instance Params_wire : Wire Params.
Proof. apply (generated_wire _ _ _ _ _ _ Params_generated). cases_of. Defined.

Definition enc_MsgUpdateParams (m : MsgUpdateParams) : bytes :=
  enc_string 0xa (mup_Authority m) ++ enc_string 0x12 (mup_Admin m).
Definition MsgUpdateParams_ok (m : MsgUpdateParams) : Prop :=
  MsgUpdateParams_Size m < 2 ^ 63.

Lemma MsgUpdateParams_generated m : MsgUpdateParams_ok m ->
  Generated msg_zero MsgUpdateParams_Size MsgUpdateParams_MarshalToSizedBuffer MsgUpdateParams_cases m (enc_MsgUpdateParams m).
Proof. intros Hs. red in Hs. generated m. Qed.
#[export] Instance MsgUpdateParams_wire : Wire MsgUpdateParams.
Proof. apply (generated_wire _ _ _ _ _ _ MsgUpdateParams_generated). cases_of. Defined.

Definition enc_MsgAddRegistry (m : MsgAddRegistry) : bytes :=
  enc_string 0xa (mar_Sender m) ++ enc_string 0x12 (mar_Name m) ++ enc_string 0x1a (mar_Description m) ++ enc_string 0x22 (mar_Metadata m).
Definition MsgAddRegistry_ok (m : MsgAddRegistry) : Prop :=
  MsgAddRegistry_Size m < 2 ^ 63.

Lemma MsgAddRegistry_generated m : MsgAddRegistry_ok m ->
  Generated msg_zero MsgAddRegistry_Size MsgAddRegistry_MarshalToSizedBuffer MsgAddRegistry_cases m (enc_MsgAddRegistry m).
Proof. intros Hs. red in Hs. generated m. Qed.
#[export] Instance MsgAddRegistry_wire : Wire MsgAddRegistry.
Proof. apply (generated_wire _ _ _ _ _ _ MsgAddRegistry_generated). cases_of. Defined.

Definition enc_MsgAddRegistryResponse (m : MsgAddRegistryResponse) : bytes :=
  enc_uint 0x8 (resp_RegistryId m).
Definition MsgAddRegistryResponse_ok (m : MsgAddRegistryResponse) : Prop :=
  is_u64 (resp_RegistryId m) /\ MsgAddRegistryResponse_Size m < 2 ^ 63.

Lemma MsgAddRegistryResponse_generated m : MsgAddRegistryResponse_ok m ->
  Generated msg_zero MsgAddRegistryResponse_Size MsgAddRegistryResponse_MarshalToSizedBuffer MsgAddRegistryResponse_cases m (enc_MsgAddRegistryResponse m).
Proof. intros (? & Hs). generated m. Qed.
#[export] Instance MsgAddRegistryResponse_wire : Wire MsgAddRegistryResponse.
Proof. apply (generated_wire _ _ _ _ _ _ MsgAddRegistryResponse_generated). cases_of. Defined.

Definition enc_MsgAddRecord (m : MsgAddRecord) : bytes :=
  enc_string 0xa (marec_Sender m) ++ enc_opt 0x12 (marec_Record m).
Definition MsgAddRecord_ok (m : MsgAddRecord) : Prop :=
  opt_ok (marec_Record m) /\ MsgAddRecord_Size m < 2 ^ 63.

Lemma MsgAddRecord_generated m : MsgAddRecord_ok m ->
  Generated msg_zero MsgAddRecord_Size MsgAddRecord_MarshalToSizedBuffer MsgAddRecord_cases m (enc_MsgAddRecord m).
Proof. intros (? & Hs). generated m. Qed.
#[export] Instance MsgAddRecord_wire : Wire MsgAddRecord.
Proof. apply (generated_wire _ _ _ _ _ _ MsgAddRecord_generated). cases_of. Defined.

Definition enc_MsgAddRecordResponse (m : MsgAddRecordResponse) : bytes :=
  enc_uint 0x8 (resp_RecordId m).
Definition MsgAddRecordResponse_ok (m : MsgAddRecordResponse) : Prop :=
  is_u64 (resp_RecordId m) /\ MsgAddRecordResponse_Size m < 2 ^ 63.

Lemma MsgAddRecordResponse_generated m : MsgAddRecordResponse_ok m ->
  Generated msg_zero MsgAddRecordResponse_Size MsgAddRecordResponse_MarshalToSizedBuffer MsgAddRecordResponse_cases m (enc_MsgAddRecordResponse m).
Proof. intros (? & Hs). generated m. Qed.
#[export] Instance MsgAddRecordResponse_wire : Wire MsgAddRecordResponse.
Proof. apply (generated_wire _ _ _ _ _ _ MsgAddRecordResponse_generated). cases_of. Defined.

Definition enc_MsgUpdateRecordStatus (m : MsgUpdateRecordStatus) : bytes :=
  enc_string 0xa (murs_Editor m) ++ enc_uint 0x10 (murs_RegistryId m) ++ enc_uint 0x18 (murs_RecordId m) ++ enc_uint 0x20 (murs_Index m) ++ enc_string 0x2a (murs_Status m).
Definition MsgUpdateRecordStatus_ok (m : MsgUpdateRecordStatus) : Prop :=
  is_u64 (murs_RegistryId m) /\ is_u64 (murs_RecordId m) /\ is_u64 (murs_Index m) /\ MsgUpdateRecordStatus_Size m < 2 ^ 63.

Lemma MsgUpdateRecordStatus_generated m : MsgUpdateRecordStatus_ok m ->
  Generated msg_zero MsgUpdateRecordStatus_Size MsgUpdateRecordStatus_MarshalToSizedBuffer MsgUpdateRecordStatus_cases m (enc_MsgUpdateRecordStatus m).
Proof. intros (? & ? & ? & Hs). generated m. Qed.
#[export] Instance MsgUpdateRecordStatus_wire : Wire MsgUpdateRecordStatus.
Proof. apply (generated_wire _ _ _ _ _ _ MsgUpdateRecordStatus_generated). cases_of. Defined.

Definition enc_MsgRole (m : MsgRole) : bytes :=
  enc_string 0xa (mr_Admin m) ++ enc_string 0x12 (mr_Address m) ++ enc_uint 0x18 (mr_RegistryId m) ++ enc_string 0x22 (mr_Checksum m) ++ enc_string 0x2a (mr_Role m).
Definition MsgRole_ok (m : MsgRole) : Prop :=
  is_u64 (mr_RegistryId m) /\ MsgRole_Size m < 2 ^ 63.

Lemma MsgRole_generated m : MsgRole_ok m ->
  Generated msg_zero MsgRole_Size MsgRole_MarshalToSizedBuffer MsgRole_cases m (enc_MsgRole m).
Proof. intros (? & Hs). generated m. Qed.
#[export] Instance MsgRole_wire : Wire MsgRole.
Proof. apply (generated_wire _ _ _ _ _ _ MsgRole_generated). cases_of. Defined.

Lemma EmptyResponse_generated m : True ->
  Generated mkEmptyResponse EmptyResponse_Size EmptyResponse_MarshalToSizedBuffer EmptyResponse_cases m [].
Proof.
  intros _. split; [done|done|exists Ok; split; [done|apply emits_skip]|]. destruct m. apply reads_nil.
Qed.
#[export] Instance EmptyResponse_wire : Wire EmptyResponse.
Proof.
  apply (generated_wire _ _ _ _ (fun _ => True) (fun _ => []) EmptyResponse_generated). cases_of.
Defined.

(** ** Properties *)

(** Marshalling [m] fills a buffer of the announced size, and unmarshalling the buffer
    gives [m] back. *)
Definition survives {A} `{Message A} (m : A) : Prop :=
  exists b, Marshal m = Ok b /\ blen b = msg_Size m /\ msg_Unmarshal msg_zero b = Ok m.

(** C18: What is written is read back: a registry and a record, which the store and the
    name index keep encoded, and the messages of the module, a record nested in
    [MsgAddRecord] included, are marshalled to a buffer of the announced size, which
    unmarshals to the same value. *)
Theorem messages_wire_roundtrip (g : Registry) (r : Record_) (p : MsgUpdateParams) (a : MsgAddRegistry)
    (n : MsgAddRecord) (u : MsgUpdateRecordStatus) (o : MsgRole) (gi : MsgAddRegistryResponse)
    (ri : MsgAddRecordResponse) :
  Registry_ok g -> Record_ok r -> MsgUpdateParams_ok p -> MsgAddRegistry_ok a -> MsgAddRecord_ok n ->
  MsgUpdateRecordStatus_ok u -> MsgRole_ok o -> MsgAddRegistryResponse_ok gi -> MsgAddRecordResponse_ok ri ->
  survives g /\ survives r /\ survives p /\ survives a /\ survives n /\ survives u /\ survives o /\
  survives gi /\ survives ri /\ survives mkEmptyResponse.
Proof. intros. split_and!; by apply wire_roundtrip. Qed.

(** C19: Decoding is total on hostile input.  Whatever bytes they are given, up to the
    length a slice can have, the [Unmarshal] methods of the documents and of the
    messages end after at most one round per byte, with a value or one of their own
    errors, and never index outside of the input, unknown fields, nested groups and
    nested messages included. *)
Theorem unmarshal_total (dAtA : bytes) (g : Registry) (r : Record_) (p : MsgUpdateParams) (a : MsgAddRegistry)
    (n : MsgAddRecord) (u : MsgUpdateRecordStatus) (o : MsgRole) :
  is_len dAtA ->
  safe (msg_Unmarshal g dAtA) /\ safe (msg_Unmarshal r dAtA) /\ safe (msg_Unmarshal p dAtA) /\
  safe (msg_Unmarshal a dAtA) /\ safe (msg_Unmarshal n dAtA) /\ safe (msg_Unmarshal u dAtA) /\
  safe (msg_Unmarshal o dAtA).
Proof. intros Hl. split_and!; by apply wire_total. Qed.

Module DemoMsg.
Definition update : MsgUpdateParams := mkMsgUpdateParams (bs "nvnm1gov") (bs "nvnm1carol").
Definition create : MsgAddRegistry := mkMsgAddRegistry (bs "nvnm1alice") (bs "deeds") [] (bs "{}").
Definition anchor : MsgAddRecord := mkMsgAddRecord (bs "nvnm1bob") (Some demo_record).
Definition retire : MsgUpdateRecordStatus := mkMsgUpdateRecordStatus (bs "nvnm1bob") 300 (two64 - 1) 1 (bs "retired").
Definition grant : MsgRole := mkMsgRole (bs "nvnm1alice") 300 (bs "abc123") (bs "nvnm1bob") (bs "editor").
End DemoMsg.

Lemma messages_wire_roundtrip_witness :
  survives demo_registry /\ survives demo_record /\ survives DemoMsg.update /\ survives DemoMsg.create /\
  survives DemoMsg.anchor /\ survives DemoMsg.retire /\ survives DemoMsg.grant /\
  survives (mkAddRegistryResponse 300) /\ survives (mkAddRecordResponse 1) /\ survives mkEmptyResponse.
Proof.
  apply (messages_wire_roundtrip demo_registry demo_record DemoMsg.update DemoMsg.create DemoMsg.anchor
    DemoMsg.retire DemoMsg.grant (mkAddRegistryResponse 300) (mkAddRecordResponse 1));
    repeat split; by vm_compute.
Defined.

(** A field of a group that is never closed, in each of the messages. *)
Lemma unmarshal_total_witness :
  let dAtA := [x12; x03; x0b; x0c; xff] in
  safe (msg_Unmarshal demo_registry dAtA) /\ safe (msg_Unmarshal demo_record dAtA) /\
  safe (msg_Unmarshal DemoMsg.update dAtA) /\ safe (msg_Unmarshal DemoMsg.create dAtA) /\
  safe (msg_Unmarshal DemoMsg.anchor dAtA) /\ safe (msg_Unmarshal DemoMsg.retire dAtA) /\
  safe (msg_Unmarshal DemoMsg.grant dAtA).
Proof.
  exact (unmarshal_total [x12; x03; x0b; x0c; xff] demo_registry demo_record DemoMsg.update DemoMsg.create
    DemoMsg.anchor DemoMsg.retire DemoMsg.grant ltac:(by vm_compute)).
Defined.
