(* ===== verification/ProtoQuery.v ===== *)
(** The wire format of the queries: src/x/anchoring/types/query.pb.go.

    As in [ProtoMsg], only what differs from message to message is written out.  The
    messages [PageRequest] and [PageResponse] of the SDK are parameters: their methods
    are an instance of [Message], and what is known of them the laws [Wire]. *)

From S2P Require Import Prelude Types Rbac Keeper Proto NameIndex Query ProtoMsg.

(** The numbers of the enum [RegistryNameMatchMode]. *)
Definition mode_num (m : RegistryNameMatchMode) : Z :=
  match m with
  | UNSPECIFIED => 0 | EXACT => 1 | PREFIX => 2 | SUFFIX => 3 | CONTAINS => 4 | OtherMode n => n
  end.
Definition mode_of (n : Z) : RegistryNameMatchMode :=
  match n with
  | 0 => UNSPECIFIED | 1 => EXACT | 2 => PREFIX | 3 => SUFFIX | 4 => CONTAINS | _ => OtherMode n
  end.

(** [QueryParamsRequest] has no fields, like the empty responses. *)
Definition QueryParamsRequest : Type := EmptyResponse.
#[export] Instance QueryParamsRequest_message : Message QueryParamsRequest := EmptyResponse_message.
#[export] Instance QueryParamsRequest_wire : Wire QueryParamsRequest := EmptyResponse_wire.

Record QueryParamsResponse := mkParamsResponse { qpr_Params : Params }.
(** [QueryRegistriesResponse] and [QuerySearchRegistriesByNameResponse]. *)
Record QueryRegistriesResponse := mkRegistriesResponse {
  qgr_Registries : list Registry; qgr_Pagination : option PageResponse
}.
Record QueryRegistryResponse := mkRegistryResponse { qyr_Registry : option Registry }.

Section query_messages.
Context {MQ : Message PageRequest} {MR : Message PageResponse}.

Definition QueryParamsResponse_set_Params (v : Params) (m : QueryParamsResponse) : QueryParamsResponse :=
  mkParamsResponse v.

Definition QueryParamsResponse_Size (m : QueryParamsResponse) : Z :=
  size_message (qpr_Params m).

Definition QueryParamsResponse_MarshalToSizedBuffer (m : QueryParamsResponse) : bytes -> result (bytes * Z) :=
  sized (fun st =>
    put_message_field 0xa (qpr_Params m) st).

Definition QueryParamsResponse_cases (fieldNum : Z) : option (FieldCase QueryParamsResponse) :=
  match fieldNum with
  | 1 => Some (message_case qpr_Params QueryParamsResponse_set_Params)
  | _ => None
  end.

#[export] Instance QueryParamsResponse_message : Message QueryParamsResponse :=
  {| msg_zero := mkParamsResponse msg_zero; msg_Size := QueryParamsResponse_Size;
     msg_MarshalToSizedBuffer := QueryParamsResponse_MarshalToSizedBuffer; msg_Unmarshal := unmarshal_with QueryParamsResponse_cases |}.

Definition QueryRecordsRequest_set_Checksum (v : bytes) (m : QueryRecordsRequest) : QueryRecordsRequest :=
  mkQueryRecords v (qr_RegistryId m) (qr_RecordId m) (qr_Index m) (qr_Pagination m).

Definition QueryRecordsRequest_set_RegistryId (v : Z) (m : QueryRecordsRequest) : QueryRecordsRequest :=
  mkQueryRecords (qr_Checksum m) v (qr_RecordId m) (qr_Index m) (qr_Pagination m).

Definition QueryRecordsRequest_set_RecordId (v : Z) (m : QueryRecordsRequest) : QueryRecordsRequest :=
  mkQueryRecords (qr_Checksum m) (qr_RegistryId m) v (qr_Index m) (qr_Pagination m).

Definition QueryRecordsRequest_set_Index (v : Z) (m : QueryRecordsRequest) : QueryRecordsRequest :=
  mkQueryRecords (qr_Checksum m) (qr_RegistryId m) (qr_RecordId m) v (qr_Pagination m).

Definition QueryRecordsRequest_set_Pagination (v : option PageRequest) (m : QueryRecordsRequest) : QueryRecordsRequest :=
  mkQueryRecords (qr_Checksum m) (qr_RegistryId m) (qr_RecordId m) (qr_Index m) v.

Definition QueryRecordsRequest_Size (m : QueryRecordsRequest) : Z :=
  size_string (qr_Checksum m) + size_uint (qr_RegistryId m) + size_uint (qr_RecordId m) + size_uint (qr_Index m) + size_opt (qr_Pagination m).

Definition QueryRecordsRequest_MarshalToSizedBuffer (m : QueryRecordsRequest) : bytes -> result (bytes * Z) :=
  sized (fun st =>
    st ← put_opt_field 0x2a (qr_Pagination m) st;
    st ← put_uint_field 0x20 (qr_Index m) st;
    st ← put_uint_field 0x18 (qr_RecordId m) st;
    st ← put_uint_field 0x10 (qr_RegistryId m) st;
    put_string_field 0xa (qr_Checksum m) st).

Definition QueryRecordsRequest_cases (fieldNum : Z) : option (FieldCase QueryRecordsRequest) :=
  match fieldNum with
  | 1 => Some (StringCase QueryRecordsRequest_set_Checksum)
  | 2 => Some (UintCase QueryRecordsRequest_set_RegistryId)
  | 3 => Some (UintCase QueryRecordsRequest_set_RecordId)
  | 4 => Some (UintCase QueryRecordsRequest_set_Index)
  | 5 => Some (opt_case qr_Pagination QueryRecordsRequest_set_Pagination)
  | _ => None
  end.

#[export] Instance QueryRecordsRequest_message : Message QueryRecordsRequest :=
  {| msg_zero := mkQueryRecords [] 0 0 0 None; msg_Size := QueryRecordsRequest_Size;
     msg_MarshalToSizedBuffer := QueryRecordsRequest_MarshalToSizedBuffer; msg_Unmarshal := unmarshal_with QueryRecordsRequest_cases |}.

Definition QueryRecordsResponse_set_Records (v : list Record_) (m : QueryRecordsResponse) : QueryRecordsResponse :=
  mkRecordsResponse v (qrr_Pagination m).

Definition QueryRecordsResponse_set_Pagination (v : option PageResponse) (m : QueryRecordsResponse) : QueryRecordsResponse :=
  mkRecordsResponse (qrr_Records m) v.

Definition QueryRecordsResponse_Size (m : QueryRecordsResponse) : Z :=
  size_repeated (qrr_Records m) + size_opt (qrr_Pagination m).

Definition QueryRecordsResponse_MarshalToSizedBuffer (m : QueryRecordsResponse) : bytes -> result (bytes * Z) :=
  sized (fun st =>
    st ← put_opt_field 0x12 (qrr_Pagination m) st;
    put_repeated_field 0xa (qrr_Records m) st).

Definition QueryRecordsResponse_cases (fieldNum : Z) : option (FieldCase QueryRecordsResponse) :=
  match fieldNum with
  | 1 => Some (repeated_case qrr_Records QueryRecordsResponse_set_Records)
  | 2 => Some (opt_case qrr_Pagination QueryRecordsResponse_set_Pagination)
  | _ => None
  end.

#[export] Instance QueryRecordsResponse_message : Message QueryRecordsResponse :=
  {| msg_zero := mkRecordsResponse [] None; msg_Size := QueryRecordsResponse_Size;
     msg_MarshalToSizedBuffer := QueryRecordsResponse_MarshalToSizedBuffer; msg_Unmarshal := unmarshal_with QueryRecordsResponse_cases |}.

Definition QueryRegistriesRequest_set_RegistryId (v : Z) (m : QueryRegistriesRequest) : QueryRegistriesRequest :=
  mkQueryRegistries v (qreg_Pagination m).

Definition QueryRegistriesRequest_set_Pagination (v : option PageRequest) (m : QueryRegistriesRequest) : QueryRegistriesRequest :=
  mkQueryRegistries (qreg_RegistryId m) v.

Definition QueryRegistriesRequest_Size (m : QueryRegistriesRequest) : Z :=
  size_uint (qreg_RegistryId m) + size_opt (qreg_Pagination m).

Definition QueryRegistriesRequest_MarshalToSizedBuffer (m : QueryRegistriesRequest) : bytes -> result (bytes * Z) :=
  sized (fun st =>
    st ← put_opt_field 0x1a (qreg_Pagination m) st;
    put_uint_field 0x8 (qreg_RegistryId m) st).

Definition QueryRegistriesRequest_cases (fieldNum : Z) : option (FieldCase QueryRegistriesRequest) :=
  match fieldNum with
  | 1 => Some (UintCase QueryRegistriesRequest_set_RegistryId)
  | 3 => Some (opt_case qreg_Pagination QueryRegistriesRequest_set_Pagination)
  | _ => None
  end.

#[export] Instance QueryRegistriesRequest_message : Message QueryRegistriesRequest :=
  {| msg_zero := mkQueryRegistries 0 None; msg_Size := QueryRegistriesRequest_Size;
     msg_MarshalToSizedBuffer := QueryRegistriesRequest_MarshalToSizedBuffer; msg_Unmarshal := unmarshal_with QueryRegistriesRequest_cases |}.

Definition QueryRegistriesResponse_set_Registries (v : list Registry) (m : QueryRegistriesResponse) : QueryRegistriesResponse :=
  mkRegistriesResponse v (qgr_Pagination m).

Definition QueryRegistriesResponse_set_Pagination (v : option PageResponse) (m : QueryRegistriesResponse) : QueryRegistriesResponse :=
  mkRegistriesResponse (qgr_Registries m) v.

Definition QueryRegistriesResponse_Size (m : QueryRegistriesResponse) : Z :=
  size_repeated (qgr_Registries m) + size_opt (qgr_Pagination m).

Definition QueryRegistriesResponse_MarshalToSizedBuffer (m : QueryRegistriesResponse) : bytes -> result (bytes * Z) :=
  sized (fun st =>
    st ← put_opt_field 0x12 (qgr_Pagination m) st;
    put_repeated_field 0xa (qgr_Registries m) st).

Definition QueryRegistriesResponse_cases (fieldNum : Z) : option (FieldCase QueryRegistriesResponse) :=
  match fieldNum with
  | 1 => Some (repeated_case qgr_Registries QueryRegistriesResponse_set_Registries)
  | 2 => Some (opt_case qgr_Pagination QueryRegistriesResponse_set_Pagination)
  | _ => None
  end.

#[export] Instance QueryRegistriesResponse_message : Message QueryRegistriesResponse :=
  {| msg_zero := mkRegistriesResponse [] None; msg_Size := QueryRegistriesResponse_Size;
     msg_MarshalToSizedBuffer := QueryRegistriesResponse_MarshalToSizedBuffer; msg_Unmarshal := unmarshal_with QueryRegistriesResponse_cases |}.

Definition QueryRegistryRequest_set_Id (v : Z) (m : QueryRegistryRequest) : QueryRegistryRequest :=
  mkQueryRegistry v.

Definition QueryRegistryRequest_Size (m : QueryRegistryRequest) : Z :=
  size_uint (qry_Id m).

Definition QueryRegistryRequest_MarshalToSizedBuffer (m : QueryRegistryRequest) : bytes -> result (bytes * Z) :=
  sized (fun st =>
    put_uint_field 0x8 (qry_Id m) st).

Definition QueryRegistryRequest_cases (fieldNum : Z) : option (FieldCase QueryRegistryRequest) :=
  match fieldNum with
  | 1 => Some (UintCase QueryRegistryRequest_set_Id)
  | _ => None
  end.

#[export] Instance QueryRegistryRequest_message : Message QueryRegistryRequest :=
  {| msg_zero := mkQueryRegistry 0; msg_Size := QueryRegistryRequest_Size;
     msg_MarshalToSizedBuffer := QueryRegistryRequest_MarshalToSizedBuffer; msg_Unmarshal := unmarshal_with QueryRegistryRequest_cases |}.

Definition QueryRegistryResponse_set_Registry (v : option Registry) (m : QueryRegistryResponse) : QueryRegistryResponse :=
  mkRegistryResponse v.

Definition QueryRegistryResponse_Size (m : QueryRegistryResponse) : Z :=
  size_opt (qyr_Registry m).

Definition QueryRegistryResponse_MarshalToSizedBuffer (m : QueryRegistryResponse) : bytes -> result (bytes * Z) :=
  sized (fun st =>
    put_opt_field 0xa (qyr_Registry m) st).

Definition QueryRegistryResponse_cases (fieldNum : Z) : option (FieldCase QueryRegistryResponse) :=
  match fieldNum with
  | 1 => Some (opt_case qyr_Registry QueryRegistryResponse_set_Registry)
  | _ => None
  end.

#[export] Instance QueryRegistryResponse_message : Message QueryRegistryResponse :=
  {| msg_zero := mkRegistryResponse None; msg_Size := QueryRegistryResponse_Size;
     msg_MarshalToSizedBuffer := QueryRegistryResponse_MarshalToSizedBuffer; msg_Unmarshal := unmarshal_with QueryRegistryResponse_cases |}.

Definition QuerySearchRequest_set_Name (v : bytes) (m : QuerySearchRequest) : QuerySearchRequest :=
  mkQuerySearch v (qs_Mode m) (qs_Pagination m).

Definition QuerySearchRequest_set_Mode (v : Z) (m : QuerySearchRequest) : QuerySearchRequest :=
  mkQuerySearch (qs_Name m) (mode_of v) (qs_Pagination m).

Definition QuerySearchRequest_set_Pagination (v : option PageRequest) (m : QuerySearchRequest) : QuerySearchRequest :=
  mkQuerySearch (qs_Name m) (qs_Mode m) v.

Definition QuerySearchRequest_Size (m : QuerySearchRequest) : Z :=
  size_string (qs_Name m) + size_enum (mode_num (qs_Mode m)) + size_opt (qs_Pagination m).

Definition QuerySearchRequest_MarshalToSizedBuffer (m : QuerySearchRequest) : bytes -> result (bytes * Z) :=
  sized (fun st =>
    st ← put_opt_field 0x1a (qs_Pagination m) st;
    st ← put_enum_field 0x10 (mode_num (qs_Mode m)) st;
    put_string_field 0xa (qs_Name m) st).

Definition QuerySearchRequest_cases (fieldNum : Z) : option (FieldCase QuerySearchRequest) :=
  match fieldNum with
  | 1 => Some (StringCase QuerySearchRequest_set_Name)
  | 2 => Some (EnumCase QuerySearchRequest_set_Mode)
  | 3 => Some (opt_case qs_Pagination QuerySearchRequest_set_Pagination)
  | _ => None
  end.

#[export] Instance QuerySearchRequest_message : Message QuerySearchRequest :=
  {| msg_zero := mkQuerySearch [] UNSPECIFIED None; msg_Size := QuerySearchRequest_Size;
     msg_MarshalToSizedBuffer := QuerySearchRequest_MarshalToSizedBuffer;
     msg_Unmarshal := unmarshal_with QuerySearchRequest_cases |}.

(** ** Their encodings *)

Context {WQ : Wire PageRequest} {WR : Wire PageResponse}.

Definition enc_QueryParamsResponse (m : QueryParamsResponse) : bytes :=
  enc_message 0xa (qpr_Params m).
Definition QueryParamsResponse_ok (m : QueryParamsResponse) : Prop :=
  wire_ok (qpr_Params m) /\ QueryParamsResponse_Size m < 2 ^ 63.

Lemma QueryParamsResponse_generated m : QueryParamsResponse_ok m ->
  Generated msg_zero QueryParamsResponse_Size QueryParamsResponse_MarshalToSizedBuffer QueryParamsResponse_cases m (enc_QueryParamsResponse m).
Proof. intros (? & Hs). generated m. Qed.
#[export] Instance QueryParamsResponse_wire : Wire QueryParamsResponse.
Proof. apply (generated_wire _ _ _ _ _ _ QueryParamsResponse_generated). cases_of. Defined.

Definition enc_QueryRecordsRequest (m : QueryRecordsRequest) : bytes :=
  enc_string 0xa (qr_Checksum m) ++ enc_uint 0x10 (qr_RegistryId m) ++ enc_uint 0x18 (qr_RecordId m) ++ enc_uint 0x20 (qr_Index m) ++ enc_opt 0x2a (qr_Pagination m).
Definition QueryRecordsRequest_ok (m : QueryRecordsRequest) : Prop :=
  is_u64 (qr_RegistryId m) /\ is_u64 (qr_RecordId m) /\ is_u64 (qr_Index m) /\ opt_ok (qr_Pagination m) /\ QueryRecordsRequest_Size m < 2 ^ 63.

Lemma QueryRecordsRequest_generated m : QueryRecordsRequest_ok m ->
  Generated msg_zero QueryRecordsRequest_Size QueryRecordsRequest_MarshalToSizedBuffer QueryRecordsRequest_cases m (enc_QueryRecordsRequest m).
Proof. intros (? & ? & ? & ? & Hs). generated m. Qed.
#[export] Instance QueryRecordsRequest_wire : Wire QueryRecordsRequest.
Proof. apply (generated_wire _ _ _ _ _ _ QueryRecordsRequest_generated). cases_of. Defined.

Definition enc_QueryRecordsResponse (m : QueryRecordsResponse) : bytes :=
  enc_repeated 0xa (qrr_Records m) ++ enc_opt 0x12 (qrr_Pagination m).
Definition QueryRecordsResponse_ok (m : QueryRecordsResponse) : Prop :=
  repeated_ok (qrr_Records m) /\ opt_ok (qrr_Pagination m) /\ QueryRecordsResponse_Size m < 2 ^ 63.

Lemma QueryRecordsResponse_generated m : QueryRecordsResponse_ok m ->
  Generated msg_zero QueryRecordsResponse_Size QueryRecordsResponse_MarshalToSizedBuffer QueryRecordsResponse_cases m (enc_QueryRecordsResponse m).
Proof. intros (? & ? & Hs). generated m. Qed.
#[export] Instance QueryRecordsResponse_wire : Wire QueryRecordsResponse.
Proof. apply (generated_wire _ _ _ _ _ _ QueryRecordsResponse_generated). cases_of. Defined.

Definition enc_QueryRegistriesRequest (m : QueryRegistriesRequest) : bytes :=
  enc_uint 0x8 (qreg_RegistryId m) ++ enc_opt 0x1a (qreg_Pagination m).
Definition QueryRegistriesRequest_ok (m : QueryRegistriesRequest) : Prop :=
  is_u64 (qreg_RegistryId m) /\ opt_ok (qreg_Pagination m) /\ QueryRegistriesRequest_Size m < 2 ^ 63.

Lemma QueryRegistriesRequest_generated m : QueryRegistriesRequest_ok m ->
  Generated msg_zero QueryRegistriesRequest_Size QueryRegistriesRequest_MarshalToSizedBuffer QueryRegistriesRequest_cases m (enc_QueryRegistriesRequest m).
Proof. intros (? & ? & Hs). generated m. Qed.
#[export] Instance QueryRegistriesRequest_wire : Wire QueryRegistriesRequest.
Proof. apply (generated_wire _ _ _ _ _ _ QueryRegistriesRequest_generated). cases_of. Defined.

Definition enc_QueryRegistriesResponse (m : QueryRegistriesResponse) : bytes :=
  enc_repeated 0xa (qgr_Registries m) ++ enc_opt 0x12 (qgr_Pagination m).
Definition QueryRegistriesResponse_ok (m : QueryRegistriesResponse) : Prop :=
  repeated_ok (qgr_Registries m) /\ opt_ok (qgr_Pagination m) /\ QueryRegistriesResponse_Size m < 2 ^ 63.

Lemma QueryRegistriesResponse_generated m : QueryRegistriesResponse_ok m ->
  Generated msg_zero QueryRegistriesResponse_Size QueryRegistriesResponse_MarshalToSizedBuffer QueryRegistriesResponse_cases m (enc_QueryRegistriesResponse m).
Proof. intros (? & ? & Hs). generated m. Qed.
#[export] Instance QueryRegistriesResponse_wire : Wire QueryRegistriesResponse.
Proof. apply (generated_wire _ _ _ _ _ _ QueryRegistriesResponse_generated). cases_of. Defined.

Definition enc_QueryRegistryRequest (m : QueryRegistryRequest) : bytes :=
  enc_uint 0x8 (qry_Id m).
Definition QueryRegistryRequest_ok (m : QueryRegistryRequest) : Prop :=
  is_u64 (qry_Id m) /\ QueryRegistryRequest_Size m < 2 ^ 63.

Lemma QueryRegistryRequest_generated m : QueryRegistryRequest_ok m ->
  Generated msg_zero QueryRegistryRequest_Size QueryRegistryRequest_MarshalToSizedBuffer QueryRegistryRequest_cases m (enc_QueryRegistryRequest m).
Proof. intros (? & Hs). generated m. Qed.
#[export] Instance QueryRegistryRequest_wire : Wire QueryRegistryRequest.
Proof. apply (generated_wire _ _ _ _ _ _ QueryRegistryRequest_generated). cases_of. Defined.

Definition enc_QueryRegistryResponse (m : QueryRegistryResponse) : bytes :=
  enc_opt 0xa (qyr_Registry m).
Definition QueryRegistryResponse_ok (m : QueryRegistryResponse) : Prop :=
  opt_ok (qyr_Registry m) /\ QueryRegistryResponse_Size m < 2 ^ 63.

Lemma QueryRegistryResponse_generated m : QueryRegistryResponse_ok m ->
  Generated msg_zero QueryRegistryResponse_Size QueryRegistryResponse_MarshalToSizedBuffer QueryRegistryResponse_cases m (enc_QueryRegistryResponse m).
Proof. intros (? & Hs). generated m. Qed.
#[export] Instance QueryRegistryResponse_wire : Wire QueryRegistryResponse.
Proof. apply (generated_wire _ _ _ _ _ _ QueryRegistryResponse_generated). cases_of. Defined.

(** A mode is written as its number; a number that has a name is not [OtherMode]. *)
Definition mode_ok (m : RegistryNameMatchMode) : Prop := is_i32 (mode_num m) /\ mode_of (mode_num m) = m.

Definition enc_QuerySearchRequest (m : QuerySearchRequest) : bytes :=
  enc_string 0xa (qs_Name m) ++ enc_uint 0x10 (wrap64 (mode_num (qs_Mode m)))
  ++ enc_opt 0x1a (qs_Pagination m).
Definition QuerySearchRequest_ok (m : QuerySearchRequest) : Prop :=
  mode_ok (qs_Mode m) /\ opt_ok (qs_Pagination m) /\ QuerySearchRequest_Size m < 2 ^ 63.

Lemma QuerySearchRequest_generated m : QuerySearchRequest_ok m ->
  Generated msg_zero QuerySearchRequest_Size QuerySearchRequest_MarshalToSizedBuffer
    QuerySearchRequest_cases m (enc_QuerySearchRequest m).
Proof.
  intros ([Hi Hm] & Hp & Hs). split; [exact Hs|..]; unfold QuerySearchRequest_Size in *;
    rewrite size_enum_uint in * by done; pose proof (wrap64_u64 (mode_num (qs_Mode m))); string_lens.
  - unfold enc_QuerySearchRequest. rewrite !blen_app, enc_string_size, enc_uint_size, enc_opt_size by done. lia.
  - eexists. split; [reflexivity|]. unfold enc_QuerySearchRequest. emits_fields.
  - unfold enc_QuerySearchRequest. eapply reads_eq; [reads_fields fail|].
    destruct m as [n md p]. cbn in *. unfold QuerySearchRequest_set_Mode. cbn. by rewrite Hm.
Qed.
#[export] Instance QuerySearchRequest_wire : Wire QuerySearchRequest.
Proof. apply (generated_wire _ _ _ _ _ _ QuerySearchRequest_generated). cases_of. Defined.
End query_messages.

(** An instance of the parameters: messages of these fields. *)
Module DemoPage.
Definition PageRequest_set_Key (v : bytes) (m : PageRequest) : PageRequest :=
  mkPageRequest v (pr_Offset m) (pr_Limit m) (pr_CountTotal m) (pr_Reverse m).

Definition PageRequest_set_Offset (v : Z) (m : PageRequest) : PageRequest :=
  mkPageRequest (pr_Key m) v (pr_Limit m) (pr_CountTotal m) (pr_Reverse m).

Definition PageRequest_set_Limit (v : Z) (m : PageRequest) : PageRequest :=
  mkPageRequest (pr_Key m) (pr_Offset m) v (pr_CountTotal m) (pr_Reverse m).

Definition PageRequest_set_CountTotal (v : bool) (m : PageRequest) : PageRequest :=
  mkPageRequest (pr_Key m) (pr_Offset m) (pr_Limit m) v (pr_Reverse m).

Definition PageRequest_set_Reverse (v : bool) (m : PageRequest) : PageRequest :=
  mkPageRequest (pr_Key m) (pr_Offset m) (pr_Limit m) (pr_CountTotal m) v.

Definition PageRequest_Size (m : PageRequest) : Z :=
  size_string (pr_Key m) + size_uint (pr_Offset m) + size_uint (pr_Limit m) + size_bool (pr_CountTotal m) + size_bool (pr_Reverse m).

Definition PageRequest_MarshalToSizedBuffer (m : PageRequest) : bytes -> result (bytes * Z) :=
  sized (fun st =>
    st ← put_bool_field 0x28 (pr_Reverse m) st;
    st ← put_bool_field 0x20 (pr_CountTotal m) st;
    st ← put_uint_field 0x18 (pr_Limit m) st;
    st ← put_uint_field 0x10 (pr_Offset m) st;
    put_string_field 0xa (pr_Key m) st).

Definition PageRequest_cases (fieldNum : Z) : option (FieldCase PageRequest) :=
  match fieldNum with
  | 1 => Some (StringCase PageRequest_set_Key)
  | 2 => Some (UintCase PageRequest_set_Offset)
  | 3 => Some (UintCase PageRequest_set_Limit)
  | 4 => Some (BoolCase PageRequest_set_CountTotal)
  | 5 => Some (BoolCase PageRequest_set_Reverse)
  | _ => None
  end.

#[global] Instance PageRequest_message : Message PageRequest :=
  {| msg_zero := mkPageRequest [] 0 0 false false; msg_Size := PageRequest_Size;
     msg_MarshalToSizedBuffer := PageRequest_MarshalToSizedBuffer; msg_Unmarshal := unmarshal_with PageRequest_cases |}.

Definition enc_PageRequest (m : PageRequest) : bytes :=
  enc_string 0xa (pr_Key m) ++ enc_uint 0x10 (pr_Offset m) ++ enc_uint 0x18 (pr_Limit m) ++ enc_bool 0x20 (pr_CountTotal m) ++ enc_bool 0x28 (pr_Reverse m).
Definition PageRequest_ok (m : PageRequest) : Prop :=
  is_u64 (pr_Offset m) /\ is_u64 (pr_Limit m) /\ PageRequest_Size m < 2 ^ 63.

Lemma PageRequest_generated m : PageRequest_ok m ->
  Generated msg_zero PageRequest_Size PageRequest_MarshalToSizedBuffer PageRequest_cases m (enc_PageRequest m).
Proof. intros (? & ? & Hs). generated m. Qed.
#[global] Instance PageRequest_wire : Wire PageRequest.
Proof. apply (generated_wire _ _ _ _ _ _ PageRequest_generated). cases_of. Defined.

Definition PageResponse_set_NextKey (v : bytes) (m : PageResponse) : PageResponse :=
  mkPageResponse v (Total m).

Definition PageResponse_set_Total (v : Z) (m : PageResponse) : PageResponse :=
  mkPageResponse (NextKey m) v.

Definition PageResponse_Size (m : PageResponse) : Z :=
  size_string (NextKey m) + size_uint (Total m).

Definition PageResponse_MarshalToSizedBuffer (m : PageResponse) : bytes -> result (bytes * Z) :=
  sized (fun st =>
    st ← put_uint_field 0x10 (Total m) st;
    put_string_field 0xa (NextKey m) st).

Definition PageResponse_cases (fieldNum : Z) : option (FieldCase PageResponse) :=
  match fieldNum with
  | 1 => Some (StringCase PageResponse_set_NextKey)
  | 2 => Some (UintCase PageResponse_set_Total)
  | _ => None
  end.

#[global] Instance PageResponse_message : Message PageResponse :=
  {| msg_zero := mkPageResponse [] 0; msg_Size := PageResponse_Size;
     msg_MarshalToSizedBuffer := PageResponse_MarshalToSizedBuffer; msg_Unmarshal := unmarshal_with PageResponse_cases |}.

Definition enc_PageResponse (m : PageResponse) : bytes :=
  enc_string 0xa (NextKey m) ++ enc_uint 0x10 (Total m).
Definition PageResponse_ok (m : PageResponse) : Prop :=
  is_u64 (Total m) /\ PageResponse_Size m < 2 ^ 63.

Lemma PageResponse_generated m : PageResponse_ok m ->
  Generated msg_zero PageResponse_Size PageResponse_MarshalToSizedBuffer PageResponse_cases m (enc_PageResponse m).
Proof. intros (? & Hs). generated m. Qed.
#[global] Instance PageResponse_wire : Wire PageResponse.
Proof. apply (generated_wire _ _ _ _ _ _ PageResponse_generated). cases_of. Defined.

End DemoPage.
