(* ===== verification/ProtoGenesis.v ===== *)
(** The wire format of the genesis state: src/x/anchoring/types/genesis.pb.go.

    Three fields of the message are Go maps.  [MarshalToSizedBuffer] visits a map in
    the order of [range], which the language does not fix: a map is the list of its
    entries in the order they are visited, and the theorem holds for every order.
    [Unmarshal] has a loop of its own for an entry, which reads with the bound of the
    whole input and goes back to the end of the entry. *)

From S2P Require Import Prelude Types Rbac Keeper Genesis Export Proto ProtoMsg.

(** ** Marshal *)

(** An entry of a map: [baseI := i], the value, the key, and [baseI-i] as its length. *)
Definition put_entry (tag : Z) (fields : Buf -> result Buf) (st : Buf) : result Buf :=
  let baseI := st.2 in
  st ← fields st;
  st ← encodeVarintDocument st.1 st.2 (baseI - st.2);
  put_tag tag st.

(** [for k := range m.F] *)
Fixpoint put_map {K V} (tag : Z) (fields : K -> V -> Buf -> result Buf) (l : list (K * V)) (st : Buf) :
    result Buf :=
  match l with
  | [] => Ok st
  | (k, v) :: l => st ← put_entry tag (fields k v) st; put_map tag fields l st
  end.

(** The fields of an entry of [Registries]: the key is written even when it is zero. *)
Definition put_registry_entry (k : Z) (v : Registry) (st : Buf) : result Buf :=
  st ← put_message_field 0x12 v st;
  st ← encodeVarintDocument st.1 st.2 k;
  put_tag 0x8 st.

(** The fields of an entry of [RoleAdmins] and [RoleMembers]: the value is left out
    when it is empty, the key never is. *)
Definition put_bytes_entry (k v : bytes) (st : Buf) : result Buf :=
  st ← put_string_field 0x12 v st;
  let i := st.2 - blen k in
  dAtA ← put_bytes st.1 i k;
  st ← encodeVarintDocument dAtA i (blen k);
  put_tag 0xa st.

Definition GenesisState_MarshalToSizedBuffer (m : GenesisState) : bytes -> result (bytes * Z) :=
  sized (fun st =>
    st ← put_map 0x32 put_bytes_entry (gen_RoleMembers m) st;
    st ← put_map 0x2a put_bytes_entry (gen_RoleAdmins m) st;
    st ← put_repeated_field 0x1a (gen_Records m) st;
    st ← put_map 0x12 put_registry_entry (gen_Registries m) st;
    put_message_field 0xa (gen_Params m) st).

Definition size_registry_entry (k : Z) (v : Registry) : Z := 1 + sovDocument k + size_message v.
Definition size_bytes_entry (k v : bytes) : Z := 1 + blen k + sovDocument (blen k) + size_string v.

Fixpoint size_map {K V} (entry : K -> V -> Z) (l : list (K * V)) : Z :=
  match l with [] => 0 | (k, v) :: l => size_len (entry k v) + size_map entry l end.

Definition GenesisState_Size (m : GenesisState) : Z :=
  size_message (gen_Params m) + size_map size_registry_entry (gen_Registries m)
  + size_repeated (gen_Records m) + size_map size_bytes_entry (gen_RoleAdmins m)
  + size_map size_bytes_entry (gen_RoleMembers m).

(** ** Unmarshal *)

(** [for iNdEx < postIndex]: fields 1 and 2 are the key and the value, whatever their
    wire type, another field is skipped.  What is read is bounded by the input, not by
    the entry. *)
Fixpoint read_entry {K V} (key : bytes -> Z -> K -> result (K * Z)) (value : bytes -> Z -> V -> result (V * Z))
    (fuel : nat) (dAtA : bytes) (postIndex iNdEx : Z) (k : K) (v : V) : result (K * V) :=
  match fuel with
  | O => Err ErrOutOfFuel
  | S fuel' =>
      if iNdEx <? postIndex then
        wireIdx ← read_varint dAtA iNdEx;
        let fieldNum := field_num wireIdx.1 in
        if fieldNum =? 1 then
          kIdx ← key dAtA wireIdx.2 k; read_entry key value fuel' dAtA postIndex kIdx.2 kIdx.1 v
        else if fieldNum =? 2 then
          vIdx ← value dAtA wireIdx.2 v; read_entry key value fuel' dAtA postIndex vIdx.2 k vIdx.1
        else
          next ← skip_field dAtA iNdEx postIndex;
          read_entry key value fuel' dAtA postIndex next k v
      else Ok (k, v)
  end.

(** [mapkey |= uint64(b&0x7F) << shift]: a second key is or-ed to the first. *)
Definition uint_key (dAtA : bytes) (iNdEx : Z) (k : Z) : result (Z * Z) :=
  vIdx ← read_varint dAtA iNdEx; Ok (Z.lor k vIdx.1, vIdx.2).

Definition bytes_field (dAtA : bytes) (iNdEx : Z) (_ : bytes) : result (bytes * Z) := read_string dAtA iNdEx.

(** [mapvalue = &Registry{}] and its [Unmarshal]. *)
Definition registry_value (dAtA : bytes) (iNdEx : Z) (_ : Registry) : result (Registry * Z) :=
  bounds ← read_len dAtA iNdEx;
  sub ← slice dAtA bounds.1 bounds.2;
  v ← Registry_Unmarshal zero_Registry sub;
  Ok (v, bounds.2).

(** [m.F[mapkey] = mapvalue] *)
Fixpoint map_set {K V} `{EqDecision K} (k : K) (v : V) (l : list (K * V)) : list (K * V) :=
  match l with
  | [] => [(k, v)]
  | (k', v') :: l => if decide (k = k') then (k, v) :: l else (k', v') :: map_set k v l
  end.

Definition map_case {A K V} `{EqDecision K} (key : bytes -> Z -> K -> result (K * Z))
    (value : bytes -> Z -> V -> result (V * Z)) (k0 : K) (v0 : V)
    (get : A -> list (K * V)) (set : list (K * V) -> A -> A) : FieldCase A :=
  LenCase (fun dAtA iNdEx postIndex m =>
    kv ← read_entry key value (S (length dAtA)) dAtA postIndex iNdEx k0 v0;
    Ok (set (map_set kv.1 kv.2 (get m)) m)).

Definition GenesisState_set_Params (v : Params) (m : GenesisState) : GenesisState :=
  mkGenesis v (gen_Registries m) (gen_Records m) (gen_RoleAdmins m) (gen_RoleMembers m).
Definition GenesisState_set_Registries (v : list (Z * Registry)) (m : GenesisState) : GenesisState :=
  mkGenesis (gen_Params m) v (gen_Records m) (gen_RoleAdmins m) (gen_RoleMembers m).
Definition GenesisState_set_Records (v : list Record_) (m : GenesisState) : GenesisState :=
  mkGenesis (gen_Params m) (gen_Registries m) v (gen_RoleAdmins m) (gen_RoleMembers m).
Definition GenesisState_set_RoleAdmins (v : list (bytes * bytes)) (m : GenesisState) : GenesisState :=
  mkGenesis (gen_Params m) (gen_Registries m) (gen_Records m) v (gen_RoleMembers m).
Definition GenesisState_set_RoleMembers (v : list (bytes * bytes)) (m : GenesisState) : GenesisState :=
  mkGenesis (gen_Params m) (gen_Registries m) (gen_Records m) (gen_RoleAdmins m) v.

Definition GenesisState_cases (fieldNum : Z) : option (FieldCase GenesisState) :=
  match fieldNum with
  | 1 => Some (message_case gen_Params GenesisState_set_Params)
  | 2 => Some (map_case uint_key registry_value 0 zero_Registry gen_Registries GenesisState_set_Registries)
  | 3 => Some (repeated_case gen_Records GenesisState_set_Records)
  | 5 => Some (map_case bytes_field bytes_field [] [] gen_RoleAdmins GenesisState_set_RoleAdmins)
  | 6 => Some (map_case bytes_field bytes_field [] [] gen_RoleMembers GenesisState_set_RoleMembers)
  | _ => None
  end.

#[export] Instance GenesisState_message : Message GenesisState :=
  {| msg_zero := mkGenesis msg_zero [] [] [] []; msg_Size := GenesisState_Size;
     msg_MarshalToSizedBuffer := GenesisState_MarshalToSizedBuffer;
     msg_Unmarshal := unmarshal_with GenesisState_cases |}.

(** ** Entries *)

Lemma emits_entry tag fields enc :
  is_len enc -> emits fields enc -> emits (put_entry tag fields) (enc_len tag enc).
Proof.
  intros Hl He. pose proof (emits_seq _ _ _ _ (emits_seq _ _ _ _ He (emits_varint _ (is_len_u64 _ Hl)))
    (emits_tag tag)) as Hs.
  intros pre suf Hle. specialize (Hs pre suf Hle). unfold put_entry. cbv [mbind result_bind] in *.
  assert (Hle' : (length enc <= length pre)%nat) by (simpl in Hle; rewrite length_app in Hle; lia).
  destruct (take_split pre _ Hle') as (_ & _ & Hb). rewrite He in Hs |- * by done. cbn [fst snd] in *.
  rewrite Hb in *. replace (blen pre - (blen pre - Z.of_nat (length enc))) with (blen enc); [exact Hs|].
  unfold blen. lia.
Qed.

Definition enc_registry_entry (k : Z) (v : Registry) : bytes := (z2b 0x8 :: varint k) ++ enc_message 0x12 v.
Definition enc_bytes_entry (k v : bytes) : bytes := enc_len 0xa k ++ enc_string 0x12 v.

Lemma emits_registry_entry k v : is_u64 k -> Registry_ok v ->
  emits (put_registry_entry k v) (enc_registry_entry k v).
Proof.
  intros Hk Hv. unfold enc_registry_entry.
  exact (emits_seq _ _ _ _ (emits_message 0x12 v Hv) (emits_seq _ _ _ _ (emits_varint _ Hk) (emits_tag 8))).
Qed.

Lemma emits_bytes_entry k v : is_len k -> is_len v -> emits (put_bytes_entry k v) (enc_bytes_entry k v).
Proof.
  intros Hk Hv. unfold enc_bytes_entry, enc_len.
  pose proof (emits_seq _ _ _ _ (emits_string 0x12 v Hv)
    (emits_seq _ _ _ _ (emits_seq _ _ _ _ (emits_bytes k) (emits_varint _ (is_len_u64 _ Hk))) (emits_tag 0xa))) as He.
  intros pre suf Hle. specialize (He pre suf Hle). unfold put_bytes_entry. cbv [mbind result_bind] in *.
  destruct (put_string_field _ _ _) as [st|]; [|done]. cbn [fst snd] in *.
  destruct (put_bytes _ _ _); [|done]. exact He.
Qed.

(** ** Maps *)

Fixpoint enc_map {K V} (tag : Z) (entry : K -> V -> bytes) (l : list (K * V)) : bytes :=
  match l with [] => [] | (k, v) :: l => enc_map tag entry l ++ enc_len tag (entry k v) end.

Lemma map_set_fresh {K V} `{EqDecision K} (k : K) (v : V) l : k ∉ l.*1 -> map_set k v l = l ++ [(k, v)].
Proof.
  induction l as [|[k' v'] l IH]; intros Hk; [done|]. rewrite fmap_cons, not_elem_of_cons in Hk.
  destruct Hk as [Hne Hk]. simpl in *. rewrite decide_False by done. by rewrite IH.
Qed.

Section maps.
Context {K V : Type} `{EqDecision K}.
Context (key : bytes -> Z -> K -> result (K * Z)) (value : bytes -> Z -> V -> result (V * Z)) (k0 : K) (v0 : V).
Context (fields : K -> V -> Buf -> result Buf) (size : K -> V -> Z).
Context (entry : K -> V -> bytes) (ok : K -> V -> Prop).

(** What the code of an entry does with an entry in range. *)
Record EntryLaws : Prop := {
  entry_len k v : ok k v -> is_len (entry k v);
  entry_size k v : ok k v -> blen (entry k v) = size k v;
  entry_emits k v : ok k v -> emits (fields k v) (entry k v);
  entry_reads k v pre suf fuel : ok k v -> (3 <= fuel)%nat -> is_len (pre ++ entry k v ++ suf) ->
    read_entry key value fuel (pre ++ entry k v ++ suf) (blen (pre ++ entry k v)) (blen pre) k0 v0 = Ok (k, v);
  entry_long k v : (2 <= length (entry k v))%nat
}.
Context (L : EntryLaws).

Definition map_ok (l : list (K * V)) : Prop := NoDup l.*1 /\ Forall (fun e => ok e.1 e.2) l.

Lemma emits_map tag l : Forall (fun e => ok e.1 e.2) l -> emits (put_map tag fields l) (enc_map tag entry l).
Proof.
  induction 1 as [|[k v] l Hkv Hl IH]; [apply emits_skip|]. cbn [put_map enc_map].
  refine (emits_seq _ _ _ _ _ IH). apply emits_entry; [by apply L|by apply L].
Qed.

Lemma enc_map_size tag l : Forall (fun e => ok e.1 e.2) l -> blen (enc_map tag entry l) = size_map size l.
Proof.
  induction 1 as [|[k v] l Hkv Hl IH]; [done|]. cbn [size_map enc_map].
  rewrite blen_app, IH, enc_len_size by (by apply L). rewrite (entry_size L) by done. lia.
Qed.

(** Reading the entries back, in the order they were written in. *)
Lemma reads_map {A} (cases : Z -> option (FieldCase A)) num get set l b :
  1 <= num < 16 -> map_ok l -> cases num = Some (map_case key value k0 v0 get set) ->
  get b = [] -> set [] b = b ->
  (forall l, get (set l b) = l) -> (forall l l', set l' (set l b) = set l' b) ->
  reads cases (enc_map (num * 8 + 2) entry l) b (set (rev l) b).
Proof.
  intros Hn [Hnd Hl] Hc Hg Hn0 Hgs Hss. induction l as [|[k v] l IH]; [cbn [rev]; rewrite Hn0; apply reads_nil|].
  apply Forall_cons in Hl as [Hkv Hl]. rewrite fmap_cons, NoDup_cons in Hnd. destruct Hnd as [Hk Hnd].
  cbn [enc_map]. eapply reads_app; [by apply IH|]. eapply reads_len; [done|exact Hc|].
  intros pre suf Hlen. cbv beta. rewrite (entry_reads L); [|done| |done].
  - cbv [mbind result_bind]. cbn [fst snd rev]. rewrite Hgs, Hss, map_set_fresh; [done|].
    intros (e & Ee & He)%list_elem_of_fmap. apply Hk, list_elem_of_fmap. exists e. split; [done|].
    rewrite list_elem_of_In in He |- *. by apply in_rev.
  - rewrite !length_app. pose proof (entry_long L k v). lia.
Qed.
End maps.

(** A reader that neither panics nor runs out of fuel, and goes forward. *)
Definition reader_safe {X} (f : bytes -> Z -> X -> result (X * Z)) : Prop :=
  forall dAtA i x, is_len dAtA -> 0 <= i ->
  safe (f dAtA i x) /\ (forall x' i', f dAtA i x = Ok (x', i') -> i < i').

Lemma read_entry_safe {K V} (key : bytes -> Z -> K -> result (K * Z)) (value : bytes -> Z -> V -> result (V * Z))
    fuel dAtA post i k v :
  reader_safe key -> reader_safe value -> is_len dAtA -> 0 <= i -> post <= blen dAtA ->
  blen dAtA - i < Z.of_nat fuel -> (0 < fuel)%nat -> safe (read_entry key value fuel dAtA post i k v).
Proof.
  intros Hk Hv Hl. revert i k v. induction fuel as [|fuel IH]; intros i k v Hi Hp Hf H0; [lia|].
  cbn [read_entry]. destruct (Z.ltb_spec i post); [|done].
  destruct (read_varint_safe dAtA i Hi) as [S1 S2]. apply safe_bind; [done|]. intros [w i1] E. cbn [fst snd].
  specialize (S2 _ _ E). destruct (_ =? 1); [|destruct (_ =? 2)].
  - destruct (Hk dAtA i1 k Hl ltac:(lia)) as [K1 K2]. apply safe_bind; [done|]. intros [k' i2] Ek.
    specialize (K2 _ _ Ek). apply IH; cbn [fst snd]; lia.
  - destruct (Hv dAtA i1 v Hl ltac:(lia)) as [K1 K2]. apply safe_bind; [done|]. intros [v' i2] Ek.
    specialize (K2 _ _ Ek). apply IH; cbn [fst snd]; lia.
  - destruct (skip_field_safe dAtA i post Hl ltac:(lia) Hp) as [K1 K2]. apply safe_bind; [done|].
    intros i2 Ei. specialize (K2 _ Ei). apply IH; lia.
Qed.

Lemma map_case_safe {A K V} `{EqDecision K} key value (k0 : K) (v0 : V) (get : A -> list (K * V)) set :
  reader_safe key -> reader_safe value -> case_safe (map_case key value k0 v0 get set).
Proof.
  intros Hk Hv dAtA i post m Hl Hi Hp. apply safe_bind; [|done].
  apply read_entry_safe; try done; try lia. unfold blen. lia.
Qed.

Lemma uint_key_safe : reader_safe uint_key.
Proof.
  intros dAtA i k Hl Hi. unfold uint_key. destruct (read_varint_safe dAtA i Hi) as [S1 S2].
  cbv [mbind result_bind]. destruct (read_varint dAtA i) as [[v i1]|e]; [|split; [by eapply safe_Err|done]].
  split; [done|]. intros x' i' [= _ <-]. specialize (S2 _ _ eq_refl). simpl. lia.
Qed.

Lemma bytes_field_safe : reader_safe bytes_field.
Proof.
  intros dAtA i k Hl Hi. unfold bytes_field, read_string. destruct (read_len_safe dAtA i Hl Hi) as [S1 S2].
  cbv [mbind result_bind]. destruct (read_len dAtA i) as [[j post]|e]; [|split; [by eapply safe_Err|done]].
  specialize (S2 _ _ eq_refl). cbn [fst snd]. destruct (slice_ok dAtA j post) as (x & -> & _); [lia|lia|].
  split; [done|]. intros x' i' [= _ <-]. lia.
Qed.

Lemma registry_value_safe : reader_safe registry_value.
Proof.
  intros dAtA i k Hl Hi. unfold registry_value. destruct (read_len_safe dAtA i Hl Hi) as [S1 S2].
  cbv [mbind result_bind]. destruct (read_len dAtA i) as [[j post]|e]; [|split; [by eapply safe_Err|done]].
  specialize (S2 _ _ eq_refl). cbn [fst snd].
  destruct (slice_ok dAtA j post) as (sub & -> & Hsub); [lia|lia|].
  pose proof (wire_total zero_Registry sub) as Ht. cbn [msg_Unmarshal Registry_message] in Ht.
  specialize (Ht ltac:(unfold is_len in *; lia)).
  destruct (Registry_Unmarshal _ _) as [v|e]; [|split; [by eapply safe_Err|done]].
  split; [done|]. intros x' i' [= _ <-]. lia.
Qed.

(** ** The entries of the three maps *)

(** Bytes that a reader reads as [x]. *)
Definition reads_as {X} (f : bytes -> Z -> X -> result (X * Z)) (x0 : X) (enc : bytes) (x : X) : Prop :=
  forall pre suf, is_len (pre ++ enc ++ suf) -> f (pre ++ enc ++ suf) (blen pre) x0 = Ok (x, blen (pre ++ enc)).

Section entry_rounds.
Context {K V : Type} (key : bytes -> Z -> K -> result (K * Z)) (value : bytes -> Z -> V -> result (V * Z)).

Lemma read_entry_end fuel dAtA post k v :
  (0 < fuel)%nat -> read_entry key value fuel dAtA post post k v = Ok (k, v).
Proof. intros Hf. destruct fuel; [lia|]. cbn [read_entry]. by rewrite Z.ltb_irrefl. Qed.

(** The round of the key and the round of the value, each with a tag of one byte. *)
Lemma read_entry_key fuel dAtA pre tag enc suf post k0 k v :
  dAtA = pre ++ (z2b tag :: enc) ++ suf -> is_len dAtA -> varint tag = [z2b tag] -> is_u64 tag ->
  field_num tag = 1 -> blen pre < post -> reads_as key k0 enc k ->
  read_entry key value (S fuel) dAtA post (blen pre) k0 v
  = read_entry key value fuel dAtA post (blen (pre ++ z2b tag :: enc)) k v.
Proof.
  intros -> Hl Ht Hu Hn Hp Hk. cbn [read_entry]. rewrite (proj2 (Z.ltb_lt _ _)) by done.
  pose proof (read_varint_ok tag pre (enc ++ suf) Hu) as Hr. rewrite Ht in Hr. cbn [app] in Hr |- *. rewrite Hr.
  cbv [mbind result_bind]. cbn [fst snd]. rewrite Hn. cbn [Z.eqb Pos.eqb].
  specialize (Hk (pre ++ [z2b tag]) suf). rewrite <- !app_assoc in Hk. cbn [app] in Hk, Hl. by rewrite Hk.
Qed.

Lemma read_entry_value fuel dAtA pre tag enc suf post k v0 v :
  dAtA = pre ++ (z2b tag :: enc) ++ suf -> is_len dAtA -> varint tag = [z2b tag] -> is_u64 tag ->
  field_num tag = 2 -> blen pre < post -> reads_as value v0 enc v ->
  read_entry key value (S fuel) dAtA post (blen pre) k v0
  = read_entry key value fuel dAtA post (blen (pre ++ z2b tag :: enc)) k v.
Proof.
  intros -> Hl Ht Hu Hn Hp Hk. cbn [read_entry]. rewrite (proj2 (Z.ltb_lt _ _)) by done.
  pose proof (read_varint_ok tag pre (enc ++ suf) Hu) as Hr. rewrite Ht in Hr. cbn [app] in Hr |- *. rewrite Hr.
  cbv [mbind result_bind]. cbn [fst snd]. rewrite Hn. cbn [Z.eqb Pos.eqb].
  specialize (Hk (pre ++ [z2b tag]) suf). rewrite <- !app_assoc in Hk. cbn [app] in Hk, Hl. by rewrite Hk.
Qed.

(** An entry of a key and a value. *)
Lemma read_entry_both fuel pre t1 e1 t2 e2 suf k0 k v0 v :
  let entry := (z2b t1 :: e1) ++ z2b t2 :: e2 in
  (3 <= fuel)%nat -> is_len (pre ++ entry ++ suf) -> varint t1 = [z2b t1] -> varint t2 = [z2b t2] ->
  is_u64 t1 -> is_u64 t2 -> field_num t1 = 1 -> field_num t2 = 2 ->
  reads_as key k0 e1 k -> reads_as value v0 e2 v ->
  read_entry key value fuel (pre ++ entry ++ suf) (blen (pre ++ entry)) (blen pre) k0 v0 = Ok (k, v).
Proof.
  intros entry Hf Hl ?????? Hk Hv. destruct fuel as [|[|fuel]]; [lia..|].
  assert (Hp1 : blen pre < blen (pre ++ entry)) by (unfold entry, blen; rewrite length_app; simpl; lia).
  assert (Hp2 : blen (pre ++ z2b t1 :: e1) < blen (pre ++ entry))
    by (unfold entry, blen; rewrite !length_app; simpl; lia).
  rewrite (read_entry_key _ _ pre t1 e1 ((z2b t2 :: e2) ++ suf) _ k0 k) by (done || by unfold entry; rewrite <- app_assoc).
  rewrite (read_entry_value _ _ (pre ++ z2b t1 :: e1) t2 e2 suf _ k v0 v)
    by (done || by unfold entry; rewrite <- !app_assoc).
  rewrite <- app_assoc. apply read_entry_end. lia.
Qed.

(** An entry of a key alone. *)
Lemma read_entry_alone fuel pre t1 e1 suf k0 k v0 :
  (3 <= fuel)%nat -> is_len (pre ++ (z2b t1 :: e1) ++ suf) -> varint t1 = [z2b t1] -> is_u64 t1 ->
  field_num t1 = 1 -> reads_as key k0 e1 k ->
  read_entry key value fuel (pre ++ (z2b t1 :: e1) ++ suf) (blen (pre ++ z2b t1 :: e1)) (blen pre) k0 v0
  = Ok (k, v0).
Proof.
  intros Hf Hl ??? Hk. destruct fuel as [|fuel]; [lia|].
  rewrite (read_entry_key _ _ pre t1 e1 suf _ k0 k) by (done || unfold blen; rewrite length_app; simpl; lia).
  apply read_entry_end. lia.
Qed.
End entry_rounds.

Lemma uint_key_reads k : is_u64 k -> reads_as uint_key 0 (varint k) k.
Proof.
  intros Hk pre suf Hl. unfold uint_key. cbv [mbind result_bind]. by rewrite read_varint_ok.
Qed.

Lemma bytes_field_reads s x0 : reads_as bytes_field x0 (varint (blen s) ++ s) s.
Proof.
  intros pre suf Hl. unfold bytes_field. rewrite <- app_assoc in Hl |- *. by apply read_string_ok.
Qed.

Lemma registry_value_reads v x0 : Registry_ok v -> reads_as registry_value x0 (varint (blen (wire v)) ++ wire v) v.
Proof.
  intros Hv pre suf Hl. rewrite <- app_assoc in Hl |- *. unfold registry_value. cbv [mbind result_bind].
  rewrite read_len_ok by done. cbn [fst snd].
  pose proof (slice_of_app (pre ++ varint (blen (wire v))) (wire v) suf) as Hs. rewrite <- !app_assoc in Hs.
  rewrite Hs. pose proof (wire_reads v Hv) as Hr. cbn [msg_Unmarshal msg_zero Registry_message] in Hr. by rewrite Hr.
Qed.

Definition registry_entry_ok (k : Z) (v : Registry) : Prop :=
  is_u64 k /\ Registry_ok v /\ size_registry_entry k v < 2 ^ 63.
Definition bytes_entry_ok (k v : bytes) : Prop := is_len k /\ is_len v /\ size_bytes_entry k v < 2 ^ 63.

Lemma registry_entry_size k v : is_u64 k -> Registry_ok v ->
  blen (enc_registry_entry k v) = size_registry_entry k v.
Proof.
  intros Hk Hv. unfold enc_registry_entry, size_registry_entry.
  rewrite blen_app, (enc_message_size (WA := Registry_wire)) by done.
  change (z2b 8 :: varint k) with ([z2b 8] ++ varint k). rewrite blen_app, varint_length by done.
  change (blen [_]) with 1. lia.
Qed.

Lemma bytes_entry_size k v : is_len k -> is_len v -> blen (enc_bytes_entry k v) = size_bytes_entry k v.
Proof.
  intros Hk Hv. unfold enc_bytes_entry, size_bytes_entry.
  rewrite blen_app, enc_len_size, enc_string_size by done. unfold size_len. lia.
Qed.

Lemma registry_entry_laws :
  EntryLaws uint_key registry_value 0 zero_Registry put_registry_entry size_registry_entry enc_registry_entry
    registry_entry_ok.
Proof.
  split.
  - intros k v (Hk & Hv & Hs). unfold is_len. by rewrite registry_entry_size.
  - intros k v (Hk & Hv & _). by apply registry_entry_size.
  - intros k v (Hk & Hv & _). by apply emits_registry_entry.
  - intros k v pre suf fuel (Hk & Hv & _) Hf Hl.
    apply read_entry_both; try done; [by apply uint_key_reads|by apply registry_value_reads].
  - intros k v. unfold enc_registry_entry, enc_message, enc_len. rewrite length_app. simpl. lia.
Qed.

Lemma bytes_entry_laws :
  EntryLaws bytes_field bytes_field [] [] put_bytes_entry size_bytes_entry enc_bytes_entry bytes_entry_ok.
Proof.
  split.
  - intros k v (Hk & Hv & Hs). unfold is_len. by rewrite bytes_entry_size.
  - intros k v (Hk & Hv & _). by apply bytes_entry_size.
  - intros k v (Hk & Hv & _). by apply emits_bytes_entry.
  - intros k v pre suf fuel (Hk & Hv & _) Hf. unfold enc_bytes_entry, enc_string.
    destruct (Z.ltb_spec 0 (blen v)) as [Hlt|Hle]; intros Hl.
    + apply read_entry_both; try done; apply bytes_field_reads.
    + assert (v = []) as -> by (apply blen_nil; pose proof (blen_nonneg v); lia).
      rewrite app_nil_r in *. apply read_entry_alone; try done. apply bytes_field_reads.
  - intros k v. unfold enc_bytes_entry, enc_len. rewrite length_app. simpl. rewrite length_app.
    assert (1 <= length (varint (blen k)))%nat; [|lia]. unfold varint, varint_fuel. simpl. case_match; simpl; lia.
Qed.

(** ** The genesis state *)

Definition enc_GenesisState (m : GenesisState) : bytes :=
  enc_message 0xa (gen_Params m) ++ enc_map 0x12 enc_registry_entry (gen_Registries m)
  ++ enc_repeated 0x1a (gen_Records m) ++ enc_map 0x2a enc_bytes_entry (gen_RoleAdmins m)
  ++ enc_map 0x32 enc_bytes_entry (gen_RoleMembers m).

(** The maps have one entry for a key, every entry is in range, and the message fits. *)
Definition GenesisState_ok (m : GenesisState) : Prop :=
  Params_ok (gen_Params m) /\ map_ok registry_entry_ok (gen_Registries m) /\
  Forall Record_ok (gen_Records m) /\ map_ok bytes_entry_ok (gen_RoleAdmins m) /\
  map_ok bytes_entry_ok (gen_RoleMembers m) /\ GenesisState_Size m < 2 ^ 63.

(** The message that [Unmarshal] gives back: the maps are in the reverse order, since
    the buffer is filled from its end. *)
Definition reversed_maps (m : GenesisState) : GenesisState :=
  mkGenesis (gen_Params m) (rev (gen_Registries m)) (gen_Records m) (rev (gen_RoleAdmins m))
    (rev (gen_RoleMembers m)).

Lemma reversed_maps_reordered m : reordered m (reversed_maps m).
Proof. split; cbn; try done; apply Permutation_sym, Permutation_rev. Qed.

Lemma enc_GenesisState_size m : GenesisState_ok m -> blen (enc_GenesisState m) = GenesisState_Size m.
Proof.
  intros (Hp & [_ Hg] & Hr & [_ Ha] & [_ Hm] & _). unfold enc_GenesisState, GenesisState_Size.
  rewrite !blen_app, (enc_message_size (WA := Params_wire)), (enc_repeated_size (WA := Record_wire)) by done.
  rewrite (enc_map_size _ _ _ _ _ _ _ _ registry_entry_laws), !(enc_map_size _ _ _ _ _ _ _ _ bytes_entry_laws) by done.
  lia.
Qed.

Lemma GenesisState_emits m : GenesisState_ok m ->
  fills (GenesisState_MarshalToSizedBuffer m) (enc_GenesisState m).
Proof.
  intros (Hp & [_ Hg] & Hr & [_ Ha] & [_ Hm] & _). apply sized_fills. unfold enc_GenesisState. rewrite !app_assoc.
  apply emits_seq; [by apply (emits_map _ _ _ _ _ _ _ _ bytes_entry_laws)|].
  apply emits_seq; [by apply (emits_map _ _ _ _ _ _ _ _ bytes_entry_laws)|].
  apply emits_seq; [by apply (emits_repeated (WA := Record_wire))|].
  apply emits_seq; [by apply (emits_map _ _ _ _ _ _ _ _ registry_entry_laws)|].
  by apply (emits_message (WA := Params_wire)).
Qed.

Lemma GenesisState_reads m : GenesisState_ok m ->
  reads GenesisState_cases (enc_GenesisState m) msg_zero (reversed_maps m).
Proof.
  intros (Hp & Hg & Hr & Ha & Hm & _). unfold enc_GenesisState. eapply reads_eq.
  - eapply reads_app; [eapply (reads_message (WA := Params_wire) _ 1); [lia|exact Hp|reflexivity|reflexivity]|].
    eapply reads_app; [eapply (reads_map _ _ _ _ _ _ _ _ registry_entry_laws _ 2); [lia|exact Hg|reflexivity..]|].
    eapply reads_app; [eapply (reads_repeated (WA := Record_wire) _ 3); [lia|exact Hr|reflexivity..]|].
    eapply reads_app; [eapply (reads_map _ _ _ _ _ _ _ _ bytes_entry_laws _ 5); [lia|exact Ha|reflexivity..]|].
    eapply (reads_map _ _ _ _ _ _ _ _ bytes_entry_laws _ 6); [lia|exact Hm|reflexivity..].
  - reflexivity.
Qed.

Lemma GenesisState_cases_safe : cases_safe GenesisState_cases.
Proof.
  intros num c E. unfold GenesisState_cases in E.
  repeat (case_match; try discriminate E); apply (inj Some) in E; subst c;
    first [apply (message_case_safe (WA := Params_wire))|apply (repeated_case_safe (WA := Record_wire))
          |apply map_case_safe; [apply uint_key_safe|apply registry_value_safe]
          |apply map_case_safe; apply bytes_field_safe].
Qed.

(** ** Properties *)

(** C20: The genesis state survives its encoding, in whatever order [range] visits its
    maps: marshalling fills a buffer of the announced size, and unmarshalling it gives
    the same parameters, the same records in the same order, and the same maps.  And
    [Unmarshal] is total: on arbitrary bytes, with entries that reach past their end or
    have unknown fields, it ends with a state or an error, without an access out of
    range. *)
Theorem genesis_wire_roundtrip (m : GenesisState) :
  GenesisState_ok m ->
  (exists b m', Marshal m = Ok b /\ blen b = GenesisState_Size m /\
     msg_Unmarshal msg_zero b = Ok m' /\ reordered m m') /\
  (forall dAtA, is_len dAtA -> safe (msg_Unmarshal m dAtA)).
Proof.
  intros Hm. split.
  - exists (enc_GenesisState m), (reversed_maps m). pose proof (enc_GenesisState_size m Hm) as Hs. split_and!.
    + apply marshal_fills; [by apply GenesisState_emits|done].
    + done.
    + apply reads_all; [by apply GenesisState_reads|]. unfold is_len. rewrite Hs. apply Hm.
    + apply reversed_maps_reordered.
  - intros dAtA Hl. apply read_fields_safe; try done; [apply GenesisState_cases_safe|..];
      pose proof (blen_nonneg dAtA); unfold blen in *; lia.
Qed.

Definition demo_genesis_state : GenesisState :=
  mkGenesis (mkParams (bs "nvnm1carol")) [(0, demo_registry); (300, demo_registry)] [demo_record]
    [(bs "role", bs "admin"); (bs "other", [])] [(bs "role/alice", [])].

Lemma genesis_wire_roundtrip_witness :
  (exists b m', Marshal demo_genesis_state = Ok b /\ blen b = GenesisState_Size demo_genesis_state /\
     msg_Unmarshal msg_zero b = Ok m' /\ reordered demo_genesis_state m') /\
  (forall dAtA, is_len dAtA -> safe (msg_Unmarshal demo_genesis_state dAtA)).
Proof.
  apply (genesis_wire_roundtrip demo_genesis_state).
  assert (Hb : forall l, NoDup l.*1 -> Forall (fun e => size_bytes_entry e.1 e.2 < 2 ^ 63 /\ is_len e.1 /\ is_len e.2) l ->
    map_ok bytes_entry_ok l).
  { intros l Hl Hf. split; [done|]. eapply Forall_impl; [exact Hf|]. intros e (? & ? & ?). by split_and!. }
  split; [by vm_compute|]. split.
  { split; [by_eval|]. repeat (constructor; [repeat split; by vm_compute|]). constructor. }
  split; [constructor; [repeat split; by vm_compute|constructor]|].
  split; [apply Hb; [by_eval|repeat (constructor; [repeat split; by vm_compute|]); constructor]|].
  split; [apply Hb; [by_eval|repeat (constructor; [repeat split; by vm_compute|]); constructor]|].
  by vm_compute.
Defined.
