(* ===== verification/Grpc.v ===== *)
(** The part of a generated gRPC service that does not depend on its messages: the
    handlers, the descriptor and the client methods of src/x/anchoring/types/tx.pb.go,
    query.pb.go and of the same files of src/x/tax/types.

    A handler decodes its request and calls a method of the server; the descriptor
    names the handlers; a client method encodes its request, invokes the path of the
    method and decodes the answer.  The connection, the server and the interceptor belong
    to gRPC: a connection is a function from a path and the bytes of a request to the
    bytes of an answer, and [serve], the connection to a server with a descriptor, is a
    parameter with the laws [GrpcLaws]: a method is found by its path, and the error of a
    handler arrives as the status it is converted to.  Limits on the size of messages,
    deadlines and failures of the network are not modelled. *)

From S2P Require Import Prelude Types Proto.

Section grpc.
Context {S : Type}.
Implicit Types s : S.

(** [grpc.ClientConn], on encoded messages. *)
Definition Conn : Type := string -> bytes -> M S bytes.

(** [c.cc.Invoke(ctx, path, in, out)] *)
Definition Invoke {Req Resp} `{Message Req, Message Resp} (cc : Conn) (path : string) (req : Req) :
    M S Resp :=
  payload ← lift (Marshal req);
  out ← cc path payload;
  lift (msg_Unmarshal msg_zero out).

(** [grpc.UnaryServerInterceptor]: it is given the full method, the request and the
    handler to call. *)
Definition Interceptor : Type :=
  forall Req Resp : Type, string -> Req -> (Req -> M S Resp) -> M S Resp.

(** The body that all handlers share: [in := new(Req)], [dec(in)], then the method,
    through the interceptor if there is one. *)
Definition unary_handler {Req Resp} `{Message Req} (FullMethod : string) (method : Req -> M S Resp)
    (interceptor : option Interceptor) (payload : bytes) : M S Resp :=
  req ← lift (msg_Unmarshal msg_zero payload);
  match interceptor with
  | None => method req
  | Some i => i Req Resp FullMethod req method
  end.

(** [grpc.MethodDesc], with the answer encoded, and [grpc.ServiceDesc]. *)
Record MethodDesc := mkMethod {
  MethodName : string;
  Handler : option Interceptor -> bytes -> M S bytes
}.
Record ServiceDesc := mkServiceDesc { ServiceName : string; Methods : list MethodDesc }.

Definition answering {Resp} `{Message Resp} (h : option Interceptor -> bytes -> M S Resp) :
    option Interceptor -> bytes -> M S bytes :=
  fun interceptor payload => rsp ← h interceptor payload; lift (Marshal rsp).

(** The path [/service/method] of a method. *)
Definition method_path (d : ServiceDesc) (m : MethodDesc) : string :=
  String.append "/" (String.append (ServiceName d) (String.append "/" (MethodName m))).

(** An interceptor that calls the handler it is given, with the request it is given,
    as those of a gRPC server that log or measure do.  The message router of the SDK uses
    the handlers in another way, with an interceptor that replaces the request by the
    message of the transaction; that is [handle] of MsgServer.v. *)
Definition transparent (interceptor : option Interceptor) : Prop :=
  match interceptor with
  | None => True
  | Some i => forall Req Resp path req (method : Req -> M S Resp), i Req Resp path req method = method req
  end.

End grpc.
Arguments Conn : clear implicits.
Arguments Interceptor : clear implicits.
Arguments MethodDesc : clear implicits.
Arguments ServiceDesc : clear implicits.

(** ** gRPC *)

(** [serve d i] is the connection to a server with the descriptor [d] and the
    interceptor [i]; [to_status] is the status a client sees for the error of a
    handler. *)
Class Grpc := {
  to_status : err -> err;
  serve : forall {S}, ServiceDesc S -> option (Interceptor S) -> Conn S
}.

(** What arrives of the result of a handler. *)
Definition arrived `{Grpc} {S A} (r : result A * S) : result A * S :=
  (match r.1 with Ok a => Ok a | Err e => Err (to_status e) end, r.2).

Class GrpcLaws `{Grpc} := {
  serve_method : forall S (d : ServiceDesc S) i m payload (s : S),
    NoDup (MethodName <$> Methods d) -> m ∈ Methods d ->
    serve d i (method_path d m) payload s = arrived (Handler m i payload s);
  serve_unknown : forall S (d : ServiceDesc S) i path payload (s : S),
    Forall (fun m => method_path d m <> path) (Methods d) ->
    exists e, serve d i path payload s = (Err e, s)
}.

Section calls.
Context {S : Type} `{GrpcLaws}.
Implicit Types s : S.

(** ** Encoded calls *)

Lemma serve_at (d : ServiceDesc S) i k m path payload s :
  list_find (fun m => method_path d m = path) (Methods d) = Some (k, m) -> NoDup (MethodName <$> Methods d) ->
  serve d i path payload s = arrived (Handler m i payload s).
Proof. intros (Hm & <- & _)%list_find_Some Hd. apply serve_method; [done|by eapply list_elem_of_lookup_2]. Qed.

Lemma through_interceptor {Req Resp} `{Message Req} path (method : Req -> M S Resp) interceptor payload s :
  transparent interceptor ->
  unary_handler path method interceptor payload s
  = (req ← lift (msg_Unmarshal msg_zero payload); method req) s.
Proof.
  intros Ht. unfold unary_handler. cbv [mbind M_bind lift].
  destruct (msg_Unmarshal msg_zero payload); [|done]. destruct interceptor; [by rewrite Ht|done].
Qed.

(** The server answers an encoded request with the encoded answer of the method. *)
Lemma answering_wire {Req Resp} `{Wire Req} `{Message Resp} path (method : Req -> M S Resp)
    interceptor req s :
  transparent interceptor -> wire_ok req ->
  answering (unary_handler path method) interceptor (wire req) s
  = (rsp ← method req; lift (Marshal rsp)) s.
Proof.
  intros Ht Hreq. unfold answering. cbv [mbind M_bind]. rewrite through_interceptor by done.
  cbv [mbind M_bind lift]. by rewrite wire_reads by done.
Qed.

(** So a client that invokes it gets the answer of the method. *)
Lemma Invoke_method {Req Resp} `{Wire Req} `{Wire Resp} path full (method : Req -> M S Resp)
    (cc : Conn S) interceptor req s :
  (forall payload, cc path payload s = arrived (answering (unary_handler full method) interceptor payload s)) ->
  transparent interceptor -> wire_ok req ->
  (forall rsp s', method req s = (Ok rsp, s') -> wire_ok rsp) ->
  (Invoke cc path req : M S Resp) s = arrived (method req s).
Proof.
  intros Hcc Ht Hreq Hrsp. unfold Invoke. cbv [mbind M_bind lift]. rewrite Marshal_wire by done.
  rewrite Hcc, answering_wire by done. cbv [mbind M_bind lift].
  destruct (method req s) as [[rsp|e] s'] eqn:E; [|done].
  rewrite Marshal_wire by (by eapply Hrsp). cbn. by rewrite wire_reads by (by eapply Hrsp).
Qed.

(** A handler whose answer is rebuilt from the decoded response. *)
Lemma client_of_method {Req Resp A B} `{Wire Req} `{Wire Resp} path full (m : Req -> M S A)
    (build : A -> Resp) (read : Resp -> B) (cc : Conn S) interceptor req s :
  (forall payload, cc path payload s
     = arrived (answering (unary_handler full (fun req => a ← m req; mret (build a))) interceptor payload s)) ->
  transparent interceptor -> wire_ok req ->
  (forall a s', m req s = (Ok a, s') -> wire_ok (build a)) ->
  (r ← Invoke cc path req; mret (read r)) s = arrived ((a ← m req; mret (read (build a))) s).
Proof.
  intros Hcc Ht Hreq Hrsp. cbv [mbind M_bind]. erewrite Invoke_method; try done.
  - cbv [mbind M_bind mret M_ret]. by destruct (m req s) as [[a|e] s'].
  - intros rsp s'. cbv [mbind M_bind mret M_ret]. destruct (m req s) as [[a|e] s1] eqn:E; [|done].
    intros [= <- <-]. by eapply Hrsp.
Qed.

(** A handler on arbitrary bytes: the request does not decode and the store is as
    before, or the method runs on the request that was decoded. *)
Lemma answering_cases {Req Resp} `{Message Req} `{Message Resp} full (method : Req -> M S Resp)
    interceptor payload s :
  transparent interceptor ->
  (exists e, answering (unary_handler full method) interceptor payload s = (Err e, s)) \/
  (exists req, answering (unary_handler full method) interceptor payload s
     = (rsp ← method req; lift (Marshal rsp)) s).
Proof.
  intros Ht. unfold answering. cbv [mbind M_bind]. rewrite through_interceptor by done.
  cbv [mbind M_bind lift]. destruct (msg_Unmarshal msg_zero payload) as [req|e]; [right; by exists req|left; by exists e].
Qed.

End calls.

(** The goals that a connection serves a method of a descriptor. *)
Ltac served := intros ?; etransitivity; [eapply serve_at; [reflexivity|by_eval]|reflexivity].

(** ** A server *)

(** A gRPC server, on which the witnesses evaluate: an error that is not a status
    becomes one of code [Unknown]. *)
Definition unknown_status (e : err) : err :=
  match e with ErrStatus code msg => ErrStatus code msg | _ => ErrStatus "Unknown" "" end.

#[export] Instance demo_grpc : Grpc := {|
  to_status := unknown_status;
  serve S d i := fun path payload s =>
    match list_find (fun m => method_path d m = path) (Methods d) with
    | Some (_, m) => let '(r, s') := Handler m i payload s in
                     (match r with Ok a => Ok a | Err e => Err (unknown_status e) end, s')
    | None => (Err (ErrStatus "Unimplemented" "unknown method"), s)
    end
|}.

Lemma append_inj a b b' : String.append a b = String.append a b' -> b = b'.
Proof. induction a as [|c a IH]; [done|]. intros [= E]. by apply IH. Qed.

Lemma method_path_inj {S} (d : ServiceDesc S) m m' : method_path d m = method_path d m' -> MethodName m = MethodName m'.
Proof. intros E. by do 3 apply append_inj in E. Qed.

#[export] Instance demo_grpc_laws : GrpcLaws.
Proof.
  constructor; cbn [serve demo_grpc].
  - intros S d i m payload s Hd Hm.
    destruct (list_find_elem_of (fun m' => method_path d m' = method_path d m) (Methods d) m Hm eq_refl) as [[k m'] E].
    rewrite E. apply list_find_Some in E as (Hk & Hp & _). apply list_elem_of_lookup_2 in Hk.
    assert (m' = m) as -> by (eapply NoDup_fmap_inj_in; [exact Hd|done..|by eapply method_path_inj]).
    unfold arrived. by destruct (Handler m i payload s).
  - intros S d i path payload s Hf. rewrite (proj2 (list_find_None _ _)) by done. eauto.
Defined.
