(* ===== verification/ProtoTax.v ===== *)
(** The wire format and the gRPC services of x/tax: src/x/tax/types/tx.pb.go,
    params.pb.go, query.pb.go and genesis.pb.go.

    The rate is a [math.LegacyDec], a type with its own [Size], [MarshalTo] and
    [Unmarshal]: these are parameters. *)

From S2P Require Import Prelude Types Concrete Keeper MsgServer Tax Proto ProtoMsg Grpc.

(** The methods of [math.LegacyDec]; [MarshalTo] gives the buffer after the call, and
    [dec_unset] is the value of a [LegacyDec] that no one has set. *)
Class DecMessage := {
  dec_unset : Z;
  dec_Size : Z -> Z;
  dec_MarshalTo : Z -> bytes -> result bytes;
  dec_Unmarshal : bytes -> result Z
}.

(** A decimal in range is written at the start of the buffer and read back; reading
    ends with a decimal or an error. *)
Class DecMessageLaws `{DecMessage} := {
  dec_ok : Z -> Prop;
  dec_text : Z -> bytes;
  dec_text_size d : dec_ok d -> blen (dec_text d) = dec_Size d;
  dec_writes d buf : dec_ok d -> (length (dec_text d) <= length buf)%nat ->
    dec_MarshalTo d buf = Ok (dec_text d ++ drop (length (dec_text d)) buf);
  dec_reads d : dec_ok d -> dec_Unmarshal (dec_text d) = Ok d;
  dec_total s : is_len s -> safe (dec_Unmarshal s)
}.

(** [genesis.pb.go] and [query.pb.go] *)
Record TaxGenesisState := mkTaxGenesis { tg_Params : Tax.Params }.
Record TaxQueryParamsResponse := mkTaxParamsResponse { tq_Params : Tax.Params; tq_MaxTax : Z }.

Definition TaxMsgUpdateParams_set_Authority (v : bytes) (m : Tax.MsgUpdateParams) : Tax.MsgUpdateParams :=
  mkTaxUpdate v (tu_Tax m) (tu_TaxAddress m).

Definition TaxMsgUpdateParams_set_Tax (v : bytes) (m : Tax.MsgUpdateParams) : Tax.MsgUpdateParams :=
  mkTaxUpdate (tu_Authority m) v (tu_TaxAddress m).

Definition TaxMsgUpdateParams_set_TaxAddress (v : bytes) (m : Tax.MsgUpdateParams) : Tax.MsgUpdateParams :=
  mkTaxUpdate (tu_Authority m) (tu_Tax m) v.

Definition TaxMsgUpdateParams_Size (m : Tax.MsgUpdateParams) : Z :=
  size_string (tu_Authority m) + size_string (tu_Tax m) + size_string (tu_TaxAddress m).

Definition TaxMsgUpdateParams_MarshalToSizedBuffer (m : Tax.MsgUpdateParams) : bytes -> result (bytes * Z) :=
  sized (fun st =>
    st ← put_string_field 0x1a (tu_TaxAddress m) st;
    st ← put_string_field 0x12 (tu_Tax m) st;
    put_string_field 0xa (tu_Authority m) st).

Definition TaxMsgUpdateParams_cases (fieldNum : Z) : option (FieldCase Tax.MsgUpdateParams) :=
  match fieldNum with
  | 1 => Some (StringCase TaxMsgUpdateParams_set_Authority)
  | 2 => Some (StringCase TaxMsgUpdateParams_set_Tax)
  | 3 => Some (StringCase TaxMsgUpdateParams_set_TaxAddress)
  | _ => None
  end.

#[export] Instance TaxMsgUpdateParams_message : Message Tax.MsgUpdateParams :=
  {| msg_zero := mkTaxUpdate [] [] []; msg_Size := TaxMsgUpdateParams_Size;
     msg_MarshalToSizedBuffer := TaxMsgUpdateParams_MarshalToSizedBuffer; msg_Unmarshal := unmarshal_with TaxMsgUpdateParams_cases |}.

Section decimals.
Context {DM : DecMessage}.

(** [size := m.Tax.Size(); i -= size; m.Tax.MarshalTo(dAtA[i:])] *)
Definition put_dec_field (tag d : Z) (st : Buf) : result Buf :=
  let size := dec_Size d in
  let i := st.2 - size in
  _ ← guard_err ((i <? 0) || (blen st.1 <? i)) ErrPanic;
  tail ← dec_MarshalTo d (drop (Z.to_nat i) st.1);
  st ← encodeVarintDocument (take (Z.to_nat i) st.1 ++ tail) i size;
  put_tag tag st.

Definition dec_case {B} (set : Z -> B -> B) : FieldCase B :=
  LenCase (fun dAtA iNdEx postIndex m =>
    sub ← slice dAtA iNdEx postIndex; d ← dec_Unmarshal sub; Ok (set d m)).

Definition TaxParams_set_Tax (v : Z) (m : Tax.Params) : Tax.Params := mkTaxParams v (TaxAddress m).
Definition TaxParams_set_TaxAddress (v : bytes) (m : Tax.Params) : Tax.Params := mkTaxParams (Tax m) v.

Definition TaxParams_Size (m : Tax.Params) : Z := size_len (dec_Size (Tax m)) + size_string (TaxAddress m).

Definition TaxParams_MarshalToSizedBuffer (m : Tax.Params) : bytes -> result (bytes * Z) :=
  sized (fun st =>
    st ← put_string_field 0x12 (TaxAddress m) st;
    put_dec_field 0xa (Tax m) st).

Definition TaxParams_cases (fieldNum : Z) : option (FieldCase Tax.Params) :=
  match fieldNum with
  | 1 => Some (dec_case TaxParams_set_Tax)
  | 2 => Some (StringCase TaxParams_set_TaxAddress)
  | _ => None
  end.

#[export] Instance TaxParams_message : Message Tax.Params :=
  {| msg_zero := mkTaxParams dec_unset []; msg_Size := TaxParams_Size;
     msg_MarshalToSizedBuffer := TaxParams_MarshalToSizedBuffer; msg_Unmarshal := unmarshal_with TaxParams_cases |}.

Definition TaxGenesisState_set_Params (v : Tax.Params) (m : TaxGenesisState) : TaxGenesisState :=
  mkTaxGenesis v.

Definition TaxGenesisState_Size (m : TaxGenesisState) : Z :=
  size_message (tg_Params m).

Definition TaxGenesisState_MarshalToSizedBuffer (m : TaxGenesisState) : bytes -> result (bytes * Z) :=
  sized (fun st =>
    put_message_field 0xa (tg_Params m) st).

Definition TaxGenesisState_cases (fieldNum : Z) : option (FieldCase TaxGenesisState) :=
  match fieldNum with
  | 1 => Some (message_case tg_Params TaxGenesisState_set_Params)
  | _ => None
  end.

#[export] Instance TaxGenesisState_message : Message TaxGenesisState :=
  {| msg_zero := mkTaxGenesis msg_zero; msg_Size := TaxGenesisState_Size;
     msg_MarshalToSizedBuffer := TaxGenesisState_MarshalToSizedBuffer; msg_Unmarshal := unmarshal_with TaxGenesisState_cases |}.

Definition TaxQueryParamsResponse_set_Params (v : Tax.Params) (m : TaxQueryParamsResponse) : TaxQueryParamsResponse :=
  mkTaxParamsResponse v (tq_MaxTax m).
Definition TaxQueryParamsResponse_set_MaxTax (v : Z) (m : TaxQueryParamsResponse) : TaxQueryParamsResponse :=
  mkTaxParamsResponse (tq_Params m) v.

Definition TaxQueryParamsResponse_Size (m : TaxQueryParamsResponse) : Z :=
  size_message (tq_Params m) + size_len (dec_Size (tq_MaxTax m)).

Definition TaxQueryParamsResponse_MarshalToSizedBuffer (m : TaxQueryParamsResponse) : bytes -> result (bytes * Z) :=
  sized (fun st =>
    st ← put_dec_field 0x12 (tq_MaxTax m) st;
    put_message_field 0xa (tq_Params m) st).

Definition TaxQueryParamsResponse_cases (fieldNum : Z) : option (FieldCase TaxQueryParamsResponse) :=
  match fieldNum with
  | 1 => Some (message_case tq_Params TaxQueryParamsResponse_set_Params)
  | 2 => Some (dec_case TaxQueryParamsResponse_set_MaxTax)
  | _ => None
  end.

#[export] Instance TaxQueryParamsResponse_message : Message TaxQueryParamsResponse :=
  {| msg_zero := mkTaxParamsResponse msg_zero dec_unset; msg_Size := TaxQueryParamsResponse_Size;
     msg_MarshalToSizedBuffer := TaxQueryParamsResponse_MarshalToSizedBuffer;
     msg_Unmarshal := unmarshal_with TaxQueryParamsResponse_cases |}.

(** *** Their encodings *)

Context {DL : DecMessageLaws}.

Definition enc_dec (tag d : Z) : bytes := enc_len tag (dec_text d).
(** A decimal that its message can hold. *)
Definition dec_fits (d : Z) : Prop := dec_ok d /\ dec_Size d < 2 ^ 63.

Lemma dec_text_len d : dec_fits d -> is_len (dec_text d).
Proof. intros [Hd Hs]. unfold is_len. by rewrite dec_text_size. Qed.

Lemma enc_dec_size tag d : dec_fits d -> blen (enc_dec tag d) = size_len (dec_Size d).
Proof.
  intros Hd. unfold enc_dec. rewrite enc_len_size by (by apply dec_text_len).
  rewrite dec_text_size by apply Hd. done.
Qed.

Lemma size_dec_nonneg d : dec_fits d -> 0 <= size_len (dec_Size d).
Proof. intros Hd. rewrite <- (enc_dec_size 0) by done. apply blen_nonneg. Qed.

Lemma emits_dec tag d : dec_fits d -> emits (put_dec_field tag d) (enc_dec tag d).
Proof.
  intros Hd. pose proof (dec_text_len d Hd) as Hl. destruct Hd as [Hd _].
  assert (He : emits (fun st =>
    let i := st.2 - dec_Size d in
    _ ← guard_err ((i <? 0) || (blen st.1 <? i)) ErrPanic;
    tail ← dec_MarshalTo d (drop (Z.to_nat i) st.1);
    Ok (take (Z.to_nat i) st.1 ++ tail, i)) (dec_text d)).
  { intros pre suf Hle. destruct (take_split pre _ Hle) as (Hp & Hm & Hb). cbv zeta. cbn [fst snd].
    rewrite <- dec_text_size by done. fold (blen (dec_text d)) in Hb. rewrite <- Hb.
    set (rest := take _ pre) in *. set (mid := drop _ pre) in *. cbv [mbind result_bind]. unfold guard_err.
    rewrite (proj2 (Z.ltb_ge _ 0)) by apply blen_nonneg.
    rewrite (proj2 (Z.ltb_ge _ _))
      by (rewrite blen_app; pose proof (blen_nonneg suf); pose proof (blen_nonneg (dec_text d)); lia).
    assert (E1 : take (Z.to_nat (blen rest)) (pre ++ suf) = rest).
    { unfold blen. by rewrite Nat2Z.id, Hp, <- app_assoc, take_app_length. }
    assert (E2 : drop (Z.to_nat (blen rest)) (pre ++ suf) = mid ++ suf).
    { unfold blen. by rewrite Nat2Z.id, Hp, <- app_assoc, drop_app_length. }
    cbn [orb]. rewrite E1, E2, dec_writes by (done || rewrite length_app; lia).
    by rewrite <- Hm, drop_app_length. }
  pose proof (emits_seq _ _ _ _ (emits_seq _ _ _ _ He (emits_varint _ (is_len_u64 _ Hl))) (emits_tag tag)) as Hs.
  rewrite dec_text_size in Hs by done. unfold enc_dec, enc_len. rewrite dec_text_size by done.
  intros pre suf Hle. specialize (Hs pre suf Hle). unfold put_dec_field. cbv [mbind result_bind] in *. cbv zeta in *.
  cbn [fst snd] in *. destruct (guard_err _ _); [|done]. destruct (dec_MarshalTo _ _); [|done]. exact Hs.
Qed.

Lemma reads_dec {B} (cases : Z -> option (FieldCase B)) num d set b :
  1 <= num < 16 -> dec_ok d -> cases num = Some (dec_case set) ->
  reads cases (enc_dec (num * 8 + 2) d) b (set d b).
Proof.
  intros Hn Hd Hc. eapply reads_len; [done|exact Hc|]. intros pre suf Hl. cbv beta.
  rewrite slice_of_app. cbv [mbind result_bind]. by rewrite dec_reads.
Qed.

Lemma dec_case_safe {B} (set : Z -> B -> B) : case_safe (dec_case set).
Proof.
  intros dAtA i post m ???. apply slice_safe; [done..|]. intros x Hx. apply safe_bind; [by apply dec_total|done].
Qed.

Definition TaxParams_ok (m : Tax.Params) : Prop := dec_fits (Tax m) /\ TaxParams_Size m < 2 ^ 63.
Definition enc_TaxParams (m : Tax.Params) : bytes := enc_dec 0xa (Tax m) ++ enc_string 0x12 (TaxAddress m).

Lemma TaxParams_generated m : TaxParams_ok m ->
  Generated msg_zero TaxParams_Size TaxParams_MarshalToSizedBuffer TaxParams_cases m (enc_TaxParams m).
Proof.
  intros [Hd Hs]. split; [exact Hs|..]; unfold TaxParams_Size in *; pose proof (size_dec_nonneg _ Hd); string_lens.
  - unfold enc_TaxParams. by rewrite blen_app, enc_dec_size, enc_string_size.
  - eexists. split; [reflexivity|]. apply emits_seq; [by apply emits_string|by apply emits_dec].
  - unfold enc_TaxParams. eapply reads_eq.
    + eapply reads_app; [apply (reads_dec _ 1); [lia|apply Hd|reflexivity]|].
      apply (reads_string _ 2); [lia|reflexivity|reflexivity].
    + by destruct m.
Qed.
#[export] Instance TaxParams_wire : Wire Tax.Params.
Proof.
  apply (generated_wire _ _ _ _ _ _ TaxParams_generated). intros num c E. unfold TaxParams_cases in E.
  repeat (case_match; try discriminate E); apply (inj Some) in E; subst c; first [exact I|apply dec_case_safe].
Defined.

Definition TaxQueryParamsResponse_ok (m : TaxQueryParamsResponse) : Prop :=
  TaxParams_ok (tq_Params m) /\ dec_fits (tq_MaxTax m) /\ TaxQueryParamsResponse_Size m < 2 ^ 63.
Definition enc_TaxQueryParamsResponse (m : TaxQueryParamsResponse) : bytes :=
  enc_message 0xa (tq_Params m) ++ enc_dec 0x12 (tq_MaxTax m).

Lemma TaxQueryParamsResponse_generated m : TaxQueryParamsResponse_ok m ->
  Generated msg_zero TaxQueryParamsResponse_Size TaxQueryParamsResponse_MarshalToSizedBuffer
    TaxQueryParamsResponse_cases m (enc_TaxQueryParamsResponse m).
Proof.
  intros (Hp & Hd & Hs). split; [exact Hs|..].
  - unfold enc_TaxQueryParamsResponse, TaxQueryParamsResponse_Size.
    by rewrite blen_app, (enc_message_size (WA := TaxParams_wire)), enc_dec_size.
  - eexists. split; [reflexivity|].
    apply emits_seq; [by apply emits_dec|by apply (emits_message (WA := TaxParams_wire))].
  - unfold enc_TaxQueryParamsResponse. eapply reads_eq.
    + eapply reads_app; [eapply (reads_message (WA := TaxParams_wire) _ 1); [lia|exact Hp|reflexivity|reflexivity]|].
      apply (reads_dec _ 2); [lia|apply Hd|reflexivity].
    + by destruct m.
Qed.
#[export] Instance TaxQueryParamsResponse_wire : Wire TaxQueryParamsResponse.
Proof.
  apply (generated_wire _ _ _ _ _ _ TaxQueryParamsResponse_generated). intros num c E.
  unfold TaxQueryParamsResponse_cases in E. repeat (case_match; try discriminate E);
    apply (inj Some) in E; subst c; first [apply (message_case_safe (WA := TaxParams_wire))|apply dec_case_safe].
Defined.

Definition enc_TaxGenesisState (m : TaxGenesisState) : bytes :=
  enc_message 0xa (tg_Params m).
Definition TaxGenesisState_ok (m : TaxGenesisState) : Prop :=
  wire_ok (tg_Params m) /\ TaxGenesisState_Size m < 2 ^ 63.

Lemma TaxGenesisState_generated m : TaxGenesisState_ok m ->
  Generated msg_zero TaxGenesisState_Size TaxGenesisState_MarshalToSizedBuffer TaxGenesisState_cases m (enc_TaxGenesisState m).
Proof. intros (? & Hs). generated m. Qed.
#[export] Instance TaxGenesisState_wire : Wire TaxGenesisState.
Proof. apply (generated_wire _ _ _ _ _ _ TaxGenesisState_generated). cases_of. Defined.
End decimals.

Definition enc_TaxMsgUpdateParams (m : Tax.MsgUpdateParams) : bytes :=
  enc_string 0xa (tu_Authority m) ++ enc_string 0x12 (tu_Tax m) ++ enc_string 0x1a (tu_TaxAddress m).
Definition TaxMsgUpdateParams_ok (m : Tax.MsgUpdateParams) : Prop :=
  TaxMsgUpdateParams_Size m < 2 ^ 63.

Lemma TaxMsgUpdateParams_generated m : TaxMsgUpdateParams_ok m ->
  Generated msg_zero TaxMsgUpdateParams_Size TaxMsgUpdateParams_MarshalToSizedBuffer TaxMsgUpdateParams_cases m (enc_TaxMsgUpdateParams m).
Proof. intros Hs. red in Hs. generated m. Qed.
#[export] Instance TaxMsgUpdateParams_wire : Wire Tax.MsgUpdateParams.
Proof. apply (generated_wire _ _ _ _ _ _ TaxMsgUpdateParams_generated). cases_of. Defined.

(** ** The services *)

Section services.
Context {ENV : Env} {DEC : Decimal} {BANK : Bank} {DM : DecMessage}.

Definition tax_msgClient_UpdateParams (cc : Conn TaxState) (req : Tax.MsgUpdateParams) : M TaxState EmptyResponse :=
  Invoke cc "/nvnmchain.tax.v1.Msg/UpdateParams" req.
Definition tax_queryClient_Params (cc : Conn TaxState) (req : EmptyResponse) : M TaxState TaxQueryParamsResponse :=
  Invoke cc "/nvnmchain.tax.v1.Query/Params" req.

Definition tax_Msg_UpdateParams_Handler : option (Interceptor TaxState) -> bytes -> M TaxState EmptyResponse :=
  unary_handler "/nvnmchain.tax.v1.Msg/UpdateParams"
    (fun req => _ ← UpdateParams (Some req); mret mkEmptyResponse).
Definition tax_Query_Params_Handler : option (Interceptor TaxState) -> bytes -> M TaxState TaxQueryParamsResponse :=
  unary_handler "/nvnmchain.tax.v1.Query/Params"
    (fun _ : EmptyResponse => r ← (fun s => (QueryParams (Some tt) s, s)); mret (mkTaxParamsResponse r.1 r.2)).

Definition tax_Msg_serviceDesc : ServiceDesc TaxState :=
  mkServiceDesc "nvnmchain.tax.v1.Msg" [mkMethod "UpdateParams" (answering tax_Msg_UpdateParams_Handler)].
Definition tax_Query_serviceDesc : ServiceDesc TaxState :=
  mkServiceDesc "nvnmchain.tax.v1.Query" [mkMethod "Params" (answering tax_Query_Params_Handler)].

Context {DL : DecMessageLaws} {GR : Grpc} {GL : GrpcLaws}.

(** The parameters of a store, and the maximum, as the answer of the query. *)
Definition params_fit (s : TaxState) : Prop :=
  forall p, tax_Params s = Some p -> TaxQueryParamsResponse_ok (mkTaxParamsResponse p MaxTax).

Lemma tax_params_over_wire interceptor s :
  transparent interceptor -> params_fit s ->
  (r ← tax_queryClient_Params (serve tax_Query_serviceDesc interceptor) mkEmptyResponse;
   mret (tq_Params r, tq_MaxTax r)) s = arrived (QueryParams (Some tt) s, s).
Proof.
  intros Ht Hs. etransitivity.
  - refine (client_of_method _ _ (fun _ s => (QueryParams (Some tt) s, s)) (fun r => mkTaxParamsResponse r.1 r.2)
      (fun r => (tq_Params r, tq_MaxTax r)) _ interceptor mkEmptyResponse s _ Ht I _); [served|].
    intros [p d] s' [= E _]. cbn [fst snd]. unfold QueryParams in E.
    destruct (tax_Params s) as [p'|] eqn:Ep; [|done]. injection E as <- <-. by apply Hs.
  - cbv [mbind M_bind mret M_ret]. by destruct (QueryParams (Some tt) s) as [[]|].
Qed.

(** The services of the tax module over the wire are its keeper: a client that sends
    an update of the parameters gets the result and the state of [UpdateParams], and one
    that asks for the parameters gets the stored ones and the maximum, decimals
    included; errors arrive as statuses. *)
Theorem tax_clients_answer interceptor (req : Tax.MsgUpdateParams) s :
  transparent interceptor -> TaxMsgUpdateParams_ok req -> params_fit s ->
  (_ ← tax_msgClient_UpdateParams (serve tax_Msg_serviceDesc interceptor) req; mret tt) s = arrived (UpdateParams (Some req) s) /\
  (r ← tax_queryClient_Params (serve tax_Query_serviceDesc interceptor) mkEmptyResponse;
   mret (tq_Params r, tq_MaxTax r)) s = arrived (QueryParams (Some tt) s, s).
Proof.
  intros Ht Hreq Hs. split; [|by apply tax_params_over_wire]. etransitivity.
  - refine (client_of_method _ _ (fun req => UpdateParams (Some req)) (fun _ => mkEmptyResponse) (fun _ => tt)
      _ interceptor req s _ Ht Hreq _); [served|done].
  - cbv [mbind M_bind mret M_ret]. by destruct (UpdateParams (Some req) s) as [[[]|]].
Qed.
End services.

(** ** Witness *)

(** Decimals written as the digits of their number of units. *)
Module DemoDec.
#[global] Instance digits_message : DecMessage := {|
  dec_unset := 0;
  dec_Size d := blen (fmt_d d);
  dec_MarshalTo d buf := Ok (fmt_d d ++ drop (length (fmt_d d)) buf);
  dec_Unmarshal s := Ok (digits_value s)
|}.

#[global] Instance digits_laws : DecMessageLaws.
Proof.
  refine {| dec_ok := is_u64; dec_text := fmt_d |}; cbn [dec_MarshalTo dec_Size dec_Unmarshal digits_message]; try done.
  intros d Hd. by rewrite fmt_d_value.
Defined.
End DemoDec.

Lemma tax_clients_answer_witness :
  (_ ← tax_msgClient_UpdateParams (serve tax_Msg_serviceDesc None) DemoTax.update; mret tt) DemoTax.state
  = arrived (UpdateParams (Some DemoTax.update) DemoTax.state) /\
  (r ← tax_queryClient_Params (serve tax_Query_serviceDesc None) mkEmptyResponse;
   mret (tq_Params r, tq_MaxTax r)) DemoTax.state = arrived (QueryParams (Some tt) DemoTax.state, DemoTax.state).
Proof.
  apply (tax_clients_answer None DemoTax.update DemoTax.state); [exact I|by vm_compute|].
  intros p [= <-]. repeat split; by vm_compute.
Defined.
