(* ===== verification/QueryService.v ===== *)
(** The gRPC service of the queries: the client, the handlers and the descriptor of
    src/x/anchoring/types/query.pb.go, over the query server of the keeper. *)

From S2P Require Import Prelude Types Concrete Rbac Keeper MsgServer Spec Refine Ledger Proto NameIndex Query ProtoMsg ProtoQuery Grpc.

(** A method that only reads the store. *)
Definition read_only {A} (f : KState -> result A) : M KState A := fun s => (f s, s).

Section service.
Context {ENV : Env} {MQ : Message PageRequest} {MR : Message PageResponse}.

(** ** The client *)

Definition queryClient_Params (cc : Conn KState) (req : QueryParamsRequest) : M KState QueryParamsResponse :=
  Invoke cc "/nvnmchain.anchoring.v1.Query/Params" req.
Definition queryClient_Records (cc : Conn KState) (req : QueryRecordsRequest) : M KState QueryRecordsResponse :=
  Invoke cc "/nvnmchain.anchoring.v1.Query/Records" req.
Definition queryClient_Registries (cc : Conn KState) (req : QueryRegistriesRequest) :
    M KState QueryRegistriesResponse :=
  Invoke cc "/nvnmchain.anchoring.v1.Query/Registries" req.
Definition queryClient_Registry (cc : Conn KState) (req : QueryRegistryRequest) : M KState QueryRegistryResponse :=
  Invoke cc "/nvnmchain.anchoring.v1.Query/Registry" req.
Definition queryClient_SearchRegistriesByName (cc : Conn KState) (req : QuerySearchRequest) :
    M KState QueryRegistriesResponse :=
  Invoke cc "/nvnmchain.anchoring.v1.Query/SearchRegistriesByName" req.

(** ** The server *)

Context {SQ : SQL} (index : option DB).
Context (CollectionPaginate : list (Z * Registry) -> PageRequest -> result (list Registry * PageResponse)).

(** The methods of the keeper with their response messages. *)
Definition answer_registries (r : list Registry * option PageResponse) : QueryRegistriesResponse :=
  mkRegistriesResponse r.1 r.2.

Definition Query_Params_Handler : option (Interceptor KState) -> bytes -> M KState QueryParamsResponse :=
  unary_handler "/nvnmchain.anchoring.v1.Query/Params"
    (fun _ : QueryParamsRequest => p ← read_only (Query_Params (Some tt)); mret (mkParamsResponse p)).
Definition Query_Records_Handler : option (Interceptor KState) -> bytes -> M KState QueryRecordsResponse :=
  unary_handler "/nvnmchain.anchoring.v1.Query/Records"
    (fun req => r ← read_only (Query_Records (Some req)); mret r).
Definition Query_Registries_Handler : option (Interceptor KState) -> bytes -> M KState QueryRegistriesResponse :=
  unary_handler "/nvnmchain.anchoring.v1.Query/Registries"
    (fun req => r ← read_only (Query_Registries CollectionPaginate req); mret (answer_registries r)).
Definition Query_Registry_Handler : option (Interceptor KState) -> bytes -> M KState QueryRegistryResponse :=
  unary_handler "/nvnmchain.anchoring.v1.Query/Registry"
    (fun req => r ← read_only (Query_Registry (qry_Id req)); mret (mkRegistryResponse (Some r))).
Definition Query_SearchRegistriesByName_Handler :
    option (Interceptor KState) -> bytes -> M KState QueryRegistriesResponse :=
  unary_handler "/nvnmchain.anchoring.v1.Query/SearchRegistriesByName"
    (fun req => r ← read_only (fun _ => SearchRegistriesByName index (Some req)); mret (answer_registries r)).

Definition Query_serviceDesc : ServiceDesc KState :=
  mkServiceDesc "nvnmchain.anchoring.v1.Query"
    [mkMethod "Params" (answering Query_Params_Handler);
     mkMethod "Records" (answering Query_Records_Handler);
     mkMethod "Registries" (answering Query_Registries_Handler);
     mkMethod "Registry" (answering Query_Registry_Handler);
     mkMethod "SearchRegistriesByName" (answering Query_SearchRegistriesByName_Handler)].

(** ** A query and its answer *)

Inductive QueryCall :=
| AskParams
| AskRecords (req : QueryRecordsRequest)
| AskRegistries (req : QueryRegistriesRequest)
| AskRegistry (req : QueryRegistryRequest)
| AskSearch (req : QuerySearchRequest).

Inductive QueryAnswer :=
| ParamsAnswer (p : Params)
| RecordsAnswer (r : QueryRecordsResponse)
| RegistriesAnswer (l : QueryRegistriesResponse)
| RegistryAnswer (g : option Registry).

Definition ask_keeper (q : QueryCall) (s : KState) : result QueryAnswer :=
  match q with
  | AskParams => p ← Query_Params (Some tt) s; Ok (ParamsAnswer p)
  | AskRecords req => r ← Query_Records (Some req) s; Ok (RecordsAnswer r)
  | AskRegistries req => r ← Query_Registries CollectionPaginate req s; Ok (RegistriesAnswer (answer_registries r))
  | AskRegistry req => r ← Query_Registry (qry_Id req) s; Ok (RegistryAnswer (Some r))
  | AskSearch req => r ← SearchRegistriesByName index (Some req); Ok (RegistriesAnswer (answer_registries r))
  end.

Definition ask_client (cc : Conn KState) (q : QueryCall) : M KState QueryAnswer :=
  match q with
  | AskParams => r ← queryClient_Params cc mkEmptyResponse; mret (ParamsAnswer (qpr_Params r))
  | AskRecords req => r ← queryClient_Records cc req; mret (RecordsAnswer r)
  | AskRegistries req => r ← queryClient_Registries cc req; mret (RegistriesAnswer r)
  | AskRegistry req => r ← queryClient_Registry cc req; mret (RegistryAnswer (qyr_Registry r))
  | AskSearch req => r ← queryClient_SearchRegistriesByName cc req; mret (RegistriesAnswer r)
  end.

(** The requests and the answers that the wire carries. *)
Context {WQ : Wire PageRequest} {WR : Wire PageResponse} {GR : Grpc} {GL : GrpcLaws}.

Definition call_fits (q : QueryCall) : Prop :=
  match q with
  | AskParams => True
  | AskRecords req => QueryRecordsRequest_ok req
  | AskRegistries req => QueryRegistriesRequest_ok req
  | AskRegistry req => QueryRegistryRequest_ok req
  | AskSearch req => QuerySearchRequest_ok req
  end.

Definition answer_fits (a : QueryAnswer) : Prop :=
  match a with
  | ParamsAnswer p => QueryParamsResponse_ok (mkParamsResponse p)
  | RecordsAnswer r => QueryRecordsResponse_ok r
  | RegistriesAnswer l => QueryRegistriesResponse_ok l
  | RegistryAnswer g => QueryRegistryResponse_ok (mkRegistryResponse g)
  end.

(** ** Proofs *)

(** A client method over a method of the keeper that only reads. *)
Lemma client_of_reader {Req Resp A} `{Wire Req} `{Wire Resp} path (f : Req -> KState -> result A)
    (build : A -> Resp) (read : Resp -> QueryAnswer) (cc : Conn KState) interceptor req s :
  (forall payload, cc path payload s
     = arrived (answering (unary_handler path (fun req => a ← read_only (f req); mret (build a))) interceptor payload s)) ->
  transparent interceptor -> wire_ok req ->
  (forall a, f req s = Ok a -> wire_ok (build a)) ->
  (r ← Invoke cc path req; mret (read r)) s = arrived (a ← f req s; Ok (read (build a)), s).
Proof.
  intros Hcc Ht Hreq Hrsp.
  rewrite (client_of_method path path (fun req => read_only (f req)) build read cc interceptor req s); try done.
  - cbv [mbind M_bind read_only mret M_ret result_bind]. by destruct (f req s).
  - intros a s'. unfold read_only. intros [= E _]. by apply Hrsp.
Qed.

(** A query and its answer that fit their messages. *)
Definition exchange_fits (q : QueryCall) (s : KState) : Prop :=
  call_fits q /\ (forall a, ask_keeper q s = Ok a -> answer_fits a).

Lemma ask_client_keeper interceptor q s :
  transparent interceptor -> exchange_fits q s ->
  ask_client (serve Query_serviceDesc interceptor) q s = arrived (ask_keeper q s, s).
Proof.
  intros Ht [Hq Ha].
  destruct q as [|req|req|req|req]; cbn [ask_client ask_keeper] in *.
  - apply (client_of_reader _ (fun _ => Query_Params (Some tt)) mkParamsResponse
      (fun r => ParamsAnswer (qpr_Params r)) _ interceptor mkEmptyResponse s); [served|done|done|].
    intros p E. rewrite E in Ha. exact (Ha _ eq_refl).
  - apply (client_of_reader _ (fun req => Query_Records (Some req)) id RecordsAnswer
      _ interceptor req s); [served|done|done|].
    intros r E. rewrite E in Ha. exact (Ha _ eq_refl).
  - apply (client_of_reader _ (Query_Registries CollectionPaginate) answer_registries RegistriesAnswer
      _ interceptor req s); [served|done|done|].
    intros r E. rewrite E in Ha. exact (Ha _ eq_refl).
  - apply (client_of_reader _ (fun req => Query_Registry (qry_Id req)) (fun r => mkRegistryResponse (Some r))
      (fun r => RegistryAnswer (qyr_Registry r)) _ interceptor req s); [served|done|done|].
    intros r E. rewrite E in Ha. exact (Ha _ eq_refl).
  - apply (client_of_reader _ (fun req _ => SearchRegistriesByName index (Some req)) answer_registries
      RegistriesAnswer _ interceptor req s); [served|done|done|].
    intros r E. rewrite E in Ha. exact (Ha _ eq_refl).
Qed.

(** C27: A client of the query service gets what the keeper answers: for a request and
    an answer that fit their messages, the query of the client over the wire has the
    answer of the keeper, or its error as the status gRPC makes of it, and leaves the
    store as it is; and so does a
    request of arbitrary bytes to any path of the service. *)
Theorem query_client_answers interceptor q s :
  transparent interceptor -> exchange_fits q s ->
  ask_client (serve Query_serviceDesc interceptor) q s = arrived (ask_keeper q s, s) /\
  (forall path payload, (serve Query_serviceDesc interceptor path payload s).2 = s).
Proof.
  intros Ht Hq. split; [by apply ask_client_keeper|].
  intros path payload. destruct (list_find (fun m => method_path Query_serviceDesc m = path)
    (Methods Query_serviceDesc)) as [[i m]|] eqn:E.
  2: { apply list_find_None in E. by destruct (serve_unknown _ Query_serviceDesc interceptor path payload s E) as [e ->]. }
  apply list_find_Some in E as (Hm & <- & _). apply list_elem_of_lookup_2 in Hm.
  rewrite serve_method by (done || by_eval). cbn [arrived snd].
  cbn [Methods Query_serviceDesc] in Hm.
  repeat (apply elem_of_cons in Hm as [->|Hm]; [cbn [Handler]|]); [..|by apply elem_of_nil in Hm];
    unfold Query_Params_Handler, Query_Records_Handler, Query_Registries_Handler, Query_Registry_Handler,
      Query_SearchRegistriesByName_Handler;
    lazymatch goal with |- context [answering (unary_handler ?f ?m)] =>
      destruct (answering_cases f m interceptor payload s Ht) as [[e ->]|[req ->]]; [done|] end;
    cbv [mbind M_bind mret M_ret read_only lift]; repeat case_match; simplify_eq/=; done.
Qed.
End service.

(** ** Witness *)

(** The versions of a document of the demonstration store, asked for over the wire. *)
Definition demo_query : QueryCall :=
  AskRecords (mkQueryRecords (bs "abc123") 0 0 0 (Some (mkPageRequest [] 0 10 false false))).

Definition no_pages (l : list (Z * Registry)) (pr : PageRequest) : result (list Registry * PageResponse) :=
  Ok (l.*2, zero_PageResponse).

Lemma query_client_answers_witness :
  ask_client (serve (Query_serviceDesc None no_pages) None) demo_query Demo.store
  = arrived (ask_keeper None no_pages demo_query Demo.store, Demo.store) /\
  (forall path payload,
     (serve (Query_serviceDesc None no_pages) None path payload Demo.store).2 = Demo.store).
Proof.
  apply (query_client_answers None no_pages None demo_query Demo.store); [exact I|]. split.
  - repeat split; by vm_compute.
  - intros a E. vm_compute in E. injection E as <-. split; [|split; [done|by vm_compute]].
    repeat constructor; by vm_compute.
Defined.
