(* ===== verification/EvmLayout.v ===== *)
(** The storage layout of the anchoring contract: src/x/anchoring/evmlayout/layout.go.

    The functions compute, for each value of the module, the storage slots that
    hold it in the contract and their contents.  The readers after them take strings
    and lists apart again; the lemmas show that reading back what the functions write
    gives the value.  Where a value belongs is stated in Solidity.v. *)

From S2P Require Import Prelude Types.

(** ** Words *)

(** A [common.Hash]: 32 bytes. *)
Abbreviation Hash := bytes.
Definition HashLength : nat := 32.
Definition zero_hash : Hash := replicate HashLength x00.

Definition SlotRoleAdmin : Z := 0.
Definition SlotRoleMembers : Z := 1.
Definition SlotRoleMemberCount : Z := 2.
Definition SlotHeader : Z := 3.
Definition SlotRegistries : Z := 4.
Definition SlotRecordCount : Z := 5.
Definition SlotLatestIndex : Z := 6.
Definition SlotRecords : Z := 7.
Definition SlotRecordIDByChecksum : Z := 8.
Definition SlotRegistriesByChecksum : Z := 9.
Definition SlotRegistriesByName : Z := 10.

Definition RegistryID : Z := 0.
Definition RegistryName : Z := 1.
Definition RegistryDescription : Z := 2.
Definition RegistryCreator : Z := 3.
Definition RegistryCreatedAt : Z := 4.
Definition RegistryMetadata : Z := 5.

Definition RecordURI : Z := 0.
Definition RecordChecksum : Z := 1.
Definition RecordChecksumAlgo : Z := 2.
Definition RecordMetadata : Z := 3.
Definition RecordTimestamp : Z := 4.
Definition RecordStatus : Z := 5.
Definition RecordPacked : Z := 6.

Record Write := mkWrite { Slot : Hash; Value : Hash }.

(** [binary.BigEndian.PutUint64(h[off:off+8], v)] *)
Definition put_u64 (h : bytes) (off : nat) (v : Z) : bytes :=
  take off h ++ be_bytes 8 v ++ drop (off + 8) h.

Definition Word (v : Z) : Hash := put_u64 zero_hash 24 v.

(** [at]: [common.BigToHash] keeps the low 32 bytes of the sum. *)
Definition at_slot (base : Hash) (n : Z) : Hash := be_bytes HashLength (be_value base + n).

(** [packRecord] *)
Definition packRecord (recordID index : Z) (isLatest : bool) (registryID : Z) : Hash :=
  let h := put_u64 zero_hash 24 recordID in
  let h := put_u64 h 16 index in
  let h := if isLatest then <[15%nat := x01]> h else h in
  put_u64 h 7 registryID.

Section layout.
Context {ENV : Env}.

(** [crypto.Keccak256Hash] of several slices hashes their concatenation. *)
Definition mapHash (key parent : Hash) : Hash := keccak256 (key ++ parent).
Definition mapUint64 (key : Z) (parent : Hash) : Hash := keccak256 (Word key ++ parent).
Definition MapString (key : bytes) (parent : Hash) : Hash := keccak256 (key ++ parent).
Definition ArrayData (lengthSlot : Hash) : Hash := keccak256 lengthSlot.

(** The words of a long string: one for each multiple of 32 below its length. *)
Definition string_words (start : Hash) (b : bytes) : list Write :=
  (fun j : nat => mkWrite (at_slot start (Z.of_nat j)) (go_copy zero_hash (drop (32 * j) b)).2)
    <$> seq 0 ((length b + 31) / 32).

Definition stringWrites (base : Hash) (s : bytes) : list Write :=
  if blen s <? 32
  then [mkWrite base (<[31%nat := z2b (blen s * 2)]> (go_copy zero_hash s).2)]
  else mkWrite base (Word (blen s * 2 + 1)) :: string_words (ArrayData base) s.

Definition registryBase (registryID : Z) : Hash := mapUint64 registryID (Word SlotRegistries).

Definition recordBase (registryID recordID index : Z) : Hash :=
  mapUint64 index (mapUint64 recordID (mapUint64 registryID (Word SlotRecords))).

Definition registryWrites (base : Hash) (reg : Registry) : list Write :=
  [mkWrite (at_slot base RegistryID) (Word (reg_Id reg))]
  ++ stringWrites (at_slot base RegistryName) (reg_Name reg)
  ++ stringWrites (at_slot base RegistryDescription) (reg_Description reg)
  ++ stringWrites (at_slot base RegistryCreator) (reg_Creator reg)
  ++ stringWrites (at_slot base RegistryCreatedAt) (reg_CreatedAt reg)
  ++ stringWrites (at_slot base RegistryMetadata) (reg_Metadata reg).

Definition recordWrites (base : Hash) (rec : Record_) : list Write :=
  stringWrites (at_slot base RecordURI) (rec_Uri rec)
  ++ stringWrites (at_slot base RecordChecksum) (rec_Checksum rec)
  ++ stringWrites (at_slot base RecordChecksumAlgo) (rec_ChecksumAlgo rec)
  ++ stringWrites (at_slot base RecordMetadata) (rec_Metadata rec)
  ++ stringWrites (at_slot base RecordTimestamp) (rec_Timestamp rec)
  ++ stringWrites (at_slot base RecordStatus) (rec_Status rec)
  ++ [mkWrite (at_slot base RecordPacked)
        (packRecord (rec_RecordId rec) (rec_Index rec) (rec_IsLatest rec) (rec_RegistryId rec))].

(** The byte offset of element [i] of a [uint64[]] in its word. *)
Definition id_offset (i : nat) : nat := 32 - 8 * (i mod 4) - 8.

(** One iteration of the loop of [idsWrites]: a new word for every fourth
    element, and the element put into the last word. *)
Definition put_id (data : Hash) (writes : list Write) (e : nat * Z) : list Write :=
  let '(i, id) := e in
  let writes := if (i mod 4 =? 0)%nat
                then writes ++ [mkWrite (at_slot data (Z.of_nat (i / 4))) zero_hash] else writes in
  alter (fun w => mkWrite (Slot w) (put_u64 (Value w) (id_offset i) id)) (length writes - 1)%nat writes.

Definition idsWrites (table : Hash) (key : bytes) (ids : list Z) : list Write :=
  let lengthSlot := MapString key table in
  fold_left (put_id (ArrayData lengthSlot)) (imap pair ids)
    [mkWrite lengthSlot (Word (Z.of_nat (length ids)))].
End layout.

(** ** Reading storage *)

Abbreviation Storage := (gmap Hash Hash).

(** A slot never written reads as zero. *)
Definition load (st : Storage) (slot : Hash) : Hash := default zero_hash (st !! slot).

(** A value packed into a word, by its offset from the low end and its size. *)
Definition packed_field (w : Hash) (off size : nat) : Z :=
  be_value w / 256 ^ Z.of_nat off mod 256 ^ Z.of_nat size.

(** The storage holds what these writes say. *)
Definition holds_writes (st : Storage) (ws : list Write) : Prop :=
  forall w, w ∈ ws -> load st (Slot w) = Value w.

Section readers.
Context {ENV : Env}.

Definition sol_uint (st : Storage) (slot : Hash) : Z := be_value (load st slot).

(** The low bit of the word tells a string kept in its slot from one whose bytes
    run from [keccak(slot)]. *)
Definition sol_string (st : Storage) (base : Hash) : bytes :=
  let w := load st base in
  if Z.even (be_value w) then take (Z.to_nat (packed_field w 0 1 / 2)) w
  else let n := Z.to_nat ((be_value w - 1) / 2) in
       take n (concat ((fun j : nat => load st (at_slot (ArrayData base) (Z.of_nat j)))
                         <$> seq 0 ((n + 31) / 32))).

(** A [uint64[]]: four elements to a word, the first lowest. *)
Definition sol_ids (st : Storage) (lengthSlot : Hash) : list Z :=
  (fun i : nat => packed_field (load st (at_slot (ArrayData lengthSlot) (Z.of_nat (i / 4))))
                    (8 * (i mod 4)) 8)
    <$> seq 0 (Z.to_nat (sol_uint st lengthSlot)).
End readers.

(** ** Words and their fields *)

Lemma packed_field_app (a b c : bytes) off size :
  length c = off -> length b = size -> packed_field (a ++ b ++ c) off size = be_value b.
Proof.
  intros <- <-. unfold packed_field. rewrite !be_value_app, length_app, Nat2Z.inj_add, Z.pow_add_r by lia.
  pose proof (be_value_range b). pose proof (be_value_range c).
  replace (be_value a * (256 ^ Z.of_nat (length b) * 256 ^ Z.of_nat (length c))
           + (be_value b * 256 ^ Z.of_nat (length c) + be_value c))
    with ((be_value a * 256 ^ Z.of_nat (length b) + be_value b) * 256 ^ Z.of_nat (length c) + be_value c)
    by ring.
  rewrite Z.div_add_l, (Z.div_small (be_value c)), Z.add_0_r by lia.
  rewrite Z.add_comm, Z.mod_add by lia. by apply Z.mod_small.
Qed.

(** A field is the bytes at its place. *)
Lemma packed_field_bytes (w : Hash) off size :
  (off + size <= length w)%nat ->
  packed_field w off size = be_value (take size (drop (length w - off - size) w)).
Proof.
  intros Hl. rewrite <- (take_drop (length w - off - size) w) at 1.
  rewrite <- (take_drop size (drop (length w - off - size) w)) at 1.
  apply packed_field_app; rewrite ?drop_drop, ?length_take, !length_drop; lia.
Qed.

Lemma be_value_u64 v : is_u64 v -> be_value (be_bytes 8 v) = v.
Proof. intros Hv. rewrite be_value_bytes. apply Z.mod_small. exact Hv. Qed.

Lemma length_put_u64 h off v : (off + 8 <= length h)%nat -> length (put_u64 h off v) = length h.
Proof. intros Hl. unfold put_u64. rewrite !length_app, be_bytes_length, length_take, length_drop. lia. Qed.

(** The bytes put are the ones found there, and the others stay. *)
Lemma put_u64_same h off v :
  (off <= length h)%nat -> take 8 (drop off (put_u64 h off v)) = be_bytes 8 v.
Proof.
  intros Hl. unfold put_u64. rewrite drop_app_ge; rewrite length_take; [|lia].
  replace (off - off `min` length h)%nat with 0%nat by lia. rewrite drop_0.
  by rewrite take_app_length' by (by rewrite be_bytes_length).
Qed.

Lemma put_u64_other h off v off' size :
  (off + 8 <= length h)%nat -> (off' + size <= off)%nat \/ (off + 8 <= off')%nat ->
  take size (drop off' (put_u64 h off v)) = take size (drop off' h).
Proof.
  intros Hl Hd. apply list_eq. intros i.
  destruct (decide (i < size)%nat) as [Hi|Hi].
  2: { rewrite !lookup_take_ge by lia. done. }
  rewrite !lookup_take_lt by done. rewrite !lookup_drop. unfold put_u64.
  destruct Hd.
  - rewrite lookup_app_l by (rewrite length_take; lia). by rewrite lookup_take_lt by lia.
  - rewrite !lookup_app_r; rewrite ?length_take, ?be_bytes_length; try lia.
    rewrite lookup_drop. f_equal. lia.
Qed.

Lemma Word_length v : length (Word v) = HashLength.
Proof. unfold Word. by rewrite length_put_u64. Qed.

Lemma Word_app v : Word v = replicate 24 x00 ++ be_bytes 8 v.
Proof. unfold Word, put_u64. rewrite drop_ge, app_nil_r by (by simpl; lia). done. Qed.

Lemma Word_value v : is_u64 v -> be_value (Word v) = v.
Proof. intros Hv. rewrite Word_app, be_value_app, be_value_u64 by done. done. Qed.

(** ** Strings *)

Lemma go_copy_fit (dst src : bytes) : (length src <= length dst)%nat ->
  (go_copy dst src).2 = src ++ drop (length src) dst.
Proof.
  intros Hl. unfold go_copy. simpl. rewrite Nat.min_r by done. by rewrite take_ge by done.
Qed.

Lemma go_copy_full (dst src : bytes) : (length dst <= length src)%nat ->
  (go_copy dst src).2 = take (length dst) src.
Proof.
  intros Hl. unfold go_copy. simpl. rewrite Nat.min_l by done.
  by rewrite drop_ge, app_nil_r by done.
Qed.

(** The slot of a short string: its bytes, zeros, and twice its length. *)
Lemma short_word (s : bytes) : (length s < 32)%nat ->
  <[31%nat := z2b (blen s * 2)]> (go_copy zero_hash s).2
  = s ++ replicate (31 - length s) x00 ++ [z2b (blen s * 2)].
Proof.
  intros Hl. rewrite go_copy_fit by (unfold zero_hash; rewrite length_replicate; unfold HashLength; lia).
  unfold zero_hash. rewrite drop_replicate.
  replace (HashLength - length s)%nat with (31 - length s + 1)%nat by (unfold HashLength; lia).
  rewrite replicate_add, app_assoc.
  replace 31%nat with (length (s ++ replicate (31 - length s) x00) + 0)%nat at 1
    by (rewrite length_app, length_replicate; lia).
  rewrite insert_app_r. by rewrite <- app_assoc.
Qed.

(** The words of a long string spell it, followed by zeros. *)
Lemma words_spell (m : nat) (s : bytes) : (length s <= 32 * m)%nat ->
  take (length s) (concat ((fun j : nat => (go_copy zero_hash (drop (32 * j) s)).2) <$> seq 0 m)) = s.
Proof.
  revert s. induction m as [|m IH]; intros s Hl.
  { by destruct s; [|simpl in Hl; lia]. }
  rewrite <- cons_seq, fmap_cons. cbn [concat]. rewrite <- fmap_S_seq, <- list_fmap_compose.
  rewrite Nat.mul_0_r, drop_0.
  assert (E : ((fun j : nat => (go_copy zero_hash (drop (32 * j) s)).2) ∘ S <$> seq 0 m)
            = ((fun j : nat => (go_copy zero_hash (drop (32 * j) (drop 32 s))).2) <$> seq 0 m)).
  { apply list_fmap_ext. intros i j _. unfold compose. rewrite drop_drop. do 3 f_equal. lia. }
  rewrite E. destruct (decide (length s <= 32)%nat) as [Hs|Hs].
  - rewrite go_copy_fit by done. rewrite <- app_assoc. by rewrite take_app_length.
  - rewrite go_copy_full by (simpl; lia). change (length zero_hash) with 32%nat.
    rewrite take_app_ge; rewrite length_take_le by lia; [|lia].
    rewrite <- (length_drop s 32). rewrite IH by (rewrite length_drop; lia). apply take_drop.
Qed.

(** The packed slot of a record, byte for byte. *)
Lemma packRecord_app recordID index isLatest registryID :
  packRecord recordID index isLatest registryID
  = replicate 7 x00 ++ be_bytes 8 registryID ++ [if isLatest then x01 else x00]
    ++ be_bytes 8 index ++ be_bytes 8 recordID.
Proof.
  unfold packRecord, put_u64.
  pose proof (be_bytes_length 8 registryID) as Hg. pose proof (be_bytes_length 8 index) as Hi.
  pose proof (be_bytes_length 8 recordID) as Hr.
  generalize dependent (be_bytes 8 registryID). generalize dependent (be_bytes 8 index).
  generalize dependent (be_bytes 8 recordID). intros r Hr i Hi g Hg.
  do 9 (destruct r as [|? r]; try discriminate Hr). do 9 (destruct i as [|? i]; try discriminate Hi).
  do 9 (destruct g as [|? g]; try discriminate Hg). by destruct isLatest.
Qed.

Lemma packed_fields (z g b i r : bytes) :
  length g = 8%nat -> length b = 1%nat -> length i = 8%nat -> length r = 8%nat ->
  let w := z ++ g ++ b ++ i ++ r in
  packed_field w 0 8 = be_value r /\ packed_field w 8 8 = be_value i /\
  packed_field w 16 1 = be_value b /\ packed_field w 17 8 = be_value g.
Proof.
  intros Hg Hb Hi Hr w. subst w. split_and!.
  - rewrite !(app_assoc _ _ r), <- (app_nil_r r) at 1. by apply packed_field_app.
  - rewrite !(app_assoc _ _ (i ++ _)). by apply packed_field_app.
  - rewrite !(app_assoc _ _ (b ++ _)). apply packed_field_app; [|done]. rewrite length_app. lia.
  - apply packed_field_app; [|done]. rewrite !length_app. lia.
Qed.

Lemma packRecord_fields rid i latest id : is_u64 rid -> is_u64 i -> is_u64 id ->
  let w := packRecord rid i latest id in
  packed_field w 0 8 = rid /\ packed_field w 8 8 = i /\
  negb (packed_field w 16 1 =? 0) = latest /\ packed_field w 17 8 = id.
Proof.
  intros Hr Hi Hid. cbv zeta. rewrite packRecord_app.
  destruct (packed_fields (replicate 7 x00) (be_bytes 8 id) [if latest then x01 else x00] (be_bytes 8 i)
    (be_bytes 8 rid)) as (-> & -> & -> & ->); rewrite ?be_bytes_length; [done..|].
  rewrite !be_value_u64 by done. by destruct latest.
Qed.

Section read_back.
Context {ENV : Env}.
Implicit Types st : Storage.

Lemma holds_app st ws ws' : holds_writes st (ws ++ ws') <-> holds_writes st ws /\ holds_writes st ws'.
Proof. unfold holds_writes. setoid_rewrite elem_of_app. naive_solver. Qed.

Lemma holds_cons st w ws : holds_writes st (w :: ws) <-> load st (Slot w) = Value w /\ holds_writes st ws.
Proof. unfold holds_writes. setoid_rewrite elem_of_cons. naive_solver. Qed.

Lemma string_words_load st start s j :
  holds_writes st (string_words start s) -> (j < (length s + 31) / 32)%nat ->
  load st (at_slot start (Z.of_nat j)) = (go_copy zero_hash (drop (32 * j) s)).2.
Proof.
  intros Hw Hj. apply (Hw (mkWrite _ _)). unfold string_words. apply list_elem_of_fmap.
  exists j. split; [done|]. apply elem_of_seq. lia.
Qed.

(** What [stringWrites] writes reads back as the string. *)
Lemma string_read_back st base s :
  blen s < 2 ^ 63 -> holds_writes st (stringWrites base s) -> sol_string st base = s.
Proof.
  intros Hlen. unfold stringWrites, sol_string. destruct (Z.ltb_spec (blen s) 32) as [Hs|Hs].
  - intros [E _]%holds_cons. simpl in E. unfold blen in Hs. rewrite short_word in E by lia.
    rewrite E. rewrite app_assoc, be_value_app. change (256 ^ Z.of_nat (length [z2b (blen s * 2)])) with 256.
    assert (Ev : be_value [z2b (blen s * 2)] = blen s * 2).
    { rewrite be_value_cons. simpl. rewrite b2z_z2b; [|unfold blen; lia]. change (be_value []) with 0. lia. }
    rewrite Ev, Z.even_add, !Z.even_mul, !orb_true_r. cbn [Bool.eqb].
    rewrite <- (app_nil_r [z2b _]), (packed_field_app _ _ []), Ev by done.
    rewrite Z.div_mul by lia. unfold blen. rewrite Nat2Z.id, <- app_assoc. apply take_app_length.
  - intros [E Hw]%holds_cons. simpl in E. rewrite E.
    assert (Hu : is_u64 (blen s * 2 + 1)) by (unfold is_u64, two64; lia).
    rewrite Word_value, (Z.mul_comm _ 2), Z.even_odd by done.
    replace ((2 * blen s + 1 - 1) / 2) with (blen s)
      by (replace (2 * blen s + 1 - 1) with (blen s * 2) by lia; by rewrite Z.div_mul).
    unfold blen. rewrite Nat2Z.id.
    rewrite (list_fmap_ext _ (fun j : nat => (go_copy zero_hash (drop (32 * j) s)).2)).
    + apply words_spell. pose proof (Nat.div_mod_eq (length s + 31) 32).
      pose proof (Nat.mod_upper_bound (length s + 31) 32). lia.
    + intros i j [-> Hj]%lookup_seq. by apply string_words_load.
Qed.

Definition registry_fits (r : Registry) : Prop :=
  is_u64 (reg_Id r) /\ Forall (fun s => blen s < 2 ^ 63)
    [reg_Name r; reg_Description r; reg_Creator r; reg_CreatedAt r; reg_Metadata r].

Definition record_fits (r : Record_) : Prop :=
  Forall is_u64 [rec_RecordId r; rec_Index r; rec_RegistryId r] /\ Forall (fun s => blen s < 2 ^ 63)
    [rec_Uri r; rec_Checksum r; rec_ChecksumAlgo r; rec_Metadata r; rec_Timestamp r; rec_Status r].

#[export] Instance registry_fits_dec r : Decision (registry_fits r).
Proof. unfold registry_fits. apply _. Defined.
#[export] Instance record_fits_dec r : Decision (record_fits r).
Proof. unfold record_fits. apply _. Defined.

(** The data words of an id list: element [i] sits in word [i / 4], at its offset. *)
Record id_words (data : Hash) (l : list Z) (ws : list Write) : Prop := {
  iw_length : length ws = ((length l + 3) / 4)%nat;
  iw_words : forall j w, ws !! j = Some w ->
    Slot w = at_slot data (Z.of_nat j) /\ length (Value w) = HashLength;
  iw_ids : forall i x, l !! i = Some x -> exists w, ws !! (i / 4)%nat = Some w /\
    take 8 (drop (id_offset i) (Value w)) = be_bytes 8 x
}.

Lemma id_offset_le i : (id_offset i + 8 <= 32)%nat.
Proof. unfold id_offset. pose proof (Nat.mod_upper_bound i 4). lia. Qed.

(** Two elements of one word do not overlap. *)
Lemma id_offset_apart i j : (i / 4 = j / 4)%nat -> i <> j ->
  (id_offset i + 8 <= id_offset j)%nat \/ (id_offset j + 8 <= id_offset i)%nat.
Proof.
  intros E Hne. unfold id_offset. pose proof (Nat.div_mod_eq i 4). pose proof (Nat.div_mod_eq j 4).
  pose proof (Nat.mod_upper_bound i 4). pose proof (Nat.mod_upper_bound j 4). lia.
Qed.

(** Putting an element into a word that is there. *)
Lemma id_words_alter data l ws x :
  length ws = (S (length l / 4))%nat ->
  (forall j w, ws !! j = Some w -> Slot w = at_slot data (Z.of_nat j) /\ length (Value w) = HashLength) ->
  (forall i y, l !! i = Some y -> exists w, ws !! (i / 4)%nat = Some w /\
    take 8 (drop (id_offset i) (Value w)) = be_bytes 8 y) ->
  id_words data (l ++ [x])
    (alter (fun w => mkWrite (Slot w) (put_u64 (Value w) (id_offset (length l)) x)) (length l / 4)%nat ws).
Proof.
  intros Hlen Hw Hids. pose proof (id_offset_le (length l)) as Hoff. split.
  - rewrite length_alter, length_app. cbn [length].
    replace (length l + 1 + 3)%nat with (length l + 1 * 4)%nat by lia. rewrite Nat.div_add; lia.
  - intros j w. rewrite list_lookup_alter. case_decide; [|by apply Hw]. subst j.
    intros (w0 & E & ->)%fmap_Some. destruct (Hw _ _ E) as [? Hv]. cbn [Slot Value].
    split; [done|]. rewrite length_put_u64; [done|]. rewrite Hv. exact Hoff.
  - intros i y. rewrite list_lookup_alter. intros Hi.
    destruct (decide (i = length l)) as [->|Hne].
    + rewrite lookup_app_r, Nat.sub_diag in Hi by lia. injection Hi as <-. rewrite decide_True by done.
      destruct (lookup_lt_is_Some_2 ws (length l / 4)%nat) as [w E]; [lia|]. rewrite E.
      eexists; split; [done|]. apply put_u64_same. destruct (Hw _ _ E) as [_ ->]. unfold HashLength. lia.
    + assert (Hlt : (i < length l)%nat).
      { apply lookup_lt_Some in Hi. rewrite length_app in Hi. simpl in Hi. lia. }
      rewrite lookup_app_l in Hi by done. destruct (Hids i y Hi) as (w & E & Hb).
      case_decide as Hd; [|eauto]. rewrite Hd, E. eexists; split; [done|].
      cbn [Value]. rewrite put_u64_other; [done| |].
      * destruct (Hw _ _ E) as [_ ->]. exact Hoff.
      * destruct (id_offset_apart i (length l)); [done|done|by left|by right].
Qed.

Lemma put_ids_words data w0 l : exists ws,
  fold_left (put_id data) (imap pair l) [w0] = w0 :: ws /\ id_words data l ws.
Proof.
  induction l as [|x l IH] using rev_ind.
  { exists []. split; [done|]. split; [done|..]; intros ? ? Hx; by rewrite lookup_nil in Hx. }
  destruct IH as (ws & E & [Hlen Hw Hids]).
  rewrite imap_app, fold_left_app, E.
  assert (Ei : imap (λ i : nat, pair (length l + i)%nat) [x] = [(length l, x)])
    by (unfold imap; by rewrite Nat.add_0_r).
  rewrite Ei. cbn [fold_left put_id].
  pose proof (Nat.div_mod_eq (length l) 4) as Hdm. pose proof (Nat.mod_upper_bound (length l) 4) as Hmb.
  assert (E3 : ((length l + 3) / 4 = if (length l mod 4 =? 0)%nat then length l / 4 else S (length l / 4))%nat).
  { destruct (Nat.eqb_spec (length l mod 4) 0) as [E0|E0].
    - symmetry. apply (Nat.div_unique _ 4 _ 3); lia.
    - symmetry. apply (Nat.div_unique _ 4 _ (length l mod 4 - 1)); lia. }
  rewrite E3 in Hlen.
  set (ws' := if (length l mod 4 =? 0)%nat
              then ws ++ [mkWrite (at_slot data (Z.of_nat (length l / 4))) zero_hash] else ws).
  assert (Hlen' : length ws' = S (length l / 4)).
  { unfold ws'. destruct (length l mod 4 =? 0)%nat; [|done]. rewrite length_app, Hlen. simpl. lia. }
  exists (alter (fun w => mkWrite (Slot w) (put_u64 (Value w) (id_offset (length l)) x)) (length l / 4)%nat ws').
  split.
  - assert (Ec : (if (length l mod 4 =? 0)%nat
                  then (w0 :: ws) ++ [mkWrite (at_slot data (Z.of_nat (length l / 4))) zero_hash] else w0 :: ws)
                 = w0 :: ws') by (unfold ws'; by destruct (_ =? _)%nat).
    rewrite Ec. cbn [length]. rewrite Hlen'. done.
  - apply id_words_alter; [done|..].
    + intros j w. unfold ws'. destruct (length l mod 4 =? 0)%nat; [|apply Hw].
      intros [?|[? Hj]]%lookup_app_Some; [by apply Hw|].
      apply list_lookup_singleton_Some in Hj as [Hj <-]. cbn [Slot Value].
      split; [do 2 f_equal; lia|done].
    + intros i y Hi. destruct (Hids i y Hi) as (w & Ew & Hb). exists w. split; [|done].
      unfold ws'. destruct (length l mod 4 =? 0)%nat; [|done]. by apply lookup_app_l_Some.
Qed.

(** What [idsWrites] writes reads back as the list. *)
Lemma ids_read_back st table key l :
  Forall is_u64 l -> Z.of_nat (length l) < two64 ->
  holds_writes st (idsWrites table key l) -> sol_ids st (MapString key table) = l.
Proof.
  intros Hl Hlen Hw. unfold idsWrites in Hw. cbv zeta in Hw.
  destruct (put_ids_words (ArrayData (MapString key table))
    (mkWrite (MapString key table) (Word (Z.of_nat (length l)))) l) as (ws & E & [_ Hws Hids]).
  rewrite E in Hw. apply holds_cons in Hw as [E0 Hw]. cbn [Slot Value] in E0.
  unfold sol_ids, sol_uint. rewrite E0, Word_value by (unfold is_u64; lia). rewrite Nat2Z.id.
  apply list_eq. intros i. rewrite list_lookup_fmap.
  destruct (l !! i) as [x|] eqn:Ei.
  - pose proof (lookup_lt_Some _ _ _ Ei) as Hi. rewrite lookup_seq_lt, Nat.add_0_l by done.
    cbn [fmap option_fmap option_map].
    destruct (Hids i x Ei) as (w & Ew & Hb). destruct (Hws _ _ Ew) as [Hs Hv]. f_equal.
    rewrite <- Hs, (Hw w) by (by eapply list_elem_of_lookup_2).
    pose proof (Nat.mod_upper_bound i 4). rewrite packed_field_bytes by (rewrite Hv; unfold HashLength; lia).
    rewrite Hv. change (HashLength - 8 * (i mod 4) - 8)%nat with (id_offset i). rewrite Hb.
    apply be_value_u64. rewrite Forall_forall in Hl. apply Hl. by eapply list_elem_of_lookup_2.
  - rewrite lookup_seq_ge by (by apply lookup_ge_None). done.
Qed.
End read_back.
