(* ===== verification/Solidity.v ===== *)
(** The storage of a Solidity contract, by the rules of the language.

    This is the specification the migration of src/x/anchoring/evmlayout is held to.  It
    does not use the functions of layout.go: a contract is given by the types of its
    state variables, in declaration order, and the place of every value follows from the
    documented rules (consecutive slots, packing of small values, hashing of keys).
    [anchoring_contract] has the variables and structs that the comments of layout.go
    list. *)

From S2P Require Import Prelude Types EvmLayout.

(** ** Types and places *)

(** A value type is known by its size in bytes; the type of a mapping's key only decides
    how a key is encoded. *)
#[warnings="-register-all"]
Inductive SolType :=
| ValueT (size : nat)
| StringT
| ArrayT (elem : SolType)
| MappingT (value : SolType)
| StructT (fields : list (string * SolType)).

(** A key of a value type is padded to a word, a string is hashed as it is. *)
Inductive SolKey := NumKey (v : Z) | StrKey (s : bytes).

Inductive Access := Key (k : SolKey) | Field (name : string) | Elem (i : Z).

(** A place in storage: a slot, the offset from its low end, and the type of what is
    kept there. *)
Record Place := mkPlace { pl_slot : Z; pl_offset : nat; pl_type : SolType }.

(** The slots a member takes: a struct those of its members, anything else one. *)
Fixpoint slots (t : SolType) : Z :=
  match t with
  | StructT fields =>
      (fix go (fields : list (string * SolType)) (slot : Z) (offset : nat) : Z :=
         match fields with
         | [] => if (offset =? 0)%nat then slot else slot + 1
         | (_, ValueT size) :: rest =>
             if (offset + size <=? 32)%nat then go rest slot (offset + size)%nat else go rest (slot + 1) size
         | (_, t) :: rest => go rest ((if (offset =? 0)%nat then slot else slot + 1) + slots t) 0%nat
         end) fields 0 0%nat
  | _ => 1
  end.

(** The members of a contract or struct: a value type shares the slot of the member before
    it when it fits, anything else starts a slot and what follows it another one. *)
Fixpoint member_place (fields : list (string * SolType)) (slot : Z) (offset : nat) (name : string) :
    option Place :=
  match fields with
  | [] => None
  | (n, t) :: rest =>
      match t with
      | ValueT size =>
          let '(slot, offset) := if (offset + size <=? 32)%nat then (slot, offset) else (slot + 1, 0%nat) in
          if String.eqb n name then Some (mkPlace slot offset t)
          else member_place rest slot (offset + size) name
      | _ =>
          let slot := if (offset =? 0)%nat then slot else slot + 1 in
          if String.eqb n name then Some (mkPlace slot 0 t) else member_place rest (slot + slots t) 0 name
      end
  end.

(** A slot is a number of 32 bytes. *)
Definition slot_word (slot : Z) : bytes := be_bytes 32 slot.

Section rules.
Context {ENV : Env}.

Definition key_bytes (k : SolKey) : bytes := match k with NumKey v => be_bytes 32 v | StrKey s => s end.

(** The value of a key is at the hash of the key and the slot of its mapping; the elements
    of an array start at the hash of its slot, as many to a word as fit. *)
Definition follow (p : Place) (a : Access) : option Place :=
  match pl_type p, a with
  | MappingT t, Key k => Some (mkPlace (be_value (keccak256 (key_bytes k ++ slot_word (pl_slot p)))) 0 t)
  | StructT fields, Field name => member_place fields (pl_slot p) 0 name
  | ArrayT (ValueT size), Elem i =>
      let per_word := 32 / Z.of_nat size in
      Some (mkPlace (be_value (keccak256 (slot_word (pl_slot p))) + i / per_word)
              (size * Z.to_nat (i mod per_word)) (ValueT size))
  | _, _ => None
  end.

Fixpoint follow_all (p : Place) (path : list Access) : option Place :=
  match path with [] => Some p | a :: path' => p' ← follow p a; follow_all p' path' end.

Definition place_of (contract : list (string * SolType)) (name : string) (path : list Access) : option Place :=
  p ← member_place contract 0 0 name; follow_all p path.

(** ** Reading *)

Definition read_slot (st : Storage) (slot : Z) : bytes := load st (slot_word slot).

Definition read_value (st : Storage) (p : Place) : option Z :=
  match pl_type p with ValueT size => Some (packed_field (read_slot st (pl_slot p)) (pl_offset p) size) | _ => None end.

(** The lowest bit of the word tells a string of less than 32 bytes, kept in the slot with
    twice its length in the last byte, from a longer one, whose slot has twice the length
    plus one and whose bytes start at the hash of the slot. *)
Definition read_string_at (st : Storage) (p : Place) : option bytes :=
  match pl_type p with
  | StringT =>
      let w := read_slot st (pl_slot p) in
      Some (if Z.even (be_value w) then take (Z.to_nat (packed_field w 0 1 / 2)) w
            else let n := Z.to_nat ((be_value w - 1) / 2) in
                 take n (concat ((fun j : nat =>
                   read_slot st (be_value (keccak256 (slot_word (pl_slot p))) + Z.of_nat j))
                     <$> seq 0 ((n + 31) / 32))))
  | _ => None
  end.

(** The length of an array is in its slot. *)
Definition read_list_at (st : Storage) (p : Place) : option (list Z) :=
  mapM (fun i => q ← follow p (Elem i); read_value st q) (seqZ 0 (be_value (read_slot st (pl_slot p)))).
End rules.

(** ** The anchoring contract *)

Definition uint64_t : SolType := ValueT 8.
Definition bool_t : SolType := ValueT 1.
Definition address_t : SolType := ValueT 20.
Definition bytes32_t : SolType := ValueT 32.

Definition Registry_t : SolType :=
  StructT [("id", uint64_t); ("name", StringT); ("description", StringT); ("creator", StringT);
           ("createdAt", StringT); ("metadata", StringT)].

Definition Record_t : SolType :=
  StructT [("uri", StringT); ("checksum", StringT); ("checksumAlgo", StringT); ("metadata", StringT);
           ("timestamp", StringT); ("status", StringT); ("recordId", uint64_t); ("index", uint64_t);
           ("isLatest", bool_t); ("registryId", uint64_t)].

Definition anchoring_contract : list (string * SolType) :=
  [("roleAdmin", MappingT bytes32_t);                                    (* role => role *)
   ("roleMembers", MappingT (MappingT bool_t));                          (* role => account => bool *)
   ("roleMemberCount", MappingT uint64_t);                               (* role => count *)
   ("admin", address_t);
   ("registryCount", uint64_t);
   ("registries", MappingT Registry_t);                                  (* id => registry *)
   ("recordCount", MappingT uint64_t);                                   (* registry id => count *)
   ("latestIndex", MappingT (MappingT uint64_t));                        (* registry id => record id => index *)
   ("records", MappingT (MappingT (MappingT Record_t)));                 (* ... => index => record *)
   ("recordIdByChecksum", MappingT (MappingT uint64_t));                 (* registry id => checksum => record id *)
   ("registriesByChecksum", MappingT (ArrayT uint64_t));                 (* checksum => registry ids *)
   ("registriesByName", MappingT (ArrayT uint64_t))].                    (* folded name => registry ids *)

(** The contract's [_lower]: capital letters of ASCII become small ones. *)
Definition capitals : bytes := bs "ABCDEFGHIJKLMNOPQRSTUVWXYZ".
Definition smalls : bytes := bs "abcdefghijklmnopqrstuvwxyz".
Definition contract_lower (s : bytes) : bytes :=
  (fun c => match list_find (fun x => x = c) capitals with
            | Some (i, _) => default c (smalls !! i) | None => c end) <$> s.

Section contract.
Context {ENV : Env}.

Definition sol_number (st : Storage) (name : string) (path : list Access) : option Z :=
  p ← place_of anchoring_contract name path; read_value st p.
Definition sol_text (st : Storage) (name : string) (path : list Access) : option bytes :=
  p ← place_of anchoring_contract name path; read_string_at st p.
Definition sol_list (st : Storage) (name : string) (path : list Access) : option (list Z) :=
  p ← place_of anchoring_contract name path; read_list_at st p.

(** A registry and a record, field by field. *)
Definition shows_registry (st : Storage) (id : Z) (r : Registry) : Prop :=
  let at_ f := [Key (NumKey id); Field f] in
  sol_number st "registries" (at_ "id"%string) = Some (reg_Id r) /\
  sol_text st "registries" (at_ "name"%string) = Some (reg_Name r) /\
  sol_text st "registries" (at_ "description"%string) = Some (reg_Description r) /\
  sol_text st "registries" (at_ "creator"%string) = Some (reg_Creator r) /\
  sol_text st "registries" (at_ "createdAt"%string) = Some (reg_CreatedAt r) /\
  sol_text st "registries" (at_ "metadata"%string) = Some (reg_Metadata r).

Definition shows_record (st : Storage) (id rid i : Z) (r : Record_) : Prop :=
  let at_ f := [Key (NumKey id); Key (NumKey rid); Key (NumKey i); Field f] in
  sol_text st "records" (at_ "uri"%string) = Some (rec_Uri r) /\
  sol_text st "records" (at_ "checksum"%string) = Some (rec_Checksum r) /\
  sol_text st "records" (at_ "checksumAlgo"%string) = Some (rec_ChecksumAlgo r) /\
  sol_text st "records" (at_ "metadata"%string) = Some (rec_Metadata r) /\
  sol_text st "records" (at_ "timestamp"%string) = Some (rec_Timestamp r) /\
  sol_text st "records" (at_ "status"%string) = Some (rec_Status r) /\
  sol_number st "records" (at_ "recordId"%string) = Some (rec_RecordId r) /\
  sol_number st "records" (at_ "index"%string) = Some (rec_Index r) /\
  sol_number st "records" (at_ "isLatest"%string) = Some (if rec_IsLatest r then 1 else 0) /\
  sol_number st "records" (at_ "registryId"%string) = Some (rec_RegistryId r).
End contract.

(** ** The slots of layout.go are the places of the contract *)

Lemma slot_word_value h : length h = 32%nat -> slot_word (be_value h) = h.
Proof. intros Hl. unfold slot_word. rewrite <- Hl. apply be_bytes_value. Qed.

Lemma Word_slot v : is_u64 v -> Word v = slot_word v.
Proof.
  intros Hv. rewrite <- (slot_word_value (Word v)) by apply Word_length. by rewrite Word_value.
Qed.

Section places.
Context {ENV : Env} {LAWS : EnvLaws}.
Implicit Types st : Storage.

Lemma hash_slot x : slot_word (be_value (keccak256 x)) = keccak256 x.
Proof. apply slot_word_value, keccak256_length. Qed.

Lemma at_slot_hash x n : slot_word (be_value (keccak256 x) + n) = at_slot (keccak256 x) n.
Proof. done. Qed.

Lemma number_of_Word st slot n :
  is_u64 n -> load st (slot_word slot) = Word n -> read_value st (mkPlace slot 0 uint64_t) = Some n.
Proof.
  intros Hn E. unfold read_value, read_slot. cbn [pl_type pl_slot pl_offset]. unfold uint64_t, bytes32_t. rewrite E, Word_app, <- (app_nil_r (be_bytes 8 n)).
  rewrite packed_field_app by (done || apply be_bytes_length). by rewrite be_value_u64.
Qed.

Lemma list_of_ids st slot :
  read_list_at st (mkPlace slot 0 (ArrayT uint64_t)) = Some (sol_ids st (slot_word slot)).
Proof.
  unfold read_list_at, sol_ids, sol_uint, read_slot. cbn [pl_slot].
  set (n := be_value (load st (slot_word slot))). unfold seqZ.
  set (g := fun i : nat => packed_field (load st (at_slot (ArrayData (slot_word slot)) (Z.of_nat (i / 4)))) (8 * (i mod 4)) 8).
  generalize (seq 0 (Z.to_nat n)). intros l. induction l as [|i l IH]; [done|].
  rewrite !fmap_cons. cbn [mapM]. rewrite IH. clear IH. cbn [follow pl_type pl_slot uint64_t].
  cbn [mbind option_bind]. unfold read_value. cbn [pl_type pl_slot pl_offset mret option_ret].
  change (32 / Z.of_nat 8) with 4. unfold read_slot. rewrite Z.add_0_r, at_slot_hash. subst g. cbn beta.
  rewrite Nat2Z.inj_div. change (Z.of_nat 4) with 4.
  replace (Z.to_nat (Z.of_nat i mod 4)) with (i mod 4)%nat; [done|].
  by rewrite <- (Nat2Z.id (i mod 4)), Nat2Z.inj_mod.
Qed.

Lemma word_of_bytes32 st slot h : length h = 32%nat -> load st (slot_word slot) = h ->
  read_value st (mkPlace slot 0 bytes32_t) = Some (be_value h).
Proof.
  intros Hl E. unfold read_value, read_slot. cbn [pl_type pl_slot pl_offset]. unfold uint64_t, bytes32_t. rewrite E. f_equal.
  rewrite <- (app_nil_l h), <- (app_nil_r h) at 1. by apply packed_field_app.
Qed.

(** A string of the contract is read as the reader of EvmLayout.v reads it. *)
Lemma text_at st slot : read_string_at st (mkPlace slot 0 StringT) = Some (sol_string st (slot_word slot)).
Proof. done. Qed.

(** The slots of nested mappings with numbers as keys. *)
Lemma mapUint64_slot key parent : is_u64 key ->
  mapUint64 key (slot_word parent) = keccak256 (key_bytes (NumKey key) ++ slot_word parent).
Proof. intros Hk. unfold mapUint64. by rewrite (Word_slot key Hk). Qed.

Lemma mapHash_slot key parent : length key = 32%nat ->
  mapHash key (slot_word parent) = keccak256 (key_bytes (NumKey (be_value key)) ++ slot_word parent).
Proof. intros Hk. unfold mapHash. change (key_bytes _) with (slot_word (be_value key)). by rewrite slot_word_value. Qed.
End places.
