(* ===== verification/EvmMigrate.v ===== *)
(** The migration of the module's state to contract storage:
    src/x/anchoring/evmlayout/migrate.go.

    [Migrate] walks the collections of the keeper and hands every slot to a sink.
    The theorems say which slots it hands over and in which order, which states it
    refuses, and that the storage it fills reads back as the module's state. *)

From S2P Require Import Prelude Types Rbac Keeper MsgServer Spec Refine Ledger Genesis Export Concrete EvmLayout Solidity.

(** Local variables of a function that its callbacks update. *)
Definition with_vars {S L A} (init : L) (m : M (L * S) A) : M S (A * L) := fun s =>
  match m (init, s) with
  | (Ok a, (l, s')) => (Ok (a, l), s')
  | (Err e, (_, s')) => (Err e, s')
  end.

(** A call that does not touch the local variables. *)
Definition outer {S L A} (m : M S A) : M (L * S) A := zoom snd (fun s p => (p.1, s)) m.

Definition get_vars {S L} : M (L * S) L := gets fst.
Definition set_vars {S L} (vars : L) : M (L * S) unit := modify (fun p => (vars, p.2)).

Section migrate.
Context {ENV : Env}.
Context {S : Type}.

(** [Sink]: what the caller does with a slot. *)
Abbreviation Sink := (Write -> M S unit).
Implicit Types (k : KState) (emit sink : Sink).

Definition skipZero (sink : Sink) : Sink := fun w =>
  if decide (Value w = zero_hash) then mret tt else sink w.

Definition emitAll (emit : Sink) (writes : list Write) : M S unit := for_each emit writes.

(** [asciiLower]: the bytes of A-Z, shifted by 32. *)
Definition asciiLower (s : bytes) : bytes :=
  (fun c => if (65 <=? b2z c) && (b2z c <=? 90) then z2b (b2z c + 97 - 65) else c) <$> s.

(** The callback of the walk of [migrateRegistries], with [previous] and [byName]. *)
Definition migrate_registry (emit : Sink) (id : Z) (registry : Registry) :
    M (Z * gmap bytes (list Z) * S) bool :=
  vars ← get_vars;
  let '(previous, byName) := vars in
  if negb (id =? wrap64 (previous + 1))
  then throw (ErrPlain "ids must run from 1 with no gaps")
  else
    let key := asciiLower (reg_Name registry) in
    _ ← set_vars (id, <[key := default [] (byName !! key) ++ [id]]> byName);
    _ ← outer (emitAll emit (registryWrites (registryBase id) registry));
    mret false.

Definition migrateRegistries k (emit : Sink) : M S unit :=
  r ← with_vars (0, ∅) (walk_cb (migrate_registry emit) (walk (Registries k)));
  let '(_, (previous, byName)) := r in
  count ← lift (of_option (RegistryCount k) ErrCollNotFound);
  if negb (count =? previous)
  then throw (ErrPlain "RegistryCount does not match the last id")
  else for_each (fun name => emitAll emit (idsWrites (Word SlotRegistriesByName) name
                                             (default [] (byName !! name)))) (walk byName).*1.

Definition migrateRecordCounts k (emit : Sink) : M S unit :=
  walk_cb (fun id count =>
    _ ← emit (mkWrite (mapUint64 id (Word SlotRecordCount)) (Word count)); mret false)
    (walk (RecordsCountByRegistry k)).

Definition migrateRecords k (emit : Sink) : M S unit :=
  walk_cb (fun key record =>
    let '(k1, k2, k3) := key in
    _ ← emitAll emit (recordWrites (recordBase k1 k2 k3) record); mret false)
    (walk (Records k)).

Definition migrateLatestIndexes k (emit : Sink) : M S unit :=
  walk_cb (fun key index =>
    _ ← emit (mkWrite (mapUint64 key.2 (mapUint64 key.1 (Word SlotLatestIndex))) (Word index));
    mret false)
    (walk (RecordIndices k)).

Definition migrateRecordIDs k (emit : Sink) : M S unit :=
  walk_cb (fun key recordID =>
    _ ← emit (mkWrite (MapString key.2 (mapUint64 key.1 (Word SlotRecordIDByChecksum))) (Word recordID));
    mret false)
    (walk (RecordIdByRegistryAndChecksum k)).

(** go-ethereum's [common.BytesToAddress]: 20 bytes, cropped or padded on the left. *)
Definition BytesToAddress (b : bytes) : bytes :=
  replicate (20 - length b) x00 ++ drop (length b - 20) b.

(** [copy(header[12:], address)], then the count at [header[4:12]]. *)
Definition header_word (admin : bytes) (count : Z) : Hash :=
  put_u64 (take 12 zero_hash ++ (go_copy (drop 12 zero_hash) (BytesToAddress admin)).2) 4 count.

Definition migrateHeader k (emit : Sink) : M S unit :=
  params ← lift (of_option (k_Params k) ErrCollNotFound);
  admin ← lift (of_option (AccAddressFromBech32 (Admin params)) (ErrWrap "params admin" ErrBech32));
  count ← lift (of_option (RegistryCount k) ErrCollNotFound);
  emit (mkWrite (Word SlotHeader) (header_word admin count)).

(** [flush] of [migrateChecksumIndex]. *)
Definition flush_checksum (current : bytes) (registries : list Z) : list Write :=
  match registries with
  | [] => []
  | _ => idsWrites (Word SlotRegistriesByChecksum) current registries
  end.

Definition migrate_checksum (emit : Sink) (key : bytes * Z) (_ : Z) : M (bytes * list Z * S) bool :=
  vars ← get_vars;
  let '(current, registries) := vars in
  _ ← (if decide (key.1 <> current)
       then _ ← outer (emitAll emit (flush_checksum current registries));
            set_vars (key.1, [])
       else mret tt);
  vars ← get_vars;
  _ ← set_vars (vars.1, vars.2 ++ [key.2]);
  mret false.

Definition migrateChecksumIndex k (emit : Sink) : M S unit :=
  r ← with_vars ([], []) (walk_cb (migrate_checksum emit) (walk (RecordIdByChecksumAndRegistry k)));
  let '(_, (current, registries)) := r in
  emitAll emit (flush_checksum current registries).

(** [flushCount] of [migrateRoles]. *)
Definition flush_count (current : Role) (members : Z) : list Write :=
  if members =? 0 then []
  else [mkWrite (mapHash current (Word SlotRoleMemberCount)) (Word members)].

Definition member_write (key : Role * bytes) : Write :=
  mkWrite (mapHash (BytesToHash key.2) (mapHash key.1 (Word SlotRoleMembers))) (Word 1).

Definition migrate_member (emit : Sink) (key : Role * bytes) (_ : bytes) : M (Role * Z * S) bool :=
  vars ← get_vars;
  let '(current, members) := vars in
  _ ← (if decide (key.1 <> current)
       then _ ← outer (emitAll emit (flush_count current members));
            set_vars (key.1, 0)
       else mret tt);
  vars ← get_vars;
  _ ← set_vars (vars.1, wrap64 (vars.2 + 1));
  _ ← outer (emit (member_write key));
  mret false.

Definition migrateRoles k (emit : Sink) : M S unit :=
  _ ← walk_cb (fun role adminRole =>
        _ ← emit (mkWrite (mapHash role (Word SlotRoleAdmin)) (BytesToHash adminRole)); mret false)
        (walk (RBAC_RoleAdmins k));
  r ← with_vars (DefaultRoleAdmin, 0) (walk_cb (migrate_member emit) (walk (RBAC_RoleMembers k)));
  let '(_, (current, members)) := r in
  emitAll emit (flush_count current members).

(** The steps of [Migrate], in order; the error of one is wrapped with its name. *)
Definition steps : list (string * (KState -> Sink -> M S unit)) :=
  [("registries", migrateRegistries); ("record counts", migrateRecordCounts);
   ("records", migrateRecords); ("latest indexes", migrateLatestIndexes);
   ("checksum lookup", migrateRecordIDs); ("header", migrateHeader);
   ("checksum index", migrateChecksumIndex); ("roles", migrateRoles)].

Definition Migrate k (sink : Sink) : M S unit :=
  let emit := skipZero sink in
  for_each (fun step => fun s =>
    match step.2 k emit s with
    | (Err e, s') => (Err (ErrWrap (String.append "migrating " step.1) e), s')
    | out => out
    end) steps.
End migrate.

(** ** What a walk hands to the sink

    The writes of each step as a list, computed without a sink; [None] is a
    refusal.  A step with local variables is a machine on them. *)

Section machine.
Context {K V L : Type}.

Fixpoint run_machine (upd : L -> K -> V -> option (L * list Write)) (l : list (K * V)) (x : L) :
    option (L * list Write) :=
  match l with
  | [] => Some (x, [])
  | (k, v) :: l' =>
      '(x1, ws1) ← upd x k v;
      '(x2, ws2) ← run_machine upd l' x1;
      Some (x2, ws1 ++ ws2)
  end.
End machine.

Section outcome.
Context {ENV : Env} {S : Type} (emit : Write -> M S unit).

(** Handing over a list of writes, then returning [a]. *)
Definition delivered {A} (ws : list Write) (a : A) (s : S) : result A * S :=
  match for_each emit ws s with
  | (Ok _, s') => (Ok a, s')
  | (Err e, s') => (Err e, s')
  end.

Definition emits_as {A} (m : M S A) (out : option (A * list Write)) : Prop := forall s,
  match out with
  | Some (a, ws) => m s = delivered ws a s
  | None => exists e s', m s = (Err e, s')
  end.

(** The same for a function with local variables; they are lost on an error. *)
Definition emits_vars {L A} (m : M (L * S) A) (x : L) (out : option (A * L * list Write)) : Prop :=
  forall s,
  match out with
  | Some (a, x', ws) =>
      (m (x, s)).1 = (delivered ws a s).1 /\ (m (x, s)).2.2 = (delivered ws a s).2 /\
      (is_ok (m (x, s)).1 = true -> (m (x, s)).2.1 = x')
  | None => exists e p, m (x, s) = (Err e, p)
  end.

Lemma delivered_app {A} ws ws' (a : A) s :
  delivered (ws ++ ws') a s =
  match for_each emit ws s with (Ok _, s') => delivered ws' a s' | (Err e, s') => (Err e, s') end.
Proof.
  unfold delivered. rewrite for_each_app. cbv [mbind M_bind].
  by destruct (for_each emit ws s) as [[]].
Qed.

Definition prepend {A} (ws : list Write) (out : option (A * list Write)) : option (A * list Write) :=
  '(a, ws') ← out; Some (a, ws ++ ws').

Lemma emits_ret {A} (a : A) : emits_as (mret a) (Some (a, [])).
Proof. intros s. done. Qed.

Lemma emits_bind {A B} (m : M S A) (f : A -> M S B) a ws out :
  emits_as m (Some (a, ws)) -> emits_as (f a) out -> emits_as (m ≫= f) (prepend ws out).
Proof.
  intros Hm Hf s. specialize (Hm s). cbv [mbind M_bind]. simpl in Hm. rewrite Hm.
  destruct out as [[b ws']|]; cbn [prepend mbind option_bind].
  - rewrite delivered_app. unfold delivered at 1. destruct (for_each emit ws s) as [[[]|] s1]; [|done]. apply (Hf s1).
  - unfold delivered. destruct (for_each emit ws s) as [[[]|] s1]; [apply (Hf s1)|eauto].
Qed.

Lemma emits_fail {A B} (m : M S A) (f : A -> M S B) : emits_as m None -> emits_as (m ≫= f) None.
Proof. intros Hm s. destruct (Hm s) as (e & s' & E). cbv [mbind M_bind]. rewrite E. eauto. Qed.

Lemma emits_all ws : emits_as (emitAll emit ws) (Some (tt, ws)).
Proof. intros s. unfold emitAll, delivered. by destruct (for_each emit ws s) as [[[]|]]. Qed.

Lemma emits_one w : emits_as (emit w) (Some (tt, [w])).
Proof.
  intros s. unfold delivered. cbn [for_each]. cbv [mbind M_bind mret M_ret].
  by destruct (emit w s) as [[[]|]].
Qed.

(** The return [false, err] of a callback. *)
Lemma emits_go_on (m : M S unit) ws :
  emits_as m (Some (tt, ws)) -> emits_as (_ ← m; mret false) (Some (false, ws)).
Proof.
  intros Hm. pose proof (emits_bind m (fun _ => mret false) tt ws _ Hm (emits_ret false)) as H.
  unfold prepend in H. cbn in H. by rewrite app_nil_r in H.
Qed.

Lemma emits_each {A} (g : A -> list Write) l :
  emits_as (for_each (fun x => emitAll emit (g x)) l) (Some (tt, l ≫= g)).
Proof.
  induction l as [|x l IH]; [apply emits_ret|].
  exact (emits_bind _ _ tt (g x) _ (emits_all _) IH).
Qed.

(** A walk whose callback only hands over writes. *)
Lemma emits_walk {K V} (cb : K -> V -> M S bool) (g : K * V -> list Write) l :
  (forall k v, emits_as (cb k v) (Some (false, g (k, v)))) ->
  emits_as (walk_cb cb l) (Some (tt, l ≫= g)).
Proof.
  intros Hcb. induction l as [|[k v] l IH]; [apply emits_ret|].
  exact (emits_bind (cb k v) _ false (g (k, v)) _ (Hcb k v) IH).
Qed.

(** A walk with local variables runs the machine of its callback. *)
Lemma emits_machine {K V L} (cb : K -> V -> M (L * S) bool)
    (upd : L -> K -> V -> option (L * list Write)) l x :
  (forall x k v, emits_vars (cb k v) x ('(x', ws) ← upd x k v; Some (false, x', ws))) ->
  emits_vars (walk_cb cb l) x ('(x', ws) ← run_machine upd l x; Some (tt, x', ws)).
Proof.
  intros Hcb. revert x. induction l as [|[k v] l IH]; intros x s; [done|].
  specialize (Hcb x k v s). cbn [run_machine walk_cb]. cbv [mbind M_bind option_bind] in Hcb |- *.
  destruct (upd x k v) as [[x1 ws1]|].
  2: { destruct Hcb as (e & p & ->). eauto. }
  destruct (cb k v (x, s)) as [r1 [y1 s1]]. destruct Hcb as (E1 & E2 & E3). simpl in E1, E2, E3.
  specialize (IH x1 s1). destruct (run_machine upd l x1) as [[x2 ws2]|].
  - rewrite delivered_app. unfold delivered in E1, E2.
    destruct (for_each emit ws1 s) as [[[]|e] s'] eqn:Ef; simpl in *; subst; simpl.
    + rewrite E3 by done. exact IH.
    + done.
  - unfold delivered in E1, E2. destruct (for_each emit ws1 s) as [[[]|e] s'] eqn:Ef; simpl in *; subst.
    + rewrite E3 by done. exact IH.
    + eauto.
Qed.

Lemma emits_with_vars {L A} (m : M (L * S) A) x out :
  emits_vars m x out -> emits_as (with_vars x m) ('(a, x', ws) ← out; Some ((a, x'), ws)).
Proof.
  intros Hm s. specialize (Hm s). unfold with_vars. destruct out as [[[a x'] ws]|]; cbn.
  - destruct (m (x, s)) as [[b|e] [y s']]; destruct Hm as (E1 & E2 & E3); simpl in *; unfold delivered in *;
      destruct (for_each emit ws s) as [[[]|] s1]; simplify_eq/=; try done. by rewrite E3.
  - destruct Hm as (e & [y s'] & ->). eauto.
Qed.

End outcome.

(** ** The writes of each step *)

Section writes.
Context {ENV : Env}.
Implicit Types k : KState.

Definition registry_upd (x : Z * gmap bytes (list Z)) (id : Z) (r : Registry) :
    option ((Z * gmap bytes (list Z)) * list Write) :=
  if id =? wrap64 (x.1 + 1)
  then let key := asciiLower (reg_Name r) in
       Some ((id, <[key := default [] (x.2 !! key) ++ [id]]> x.2), registryWrites (registryBase id) r)
  else None.

(** A walk over pairs that groups the entries by the first component. *)
Definition group_upd {K1 K2 A V : Type} `{EqDecision K1} (flush : K1 -> A -> list Write) (init : A)
    (add : A -> K2 -> A) (item : K1 * K2 -> list Write) (x : K1 * A) (key : K1 * K2) (_ : V) :
    option ((K1 * A) * list Write) :=
  Some (if decide (key.1 <> x.1)
        then ((key.1, add init key.2), flush x.1 x.2 ++ item key)
        else ((x.1, add x.2 key.2), item key)).

Definition grouped {K1 K2 A V : Type} `{EqDecision K1} (flush : K1 -> A -> list Write) (init : A)
    (add : A -> K2 -> A) (item : K1 * K2 -> list Write) (l : list (K1 * K2 * V)) (x : K1 * A) :
    list Write :=
  match run_machine (group_upd flush init add item) l x with
  | Some (x', ws) => ws ++ flush x'.1 x'.2
  | None => []
  end.

Definition registries_layout k : option (list Write) :=
  '(previous, byName, ws) ← run_machine registry_upd (walk (Registries k)) (0, ∅);
  count ← RegistryCount k;
  if count =? previous
  then Some (ws ++ ((walk byName).*1 ≫= fun name =>
               idsWrites (Word SlotRegistriesByName) name (default [] (byName !! name))))
  else None.

Definition counts_layout k : list Write :=
  walk (RecordsCountByRegistry k) ≫= fun e => [mkWrite (mapUint64 e.1 (Word SlotRecordCount)) (Word e.2)].

Definition records_layout k : list Write :=
  walk (Records k) ≫= fun e => recordWrites (recordBase e.1.1.1 e.1.1.2 e.1.2) e.2.

Definition latest_layout k : list Write :=
  walk (RecordIndices k) ≫= fun e =>
    [mkWrite (mapUint64 e.1.2 (mapUint64 e.1.1 (Word SlotLatestIndex))) (Word e.2)].

Definition record_ids_layout k : list Write :=
  walk (RecordIdByRegistryAndChecksum k) ≫= fun e =>
    [mkWrite (MapString e.1.2 (mapUint64 e.1.1 (Word SlotRecordIDByChecksum))) (Word e.2)].

Definition header_layout k : option (list Write) :=
  p ← k_Params k; admin ← AccAddressFromBech32 (Admin p); count ← RegistryCount k;
  Some [mkWrite (Word SlotHeader) (header_word admin count)].

Definition checksums_layout k : list Write :=
  grouped flush_checksum [] (fun l id => l ++ [id]) (fun _ => []) (walk (RecordIdByChecksumAndRegistry k))
    ([], []).

Definition role_admins_layout k : list Write :=
  walk (RBAC_RoleAdmins k) ≫= fun e => [mkWrite (mapHash e.1 (Word SlotRoleAdmin)) (BytesToHash e.2)].

Definition members_layout k : list Write :=
  grouped flush_count 0 (fun n _ => wrap64 (n + 1)) (fun key => [member_write key])
    (walk (RBAC_RoleMembers k)) (DefaultRoleAdmin, 0).

(** The whole migration; [None] when the state is refused. *)
Definition layout k : option (list Write) :=
  regs ← registries_layout k;
  header ← header_layout k;
  Some (regs ++ counts_layout k ++ records_layout k ++ latest_layout k ++ record_ids_layout k
        ++ header ++ checksums_layout k ++ role_admins_layout k ++ members_layout k).
End writes.

(** Splits on the outcome of the next hand-over. *)
Ltac case_emits :=
  match goal with |- context [for_each ?e ?ws ?s] => destruct (for_each e ws s) as [[[]|] ?] end.

Section steps.
Context {ENV : Env} {S : Type} (emit : Write -> M S unit).
Implicit Types k : KState.

Abbreviation emits m ws := (emits_as emit m (Some (tt, ws))).

Lemma emits_registry x id r :
  emits_vars emit (migrate_registry emit id r) x ('(x', ws) ← registry_upd x id r; Some (false, x', ws)).
Proof.
  intros s. destruct x as [previous byName].
  unfold migrate_registry, registry_upd, get_vars, set_vars, outer, delivered, emitAll. run_unfold.
  cbn [fst snd]. destruct (id =? wrap64 (previous + 1)); cbv [option_bind negb]; [|eauto].
  cbn [fst snd]. by case_emits.
Qed.

Lemma emits_checksum x key v :
  emits_vars emit (migrate_checksum emit key v) x
    ('(x', ws) ← group_upd flush_checksum [] (fun l id => l ++ [id]) (fun _ => []) x key v;
     Some (false, x', ws)).
Proof.
  intros s. destruct x as [current registries].
  unfold migrate_checksum, group_upd, get_vars, set_vars, outer, delivered, emitAll. run_unfold.
  cbn [fst snd]. rewrite app_nil_r. destruct (decide (key.1 <> current)); cbv [option_bind]; cbn [fst snd]; [|done].
  cbn [fst snd]. by case_emits.
Qed.

Lemma emits_member x key v :
  emits_vars emit (migrate_member emit key v) x
    ('(x', ws) ← group_upd flush_count 0 (fun n _ => wrap64 (n + 1)) (fun key => [member_write key]) x key v;
     Some (false, x', ws)).
Proof.
  intros s. destruct x as [current members].
  unfold migrate_member, group_upd, get_vars, set_vars, outer, emitAll. run_unfold.
  cbv [option_bind]. cbn [fst snd]. destruct (decide (key.1 <> current)) as [Hne|He]; cbn [fst snd].
  - rewrite delivered_app. unfold delivered. cbn [for_each]. run_unfold. cbn [fst snd].
    case_emits; [|done]. cbn [fst snd].
    by match goal with |- context [emit ?w ?t] => destruct (emit w t) as [[[]|] ?] end.
  - unfold delivered. cbn [for_each]. run_unfold. cbn [fst snd].
    by destruct (emit (member_write key) s) as [[[]|] s2].
Qed.

Lemma group_run_total {K1 K2 A V} `{EqDecision K1} (flush : K1 -> A -> list Write) (init : A)
    (add : A -> K2 -> A) (item : K1 * K2 -> list Write) (l : list (K1 * K2 * V)) (x : K1 * A) :
  exists x' ws, run_machine (group_upd flush init add item) l x = Some (x', ws).
Proof.
  revert x. induction l as [|[key v] l IH]; intros x; cbn [run_machine]; [eauto|].
  destruct (group_upd flush init add item x key v) as [[x1 ws1]|] eqn:E; [|discriminate E].
  destruct (IH x1) as (x2 & ws2 & E2). cbn [mbind option_bind]. rewrite E2. cbn. eauto.
Qed.

Lemma emits_grouped {K1 K2 A V} `{EqDecision K1} (flush : K1 -> A -> list Write) (init : A)
    (add : A -> K2 -> A) (item : K1 * K2 -> list Write)
    (cb : K1 * K2 -> V -> M (K1 * A * S) bool) (l : list (K1 * K2 * V)) (x : K1 * A) :
  (forall x key v, emits_vars emit (cb key v) x
     ('(x', ws) ← group_upd flush init add item x key v; Some (false, x', ws))) ->
  emits (r ← with_vars x (walk_cb cb l); let '(_, (c, acc)) := r in emitAll emit (flush c acc))
    (grouped flush init add item l x).
Proof.
  intros Hcb. pose proof (emits_with_vars emit _ _ _ (emits_machine emit cb _ l x Hcb)) as Hm.
  unfold grouped. destruct (run_machine _ l x) as [[[c acc] ws]|] eqn:E.
  - exact (emits_bind emit _ _ _ _ _ Hm (emits_all emit _)).
  - by destruct (group_run_total flush init add item l x) as (? & ? & ?); simplify_eq.
Qed.

Lemma emits_migrateRegistries k :
  emits_as emit (migrateRegistries k emit) (ws ← registries_layout k; Some (tt, ws)).
Proof.
  pose proof (emits_with_vars emit _ _ _ (emits_machine emit _ _ (walk (Registries k)) (0, ∅) emits_registry))
    as Hm.
  unfold migrateRegistries, registries_layout.
  destruct (run_machine _ _ _) as [[[previous byName] ws]|]; [|by apply emits_fail].
  cbn [mbind option_bind] in Hm |- *.
  destruct (RegistryCount k) as [count|]; cbn [option_bind mbind].
  2: { apply (emits_bind emit _ _ _ ws None Hm). intros s. by eexists _, _. }
  destruct (count =? previous) eqn:Ec; cbn [option_bind mbind].
  - apply (emits_bind emit _ _ _ ws (Some (tt, _)) Hm).
    intros s. cbv [mbind M_bind lift of_option]. rewrite Ec. cbn [negb].
    apply (emits_each emit (fun name => idsWrites (Word SlotRegistriesByName) name (default [] (byName !! name)))).
  - apply (emits_bind emit _ _ _ ws None Hm). intros s. cbv [mbind M_bind lift of_option]. rewrite Ec.
    by eexists _, _.
Qed.

Lemma emits_migrateHeader k :
  emits_as emit (migrateHeader k emit) (ws ← header_layout k; Some (tt, ws)).
Proof.
  intros s. unfold migrateHeader, header_layout. cbv [mbind M_bind option_bind lift of_option].
  destruct (k_Params k) as [p|]; [|by eexists _, _].
  destruct (AccAddressFromBech32 (Admin p)) as [a|]; [|by eexists _, _].
  destruct (RegistryCount k) as [n|]; [|by eexists _, _]. apply emits_one.
Qed.

Lemma emits_migrateRoles k :
  emits (migrateRoles k emit) (role_admins_layout k ++ members_layout k).
Proof.
  unfold migrateRoles. refine (emits_bind emit _ _ tt (role_admins_layout k) (Some (tt, members_layout k)) _ _).
  - apply (emits_walk emit). intros role a.
    apply (emits_go_on emit), emits_one.
  - exact (emits_grouped flush_count 0 _ _ _ _ _ emits_member).
Qed.

(** Every walk that only copies. *)
Lemma emits_migrateRecordCounts k : emits (migrateRecordCounts k emit) (counts_layout k).
Proof.
  apply (emits_walk emit). intros id n.
  apply (emits_go_on emit), emits_one.
Qed.

Lemma emits_migrateRecords k : emits (migrateRecords k emit) (records_layout k).
Proof.
  apply (emits_walk emit). intros [[k1 k2] k3] r. cbn [fst snd].
  apply (emits_go_on emit), emits_all.
Qed.

Lemma emits_migrateLatestIndexes k : emits (migrateLatestIndexes k emit) (latest_layout k).
Proof.
  apply (emits_walk emit). intros key n.
  apply (emits_go_on emit), emits_one.
Qed.

Lemma emits_migrateRecordIDs k : emits (migrateRecordIDs k emit) (record_ids_layout k).
Proof.
  apply (emits_walk emit). intros key n.
  apply (emits_go_on emit), emits_one.
Qed.

Lemma emits_migrateChecksumIndex k : emits (migrateChecksumIndex k emit) (checksums_layout k).
Proof. exact (emits_grouped flush_checksum [] _ _ _ _ _ emits_checksum). Qed.
End steps.

(** ** The whole migration *)

Section whole.
Context {ENV : Env} {S : Type}.
Implicit Types k : KState.
Implicit Types sink : Write -> M S unit.

Fixpoint all_writes (outs : list (option (list Write))) : option (list Write) :=
  match outs with
  | [] => Some []
  | out :: outs' => ws ← out; rest ← all_writes outs'; Some (ws ++ rest)
  end.

(** Handing over [ws], an error being wrapped with the name of some step. *)
Definition handed_over (emit : Write -> M S unit) (ws : list Write) (s : S) (out : result unit * S) : Prop :=
  match for_each emit ws s with
  | (Ok _, s') => out = (Ok tt, s')
  | (Err e, s') => exists what, out = (Err (ErrWrap what e), s')
  end.

Lemma wrapped_steps k emit (l : list (string * (KState -> (Write -> M S unit) -> M S unit))) outs s :
  Forall2 (fun step out => emits_as emit (step.2 k emit) (ws ← out; Some (tt, ws))) l outs ->
  let run := for_each (fun step => fun s => match step.2 k emit s with
               | (Err e, s') => (Err (ErrWrap (String.append "migrating " step.1) e), s')
               | out => out end) l in
  match all_writes outs with
  | Some ws => handed_over emit ws s (run s)
  | None => exists e s', run s = (Err e, s')
  end.
Proof.
  intros Hl. revert s. induction Hl as [|[name run] out l outs Hr Hl IH]; intros s; [done|].
  specialize (Hr s). cbn [all_writes for_each fst snd]. cbn zeta in IH |- *.
  destruct out as [ws|]; cbv [mbind M_bind option_bind] in Hr |- *; cbn [fst snd] in Hr |- *.
  2: { destruct Hr as (e & s' & E). rewrite E. by eexists _, _. }
  rewrite Hr. unfold delivered.
  destruct (for_each emit ws s) as [[[]|e] s1] eqn:Ew.
  - specialize (IH s1). destruct (all_writes outs) as [rest|]; [|done]. cbn.
    unfold handed_over in IH |- *. rewrite for_each_app. cbv [mbind M_bind]. rewrite Ew. exact IH.
  - destruct (all_writes outs) as [rest|]; [|by eexists _, _]. cbn.
    unfold handed_over. rewrite for_each_app. cbv [mbind M_bind]. rewrite Ew. by eexists.
Qed.

Lemma Migrate_layout k sink s :
  match layout k with
  | Some ws => handed_over (skipZero sink) ws s (Migrate k sink s)
  | None => exists e s', Migrate k sink s = (Err e, s')
  end.
Proof.
  assert (Hs : Forall2 (fun step out => emits_as (skipZero sink) (step.2 k (skipZero sink))
                          (ws ← out; Some (tt, ws))) steps
    [registries_layout k; Some (counts_layout k); Some (records_layout k); Some (latest_layout k);
     Some (record_ids_layout k); header_layout k; Some (checksums_layout k);
     Some (role_admins_layout k ++ members_layout k)]).
  { unfold steps. repeat constructor; cbn [fst snd];
    eauto using emits_migrateRegistries, emits_migrateRecordCounts, emits_migrateRecords,
      emits_migrateLatestIndexes, emits_migrateRecordIDs, emits_migrateHeader,
      emits_migrateChecksumIndex, emits_migrateRoles. }
  pose proof (wrapped_steps k (skipZero sink) steps _ s Hs) as H.
  unfold layout. cbn [all_writes mbind option_bind] in H.
  destruct (registries_layout k) as [regs|]; [|exact H].
  destruct (header_layout k) as [header|]; [|exact H].
  cbn [mbind option_bind] in H |- *. by rewrite app_nil_r in H.
Qed.

(** ** Which states are accepted *)

(** Ids run from 1 to the registry count and the administrator's address decodes. *)
Record migratable k : Prop := {
  mg_dense : exists n, RegistryCount k = Some n /\ 0 <= n /\
    forall id, is_Some (Registries k !! id) <-> 1 <= id <= n;
  mg_admin : exists p a, k_Params k = Some p /\ AccAddressFromBech32 (Admin p) = Some a
}.

(** The registries of a walk, keyed by folded name. *)
Definition add_names (m : gmap bytes (list Z)) (l : list (Z * Registry)) : gmap bytes (list Z) :=
  fold_left (fun m e => let key := asciiLower (reg_Name e.2) in
               <[key := default [] (m !! key) ++ [e.1]]> m) l m.

Lemma registry_upd_next previous byName r : is_u64 (previous + 1) ->
  registry_upd (previous, byName) (previous + 1) r
  = Some ((previous + 1, add_names byName [(previous + 1, r)]),
          registryWrites (registryBase (previous + 1)) r).
Proof.
  intros Hu. unfold registry_upd. cbn [fst snd]. unfold wrap64. rewrite Z.mod_small by apply Hu.
  by rewrite Z.eqb_refl.
Qed.

Lemma registry_run (l : list (Z * Registry)) previous byName :
  0 <= previous -> l.*1 = seqZ (previous + 1) (Z.of_nat (length l)) ->
  previous + Z.of_nat (length l) < two64 ->
  run_machine registry_upd l (previous, byName)
  = Some ((previous + Z.of_nat (length l), add_names byName l),
          l ≫= fun e => registryWrites (registryBase e.1) e.2).
Proof.
  revert previous byName. induction l as [|[id r] l IH]; intros previous byName H0 Hl Hb.
  { cbn. by rewrite Z.add_0_r. }
  cbn [length] in Hl, Hb. rewrite Nat2Z.inj_succ in Hl, Hb.
  rewrite fmap_cons, seqZ_cons in Hl by lia. cbn [fst] in Hl. injection Hl as -> Hl.
  rewrite Z.pred_succ in Hl.
  cbn [run_machine]. rewrite registry_upd_next by (unfold is_u64; lia).
  cbn [mbind option_bind]. rewrite IH; [|lia|by rewrite <- Z.add_1_r in Hl|lia].
  cbn. do 3 f_equal. lia.
Qed.

Lemma seqZ_sorted a n : StronglySorted Z.le (seqZ a (Z.of_nat n)).
Proof.
  revert a. induction n as [|n IH]; intros a; [constructor|].
  rewrite Nat2Z.inj_succ, seqZ_cons, Z.pred_succ by lia. constructor; [apply IH|].
  apply Forall_forall. intros x Hx%elem_of_seqZ. lia.
Qed.

Lemma walk_ids_sorted {V} (m : gmap Z V) : StronglySorted Z.le (walk m).*1.
Proof.
  eapply StronglySorted_fmap; [|apply walk_sorted]. intros x y. unfold pair_rel. cbn. lia.
Qed.

(** A map with keys 1 to [n] is walked in that order. *)
Lemma walk_dense {V} (m : gmap Z V) n : 0 <= n ->
  (forall id, is_Some (m !! id) <-> 1 <= id <= n) -> (walk m).*1 = seqZ 1 n.
Proof.
  intros Hn Hm. apply (StronglySorted_unique Z.le); [apply walk_ids_sorted| |].
  { rewrite <- (Z2Nat.id n) by done. apply seqZ_sorted. }
  apply NoDup_Permutation; [apply walk_NoDup_fst|apply NoDup_seqZ|].
  intros id. rewrite elem_of_seqZ. trans (1 <= id <= n); [|lia]. rewrite <- Hm.
  rewrite list_elem_of_fmap. split.
  - intros ([id' v] & -> & Hin). apply elem_of_walk in Hin. by eexists.
  - intros [v Hv]. exists (id, v). split; [done|]. by apply elem_of_walk.
Qed.

Lemma registry_run_inv (l : list (Z * Registry)) previous byName previous' byName' ws :
  0 <= previous -> StronglySorted Z.le l.*1 -> Forall (fun id => previous <= id < two64) l.*1 ->
  run_machine registry_upd l (previous, byName) = Some ((previous', byName'), ws) ->
  l.*1 = seqZ (previous + 1) (Z.of_nat (length l)) /\ previous' = previous + Z.of_nat (length l).
Proof.
  revert previous byName previous' byName' ws.
  induction l as [|[id r] l IH]; intros previous byName previous' byName' ws H0 Hs Hf; cbn [run_machine].
  { intros [= <- <- <-]. split; [done|]. cbn. lia. }
  rewrite fmap_cons in Hs, Hf |- *. cbn [fst] in Hs, Hf |- *.
  apply StronglySorted_inv in Hs as [Hs Hle]. apply Forall_cons in Hf as [Hid Hf].
  destruct (registry_upd (previous, byName) id r) as [[[p1 b1] ws1]|] eqn:E; [|done].
  unfold registry_upd in E. cbn [fst snd] in E. destruct (Z.eqb_spec id (wrap64 (previous + 1))) as [Ei|]; [|done].
  injection E as <- <- <-.
  assert (id = previous + 1) as ->.
  { unfold wrap64 in Ei. destruct (decide (previous + 1 = two64)) as [Eq|].
    - rewrite Eq, Z.mod_same in Ei by done. unfold two64 in *. lia.
    - rewrite Z.mod_small in Ei; lia. }
  cbn [mbind option_bind]. destruct (run_machine registry_upd l _) as [[[p2 b2] ws2]|] eqn:E2; [|done].
  intros [= <- <- ?]. apply IH in E2 as [-> ->]; [|lia|done|].
  - cbn [length]. rewrite (Nat2Z.inj_succ (length l)), (seqZ_cons (previous + 1) (Z.succ _)), Z.pred_succ by lia.
    rewrite <- Z.add_1_r. split; [done|lia].
  - rewrite Forall_forall in Hle, Hf |- *. intros x Hx. specialize (Hle x Hx). specialize (Hf x Hx). lia.
Qed.

Lemma dense_length {V} (m : gmap Z V) n : 0 <= n -> (walk m).*1 = seqZ 1 n -> Z.of_nat (length (walk m)) = n.
Proof. intros Hn E%(f_equal length). rewrite length_fmap, length_seqZ in E. lia. Qed.

(** The registry step, on a dense state. *)
Lemma registries_layout_dense k n :
  RegistryCount k = Some n -> 0 <= n < two64 ->
  (forall id, is_Some (Registries k !! id) <-> 1 <= id <= n) ->
  let byName := add_names ∅ (walk (Registries k)) in
  registries_layout k = Some ((walk (Registries k) ≫= fun e => registryWrites (registryBase e.1) e.2)
    ++ ((walk byName).*1 ≫= fun name =>
          idsWrites (Word SlotRegistriesByName) name (default [] (byName !! name)))).
Proof.
  intros Hc Hn Hd byName. pose proof (walk_dense _ n (proj1 Hn) Hd) as Hw.
  pose proof (dense_length _ n (proj1 Hn) Hw) as Hl.
  unfold registries_layout. rewrite registry_run; [|done|by rewrite Hw, Hl|lia].
  cbn [mbind option_bind]. rewrite Hc. cbn [mbind option_bind]. rewrite Z.add_0_l, Hl, Z.eqb_refl. done.
Qed.

Lemma migratable_layout k :
  map_Forall (fun id _ => is_u64 id) (Registries k) -> migratable k <-> is_Some (layout k).
Proof.
  intros Hu. split.
  - intros [(n & Hc & Hn & Hd) (p & a & Hp & Ha)].
    assert (Hb : n < two64).
    { destruct (decide (n = 0)) as [->|]; [done|]. destruct (proj2 (Hd n)) as [r Hr]; [lia|]. by apply Hu in Hr as []. }
    unfold layout, header_layout. rewrite (registries_layout_dense k n) by done.
    rewrite Hp. cbn [mbind option_bind]. rewrite Ha. cbn [mbind option_bind]. rewrite Hc. cbn. by eexists.
  - intros [ws Hws]. unfold layout in Hws.
    destruct (registries_layout k) as [regs|] eqn:Er; [|done]. cbn [mbind option_bind] in Hws.
    destruct (header_layout k) as [hd|] eqn:Eh; [|done]. clear Hws.
    unfold registries_layout in Er. unfold header_layout in Eh.
    destruct (run_machine _ _ _) as [[[p' names] ws']|] eqn:Em; [|done].
    destruct (k_Params k) as [p|] eqn:Ep; [|done]. cbn [mbind option_bind] in Er, Eh.
    destruct (AccAddressFromBech32 (Admin p)) as [a|] eqn:Ea; [|done]. cbn [mbind option_bind] in Eh.
    destruct (RegistryCount k) as [n|] eqn:Ec; [|done]. cbn [mbind option_bind] in Er.
    destruct (Z.eqb_spec n p') as [->|]; [|done].
    apply registry_run_inv in Em as [Ew ->]; [|done|apply walk_ids_sorted|].
    + split; [|by eauto]. eexists; split; [exact Ec|]. split; [lia|].
      intros id. rewrite Z.add_0_l. trans (id ∈ (walk (Registries k)).*1).
      * rewrite list_elem_of_fmap. split.
        -- intros [r Hr]. exists (id, r). split; [done|]. by apply elem_of_walk.
        -- intros ([id' r] & -> & Hin). apply elem_of_walk in Hin. by eexists.
      * rewrite Ew, elem_of_seqZ. lia.
    + apply Forall_fmap, Forall_forall. intros [id r] Hin%elem_of_walk. apply Hu in Hin. apply Hin.
Qed.
End whole.

(** ** Storage filled by a migration *)

Definition store_sink (w : Write) : M Storage unit := modify <[Slot w := Value w]>.

(** With no slot written twice, every write is found in the storage. *)
Lemma stored_writes ws st0 :
  NoDup (Slot <$> ws) -> (forall w, w ∈ ws -> st0 !! Slot w = None) ->
  exists st, for_each (skipZero store_sink) ws st0 = (Ok tt, st) /\ holds_writes st ws /\
    (forall slot, slot ∉ Slot <$> ws -> st !! slot = st0 !! slot).
Proof.
  revert st0. induction ws as [|w ws IH]; intros st0 Hnd H0.
  { exists st0. split_and!; [done| |done]. intros w Hw. by apply elem_of_nil in Hw. }
  rewrite fmap_cons in Hnd. apply NoDup_cons in Hnd as [Hw Hnd].
  set (st1 := if decide (Value w = zero_hash) then st0 else <[Slot w := Value w]> st0).
  destruct (IH st1 Hnd) as (st & E & Hh & Hf).
  { intros w' Hw'. assert (Slot w <> Slot w').
    { intros Eq. apply Hw. rewrite Eq. apply list_elem_of_fmap. eauto. }
    unfold st1. case_decide; [|rewrite lookup_insert_ne by done]; apply H0; by right. }
  exists st. split_and!.
  - cbn [for_each]. cbv [mbind M_bind]. unfold skipZero at 1. unfold st1 in E.
    case_decide; exact E.
  - apply holds_cons. split; [|done]. unfold load. rewrite Hf by done. unfold st1.
    case_decide as Hz; [|by rewrite lookup_insert_eq]. rewrite H0 by (by left). by rewrite Hz.
  - intros slot Hs. rewrite fmap_cons, not_elem_of_cons in Hs. destruct Hs as [Hne Hs].
    rewrite Hf by done. unfold st1. case_decide; [done|]. by rewrite lookup_insert_ne.
Qed.

Lemma holds_bind st {A} (g : A -> list Write) l x :
  holds_writes st (l ≫= g) -> x ∈ l -> holds_writes st (g x).
Proof. intros Hh Hx w Hw. apply Hh. apply list_elem_of_bind. eauto. Qed.

(** A grouping walk writes the group of every first component. *)
Section groups.
Context {K1 K2 A V : Type} `{EqDecision K1, !KeyOrder K1}.
Context (flush : K1 -> A -> list Write) (init : A) (add : A -> K2 -> A) (item : K1 * K2 -> list Write).

(** The second components that come with [c]. *)
Definition group_of (c : K1) (l : list (K1 * K2 * V)) : list K2 :=
  (fun e => e.1.2) <$> filter (fun e => e.1.1 = c) l.

Lemma group_of_cons c key v l :
  group_of c ((key, v) :: l) = if decide (key.1 = c) then key.2 :: group_of c l else group_of c l.
Proof. unfold group_of. rewrite filter_cons. cbn [fst snd]. by destruct (decide (key.1 = c)). Qed.

Lemma group_of_later c (l : list (K1 * K2 * V)) c0 :
  Forall (fun e => key_leb c0 e.1.1 = true) l -> key_leb c c0 = true -> c <> c0 -> group_of c l = [].
Proof.
  intros Hf Hle Hne. unfold group_of. rewrite filter_none; [done|].
  intros e He Ec. rewrite Forall_forall in Hf. specialize (Hf e He). rewrite Ec in Hf.
  by apply Hne, key_leb_antisym.
Qed.

Lemma grouped_cons key v (l : list (K1 * K2 * V)) c0 acc :
  grouped flush init add item ((key, v) :: l) (c0, acc)
  = if decide (key.1 = c0) then item key ++ grouped flush init add item l (c0, add acc key.2)
    else flush c0 acc ++ item key ++ grouped flush init add item l (key.1, add init key.2).
Proof.
  unfold grouped. cbn [run_machine].
  assert (E : group_upd flush init add item (c0, acc) key v
    = Some (if decide (key.1 = c0) then ((c0, add acc key.2), item key)
            else ((key.1, add init key.2), flush c0 acc ++ item key))).
  { unfold group_upd. cbn [fst snd]. f_equal. by repeat case_decide. }
  rewrite E. cbn [mbind option_bind].
  case_decide;
    match goal with |- context [run_machine _ l ?y] =>
      destruct (group_run_total flush init add item l y) as (x2 & ws2 & ->) end;
    cbn; by rewrite <- !app_assoc.
Qed.

Lemma grouped_items (l : list (K1 * K2 * V)) x e :
  e ∈ l -> item e.1 ⊆ grouped flush init add item l x.
Proof.
  revert x. induction l as [|[key v] l IH]; intros [c0 acc] He; [by apply elem_of_nil in He|].
  rewrite grouped_cons. apply elem_of_cons in He as [->|He]; case_decide; cbn [fst]; [set_solver..| |].
  - pose proof (IH (c0, add acc key.2) He). set_solver.
  - pose proof (IH (key.1, add init key.2) He). set_solver.
Qed.

Context (flush_init : forall c, flush c init = []).

(** A group already started is only behind a walk in order. *)
Lemma grouped_writes (l : list (K1 * K2 * V)) c0 acc c :
  StronglySorted (fun x y => key_leb x.1.1 y.1.1 = true) l ->
  (acc = init \/ Forall (fun e => key_leb c0 e.1.1 = true) l) ->
  flush c (fold_left add (group_of c l) (if decide (c = c0) then acc else init))
  ⊆ grouped flush init add item l (c0, acc).
Proof.
  revert c0 acc. induction l as [|[key v] l IH]; intros c0 acc Hs Hacc.
  { cbn. case_decide; subst; [done|]. rewrite flush_init. apply list_subseteq_nil. }
  apply StronglySorted_inv in Hs as [Hs Hle]. cbn [fst] in Hle.
  rewrite grouped_cons, group_of_cons.
  destruct (decide (key.1 = c0)) as [<-|Hne].
  - specialize (IH key.1 (add acc key.2) Hs (or_intror Hle)).
    destruct (decide (key.1 = c)) as [<-|Hc].
    + rewrite decide_True in IH |- * by done. cbn [fold_left]. set_solver.
    + rewrite decide_False in IH |- * by done. set_solver.
  - specialize (IH key.1 (add init key.2) Hs (or_intror Hle)).
    destruct (decide (key.1 = c)) as [<-|Hc].
    + rewrite decide_True in IH by done. rewrite decide_False by done. cbn [fold_left]. set_solver.
    + rewrite (decide_False (P := c = key.1)) in IH by done.
      destruct (decide (c = c0)) as [->|]; [|set_solver].
      destruct Hacc as [->|Hf]; [set_solver|].
      apply Forall_cons in Hf as [Hk _]. cbn [fst] in Hk.
      rewrite (group_of_later c0 l key.1) by done. cbn [fold_left]. set_solver.
Qed.
End groups.

Section read_back.
Context {ENV : Env}.
Implicit Types (k : KState) (st : Storage).

(** The registries whose folded name is [key], ascending. *)
Definition ids_named k (key : bytes) : list Z :=
  fst <$> filter (fun e => asciiLower (reg_Name e.2) = key) (walk (Registries k)).

(** The registries that hold a document with checksum [c], ascending. *)
Definition registries_with k (c : bytes) : list Z := group_of c (walk (RecordIdByChecksumAndRegistry k)).

Definition members_of k (role : Role) : list bytes := group_of role (walk (RBAC_RoleMembers k)).

Lemma add_names_lookup m l key :
  add_names m l !! key =
  match fst <$> filter (fun e => asciiLower (reg_Name e.2) = key) l with
  | [] => m !! key
  | ids => Some (default [] (m !! key) ++ ids)
  end.
Proof.
  revert m. induction l as [|[id r] l IH]; intros m; [done|].
  change (add_names m ((id, r) :: l)) with (add_names (<[asciiLower (reg_Name r) :=
    default [] (m !! asciiLower (reg_Name r)) ++ [id]]> m) l).
  rewrite IH, filter_cons. cbn [fst snd].
  destruct (decide (asciiLower (reg_Name r) = key)) as [->|Hne].
  - rewrite lookup_insert_eq, fmap_cons. cbn [from_option fst].
    unfold Datatypes.id. destruct (fst <$> _); [done|]. by rewrite <- app_assoc.
  - by rewrite lookup_insert_ne.
Qed.

(** What the anchoring contract, laid out by the rules of Solidity, reads from the storage
    [st] is the state [k]. *)
Record reads_back st k : Prop := {
  rb_registry : forall id r, Registries k !! id = Some r -> shows_registry st id r;
  rb_name : forall id r, Registries k !! id = Some r ->
    let key := contract_lower (reg_Name r) in
    sol_list st "registriesByName" [Key (StrKey key)]
    = Some (fst <$> filter (fun e => contract_lower (reg_Name e.2) = key) (walk (Registries k)));
  rb_record_count : forall id n, RecordsCountByRegistry k !! id = Some n ->
    sol_number st "recordCount" [Key (NumKey id)] = Some n;
  rb_record : forall id rid i r, Records k !! (id, rid, i) = Some r -> shows_record st id rid i r;
  rb_latest : forall id rid i, RecordIndices k !! (id, rid) = Some i ->
    sol_number st "latestIndex" [Key (NumKey id); Key (NumKey rid)] = Some i;
  rb_record_id : forall id c rid, RecordIdByRegistryAndChecksum k !! (id, c) = Some rid ->
    sol_number st "recordIdByChecksum" [Key (NumKey id); Key (StrKey c)] = Some rid;
  rb_header : forall p a n, k_Params k = Some p -> AccAddressFromBech32 (Admin p) = Some a ->
    RegistryCount k = Some n ->
    sol_number st "admin" [] = Some (be_value a mod 2 ^ 160) /\ sol_number st "registryCount" [] = Some n;
  rb_checksum : forall c id n, RecordIdByChecksumAndRegistry k !! (c, id) = Some n ->
    sol_list st "registriesByChecksum" [Key (StrKey c)] = Some (registries_with k c);
  rb_role_admin : forall role a, RBAC_RoleAdmins k !! role = Some a ->
    sol_number st "roleAdmin" [Key (NumKey (be_value role))] = Some (be_value a mod 2 ^ 256);
  rb_member : forall role a, member (RBAC_RoleMembers k) role a ->
    sol_number st "roleMembers" [Key (NumKey (be_value role)); Key (NumKey (be_value a))] = Some 1;
  rb_member_count : forall role a, member (RBAC_RoleMembers k) role a ->
    sol_number st "roleMemberCount" [Key (NumKey (be_value role))] = Some (Z.of_nat (length (members_of k role)))
}.

(** The state fits the types of the collections and of the contract: identifiers are
    [uint64] values, roles are hashes, accounts are no longer than a word, strings and
    lists are shorter than 2^63 and 2^64. *)
Record fits k : Prop := {
  ft_registries : map_Forall (fun id r => is_u64 id /\ registry_fits r) (Registries k);
  ft_records : map_Forall (fun key r => is_u64 key.1.1 /\ is_u64 key.1.2 /\ is_u64 key.2 /\ record_fits r) (Records k);
  ft_counts : map_Forall (fun id n => is_u64 id /\ is_u64 n) (RecordsCountByRegistry k);
  ft_latest : map_Forall (fun key n => is_u64 key.1 /\ is_u64 key.2 /\ is_u64 n) (RecordIndices k);
  ft_ids : map_Forall (fun key n => is_u64 key.1 /\ is_u64 n) (RecordIdByRegistryAndChecksum k);
  ft_byCR : map_Forall (fun key _ => is_u64 key.2) (RecordIdByChecksumAndRegistry k);
  ft_roles : map_Forall (fun role _ => length role = 32%nat) (RBAC_RoleAdmins k);
  ft_members : map_Forall (fun key _ => length key.1 = 32%nat /\ (length key.2 <= 32)%nat) (RBAC_RoleMembers k);
  ft_count : forall n, RegistryCount k = Some n -> is_u64 n;
  ft_many : Z.of_nat (size (RecordIdByChecksumAndRegistry k)) < two64 /\
            Z.of_nat (size (RBAC_RoleMembers k)) < two64 /\ Z.of_nat (size (Registries k)) < two64
}.

Lemma asciiLower_contract s : asciiLower s = contract_lower s.
Proof. unfold asciiLower, contract_lower. apply list_fmap_ext. intros _ c _. by destruct c. Qed.

Lemma be_value_zeros n b : be_value (replicate n x00 ++ b) = be_value b.
Proof.
  rewrite be_value_app. assert (be_value (replicate n x00) = 0) as ->; [|lia].
  induction n as [|n IH]; [done|]. cbn [replicate]. rewrite be_value_cons, IH. done.
Qed.

(** Cropping to [n] bytes keeps the value below 256^n. *)
Lemma be_value_crop n b :
  be_value (replicate (n - length b) x00 ++ drop (length b - n) b) = be_value b mod 256 ^ Z.of_nat n.
Proof.
  rewrite be_value_zeros. destruct (decide (length b <= n)%nat) as [Hle|Hgt].
  - replace (length b - n)%nat with 0%nat by lia. rewrite drop_0, Z.mod_small; [done|].
    pose proof (be_value_range b) as Hr. split; [lia|]. eapply Z.lt_le_trans; [apply Hr|].
    apply Z.pow_le_mono_r; lia.
  - assert (E : be_value b = be_value (drop (length b - n) b) + be_value (take (length b - n) b) * 256 ^ Z.of_nat n).
    { rewrite <- (take_drop (length b - n) b) at 1. rewrite be_value_app, length_drop.
      replace (length b - (length b - n))%nat with n by lia. lia. }
    rewrite E, Z.mod_add by lia. rewrite Z.mod_small; [done|].
    pose proof (be_value_range (drop (length b - n) b)) as Hr. rewrite length_drop in Hr.
    by replace (length b - (length b - n))%nat with n in Hr by lia.
Qed.

Lemma BytesToAddress_length b : length (BytesToAddress b) = 20%nat.
Proof. unfold BytesToAddress. rewrite length_app, length_replicate, length_drop. lia. Qed.

Lemma header_word_app a n : header_word a n = replicate 4 x00 ++ be_bytes 8 n ++ BytesToAddress a.
Proof.
  unfold header_word. rewrite go_copy_full by (by rewrite BytesToAddress_length).
  change (length (drop 12 zero_hash)) with 20%nat.
  by rewrite (take_ge (BytesToAddress a)) by (by rewrite BytesToAddress_length).
Qed.

(** The one write of an entry of a copying walk. *)
Lemma bind_write {A} st (g : A -> Write) (l : list A) x :
  holds_writes st (l ≫= fun e => [g e]) -> x ∈ l -> load st (Slot (g x)) = Value (g x).
Proof. intros Hh Hx. apply (holds_bind st _ _ x Hh Hx). by left. Qed.

Lemma group_of_length {K1 K2 V} `{EqDecision K1} (c : K1) (l : list (K1 * K2 * V)) :
  (length (group_of c l) <= length l)%nat.
Proof. unfold group_of. rewrite length_fmap. apply length_filter. Qed.

(** The first components of a walk over pairs are in order. *)
Lemma walk_pairs_sorted {K1 K2 V} `{Countable K1, !KeyOrder K1, Countable K2, !KeyOrder K2}
    (m : gmap (K1 * K2) V) : StronglySorted (fun x y => key_leb x.1.1 y.1.1 = true) (walk m).
Proof.
  rewrite <- (list_fmap_id (walk m)). eapply StronglySorted_fmap; [|apply walk_sorted].
  intros [[a b] v] [[a' b'] v']. unfold pair_rel. cbn. unfold lex_leb. cbn.
  case_decide; [subst; intros _; by destruct (key_leb_total a' a')|done].
Qed.

Lemma fold_snoc {A} (l acc : list A) : fold_left (fun acc x => acc ++ [x]) l acc = acc ++ l.
Proof.
  revert acc. induction l as [|x l IH]; intros acc; [by rewrite app_nil_r|]. cbn [fold_left].
  by rewrite IH, <- app_assoc.
Qed.

Lemma fold_count {A} (l : list A) n : 0 <= n -> n + Z.of_nat (length l) < two64 ->
  fold_left (fun n _ => wrap64 (n + 1)) l n = n + Z.of_nat (length l).
Proof.
  revert n. induction l as [|x l IH]; intros n H0 Hn; cbn [fold_left length] in *; [lia|].
  unfold wrap64 at 2. rewrite Z.mod_small by lia. rewrite IH; lia.
Qed.

Lemma elem_of_group {K1 K2 V} `{Countable K1, !KeyOrder K1, Countable K2, !KeyOrder K2}
    (m : gmap (K1 * K2) V) c x : x ∈ group_of c (walk m) <-> is_Some (m !! (c, x)).
Proof.
  unfold group_of. rewrite list_elem_of_fmap. split.
  - intros ([[a b] v] & -> & [E Hin]%list_elem_of_filter). cbn in *. subst.
    apply elem_of_walk in Hin. by eexists.
  - intros [v Hv]. exists ((c, x), v). split; [done|]. apply list_elem_of_filter. split; [done|].
    by apply elem_of_walk.
Qed.

Lemma read_names st k id r :
  fits k -> Registries k !! id = Some r ->
  (let byName := add_names ∅ (walk (Registries k)) in
   holds_writes st ((walk byName).*1 ≫= fun name =>
     idsWrites (Word SlotRegistriesByName) name (default [] (byName !! name)))) ->
  let key := asciiLower (reg_Name r) in sol_ids st (MapString key (Word SlotRegistriesByName)) = ids_named k key.
Proof.
  intros Hf Hr Hh key. cbn zeta in Hh.
  assert (Hin : id ∈ ids_named k key).
  { unfold ids_named. apply list_elem_of_fmap. exists (id, r). split; [done|].
    apply list_elem_of_filter. split; [done|]. by apply elem_of_walk. }
  assert (Hn : add_names ∅ (walk (Registries k)) !! key = Some (ids_named k key)).
  { rewrite add_names_lookup. fold (ids_named k key).
    destruct (ids_named k key); [by apply elem_of_nil in Hin|]. by rewrite lookup_empty. }
  apply (holds_bind st _ _ key) in Hh.
  2: { apply list_elem_of_fmap. exists (key, ids_named k key). split; [done|]. by apply elem_of_walk. }
  cbn beta in Hh. rewrite Hn in Hh. apply ids_read_back in Hh; [done| |].
  - apply Forall_forall. intros x (e & -> & [_ He]%list_elem_of_filter)%list_elem_of_fmap.
    destruct e as [x r']. apply elem_of_walk in He. by apply (ft_registries _ Hf) in He as [? _].
  - cbn [from_option]. unfold Datatypes.id, ids_named. rewrite length_fmap.
    pose proof (length_filter (fun e => asciiLower (reg_Name e.2) = key) (walk (Registries k))) as Hl.
    rewrite length_walk in Hl. pose proof (proj2 (proj2 (ft_many _ Hf))). lia.
Qed.

Lemma read_checksums st k c id n :
  fits k -> RecordIdByChecksumAndRegistry k !! (c, id) = Some n ->
  holds_writes st (checksums_layout k) ->
  sol_ids st (MapString c (Word SlotRegistriesByChecksum)) = registries_with k c.
Proof.
  intros Hf Hc Hh. unfold checksums_layout in Hh.
  assert (Hin : id ∈ registries_with k c) by (apply elem_of_group; by eexists).
  pose proof (grouped_writes flush_checksum [] (fun l id => l ++ [id]) (fun _ => []) (fun _ => eq_refl)
    (walk (RecordIdByChecksumAndRegistry k)) [] [] c (walk_pairs_sorted _) (or_introl eq_refl)) as Hg.
  replace (if decide (c = []) then [] else []) with (@nil Z) in Hg by (by case_decide).
  rewrite fold_snoc in Hg. cbn [app] in Hg. fold (registries_with k c) in Hg.
  apply (ids_read_back st (Word SlotRegistriesByChecksum) c (registries_with k c)).
  - apply Forall_forall. intros x [v Hv]%elem_of_group. exact (ft_byCR _ Hf _ _ Hv).
  - pose proof (group_of_length c (walk (RecordIdByChecksumAndRegistry k))) as Hl.
    rewrite length_walk in Hl. unfold registries_with. pose proof (proj1 (ft_many _ Hf)). lia.
  - intros w Hw. apply Hh, Hg. unfold flush_checksum.
    destruct (registries_with k c); [by apply elem_of_nil in Hin|done].
Qed.

Lemma read_members st k role a :
  fits k -> member (RBAC_RoleMembers k) role a -> holds_writes st (members_layout k) ->
  load st (mapHash (BytesToHash a) (mapHash role (Word SlotRoleMembers))) = Word 1 /\
  load st (mapHash role (Word SlotRoleMemberCount)) = Word (Z.of_nat (length (members_of k role))) /\
  is_u64 (Z.of_nat (length (members_of k role))).
Proof.
  intros Hf [v Hm] Hh. unfold members_layout in Hh.
  assert (Hin : a ∈ members_of k role) by (apply elem_of_group; by eexists).
  pose proof (group_of_length role (walk (RBAC_RoleMembers k))) as Hl. rewrite length_walk in Hl.
  pose proof (proj1 (proj2 (ft_many _ Hf))) as Hs. unfold members_of in *. split_and!.
  - apply (Hh (member_write (role, a))).
    apply (grouped_items _ _ _ _ (walk (RBAC_RoleMembers k)) _ ((role, a), v)); [by apply elem_of_walk|]. by left.
  - assert (Hu : is_u64 (Z.of_nat (length (group_of role (walk (RBAC_RoleMembers k)))))) by (unfold is_u64; lia).
    apply (Hh (mkWrite (mapHash role (Word SlotRoleMemberCount)) (Word _))).
    pose proof (grouped_writes flush_count 0 (fun n _ => wrap64 (n + 1)) (fun key => [member_write key])
      (fun _ => eq_refl) (walk (RBAC_RoleMembers k)) DefaultRoleAdmin 0 role (walk_pairs_sorted _)
      (or_introl eq_refl)) as Hg.
    replace (if decide (role = DefaultRoleAdmin) then 0 else 0) with 0 in Hg by (by case_decide).
    rewrite fold_count in Hg by lia. apply Hg. rewrite Z.add_0_l. unfold flush_count.
    destruct (Z.eqb_spec (Z.of_nat (length (group_of role (walk (RBAC_RoleMembers k))))) 0) as [E|]; [|by left].
    destruct (group_of role _); [by apply elem_of_nil in Hin|done].
  - unfold is_u64. lia.
Qed.

(** Slots of layout.go, spelled as the rules of the contract have them. *)
Lemma number_at st name path slot n :
  place_of anchoring_contract name path = Some (mkPlace slot 0 uint64_t) ->
  is_u64 n -> load st (slot_word slot) = Word n -> sol_number st name path = Some n.
Proof. intros Hp Hn E. unfold sol_number. rewrite Hp. by apply number_of_Word. Qed.

Lemma text_in st name path slot s :
  place_of anchoring_contract name path = Some (mkPlace slot 0 StringT) ->
  sol_string st (slot_word slot) = s -> sol_text st name path = Some s.
Proof. intros Hp E. unfold sol_text. rewrite Hp. cbn [mbind option_bind]. by rewrite text_at, E. Qed.

Lemma list_in st name path slot l :
  place_of anchoring_contract name path = Some (mkPlace slot 0 (ArrayT uint64_t)) ->
  sol_ids st (slot_word slot) = l -> sol_list st name path = Some l.
Proof. intros Hp E. unfold sol_list. rewrite Hp. cbn [mbind option_bind]. by rewrite list_of_ids, E. Qed.

Context {LAWS : EnvLaws}.

Lemma registryBase_slot id : is_u64 id ->
  registryBase id = keccak256 (key_bytes (NumKey id) ++ slot_word 4).
Proof. intros Hid. unfold registryBase. rewrite (Word_slot SlotRegistries) by done. by apply mapUint64_slot. Qed.

Lemma recordBase_slot id rid i : is_u64 id -> is_u64 rid -> is_u64 i ->
  recordBase id rid i = keccak256 (key_bytes (NumKey i) ++ slot_word (be_value
    (keccak256 (key_bytes (NumKey rid) ++ slot_word (be_value
      (keccak256 (key_bytes (NumKey id) ++ slot_word 7))))))).
Proof.
  intros Hid Hrid Hi. unfold recordBase. rewrite (Word_slot SlotRecords), mapUint64_slot by done.
  rewrite <- (hash_slot (key_bytes (NumKey id) ++ _)), mapUint64_slot by done.
  rewrite <- (hash_slot (key_bytes (NumKey rid) ++ _)), mapUint64_slot by done. done.
Qed.

(** The slots of the string fields, counted one by one from the base of the struct. *)
Ltac text_field st slot :=
  apply (text_in st _ _ slot); [reflexivity|]; rewrite <- ?Z.add_assoc; by apply string_read_back.

Lemma read_registry st id r : is_u64 id -> registry_fits r ->
  holds_writes st (registryWrites (registryBase id) r) -> shows_registry st id r.
Proof.
  intros Hid [Hrid Hs] Hw. rewrite !Forall_cons in Hs. destruct Hs as (? & ? & ? & ? & ? & _).
  rewrite registryBase_slot in Hw by done. unfold registryWrites in Hw. rewrite !holds_app, holds_cons in Hw.
  destruct Hw as ([E _] & ? & ? & ? & ? & ?). cbn [Slot Value] in E.
  set (h := keccak256 (key_bytes (NumKey id) ++ slot_word 4)) in *. set (b := be_value h).
  unfold shows_registry. split_and!.
  - apply (number_at st _ _ b); [reflexivity|done|]. rewrite <- (Z.add_0_r b). exact E.
  - text_field st (b + 1).
  - text_field st (b + 1 + 1).
  - text_field st (b + 1 + 1 + 1).
  - text_field st (b + 1 + 1 + 1 + 1).
  - text_field st (b + 1 + 1 + 1 + 1 + 1).
Qed.

Lemma read_record st id rid i r : is_u64 id -> is_u64 rid -> is_u64 i -> record_fits r ->
  holds_writes st (recordWrites (recordBase id rid i) r) -> shows_record st id rid i r.
Proof.
  intros Hid Hrid Hi [Hu Hs] Hw. rewrite !Forall_cons in Hs. rewrite !Forall_cons in Hu.
  destruct Hs as (Huri & ? & ? & ? & ? & ? & _), Hu as (Hr & Hix & Hg & _).
  rewrite recordBase_slot in Hw by done. unfold recordWrites in Hw. rewrite !holds_app, holds_cons in Hw.
  destruct Hw as (Hw0 & ? & ? & ? & ? & ? & E & _). cbn [Slot Value] in E.
  set (h := keccak256 _) in *. set (b := be_value h).
  assert (Hp : forall off size f, place_of anchoring_contract "records"
      [Key (NumKey id); Key (NumKey rid); Key (NumKey i); Field f]
      = Some (mkPlace (b + 1 + 1 + 1 + 1 + 1 + 1) off (ValueT size)) ->
    sol_number st "records" [Key (NumKey id); Key (NumKey rid); Key (NumKey i); Field f]
    = Some (packed_field (packRecord (rec_RecordId r) (rec_Index r) (rec_IsLatest r) (rec_RegistryId r)) off size)).
  { intros off size f Hf. unfold sol_number. rewrite Hf. cbn [mbind option_bind]. unfold read_value, read_slot.
    cbn [pl_type pl_slot pl_offset]. rewrite <- !Z.add_assoc. by rewrite <- E. }
  destruct (packRecord_fields (rec_RecordId r) (rec_Index r) (rec_IsLatest r) (rec_RegistryId r))
    as (F1 & F2 & F3 & F4); [done..|].
  unfold shows_record. split_and!.
  - apply (text_in st _ _ b); [reflexivity|]. rewrite <- (Z.add_0_r b). by apply string_read_back.
  - text_field st (b + 1).
  - text_field st (b + 1 + 1).
  - text_field st (b + 1 + 1 + 1).
  - text_field st (b + 1 + 1 + 1 + 1).
  - text_field st (b + 1 + 1 + 1 + 1 + 1).
  - rewrite (Hp 0%nat 8%nat) by reflexivity. by rewrite F1.
  - rewrite (Hp 8%nat 8%nat) by reflexivity. by rewrite F2.
  - rewrite (Hp 16%nat 1%nat) by reflexivity. f_equal. rewrite packRecord_app.
    destruct (packed_fields (replicate 7 x00) (be_bytes 8 (rec_RegistryId r))
      [if rec_IsLatest r then x01 else x00] (be_bytes 8 (rec_Index r)) (be_bytes 8 (rec_RecordId r)))
      as (_ & _ & -> & _); rewrite ?be_bytes_length; [done..|]. by destruct (rec_IsLatest r).
  - rewrite (Hp 17%nat 8%nat) by reflexivity. by rewrite F4.
Qed.

(** A number under one key, a number or a hash, and under two keys. *)
Lemma number_under st name slot path key :
  member_place anchoring_contract 0 0 name = Some (mkPlace slot 0 (MappingT uint64_t)) ->
  path = [Key key] -> forall n, is_u64 n ->
  load st (keccak256 (key_bytes key ++ slot_word slot)) = Word n -> sol_number st name path = Some n.
Proof.
  intros Hm -> n Hn E. eapply number_at; [|exact Hn|].
  - unfold place_of. rewrite Hm. reflexivity.
  - cbn [pl_slot]. by rewrite hash_slot.
Qed.

Lemma number_under2 st name slot t (q1 q2 : SolKey) :
  member_place anchoring_contract 0 0 name = Some (mkPlace slot 0 (MappingT (MappingT t))) ->
  place_of anchoring_contract name [Key q1; Key q2]
  = Some (mkPlace (be_value (keccak256 (key_bytes q2 ++ keccak256 (key_bytes q1 ++ slot_word slot)))) 0 t).
Proof. intros Hm. unfold place_of. rewrite Hm. cbn [mbind option_bind follow_all follow pl_type pl_slot]. by rewrite hash_slot. Qed.

Lemma read_list st name slot key l :
  member_place anchoring_contract 0 0 name = Some (mkPlace slot 0 (MappingT (ArrayT uint64_t))) ->
  is_u64 slot -> sol_ids st (MapString key (Word slot)) = l ->
  sol_list st name [Key (StrKey key)] = Some l.
Proof.
  intros Hm Hs E. eapply list_in.
  - unfold place_of. rewrite Hm. reflexivity.
  - cbn [pl_slot]. rewrite hash_slot. rewrite (Word_slot slot) in E by done. exact E.
Qed.

Lemma layout_reads_back st k ws :
  fits k -> migratable k -> layout k = Some ws -> holds_writes st ws -> reads_back st k.
Proof.
  intros Hf [(n & Hc & Hn & Hd) (p & a & Hp & Ha)] Hl Hh.
  assert (Hu : is_u64 n) by (by apply (ft_count _ Hf)).
  unfold layout, header_layout in Hl. rewrite (registries_layout_dense k n) in Hl by (done || apply Hu).
  rewrite Hp in Hl. cbn [mbind option_bind] in Hl. rewrite Ha in Hl. cbn [mbind option_bind] in Hl.
  rewrite Hc in Hl. cbn [mbind option_bind] in Hl. injection Hl as <-.
  rewrite !holds_app in Hh. destruct Hh as ([H1 H2] & H3 & H4 & H5 & H6 & Hh).
  apply holds_cons in Hh as [H7 Hh]. rewrite !holds_app in Hh. destruct Hh as (H8 & H9 & H10).
  cbn [Slot Value] in H7. split.
  - intros id r Hr. destruct (ft_registries _ Hf _ _ Hr) as [? ?]. apply read_registry; [done..|].
    apply (holds_bind st _ _ (id, r) H1). by apply elem_of_walk.
  - intros id r Hr key. apply (read_list st _ 10); [reflexivity|done|].
    pose proof (read_names st k id r Hf Hr H2) as E. cbv zeta in E. rewrite asciiLower_contract in E.
    change SlotRegistriesByName with 10 in E. fold key in E. rewrite E. unfold ids_named.
    f_equal. apply filter_ext_in. intros e _. by rewrite asciiLower_contract.
  - intros id m Hm. destruct (ft_counts _ Hf _ _ Hm) as [? ?].
    apply (number_under st _ 5 _ (NumKey id)); [reflexivity..|done|].
    rewrite <- mapUint64_slot, <- (Word_slot 5) by done.
    apply (bind_write st _ _ (id, m) H3). by apply elem_of_walk.
  - intros id rid i r Hr. destruct (ft_records _ Hf _ _ Hr) as (? & ? & ? & ?). apply read_record; [done..|].
    apply (holds_bind st _ _ ((id, rid, i), r) H4). by apply elem_of_walk.
  - intros id rid i Hi. destruct (ft_latest _ Hf _ _ Hi) as (? & ? & ?).
    eapply number_at; [by apply (number_under2 st _ 6)|done|]. rewrite hash_slot.
    rewrite <- (mapUint64_slot id), <- (Word_slot 6) by done.
    pose proof (bind_write st _ _ ((id, rid), i) H5 ltac:(by apply elem_of_walk)) as E. cbn [Slot Value fst snd] in E.
    unfold mapUint64 at 1 in E. rewrite (Word_slot rid) in E by done. exact E.
  - intros id c rid Hi. destruct (ft_ids _ Hf _ _ Hi) as [? ?].
    eapply number_at; [by apply (number_under2 st _ 8)|done|]. rewrite hash_slot.
    rewrite <- (mapUint64_slot id), <- (Word_slot 8) by done.
    apply (bind_write st _ _ ((id, c), rid) H6). by apply elem_of_walk.
  - intros p' a' n' Hp' Ha' Hc'.
    assert (p' = p) as -> by congruence. assert (a' = a) as -> by congruence. assert (n' = n) as -> by congruence.
    change (Word SlotHeader) with (slot_word 3) in H7. rewrite header_word_app in H7.
    unfold sol_number, read_value, read_slot. cbn [place_of]. split.
    + change (place_of anchoring_contract "admin" []) with (Some (mkPlace 3 0 address_t)).
      cbn [mbind option_bind pl_type pl_slot pl_offset address_t]. rewrite H7, app_assoc, <- (app_nil_r (BytesToAddress a)).
      rewrite packed_field_app by (done || apply BytesToAddress_length). f_equal. apply (be_value_crop 20).
    + change (place_of anchoring_contract "registryCount" []) with (Some (mkPlace 3 20 uint64_t)).
      cbn [mbind option_bind pl_type pl_slot pl_offset uint64_t]. rewrite H7.
      rewrite packed_field_app by (done || apply BytesToAddress_length). by rewrite be_value_u64.
  - intros c id m Hm. apply (read_list st _ 9); [reflexivity|done|]. by apply (read_checksums st k c id m).
  - intros role adm Hr. pose proof (ft_roles _ Hf _ _ Hr) as Hlen. cbn beta in Hlen.
    pose proof (bind_write st _ _ (role, adm) H9 ltac:(by apply elem_of_walk)) as E. cbn [Slot Value fst snd] in E.
    change (Word SlotRoleAdmin) with (slot_word 0) in E. rewrite mapHash_slot in E by done.
    unfold sol_number.
    change (place_of anchoring_contract "roleAdmin" [Key (NumKey (be_value role))])
      with (Some (mkPlace (be_value (keccak256 (key_bytes (NumKey (be_value role)) ++ slot_word 0))) 0 bytes32_t)).
    cbn [mbind option_bind]. rewrite (word_of_bytes32 _ _ (BytesToHash adm)); [f_equal; apply (be_value_crop 32)| |by rewrite hash_slot].
    unfold BytesToHash. rewrite length_app, length_replicate, length_drop. lia.
  - intros role x Hm. destruct (read_members st k role x Hf Hm H10) as (E & _).
    destruct Hm as [v Hv]. destruct (ft_members _ Hf _ _ Hv) as [Hlr Hlx]. cbn [fst snd] in Hlr, Hlx.
    change (Word SlotRoleMembers) with (slot_word 1) in E. rewrite (mapHash_slot role) in E by done.
    unfold sol_number. rewrite (number_under2 st _ 1 bool_t) by reflexivity. cbn [mbind option_bind].
    unfold read_value, read_slot. cbn [pl_type pl_slot pl_offset bool_t]. rewrite hash_slot.
    unfold mapHash in E. assert (key_bytes (NumKey (be_value x)) = BytesToHash x) as ->.
    { unfold key_bytes, BytesToHash. replace (length x - 32)%nat with 0%nat by lia. rewrite drop_0.
      trans (slot_word (be_value (replicate (32 - length x) x00 ++ x))); [by rewrite be_value_zeros|].
      apply slot_word_value. rewrite length_app, length_replicate. lia. }
    rewrite E. done.
  - intros role x Hm. destruct (read_members st k role x Hf Hm H10) as (_ & E & Hu').
    destruct Hm as [v Hv]. destruct (ft_members _ Hf _ _ Hv) as [Hlr _]. cbn [fst snd] in Hlr.
    change (Word SlotRoleMemberCount) with (slot_word 2) in E. rewrite (mapHash_slot role) in E by done.
    by apply (number_under st _ 2 _ (NumKey (be_value role))).
Qed.
End read_back.

(** ** Properties *)

Section properties.
Context {ENV : Env}.

(** No two writes of the migration go to the same slot. *)
Definition slots_distinct (k : KState) : Prop :=
  match layout k with Some ws => NoDup (Slot <$> ws) | None => False end.

(** outcome of a migration.  For any sink, a state whose registry ids run
    from 1 to the registry count and whose administrator decodes is handed over
    slot by slot in a fixed order, zero words left out, up to the sink's first
    error, which comes back wrapped; any other state is refused with an error. *)
Theorem migrate_outcome {S : Type} (k : KState) (sink : Write -> M S unit) (s : S) :
  map_Forall (fun id _ => is_u64 id) (Registries k) ->
  (migratable k -> exists ws, layout k = Some ws /\ handed_over (skipZero sink) ws s (Migrate k sink s)) /\
  (~ migratable k -> exists e s', Migrate k sink s = (Err e, s')).
Proof.
  intros Hu. pose proof (Migrate_layout k sink s) as Hm. rewrite (migratable_layout k Hu). split.
  - intros [ws E]. rewrite E in Hm. eauto.
  - intros Hn. destruct (layout k); [|exact Hm]. destruct Hn. by eexists.
Qed.

(** C15: the migrated storage is the module's state.  For a state that fits the types and
    on which the hashed slots do not collide (no two writes share a slot), migrating into
    empty storage succeeds, and the anchoring contract, its variables laid out by the
    rules of Solidity and not by the code's slot functions, reads from it every field of
    every registry and record, the counters, both checksum lookups, the name index, the
    header, and the roles with their member counts. *)
Theorem migrated_storage_reads_back {LAWS : EnvLaws} (k : KState) :
  fits k -> migratable k -> slots_distinct k ->
  exists st, Migrate k store_sink ∅ = (Ok tt, st) /\ reads_back st k.
Proof.
  intros Hf Hm Hd. pose proof (Migrate_layout k store_sink ∅) as Ho. unfold slots_distinct in Hd.
  destruct (layout k) as [ws|] eqn:El; [|done].
  destruct (stored_writes ws ∅ Hd) as (st & E & Hh & _); [by intros; rewrite lookup_empty|].
  exists st. unfold handed_over in Ho. rewrite E in Ho. split; [done|]. by apply (layout_reads_back st k ws).
Qed.

(** C39: every state the module reaches can be migrated.  From a valid genesis and
    along any trace of messages, the migration never refuses: with a sink that
    accepts every slot it succeeds. *)
Theorem reachable_state_migrates {LAWS : EnvLaws} {S : Type} (p : Params) (txs : list (Ctx * Msg))
    (sink : Write -> M S unit) (s : S) :
  good_trace p txs -> Params_Validate p = Ok tt ->
  (forall w s, (sink w s).1 = Ok tt) ->
  (Migrate (deliver_all txs (genesis_store p)) sink s).1 = Ok tt.
Proof.
  intros Hg Hp Hs. set (k := deliver_all txs (genesis_store p)).
  pose proof (consistent_reachable p txs Hg) as Hc. fold k in Hc.
  assert (Hk : checked k) by (apply checked_trace, checked_empty; done).
  destruct (cs_count _ Hc) as (n & Hn & H0 & Hd). destruct (cs_params _ Hc) as [q Hq].
  assert (Hm : migratable k).
  { split; [eauto|]. pose proof (ck_params _ Hk q Hq) as Hv.
    unfold Params_Validate, ValidateAdminAddress, check_address in Hv. run_unfold.
    destruct (is_empty (Admin q)); [done|]. destruct (AccAddressFromBech32 (Admin q)) eqn:Ea; [|done]. eauto. }
  assert (Hb : n < two64).
  { destruct (reachable_ledger p txs Hg) as (_ & HR & HW). pose proof (wf_regs _ _ HW) as Hw.
    fold k in HR. rewrite (R_count _ _ _ HR) in Hn. injection Hn as <-. destruct Hg as [_ Hl]. lia. }
  assert (Hu : map_Forall (fun id _ => is_u64 id) (Registries k)).
  { intros id r Hr. assert (1 <= id <= n) by (apply Hd; by eexists). unfold is_u64. lia. }
  pose proof (Migrate_layout k sink s) as Ho. apply (migratable_layout k Hu) in Hm as [ws El].
  rewrite El in Ho. unfold handed_over in Ho.
  destruct (for_each (skipZero sink) ws s) as [[[]|e] s'] eqn:Ef; [by rewrite Ho|].
  exfalso. clear -Hs Ef. revert s Ef. induction ws as [|w ws IH]; intros s; cbn [for_each]; [done|].
  cbv [mbind M_bind]. unfold skipZero at 1. specialize (Hs w s).
  case_decide; [apply IH|]. destruct (sink w s) as [[[]|] s1]; [apply IH|done].
Qed.
End properties.

(** ** The store of the concrete trace *)

#[export] Instance slots_distinct_dec {ENV : Env} k : Decision (slots_distinct k).
Proof. unfold slots_distinct. destruct (layout k); apply _. Defined.

Lemma demo_fits : fits Demo.store.
Proof.
  split; try by_eval. intros n Hn. assert (RegistryCount Demo.store = Some 1) as E by by_eval.
  rewrite E in Hn. injection Hn as <-. by_eval.
Qed.

Lemma demo_migratable : migratable Demo.store.
Proof.
  split.
  - exact (cs_count _ (consistent_reachable Demo.params Demo.trace demo_good)).
  - exists Demo.params, Demo.carol. split; by_eval.
Qed.

Lemma migrate_outcome_witness :
  exists ws, layout Demo.store = Some ws /\
    handed_over (skipZero store_sink) ws ∅ (Migrate Demo.store store_sink ∅).
Proof.
  refine (proj1 (migrate_outcome Demo.store store_sink ∅ _) demo_migratable).
  intros id r Hr. apply (ft_registries _ demo_fits _ _ Hr).
Defined.

Lemma migrated_storage_reads_back_witness :
  slots_distinct Demo.store /\
  exists st, Migrate Demo.store store_sink ∅ = (Ok tt, st) /\ reads_back st Demo.store.
Proof.
  assert (Hd : slots_distinct Demo.store) by by_eval.
  split; [exact Hd|].
  exact (migrated_storage_reads_back Demo.store demo_fits demo_migratable Hd).
Defined.

Lemma reachable_state_migrates_witness :
  (Migrate (deliver_all Demo.trace (genesis_store Demo.params)) store_sink ∅).1 = Ok tt.
Proof.
  apply (reachable_state_migrates Demo.params Demo.trace store_sink ∅ demo_good); [|done].
  vm_compute. reflexivity.
Defined.
