(* ===== verification/EvmDump.v ===== *)
(** The storage dump: src/x/anchoring/evmlayout/dump.go.

    [Put] buffers slots and writes a block when the buffer is full, [Close] writes
    the last block.  The theorem reads the file back with a parser of the format
    the comments of dump.go describe. *)

From S2P Require Import Prelude Types EvmLayout.

Definition dumpMagic : bytes := bs "TEMPOSB" ++ [x00].
Definition dumpVersion : Z := 1.
Definition dumpHeader : nat := 40.
Definition dumpPair : Z := 2 * 32.
Definition DumpBlockPairs : Z := Z.shiftl 1 20.

(** The account the dump is for: 0x...0a00. *)
Definition Address : bytes := replicate 18 x00 ++ [x0a; x00].

Record Dump := mkDump { d_address : bytes; pending : bytes }.

Definition NewDump (address : bytes) : Dump := mkDump address [].

(** [copy(h[off:off+len(b)], b)] and the [binary.BigEndian] puts. *)
Definition patch (h : bytes) (off : nat) (b : bytes) : bytes :=
  take off h ++ b ++ drop (off + length b) h.

(** The header of a block of [pairs] pairs; bytes 10 and 11, the flags, stay zero. *)
Definition dump_header (address : bytes) (pairs : Z) : bytes :=
  let header := replicate dumpHeader x00 in
  let header := patch header 0 dumpMagic in
  let header := patch header 8 (be_bytes 2 dumpVersion) in
  let header := patch header 12 address in
  patch header 32 (be_bytes 8 pairs).

Section dump.
(** [io.Writer]: the writer the caller passes, with its state. *)
Context {W : Type} (write : bytes -> M W unit).

Definition write_out (b : bytes) : M (Dump * W) unit := zoom snd (fun w s => (s.1, w)) (write b).

Definition set_pending (b : bytes) : M (Dump * W) unit :=
  modify (fun s => (mkDump (d_address s.1) b, s.2)).

Definition flush : M (Dump * W) unit :=
  d ← gets fst;
  match pending d with
  | [] => mret tt
  | _ =>
      _ ← write_out (dump_header (d_address d) (blen (pending d) / dumpPair));
      _ ← write_out (pending d);
      set_pending []
  end.

Definition Put (w : Write) : M (Dump * W) unit :=
  d ← gets fst;
  let p := pending d ++ Slot w ++ Value w in
  _ ← set_pending p;
  if blen p =? DumpBlockPairs * dumpPair then flush else mret tt.

Definition Close : M (Dump * W) unit := flush.
End dump.

(** ** Reading a dump *)

(** A writer that keeps everything. *)
Definition append_writer (b : bytes) : M bytes unit := modify (fun w => w ++ b).

Fixpoint parse_pairs (n : nat) (b : bytes) : list Write :=
  match n with
  | O => []
  | S n' => mkWrite (take 32 b) (take 32 (drop 32 b)) :: parse_pairs n' (drop 64 b)
  end.

(** One block: magic, version 1, flags 0, the account and the pairs. *)
Definition parse_block (file : bytes) : option ((bytes * list Write) * bytes) :=
  let n := be_value (take 8 (drop 32 file)) in
  let body := drop 40 file in
  if decide (take 8 file = dumpMagic) then
    if be_value (take 2 (drop 8 file)) =? 1 then
      if be_value (take 2 (drop 10 file)) =? 0 then
        if 64 * n <=? blen body then
          Some ((take 20 (drop 12 file), parse_pairs (Z.to_nat n) body), drop (Z.to_nat (64 * n)) body)
        else None
      else None
    else None
  else None.

Fixpoint parse_dump (fuel : nat) (file : bytes) : option (list (bytes * list Write)) :=
  match file, fuel with
  | [], _ => Some []
  | _, O => None
  | _, S fuel' =>
      '(block, rest) ← parse_block file;
      blocks ← parse_dump fuel' rest;
      Some (block :: blocks)
  end.

Definition sized (w : Write) : Prop := length (Slot w) = 32%nat /\ length (Value w) = 32%nat.

#[export] Instance sized_dec w : Decision (sized w).
Proof. unfold sized. apply _. Defined.

(** The bytes of a list of pairs and of a block. *)
Definition pair_bytes (ws : list Write) : bytes := ws ≫= fun w => Slot w ++ Value w.
Definition block_bytes (address : bytes) (ws : list Write) : bytes :=
  dump_header address (Z.of_nat (length ws)) ++ pair_bytes ws.

Lemma pair_bytes_cons w ws : pair_bytes (w :: ws) = (Slot w ++ Value w) ++ pair_bytes ws.
Proof. done. Qed.

Lemma pair_bytes_app ws ws' : pair_bytes (ws ++ ws') = pair_bytes ws ++ pair_bytes ws'.
Proof. apply bind_app. Qed.

Lemma pair_bytes_length ws : Forall sized ws -> length (pair_bytes ws) = (64 * length ws)%nat.
Proof.
  induction 1 as [|w ws [H1 H2] Hws IH]; [done|]. rewrite pair_bytes_cons, !length_app, IH, H1, H2.
  cbn [length]. lia.
Qed.

Lemma parse_pair_bytes ws more : Forall sized ws ->
  parse_pairs (length ws) (pair_bytes ws ++ more) = ws.
Proof.
  induction 1 as [|w ws [H1 H2] Hws IH]; [done|]. cbn [length parse_pairs].
  change (pair_bytes (w :: ws)) with ((Slot w ++ Value w) ++ pair_bytes ws).
  rewrite <- !app_assoc. f_equal.
  - rewrite take_app_length', drop_app_length', take_app_length' by done. by destruct w.
  - rewrite app_assoc, drop_app_length'; [done|]. rewrite length_app. lia.
Qed.

Lemma dump_header_app address n : length address = 20%nat ->
  dump_header address n = dumpMagic ++ be_bytes 2 1 ++ [x00; x00] ++ address ++ be_bytes 8 n.
Proof.
  intros Ha. unfold dump_header, patch. pose proof (be_bytes_length 8 n) as Hn.
  generalize dependent (be_bytes 8 n). intros b Hn.
  do 21 (destruct address as [|? address]; try discriminate Ha).
  do 9 (destruct b as [|? b]; try discriminate Hn). reflexivity.
Qed.

Lemma parse_block_bytes address ws more :
  length address = 20%nat -> Forall sized ws -> Z.of_nat (length ws) < two64 ->
  parse_block (block_bytes address ws ++ more) = Some ((address, ws), more).
Proof.
  intros Ha Hws Hn. unfold block_bytes. rewrite <- app_assoc, dump_header_app by done.
  pose proof (be_bytes_length 8 (Z.of_nat (length ws))) as Hb.
  assert (Hv : be_value (be_bytes 8 (Z.of_nat (length ws))) = Z.of_nat (length ws))
    by (apply be_value_u64; unfold is_u64; lia).
  generalize dependent (be_bytes 8 (Z.of_nat (length ws))). intros b Hb Hv.
  pose proof (pair_bytes_length ws Hws) as Hl.
  assert (E : forall body, parse_block ((dumpMagic ++ be_bytes 2 1 ++ [x00; x00] ++ address ++ b) ++ body)
    = if 64 * be_value b <=? blen body
      then Some ((address, parse_pairs (Z.to_nat (be_value b)) body), drop (Z.to_nat (64 * be_value b)) body)
      else None).
  { intros body. do 21 (destruct address as [|? address]; try discriminate Ha).
    do 9 (destruct b as [|? b]; try discriminate Hb). reflexivity. }
  rewrite E, Hv. unfold blen. rewrite length_app, Hl.
  rewrite (proj2 (Z.leb_le _ _)) by lia. rewrite Nat2Z.id, parse_pair_bytes by done.
  rewrite drop_app_length'; [done|]. lia.
Qed.

(** ** Writing a dump *)

(** The blocks already written and the pairs still pending. *)
Record dumped (address : bytes) (done rest : list Write) (blocks : list (list Write))
    (st : Dump * bytes) : Prop := {
  dp_split : done = concat blocks ++ rest;
  dp_address : d_address st.1 = address;
  dp_pending : pending st.1 = pair_bytes rest;
  dp_file : st.2 = blocks ≫= block_bytes address;
  dp_full : Forall (fun b => Z.of_nat (length b) = DumpBlockPairs) blocks;
  dp_room : Z.of_nat (length rest) < DumpBlockPairs
}.

(** [flush] writes the pending pairs as one block. *)
Lemma flush_block d file ws : Forall sized ws -> ws <> [] -> pending d = pair_bytes ws ->
  flush append_writer (d, file) = (Ok tt, (mkDump (d_address d) [], file ++ block_bytes (d_address d) ws)).
Proof.
  intros Hs Hne Hp. unfold flush, write_out, set_pending, append_writer. run_unfold. cbn [fst snd].
  pose proof (pair_bytes_length ws Hs) as Hl.
  destruct (pending d) as [|b bs'] eqn:Ep.
  { rewrite <- Hp in Hl. destruct ws; [done|]. cbn [length] in Hl. lia. }
  rewrite Hp. unfold block_bytes, blen, dumpPair. rewrite Hl.
  replace (Z.of_nat (64 * length ws) / (2 * 32)) with (Z.of_nat (length ws))
    by (rewrite Nat2Z.inj_mul, Z.mul_comm, Z.div_mul; done).
  by rewrite app_assoc.
Qed.

Lemma Put_dumped address done rest blocks st w :
  Forall sized (rest ++ [w]) -> dumped address done rest blocks st ->
  exists rest' blocks' st', Put append_writer w st = (Ok tt, st') /\
    dumped address (done ++ [w]) rest' blocks' st' /\ Forall sized rest'.
Proof.
  intros Hs [Hd Ha Hp Hf Hfull Hroom]. destruct st as [d file]. cbn [fst snd] in *.
  assert (Hpw : pending d ++ Slot w ++ Value w = pair_bytes (rest ++ [w])).
  { rewrite pair_bytes_app, Hp. unfold pair_bytes. cbn [mbind list_bind]. by rewrite app_nil_r. }
  assert (Hl : blen (pair_bytes (rest ++ [w])) = 64 * (Z.of_nat (length rest) + 1)).
  { unfold blen. rewrite pair_bytes_length, length_app by done. cbn [length]. lia. }
  unfold Put, set_pending. run_unfold. cbn [fst snd]. rewrite Hpw, Hl. unfold dumpPair.
  destruct (Z.eqb_spec (64 * (Z.of_nat (length rest) + 1)) (DumpBlockPairs * (2 * 32))) as [E|E].
  - rewrite (flush_block _ _ (rest ++ [w])) by (done || by destruct rest). cbn [d_address].
    exists [], (blocks ++ [rest ++ [w]]). eexists. split; [done|]. split; [|constructor].
    split; cbn [fst snd pending d_address]; [|done|done|..].
    + rewrite concat_app, Hd. cbn [concat]. by rewrite !app_nil_r, app_assoc.
    + rewrite bind_app, Hf, Ha. cbn [mbind list_bind]. by rewrite app_nil_r.
    + apply Forall_app. split; [done|]. constructor; [|constructor].
      rewrite length_app. cbn [length]. lia.
    + done.
  - exists (rest ++ [w]), blocks. eexists. split; [done|]. split; [|done].
    split; cbn [fst snd pending d_address]; try done.
    + rewrite Hd. by rewrite app_assoc.
    + rewrite length_app. cbn [length]. lia.
Qed.

Lemma Puts_dumped address ws done rest blocks st :
  Forall sized (rest ++ ws) -> dumped address done rest blocks st ->
  exists rest' blocks' st', for_each (Put append_writer) ws st = (Ok tt, st') /\
    dumped address (done ++ ws) rest' blocks' st' /\ Forall sized rest'.
Proof.
  revert done rest blocks st. induction ws as [|w ws IH]; intros done rest blocks st Hs Hd.
  { exists rest, blocks, st. rewrite !app_nil_r in *. done. }
  rewrite (app_assoc rest [w] ws : rest ++ w :: ws = _) in Hs.
  pose proof Hs as [Hs1 Hs2]%Forall_app.
  destruct (Put_dumped address done rest blocks st w Hs1 Hd) as (r1 & b1 & s1 & E & Hd1 & Hr1).
  destruct (IH (done ++ [w]) r1 b1 s1) as (r2 & b2 & s2 & E2 & Hd2 & Hr2); [by apply Forall_app|done|].
  exists r2, b2, s2. split; [|split; [|done]].
  - cbn [for_each]. cbv [mbind M_bind]. by rewrite E.
  - by rewrite <- app_assoc in Hd2.
Qed.

Lemma parse_dump_blocks address blocks fuel :
  length address = 20%nat ->
  Forall (fun b => Forall sized b /\ Z.of_nat (length b) < two64) blocks ->
  (length blocks <= fuel)%nat ->
  parse_dump fuel (blocks ≫= block_bytes address) = Some ((fun b => (address, b)) <$> blocks).
Proof.
  intros Ha. revert fuel. induction blocks as [|b blocks IH]; intros fuel Hb Hf; [by destruct fuel|].
  apply Forall_cons in Hb as [[Hs Hn] Hb]. destruct fuel as [|fuel]; [cbn in Hf; lia|].
  change ((b :: blocks) ≫= block_bytes address) with (block_bytes address b ++ (blocks ≫= block_bytes address)).
  assert (Hne : exists c l, block_bytes address b ++ (blocks ≫= block_bytes address) = c :: l).
  { unfold block_bytes at 1. rewrite dump_header_app by done. unfold dumpMagic. cbn. eauto. }
  destruct Hne as (c & l & E). cbn [parse_dump]. rewrite E, <- E.
  rewrite parse_block_bytes by done. cbn [mbind option_bind].
  rewrite IH; [done|done|]. cbn in Hf. lia.
Qed.

(** Each block takes at least one byte of the file. *)
Lemma blocks_fuel address (blocks : list (list Write)) : length address = 20%nat ->
  (length blocks <= length (blocks ≫= block_bytes address))%nat.
Proof.
  intros Ha. induction blocks as [|b blocks IH]; [done|].
  change ((b :: blocks) ≫= block_bytes address) with (block_bytes address b ++ (blocks ≫= block_bytes address)).
  unfold block_bytes at 1. rewrite dump_header_app by done. rewrite !length_app. cbn [length dumpMagic]. cbn. lia.
Qed.

(** a dump reads back.  Whatever slots are put, in whatever number, closing
    the dump leaves a file that parses as blocks of at most 2^20 pairs and never
    an empty one, all under the dump's account, whose pairs in order are the slots
    that were put; nothing stays pending. *)
Theorem dump_reads_back (address : bytes) (ws : list Write) :
  length address = 20%nat -> Forall sized ws ->
  exists file blocks,
    (_ ← for_each (Put append_writer) ws; Close append_writer) (NewDump address, [])
      = (Ok tt, (NewDump address, file)) /\
    parse_dump (length file) file = Some blocks /\
    concat blocks.*2 = ws /\
    Forall (fun b => b.1 = address /\ 1 <= Z.of_nat (length b.2) <= DumpBlockPairs) blocks.
Proof.
  intros Ha Hs.
  destruct (Puts_dumped address ws [] [] [] (NewDump address, [])) as (rest & blocks & [d file] & E & Hd & Hr);
    [done|by split|].
  destruct Hd as [Hc Hda Hp Hf Hfull Hroom]. cbn [app fst snd] in *.
  assert (HB : forall n : nat, Z.of_nat n <= DumpBlockPairs -> Z.of_nat n < two64)
    by (intros n Hn; change DumpBlockPairs with (2 ^ 20) in Hn; unfold two64; lia).
  set (blocks' := blocks ++ match rest with [] => [] | _ => [rest] end).
  assert (Hall : Forall (fun b => Forall sized b /\ 1 <= Z.of_nat (length b) <= DumpBlockPairs) blocks').
  { rewrite Hc in Hs. apply Forall_app in Hs as [Hs _]. apply Forall_app. split.
    - apply Forall_forall. intros b Hb. split.
      + apply Forall_forall. intros w Hw. rewrite Forall_forall in Hs. apply Hs. apply list_elem_of_In, in_concat.
        exists b. by rewrite <- !list_elem_of_In.
      + rewrite Forall_forall in Hfull. rewrite (Hfull b Hb). done.
    - destruct rest; [constructor|]. constructor; [|constructor]. split; [done|]. cbn [length] in *. lia. }
  exists (blocks' ≫= block_bytes address), ((fun b => (address, b)) <$> blocks').
  split; [|split; [|split]].
  - cbv [mbind M_bind]. rewrite E. unfold Close, blocks'. destruct rest as [|w rest].
    + rewrite app_nil_r. unfold flush. run_unfold. cbn [fst snd]. rewrite Hp, <- Hf.
      destruct d as [da dp]. cbn in *. by subst.
    + rewrite (flush_block _ _ (w :: rest)) by done. rewrite Hda, bind_app, Hf. cbn [mbind list_bind].
      by rewrite app_nil_r.
  - apply parse_dump_blocks; [done| |by apply blocks_fuel].
    eapply Forall_impl; [exact Hall|]. intros b [? ?]. split; [done|]. apply HB. lia.
  - rewrite <- list_fmap_compose. rewrite Hc. unfold blocks'.
    replace (snd ∘ (fun b : list Write => (address, b)) <$> _) with blocks' by (symmetry; apply list_fmap_id).
    unfold blocks'. rewrite concat_app. f_equal. destruct rest; [done|]. cbn. by rewrite app_nil_r.
  - apply Forall_fmap. eapply Forall_impl; [exact Hall|]. by intros b [? ?].
Qed.

Lemma dump_reads_back_witness :
  let ws := [mkWrite (Word 3) (Word 1); mkWrite (Word 4) (Word 2)] in
  exists file blocks,
    (_ ← for_each (Put append_writer) ws; Close append_writer) (NewDump Address, [])
      = (Ok tt, (NewDump Address, file)) /\
    parse_dump (length file) file = Some blocks /\ concat blocks.*2 = ws.
Proof.
  destruct (dump_reads_back Address [mkWrite (Word 3) (Word 1); mkWrite (Word 4) (Word 2)])
    as (file & blocks & H1 & H2 & H3 & _); [done|by_eval|]. exists file, blocks. done.
Defined.
