(* ===== verification/Abi.v ===== *)
(** Tuples in the Solidity ABI: the shape of the generated encoders and decoders
    of src/x/anchoring/precompile/anchoring.abi.go and src/precompiles/common.abi.go.

    A tuple has one 32-byte head per field, the value of a static field or the
    offset of a dynamic one, and the dynamic fields follow in order.  The encoders
    write heads and data into a buffer of the size computed beforehand; the
    decoders accept only offsets in that order.  The codecs of the elementary
    types are functions of the library github.com/yihuang/go-abi and are
    parameters here.  The lemmas compose codecs: a tuple of lawful codecs is
    lawful. *)

From S2P Require Import Prelude Types EvmLayout.

(** ** Codecs *)

(** The three functions the generated code has for a type: [EncodedSize],
    [EncodeTo] and [Decode].  [EncodeTo] returns the buffer it leaves and the
    number of bytes it used. *)
Record Codec (A : Type) := mkCodec {
  c_Size : A -> Z;
  c_EncodeTo : A -> bytes -> result (bytes * Z);
  c_Decode : bytes -> result (A * Z)
}.
Arguments mkCodec {_} _ _ _.
Arguments c_Size {_} _ _.
Arguments c_EncodeTo {_} _ _ _.
Arguments c_Decode {_} _ _.

(** The elementary codecs of go-abi that the generated code calls; [DecodeSize],
    which reads a length or an offset; [Encode] of the empty tuple; and
    [EncodeEvent], which takes the topics and the data its argument's methods
    [EncodeTopics] and [Encode] return. *)
Class AbiLib := {
  string_c : Codec bytes;
  bytes_c : Codec bytes;
  uint64_c : Codec Z;
  uint8_c : Codec Z;
  bool_c : Codec bool;
  address_c : Codec bytes;
  DecodeSize : bytes -> result Z;
  EmptyTuple_Encode : result bytes;
  EncodeEvent : result (list bytes) -> result bytes -> result (list bytes * bytes)
}.

(** What a codec promises for the values [c_ok]: an encoding of the announced size,
    written over a zeroed buffer, that decodes to the value whatever follows; and
    on any input the decoder stays in bounds. *)
Class Lawful {A} (c : Codec A) := {
  c_ok : A -> Prop;
  c_enc : A -> bytes;
  lw_size : forall x, c_ok x -> c_Size c x = blen (c_enc x);
  lw_encode : forall x rest, c_ok x ->
    c_EncodeTo c x (replicate (length (c_enc x)) x00 ++ rest) = Ok (c_enc x ++ rest, blen (c_enc x));
  lw_decode : forall x rest, c_ok x -> c_Decode c (c_enc x ++ rest) = Ok (x, blen (c_enc x));
  lw_bound : forall data, match c_Decode c data with
    | Ok (_, n) => 0 <= n <= blen data
    | Err e => e <> ErrPanic
    end
}.
Arguments c_ok {_} c {_} _.
Arguments c_enc {_} c {_} _.

(** A static value fills one word. *)
Class Static {A} (c : Codec A) `{!Lawful c} := one_word : forall x, length (c_enc c x) = 32%nat.

(** The documented behaviour of the library. *)
Class AbiLibLaws `{AbiLib} := {
  string_lawful :: Lawful string_c;
  bytes_lawful :: Lawful bytes_c;
  uint64_lawful :: Lawful uint64_c;
  uint8_lawful :: Lawful uint8_c;
  bool_lawful :: Lawful bool_c;
  address_lawful :: Lawful address_c;
  uint64_static :: Static uint64_c;
  uint8_static :: Static uint8_c;
  bool_static :: Static bool_c;
  address_static :: Static address_c;
  string_ok : forall s, blen s < 2 ^ 62 -> c_ok string_c s;
  bytes_ok : forall s, blen s < 2 ^ 62 -> c_ok bytes_c s;
  uint64_ok : forall n, is_u64 n -> c_ok uint64_c n;
  uint8_ok : forall n, 0 <= n < 256 -> c_ok uint8_c n;
  bool_ok : forall b, c_ok bool_c b;
  address_ok : forall a, length a = 20%nat -> c_ok address_c a;
  DecodeSize_Word : forall n rest, 0 <= n < 2 ^ 63 -> DecodeSize (Word n ++ rest) = Ok n;
  DecodeSize_total : forall data, match DecodeSize data with
    | Ok n => 0 <= n < 2 ^ 63
    | Err e => e <> ErrPanic
    end;
  EmptyTuple_bytes : EmptyTuple_Encode = Ok [];
  EncodeEvent_ok : forall topics data, EncodeEvent (Ok topics) (Ok data) = Ok (topics, data)
}.

Definition ErrInvalidOffsetForDynamicField : err := ErrPlain "invalid offset for dynamic field".
Definition ErrInvalidOffsetForSliceElement : err := ErrPlain "invalid offset for slice element".

(** [b[off:]]; a slice bound past the end panics. *)
Definition slice_from (b : bytes) (off : Z) : result bytes :=
  if off <=? blen b then Ok (drop (Z.to_nat off) b) else Err ErrPanic.

(** [binary.BigEndian.PutUint64(buf[off+24:off+32], v)] *)
Definition put_head (buf : bytes) (off v : Z) : result bytes :=
  if off + 32 <=? blen buf then Ok (put_u64 buf (Z.to_nat (off + 24)) v) else Err ErrPanic.

(** ** The code of one field *)

Section fields.
Context {LIB : AbiLib}.
Context {A : Type} (c : Codec A).

(** [abi.EncodeX(value, buf[off:])] *)
Definition enc_static (x : A) (off : Z) (st : bytes * Z) : result (bytes * Z) :=
  let '(buf, dynamicOffset) := st in
  tail ← slice_from buf off;
  '(tail', _) ← c_EncodeTo c x tail;
  Ok (take (Z.to_nat off) buf ++ tail', dynamicOffset).

(** The offset pointer at [off], the value at [dynamicOffset]. *)
Definition enc_dynamic (x : A) (off : Z) (st : bytes * Z) : result (bytes * Z) :=
  let '(buf, dynamicOffset) := st in
  buf ← put_head buf off dynamicOffset;
  tail ← slice_from buf dynamicOffset;
  '(tail', n) ← c_EncodeTo c x tail;
  Ok (take (Z.to_nat dynamicOffset) buf ++ tail', dynamicOffset + n).

(** [t.F, _, err = abi.DecodeX(data[off:])] *)
Definition dec_static (data : bytes) (off : Z) : result A :=
  tail ← slice_from data off;
  '(x, _) ← c_Decode c tail;
  Ok x.

(** The offset at [off] must be [dynamicOffset], where the value is read. *)
Definition dec_dynamic (bad_offset : err) (data : bytes) (off dynamicOffset : Z) : result (A * Z) :=
  tail ← slice_from data off;
  offset ← DecodeSize tail;
  _ ← guard_err (negb (offset =? dynamicOffset)) bad_offset;
  tail ← slice_from data dynamicOffset;
  '(x, n) ← c_Decode c tail;
  Ok (x, dynamicOffset + n).
End fields.

(** [if len(data) < size { return 0, io.ErrUnexpectedEOF }] *)
Definition check_len (data : bytes) (size : Z) : result unit :=
  guard_err (blen data <? size) ErrUnexpectedEOF.

(** [Encode]: a zeroed buffer of the announced size, filled by [EncodeTo]. *)
Definition abi_Encode {A} (c : Codec A) (x : A) : result bytes :=
  '(buf, _) ← c_EncodeTo c x (replicate (Z.to_nat (c_Size c x)) x00);
  Ok buf.

(** [EncodeWithSelector]: the selector, then the tuple in the rest of the buffer. *)
Definition abi_EncodeWithSelector {A} (c : Codec A) (selector : bytes) (x : A) : result bytes :=
  let result := replicate (Z.to_nat (4 + c_Size c x)) x00 in
  let result := (go_copy (take 4 result) selector).2 ++ drop 4 result in
  tail ← slice_from result 4;
  '(tail', _) ← c_EncodeTo c x tail;
  Ok (take 4 result ++ tail').

(** ** Slices of dynamic elements *)

Section slices.
Context {LIB : AbiLib}.
Context {A : Type} (c : Codec A).

Fixpoint enc_elems (l : list A) (off : Z) (st : bytes * Z) : result (bytes * Z) :=
  match l with
  | [] => Ok st
  | x :: l' => st ← enc_dynamic c x off st; enc_elems l' (off + 32) st
  end.

Definition SizeSlice (value : list A) : Z :=
  fold_left (fun size x => size + c_Size c x) value (32 + 32 * Z.of_nat (length value)).

(** The length, then the elements in the rest of the buffer. *)
Definition EncodeSlice (value : list A) (buf : bytes) : result (bytes * Z) :=
  buf ← put_head buf 0 (Z.of_nat (length value));
  tail ← slice_from buf 32;
  '(tail', dynamicOffset) ← enc_elems value 0 (tail, Z.of_nat (length value) * 32);
  Ok (take 32 buf ++ tail', dynamicOffset + 32).

Fixpoint dec_elems (n : nat) (data : bytes) (off dynamicOffset : Z) : result (list A * Z) :=
  match n with
  | O => Ok ([], dynamicOffset)
  | S n' =>
      '(x, dynamicOffset) ← dec_dynamic c ErrInvalidOffsetForSliceElement data off dynamicOffset;
      '(l, dynamicOffset) ← dec_elems n' data (off + 32) dynamicOffset;
      Ok (x :: l, dynamicOffset)
  end.

Definition DecodeSlice (data : bytes) : result (list A * Z) :=
  _ ← check_len data 32;
  len ← DecodeSize data;
  data ← slice_from data 32;
  _ ← guard_err ((blen data <? len) || (blen data <? len * 32)) ErrUnexpectedEOF;
  '(l, dynamicOffset) ← dec_elems (Z.to_nat len) data 0 (len * 32);
  Ok (l, dynamicOffset + 32).

Definition slice_c : Codec (list A) := mkCodec SizeSlice EncodeSlice DecodeSlice.
End slices.

(** ** The layout of a tuple *)

(** A field: the word of a static one, the data of a dynamic one. *)
Inductive Part := Stat (w : bytes) | Dyn (p : bytes).

Fixpoint heads (dyn : Z) (ps : list Part) : bytes :=
  match ps with
  | [] => []
  | Stat w :: ps' => w ++ heads dyn ps'
  | Dyn p :: ps' => Word dyn ++ heads (dyn + blen p) ps'
  end.

Fixpoint tails (ps : list Part) : bytes :=
  match ps with
  | [] => []
  | Stat _ :: ps' => tails ps'
  | Dyn p :: ps' => p ++ tails ps'
  end.

Definition static_size (ps : list Part) : Z := 32 * Z.of_nat (length ps).

Definition tuple_bytes (ps : list Part) : bytes := heads (static_size ps) ps ++ tails ps.

Definition part_ok (p : Part) : Prop := match p with Stat w => length w = 32%nat | Dyn _ => True end.

(** A tuple the encoder can write: words of 32 bytes, and offsets that fit an [int]. *)
Definition parts_ok (ps : list Part) : Prop := Forall part_ok ps /\ blen (tuple_bytes ps) < 2 ^ 63.

Lemma heads_length dyn ps : Forall part_ok ps -> length (heads dyn ps) = (32 * length ps)%nat.
Proof.
  revert dyn. induction ps as [|[w|p] ps IH]; intros dyn Hp; [done|..];
    apply Forall_cons in Hp as [Hw Hp]; cbn [heads length]; rewrite length_app, IH by done.
  - cbn in Hw. lia.
  - rewrite Word_length. unfold HashLength. lia.
Qed.

Lemma heads_app dyn ps ps' : heads dyn (ps ++ ps') = heads dyn ps ++ heads (dyn + blen (tails ps)) ps'.
Proof.
  revert dyn. induction ps as [|[w|p] ps IH]; intros dyn; cbn [app heads tails].
  - by rewrite Z.add_0_r.
  - by rewrite IH, app_assoc.
  - rewrite IH, app_assoc, blen_app. do 2 f_equal. lia.
Qed.

Lemma tails_app ps ps' : tails (ps ++ ps') = tails ps ++ tails ps'.
Proof. induction ps as [|[w|p] ps IH]; cbn; [done|done|]. by rewrite IH, app_assoc. Qed.

Lemma tuple_bytes_length ps : Forall part_ok ps -> blen (tuple_bytes ps) = static_size ps + blen (tails ps).
Proof.
  intros Hp. unfold tuple_bytes, static_size. rewrite blen_app. unfold blen.
  rewrite heads_length by done. lia.
Qed.

(** ** Encoding *)

Definition zeros (n : nat) : bytes := replicate n x00.

Lemma blen_zeros n : blen (zeros n) = Z.of_nat n.
Proof. unfold blen, zeros. by rewrite length_replicate. Qed.

Lemma blen_Word v : blen (Word v) = 32.
Proof. unfold blen. by rewrite Word_length. Qed.

(** The encoder's state between two fields: the heads and data written so far,
    zeros where the other fields will go, and the bytes after the tuple. *)
Definition enc_state (s : Z) (done todo : list Part) (rest : bytes) : bytes * Z :=
  (heads s done ++ zeros (32 * length todo) ++ tails done ++ zeros (length (tails todo)) ++ rest,
   s + blen (tails done)).

Lemma slice_app (a b : bytes) : slice_from (a ++ b) (blen a) = Ok b.
Proof.
  unfold slice_from. rewrite blen_app. pose proof (blen_nonneg b).
  rewrite (proj2 (Z.leb_le _ _)) by lia. unfold blen. by rewrite Nat2Z.id, drop_app_length.
Qed.

Lemma take_blen (a b : bytes) : take (Z.to_nat (blen a)) (a ++ b) = a.
Proof. unfold blen. by rewrite Nat2Z.id, take_app_length. Qed.

Lemma put_head_Word (a b : bytes) v :
  put_head (a ++ zeros 32 ++ b) (blen a) v = Ok (a ++ Word v ++ b).
Proof.
  unfold put_head. rewrite !blen_app. pose proof (blen_nonneg b). pose proof (blen_nonneg a).
  change (blen (zeros 32)) with 32. rewrite (proj2 (Z.leb_le _ _)) by lia. f_equal.
  unfold put_u64, blen. replace (Z.to_nat (Z.of_nat (length a) + 24)) with (length a + 24)%nat by lia.
  rewrite take_app_add, take_app_le by (cbn; lia).
  rewrite <- Nat.add_assoc, drop_app_add. rewrite drop_app_ge by (cbn; lia).
  rewrite Word_app, <- !app_assoc. cbn [length zeros replicate]. do 2 f_equal.
Qed.

Section encode_steps.
Context {A : Type} (c : Codec A) `{!Lawful c}.

Lemma blen_heads dyn ps : Forall part_ok ps -> blen (heads dyn ps) = static_size ps.
Proof. intros Hp. unfold blen, static_size. rewrite heads_length by done. lia. Qed.

Lemma zeros_add n m : zeros (n + m) = zeros n ++ zeros m.
Proof. apply replicate_add. Qed.

Lemma enc_static_step x s done todo rest :
  c_ok c x -> (length (c_enc c x) = 32)%nat -> Forall part_ok done ->
  enc_static c x (static_size done) (enc_state s done (Stat (c_enc c x) :: todo) rest)
  = Ok (enc_state s (done ++ [Stat (c_enc c x)]) todo rest).
Proof.
  intros Hx Hw Hd. unfold enc_static, enc_state. cbn [length tails].
  replace (32 * S (length todo))%nat with (length (c_enc c x) + 32 * length todo)%nat by (rewrite Hw; lia).
  rewrite zeros_add, <- (blen_heads s done), <- (app_assoc (zeros _)) by done.
  rewrite slice_app, take_blen. cbn [mbind result_bind].
  change (zeros (length (c_enc c x))) with (replicate (length (c_enc c x)) x00).
  rewrite lw_encode by done. cbn [mbind result_bind].
  rewrite heads_app, tails_app. cbn [heads tails]. rewrite !app_nil_r, <- !app_assoc. done.
Qed.

Lemma enc_dynamic_step x done todo rest :
  c_ok c x -> Forall part_ok done ->
  let s := static_size (done ++ Dyn (c_enc c x) :: todo) in
  enc_dynamic c x (static_size done) (enc_state s done (Dyn (c_enc c x) :: todo) rest)
  = Ok (enc_state s (done ++ [Dyn (c_enc c x)]) todo rest).
Proof.
  intros Hx Hd s. unfold enc_dynamic, enc_state. cbn [length tails].
  rewrite (Nat.mul_succ_r 32 (length todo)), (Nat.add_comm _ 32), zeros_add, <- !(app_assoc (zeros 32)).
  rewrite length_app, zeros_add, <- !(app_assoc (zeros (length (c_enc c x)))).
  rewrite <- (blen_heads s done) at 1 by done. rewrite put_head_Word. cbn [mbind result_bind].
  set (dyn := s + blen (tails done)).
  set (pre := heads s done ++ Word dyn ++ zeros (32 * length todo) ++ tails done).
  assert (Hpre : blen pre = dyn).
  { unfold pre, dyn, s. rewrite !blen_app, blen_heads by done. unfold static_size, blen, zeros.
    rewrite Word_length, length_replicate, length_app. unfold HashLength. cbn [length]. lia. }
  replace (heads s done ++ Word dyn ++ zeros (32 * length todo) ++ tails done ++ _)
    with (pre ++ zeros (length (c_enc c x)) ++ zeros (length (tails todo)) ++ rest)
    by (unfold pre; by rewrite <- !app_assoc).
  rewrite <- Hpre. rewrite slice_app, take_blen. cbn [mbind result_bind].
  change (zeros (length (c_enc c x))) with (replicate (length (c_enc c x)) x00).
  rewrite lw_encode by done. cbn [mbind result_bind].
  rewrite heads_app, tails_app. cbn [heads tails]. rewrite !app_nil_r, blen_app, Hpre.
  unfold pre. fold dyn. rewrite <- !app_assoc. unfold dyn. rewrite Z.add_assoc. done.
Qed.
End encode_steps.

(** The state before the first field and after the last one. *)
Lemma enc_state_start ps rest : Forall part_ok ps ->
  (replicate (length (tuple_bytes ps)) x00 ++ rest, static_size ps) = enc_state (static_size ps) [] ps rest.
Proof.
  intros Hp. unfold enc_state. cbn [heads tails app]. rewrite Z.add_0_r. f_equal.
  rewrite app_assoc. f_equal. change (replicate ?n x00) with (zeros n). rewrite <- zeros_add. f_equal.
  pose proof (tuple_bytes_length ps Hp). unfold blen, static_size in *. lia.
Qed.

Lemma enc_state_end ps rest : Forall part_ok ps ->
  enc_state (static_size ps) ps [] rest = (tuple_bytes ps ++ rest, blen (tuple_bytes ps)).
Proof.
  intros Hp. rewrite tuple_bytes_length by done. unfold enc_state, tuple_bytes. cbn. by rewrite <- app_assoc.
Qed.

(** ** Decoding *)

Section decode_steps.
Context {LIB : AbiLib} {LAWS : AbiLibLaws}.
Context {A : Type} (c : Codec A) `{!Lawful c}.

(** The bytes from field [i] on. *)
Lemma slice_head i ps p rest : Forall part_ok ps -> ps !! i = Some p ->
  exists after, slice_from (tuple_bytes ps ++ rest) (32 * Z.of_nat i)
  = Ok (match p with Stat w => w | Dyn _ => Word (static_size ps + blen (tails (take i ps))) end ++ after).
Proof.
  intros Hp Hi. rewrite <- (take_drop_middle ps i p Hi) in Hp |- *.
  assert (Hl : (i <= length ps)%nat) by (apply lookup_lt_Some in Hi; lia).
  apply Forall_app in Hp as [Hp1 Hp2].
  set (ps1 := take i ps) in *. set (ps2 := drop (S i) ps) in *.
  assert (Hl1 : length ps1 = i) by (unfold ps1; rewrite length_take; lia).
  unfold tuple_bytes. set (s := static_size _). rewrite heads_app, <- !app_assoc.
  replace (32 * Z.of_nat i) with (blen (heads s ps1)) by (rewrite blen_heads by done; unfold static_size; lia).
  rewrite slice_app. rewrite take_app_length' by done.
  destruct p; cbn [heads]; rewrite <- ?app_assoc; eauto.
Qed.

(** The bytes from the data of dynamic field [i] on. *)
Lemma slice_data i ps p rest : Forall part_ok ps -> ps !! i = Some (Dyn p) ->
  exists after, slice_from (tuple_bytes ps ++ rest) (static_size ps + blen (tails (take i ps))) = Ok (p ++ after).
Proof.
  intros Hp Hi. pose proof Hp as Hp'. rewrite <- (take_drop_middle ps i _ Hi).
  set (ps1 := take i ps). set (ps2 := drop (S i) ps).
  assert (Hl1 : length ps1 = i) by (unfold ps1; rewrite length_take; apply lookup_lt_Some in Hi; lia).
  rewrite take_app_length' by done.
  unfold tuple_bytes at 1. rewrite tails_app. cbn [tails]. rewrite !app_assoc. rewrite <- (app_assoc _ p), <- (app_assoc _ (p ++ _)).
  set (s := static_size _).
  replace (s + blen (tails ps1)) with (blen (heads s (ps1 ++ Dyn p :: ps2) ++ tails ps1)).
  - rewrite slice_app. rewrite <- app_assoc. eauto.
  - rewrite blen_app, blen_heads; [done|]. unfold ps1, ps2. by rewrite take_drop_middle.
Qed.

Lemma dec_static_at i ps rest x off :
  Forall part_ok ps -> ps !! i = Some (Stat (c_enc c x)) -> c_ok c x -> off = 32 * Z.of_nat i ->
  dec_static c (tuple_bytes ps ++ rest) off = Ok x.
Proof.
  intros Hp Hi Hx ->. unfold dec_static. destruct (slice_head i ps _ rest Hp Hi) as [after ->].
  cbn [mbind result_bind]. by rewrite lw_decode.
Qed.

Lemma dec_dynamic_at i ps rest x off dyn e :
  parts_ok ps -> ps !! i = Some (Dyn (c_enc c x)) -> c_ok c x -> off = 32 * Z.of_nat i ->
  dyn = static_size ps + blen (tails (take i ps)) ->
  dec_dynamic c e (tuple_bytes ps ++ rest) off dyn
  = Ok (x, static_size ps + blen (tails (take (S i) ps))).
Proof.
  intros [Hp Hb] Hi Hx -> ->. unfold dec_dynamic. destruct (slice_head i ps _ rest Hp Hi) as [after ->].
  cbn [mbind result_bind]. pose proof (take_S_r ps i _ Hi) as Et. rewrite Et, tails_app.
  rewrite tuple_bytes_length in Hb by done.
  rewrite <- (take_drop i ps), tails_app, blen_app in Hb. rewrite take_drop in Hb.
  pose proof (blen_nonneg (tails (take i ps))). pose proof (blen_nonneg (tails (drop i ps))).
  rewrite DecodeSize_Word by (unfold static_size in *; lia). cbn [mbind result_bind].
  rewrite Z.eqb_refl. cbn [negb guard_err]. destruct (slice_data i ps _ rest Hp Hi) as [after' ->].
  cbn [mbind result_bind]. rewrite lw_decode by done. cbn [mbind result_bind tails].
  rewrite app_nil_r, blen_app. do 2 f_equal. lia.
Qed.
End decode_steps.

(** ** Decoders in bounds *)

Definition in_bounds {A} (data : bytes) (r : result (A * Z)) : Prop :=
  match r with
  | Ok (_, n) => 0 <= n <= blen data
  | Err e => e <> ErrPanic
  end.

Section bounds.
Context {LIB : AbiLib} {LAWS : AbiLibLaws}.
Implicit Types data : bytes.

Lemma slice_from_ok data off : 0 <= off <= blen data ->
  exists tail, slice_from data off = Ok tail /\ blen tail = blen data - off.
Proof.
  intros Ho. unfold slice_from. rewrite (proj2 (Z.leb_le _ _)) by lia. eexists; split; [done|].
  unfold blen in *. rewrite length_drop. lia.
Qed.

Lemma check_len_bound {A} data size (k : result (A * Z)) :
  (size <= blen data -> in_bounds data k) -> in_bounds data (_ ← check_len data size; k).
Proof.
  intros Hk. unfold check_len, guard_err. destruct (Z.ltb_spec (blen data) size); cbn; [done|by apply Hk].
Qed.

Context {A B : Type} (c : Codec A) `{!Lawful c}.

Lemma dec_static_bound data off (k : A -> result (B * Z)) :
  0 <= off <= blen data -> (forall x, in_bounds data (k x)) ->
  in_bounds data (x ← dec_static c data off; k x).
Proof.
  intros Ho Hk. unfold dec_static. destruct (slice_from_ok data off Ho) as (tail & -> & _).
  cbn [mbind result_bind]. pose proof (lw_bound tail) as Hb.
  destruct (c_Decode c tail) as [[x n]|e]; cbn; [apply Hk|done].
Qed.

Lemma dec_dynamic_bound data off dyn e (k : A * Z -> result (B * Z)) :
  e <> ErrPanic -> 0 <= off <= blen data -> 0 <= dyn <= blen data ->
  (forall x dyn', 0 <= dyn' <= blen data -> in_bounds data (k (x, dyn'))) ->
  in_bounds data (p ← dec_dynamic c e data off dyn; k p).
Proof.
  intros He Ho Hd Hk. unfold dec_dynamic. destruct (slice_from_ok data off Ho) as (tail & -> & _).
  cbn [mbind result_bind]. pose proof (DecodeSize_total tail) as Hs.
  destruct (DecodeSize tail) as [offset|e']; cbn [mbind result_bind]; [|done].
  destruct (offset =? dyn); cbn [negb guard_err mbind result_bind]; [|done].
  destruct (slice_from_ok data dyn Hd) as (tail' & -> & Ht). cbn [mbind result_bind].
  pose proof (lw_bound tail') as Hb. destruct (c_Decode c tail') as [[x n]|e']; cbn; [|done].
  apply Hk. lia.
Qed.
End bounds.

(** ** Lawful tuples *)

Section tuple_encode.
Context {A : Type} (c : Codec A) `{!Lawful c}.

Lemma enc_static_at s done todo rest x off `{!Static c} :
  c_ok c x -> Forall part_ok done -> off = static_size done ->
  enc_static c x off (enc_state s done (Stat (c_enc c x) :: todo) rest)
  = Ok (enc_state s (done ++ [Stat (c_enc c x)]) todo rest).
Proof. intros Hx Hd ->. apply enc_static_step; [done|apply one_word|done]. Qed.

Lemma enc_dynamic_at s done todo rest x off :
  c_ok c x -> Forall part_ok done -> off = static_size done ->
  s = static_size (done ++ Dyn (c_enc c x) :: todo) ->
  enc_dynamic c x off (enc_state s done (Dyn (c_enc c x) :: todo) rest)
  = Ok (enc_state s (done ++ [Dyn (c_enc c x)]) todo rest).
Proof. intros Hx Hd -> ->. by apply enc_dynamic_step. Qed.
End tuple_encode.

(** A codec described by its parts. *)
Section of_parts.
Context {LIB : AbiLib}.
Context {A : Type} (c : Codec A) (fields_ok : A -> Prop) (parts : A -> list Part).

Definition tuple_ok (x : A) : Prop := fields_ok x /\ blen (tuple_bytes (parts x)) < 2 ^ 63.

Definition tuple_enc (x : A) : bytes := tuple_bytes (parts x).

Definition lawful_tuple
    (Hw : forall x, fields_ok x -> Forall part_ok (parts x))
    (Hsize : forall x, fields_ok x -> c_Size c x = static_size (parts x) + blen (tails (parts x)))
    (Henc : forall x rest, fields_ok x ->
       c_EncodeTo c x (enc_state (static_size (parts x)) [] (parts x) rest).1
       = Ok (enc_state (static_size (parts x)) (parts x) [] rest))
    (Hdec : forall x rest, fields_ok x -> parts_ok (parts x) ->
       c_Decode c (tuple_bytes (parts x) ++ rest)
       = Ok (x, static_size (parts x) + blen (tails (parts x))))
    (Hb : forall data, in_bounds data (c_Decode c data)) : Lawful c.
Proof.
  refine {| c_ok := tuple_ok; c_enc := tuple_enc |}.
  - intros x [Hx Hl]. unfold tuple_enc. rewrite tuple_bytes_length by auto. auto.
  - intros x rest [Hx Hl]. unfold tuple_enc. pose proof (enc_state_start (parts x) rest (Hw x Hx)) as E.
    apply (f_equal fst) in E. cbn [fst] in E. rewrite E, Henc by done. by rewrite enc_state_end by auto.
  - intros x rest [Hx Hl]. unfold tuple_enc. rewrite tuple_bytes_length by auto.
    apply Hdec; [done|]. split; auto.
  - exact Hb.
Defined.
End of_parts.

(** ** Lawful slices *)

Section lawful_slices.
Context {LIB : AbiLib} {LAWS : AbiLibLaws}.
Context {A : Type} (c : Codec A) `{!Lawful c}.
Implicit Types l : list A.

Definition elem_parts l : list Part := (fun x => Dyn (c_enc c x)) <$> l.

Definition slice_enc l : bytes := Word (Z.of_nat (length l)) ++ tuple_bytes (elem_parts l).

Definition slice_ok l : Prop := Forall (c_ok c) l /\ blen (slice_enc l) < 2 ^ 63.

Lemma elem_parts_ok l : Forall part_ok (elem_parts l).
Proof. unfold elem_parts. apply Forall_fmap, Forall_forall. done. Qed.

Lemma elem_parts_size l : static_size (elem_parts l) = 32 * Z.of_nat (length l).
Proof. unfold static_size, elem_parts. by rewrite length_fmap. Qed.

Lemma enc_elems_state l1 l2 rest : Forall (c_ok c) l2 ->
  let s := static_size (elem_parts (l1 ++ l2)) in
  enc_elems c l2 (32 * Z.of_nat (length l1)) (enc_state s (elem_parts l1) (elem_parts l2) rest)
  = Ok (enc_state s (elem_parts (l1 ++ l2)) [] rest).
Proof.
  revert l1. induction l2 as [|x l2 IH]; intros l1 Hok s; cbn [enc_elems].
  { unfold s. by rewrite app_nil_r. }
  apply Forall_cons in Hok as [Hx Hok].
  change (elem_parts (x :: l2)) with (Dyn (c_enc c x) :: elem_parts l2).
  rewrite enc_dynamic_at; [|done|apply elem_parts_ok|by rewrite elem_parts_size|].
  2: { unfold s, elem_parts. by rewrite fmap_app. }
  cbn [mbind result_bind]. specialize (IH (l1 ++ [x]) Hok).
  rewrite <- app_assoc in IH. cbn [app] in IH. rewrite length_app in IH. cbn [length] in IH.
  replace (32 * Z.of_nat (length l1) + 32) with (32 * Z.of_nat (length l1 + 1)) by lia.
  replace (elem_parts l1 ++ [Dyn (c_enc c x)]) with (elem_parts (l1 ++ [x]))
    by (unfold elem_parts; by rewrite fmap_app). exact IH.
Qed.

Lemma dec_elems_state l1 l2 rest : Forall (c_ok c) l2 -> parts_ok (elem_parts (l1 ++ l2)) ->
  let ps := elem_parts (l1 ++ l2) in
  dec_elems c (length l2) (tuple_bytes ps ++ rest) (32 * Z.of_nat (length l1))
    (static_size ps + blen (tails (elem_parts l1)))
  = Ok (l2, static_size ps + blen (tails ps)).
Proof.
  revert l1. induction l2 as [|x l2 IH]; intros l1 Hok Hp ps; cbn [length dec_elems].
  { unfold ps. by rewrite app_nil_r. }
  apply Forall_cons in Hok as [Hx Hok].
  assert (Hps : ps = elem_parts l1 ++ Dyn (c_enc c x) :: elem_parts l2)
    by (unfold ps, elem_parts; by rewrite fmap_app).
  assert (Hl : length (elem_parts l1) = length l1) by (unfold elem_parts; by rewrite length_fmap).
  rewrite (dec_dynamic_at c (length l1) ps rest x); [|done| |done|done|].
  - cbn [mbind result_bind]. specialize (IH (l1 ++ [x]) Hok).
    rewrite <- app_assoc in IH. cbn [app] in IH. specialize (IH Hp). fold ps in IH.
    rewrite length_app in IH. cbn [length] in IH.
    replace (32 * Z.of_nat (length l1) + 32) with (32 * Z.of_nat (length l1 + 1)) by lia.
    replace (take (S (length l1)) ps) with (elem_parts (l1 ++ [x])).
    + rewrite IH. done.
    + rewrite Hps, (cons_middle (Dyn _)), app_assoc, take_app_length'.
      * unfold elem_parts. by rewrite fmap_app.
      * rewrite length_app, Hl. cbn. lia.
  - rewrite Hps. rewrite lookup_app_r, Hl, Nat.sub_diag by lia. done.
  - rewrite Hps, take_app_length' by done. done.
Qed.

Lemma dec_elems_bound n data off dyn :
  0 <= off -> off + 32 * Z.of_nat n <= blen data -> 0 <= dyn <= blen data ->
  in_bounds data (dec_elems c n data off dyn).
Proof.
  revert off dyn. induction n as [|n IH]; intros off dyn H0 Ho Hd; cbn [dec_elems]; [done|].
  rewrite Nat2Z.inj_succ in Ho. apply (dec_dynamic_bound c); [done|lia|done|]. intros x dyn' Hd'. cbn beta iota.
  specialize (IH (off + 32) dyn' ltac:(lia) ltac:(lia) Hd').
  destruct (dec_elems c n data (off + 32) dyn') as [[l m]|]; cbn in *; done.
Qed.

Lemma DecodeSlice_bound data : in_bounds data (DecodeSlice c data).
Proof.
  unfold DecodeSlice. apply check_len_bound. intros Hl.
  pose proof (DecodeSize_total data) as Hs. destruct (DecodeSize data) as [len|e]; cbn; [|done].
  destruct (slice_from_ok data 32 ltac:(lia)) as (tail & -> & Ht). cbn.
  unfold guard_err. destruct (Z.ltb_spec (blen tail) len) as [|H1]; cbn; [done|].
  destruct (Z.ltb_spec (blen tail) (len * 32)) as [|H2]; cbn; [done|].
  pose proof (dec_elems_bound (Z.to_nat len) tail 0 (len * 32) ltac:(lia) ltac:(lia) ltac:(lia)) as Hb.
  destruct (dec_elems c (Z.to_nat len) tail 0 (len * 32)) as [[l m]|]; cbn in *; [lia|done].
Qed.

Lemma SizeSlice_spec l : Forall (c_ok c) l -> SizeSlice c l = blen (slice_enc l).
Proof.
  intros Hok. unfold SizeSlice, slice_enc. rewrite blen_app, tuple_bytes_length, elem_parts_size by apply elem_parts_ok.
  assert (E : forall acc, fold_left (fun size x => size + c_Size c x) l acc = acc + blen (tails (elem_parts l))).
  { induction Hok as [|x l Hx Hok IH]; intros acc; [by rewrite Z.add_0_r|].
    change (elem_parts (x :: l)) with (Dyn (c_enc c x) :: elem_parts l). cbn [fold_left tails].
    rewrite IH, (lw_size x), blen_app by done. lia. }
  rewrite E. unfold blen at 2. rewrite Word_length. unfold HashLength. lia.
Qed.

#[export] Instance slice_lawful : Lawful (slice_c c).
Proof.
  refine {| c_ok := slice_ok; c_enc := slice_enc |}.
  - intros l [Hok Hl]. by apply SizeSlice_spec.
  - intros l rest [Hok Hl]. cbn [slice_c c_EncodeTo]. unfold EncodeSlice, slice_enc.
    rewrite length_app, Word_length. change (replicate ?n x00) with (zeros n).
    rewrite zeros_add, <- app_assoc. unfold HashLength.
    pose proof (put_head_Word [] (zeros (length (tuple_bytes (elem_parts l))) ++ rest) (Z.of_nat (length l))) as E.
    cbn [app] in E. change (blen []) with 0 in E. rewrite E. cbn [mbind result_bind].
    assert (HW : blen (Word (Z.of_nat (length l))) = 32) by (unfold blen; by rewrite Word_length).
    rewrite <- HW at 1. rewrite slice_app. cbn [mbind result_bind].
    pose proof (enc_state_start (elem_parts l) rest (elem_parts_ok l)) as Es.
    change (replicate ?n x00) with (zeros n) in Es. rewrite elem_parts_size in Es at 1.
    rewrite Z.mul_comm, Es. pose proof (enc_elems_state [] l rest Hok :
      enc_elems c l 0 (enc_state (static_size (elem_parts l)) [] (elem_parts l) rest)
      = Ok (enc_state (static_size (elem_parts l)) (elem_parts l) [] rest)) as Ee. rewrite Ee. rewrite enc_state_end by apply elem_parts_ok.
    cbn [mbind result_bind]. rewrite <- (Word_length (Z.of_nat (length l))) at 1. unfold HashLength.
    rewrite take_app_length, <- app_assoc, blen_app, HW. do 2 f_equal. lia.
  - intros l rest [Hok Hl]. cbn [slice_c c_Decode]. unfold DecodeSlice, slice_enc in *.
    assert (HW : blen (Word (Z.of_nat (length l))) = 32) by (unfold blen; by rewrite Word_length).
    rewrite <- app_assoc. unfold check_len, guard_err. rewrite blen_app, HW.
    pose proof (blen_nonneg (tuple_bytes (elem_parts l) ++ rest)).
    rewrite (proj2 (Z.ltb_ge _ 32)) by lia. cbn [mbind result_bind].
    rewrite blen_app, HW, tuple_bytes_length, elem_parts_size in Hl by apply elem_parts_ok.
    pose proof (blen_nonneg (tails (elem_parts l))).
    rewrite DecodeSize_Word by lia. cbn [mbind result_bind]. rewrite <- HW at 1. rewrite slice_app.
    cbn [mbind result_bind]. rewrite blen_app, tuple_bytes_length, elem_parts_size by apply elem_parts_ok.
    pose proof (blen_nonneg rest). rewrite !(proj2 (Z.ltb_ge _ _)) by lia. cbn [orb mbind result_bind].
    rewrite Nat2Z.id. pose proof (dec_elems_state [] l rest Hok : parts_ok (elem_parts l) ->
      dec_elems c (length l) (tuple_bytes (elem_parts l) ++ rest) 0 (static_size (elem_parts l) + 0)
      = Ok (l, static_size (elem_parts l) + blen (tails (elem_parts l)))) as Ed.
    rewrite Z.add_0_r, elem_parts_size, (Z.mul_comm 32 (Z.of_nat (length l))) in Ed. rewrite Ed.
    + cbn [mbind result_bind]. rewrite blen_app, HW, tuple_bytes_length, elem_parts_size by apply elem_parts_ok.
      do 2 f_equal. lia.
    + split; [apply elem_parts_ok|]. rewrite tuple_bytes_length, elem_parts_size by apply elem_parts_ok. lia.
  - exact DecodeSlice_bound.
Defined.
End lawful_slices.

(** ** Whole buffers *)

Section buffers.
Context {A : Type} (c : Codec A) `{!Lawful c}.

Lemma abi_Encode_ok x : c_ok c x -> abi_Encode c x = Ok (c_enc c x).
Proof.
  intros Hx. unfold abi_Encode. rewrite (lw_size x) by done. unfold blen. rewrite Nat2Z.id.
  pose proof (lw_encode x [] Hx) as E. rewrite !app_nil_r in E. by rewrite E.
Qed.

Lemma abi_EncodeWithSelector_ok sel x : c_ok c x -> length sel = 4%nat ->
  abi_EncodeWithSelector c sel x = Ok (sel ++ c_enc c x).
Proof.
  intros Hx Hs. unfold abi_EncodeWithSelector. rewrite (lw_size x) by done.
  pose proof (blen_nonneg (c_enc c x)). rewrite Z2Nat.inj_add by lia. change (Z.to_nat 4) with 4%nat.
  change (replicate ?n x00) with (zeros n). rewrite zeros_add, (take_app_length' (zeros 4)) by done.
  rewrite (drop_app_length' (zeros 4)) by done.
  assert (E4 : (go_copy (zeros 4) sel).2 = sel).
  { rewrite go_copy_full by (rewrite Hs; apply Nat.le_refl). rewrite take_ge; [done|]. rewrite Hs. apply Nat.le_refl. }
  rewrite E4. clear E4.
  replace 4 with (blen sel) by (unfold blen; lia). rewrite slice_app. cbn [mbind result_bind].
  pose proof (lw_encode x [] Hx) as E. rewrite !app_nil_r in E. unfold blen. rewrite Nat2Z.id.
  change (zeros ?n) with (replicate n x00). rewrite E. cbn [mbind result_bind].
  by rewrite (take_app_length' sel) by done.
Qed.
End buffers.

(** ** Tactics for the generated tuples *)

Lemma check_len_at ps rest size : Forall part_ok ps -> size = static_size ps ->
  check_len (tuple_bytes ps ++ rest) size = Ok tt.
Proof.
  intros Hp ->. unfold check_len, guard_err. rewrite blen_app, tuple_bytes_length by done.
  pose proof (blen_nonneg (tails ps)). pose proof (blen_nonneg rest).
  by rewrite (proj2 (Z.ltb_ge _ _)) by lia.
Qed.

(** The words of a list of parts. *)
Ltac words := repeat (apply Forall_cons; split); first [apply Forall_nil; exact I | exact I | apply one_word | done].

Ltac size_steps :=
  repeat match goal with |- context [c_Size ?c ?x] => rewrite (lw_size (c := c) x) by assumption end;
  match goal with |- ?s + _ = static_size ?ps + _ =>
    let n := eval vm_compute in s in change s with n; change (static_size ps) with n end;
  cbn [tails]; rewrite ?blen_app; change (blen []) with 0; lia.

Ltac enc_steps :=
  repeat (first
    [ erewrite enc_static_at; [|apply _|assumption|words|reflexivity]
    | erewrite enc_dynamic_at; [|assumption|words|reflexivity|reflexivity] ];
    cbn [mbind result_bind app]);
  reflexivity.

Ltac dec_step :=
  match goal with
  | |- context [dec_static ?c ?data ?off] =>
      let i := eval vm_compute in (Z.to_nat (off / 32)) in
      erewrite (dec_static_at c i _ _ _ off); [|words|reflexivity|assumption|reflexivity]
  | |- context [dec_dynamic ?c ?e ?data ?off ?dyn] =>
      let i := eval vm_compute in (Z.to_nat (off / 32)) in
      erewrite (dec_dynamic_at c i _ _ _ off dyn e); [|eassumption|reflexivity|assumption|reflexivity|reflexivity]
  end; cbn [mbind result_bind].

Ltac bound_steps :=
  apply check_len_bound; intros ?;
  repeat first
    [ apply dec_static_bound; [apply _|lia|intros ?]
    | apply dec_dynamic_bound; [apply _|done|lia|lia|intros ? ? ?; cbn beta iota] ];
  cbn; lia.
