(* ===== verification/AbiAnchoring.v ===== *)
(** The ABI types of the anchoring precompile: the tuples of
    src/x/anchoring/precompile/anchoring.abi.go (records, registries, the arguments
    and results of the methods, the data of the events) and the page tuples of
    src/precompiles/common.abi.go, each with its [EncodedSize], [EncodeTo] and
    [Decode]. *)

From S2P Require Import Prelude Types EvmLayout Abi.

(** ** Method ids *)

Definition AddRecordID : Z := 1691505301.
Definition AddRegistryID : Z := 831207601.
Definition GrantRoleID : Z := 3103642023.
Definition RecordsID : Z := 3351141943.
Definition RegistriesID : Z := 398278245.
Definition RegistriesByNameID : Z := 1428350662.
Definition RevokeRoleID : Z := 2899676103.
Definition UpdateRecordStatusID : Z := 2545159205.

Definition AddRecordSelector : bytes := [x64; xd2; x52; x95].
Definition AddRegistrySelector : bytes := [x31; x8b; x38; xb1].
Definition GrantRoleSelector : bytes := [xb8; xfd; xd1; xa7].
Definition RecordsSelector : bytes := [xc7; xbe; x5e; x37].
Definition RegistriesSelector : bytes := [x17; xbd; x3e; x65].
Definition RegistriesByNameSelector : bytes := [x55; x22; xe6; xc6].
Definition RevokeRoleSelector : bytes := [xac; xd5; x8b; xc7].
Definition UpdateRecordStatusSelector : bytes := [x97; xb4; x0c; x25].

(** ** The tuples *)

Record ABIPageRequest := mkABIPageRequest {
  pq_Key : bytes;
  pq_Offset : Z;
  pq_Limit : Z;
  pq_CountTotal : bool;
  pq_Reverse : bool
}.

Record ABIPageResponse := mkABIPageResponse {
  pp_NextKey : bytes;
  pp_Total : Z
}.

Record ABIRecord := mkABIRecord {
  abr_Uri : bytes;
  abr_Checksum : bytes;
  abr_ChecksumAlgo : bytes;
  abr_Metadata : bytes;
  abr_Timestamp : bytes;
  abr_Status : bytes;
  abr_RecordId : Z;
  abr_Index : Z;
  abr_IsLatest : bool;
  abr_RegistryId : Z
}.

Record ABIRegistry := mkABIRegistry {
  abg_Id : Z;
  abg_Name : bytes;
  abg_Description : bytes;
  abg_Creator : bytes;
  abg_CreatedAt : bytes;
  abg_Metadata : bytes
}.

Record ABIAddRecordCall := mkABIAddRecordCall {
  arc_Record : ABIRecord
}.

Record ABIAddRecordReturn := mkABIAddRecordReturn {
  arr_RecordId : Z
}.

Record ABIAddRegistryCall := mkABIAddRegistryCall {
  agc_Name : bytes;
  agc_Description : bytes;
  agc_Metadata : bytes
}.

Record ABIAddRegistryReturn := mkABIAddRegistryReturn {
  agr_RegistryId : Z
}.

Record ABIGrantRoleCall := mkABIGrantRoleCall {
  grc_RegistryId : Z;
  grc_Checksum : bytes;
  grc_Account : bytes;
  grc_Role : bytes
}.

Record ABIRecordsCall := mkABIRecordsCall {
  rsc_RegistryId : Z;
  rsc_Checksum : bytes;
  rsc_RecordId : Z;
  rsc_Index : Z;
  rsc_Pagination : ABIPageRequest
}.

Record ABIRecordsReturn := mkABIRecordsReturn {
  rsr_Records : list ABIRecord;
  rsr_Pagination : ABIPageResponse
}.

Record ABIRegistriesCall := mkABIRegistriesCall {
  rgc_RegistryId : Z;
  rgc_Pagination : ABIPageRequest
}.

Record ABIRegistriesReturn := mkABIRegistriesReturn {
  rgr_Registries : list ABIRegistry;
  rgr_Pagination : ABIPageResponse
}.

Record ABIRegistriesByNameCall := mkABIRegistriesByNameCall {
  rnc_Name : bytes;
  rnc_MatchMode : Z;
  rnc_Pagination : ABIPageRequest
}.

Record ABIRegistriesByNameReturn := mkABIRegistriesByNameReturn {
  rnr_Registries : list ABIRegistry;
  rnr_Pagination : ABIPageResponse
}.

Record ABIRevokeRoleCall := mkABIRevokeRoleCall {
  rrc_RegistryId : Z;
  rrc_Checksum : bytes;
  rrc_Account : bytes;
  rrc_Role : bytes
}.

Record ABIUpdateRecordStatusCall := mkABIUpdateRecordStatusCall {
  usc_RegistryId : Z;
  usc_RecordId : Z;
  usc_Index : Z;
  usc_Status : bytes
}.

Record ABIAddRecordEventData := mkABIAddRecordEventData {
  ared_RegistryId : Z;
  ared_RecordId : Z;
  ared_Index : Z;
  ared_Checksum : bytes
}.

Record ABIAddRegistryEventData := mkABIAddRegistryEventData {
  aged_RegistryId : Z;
  aged_Name : bytes
}.

Record ABIGrantRoleEventData := mkABIGrantRoleEventData {
  gred_RegistryId : Z;
  gred_Checksum : bytes;
  gred_Account : bytes;
  gred_Role : bytes
}.

Record ABIRevokeRoleEventData := mkABIRevokeRoleEventData {
  rred_RegistryId : Z;
  rred_Checksum : bytes;
  rred_Account : bytes;
  rred_Role : bytes
}.

Record ABIUpdateRecordStatusEventData := mkABIUpdateRecordStatusEventData {
  used_RegistryId : Z;
  used_RecordId : Z;
  used_Index : Z;
  used_Status : bytes
}.

Section tuples.
Context {LIB : AbiLib}.

Definition PageRequestStaticSize : Z := 160.

Definition ABIPageRequest_EncodedSize (t : ABIPageRequest) : Z :=
  let dynamicSize := 0 in
  let dynamicSize := dynamicSize + c_Size bytes_c (pq_Key t) in
  PageRequestStaticSize + dynamicSize.

Definition ABIPageRequest_EncodeTo (value : ABIPageRequest) (buf : bytes) : result (bytes * Z) :=
  st ← enc_dynamic bytes_c (pq_Key value) 0 (buf, PageRequestStaticSize);
  st ← enc_static uint64_c (pq_Offset value) 32 st;
  st ← enc_static uint64_c (pq_Limit value) 64 st;
  st ← enc_static bool_c (pq_CountTotal value) 96 st;
  st ← enc_static bool_c (pq_Reverse value) 128 st;
  Ok st.

Definition ABIPageRequest_Decode (data : bytes) : result (ABIPageRequest * Z) :=
  _ ← check_len data 160;
  '(v_Key, dynamicOffset) ← dec_dynamic bytes_c ErrInvalidOffsetForDynamicField data 0 160;
  v_Offset ← dec_static uint64_c data 32;
  v_Limit ← dec_static uint64_c data 64;
  v_CountTotal ← dec_static bool_c data 96;
  v_Reverse ← dec_static bool_c data 128;
  Ok (mkABIPageRequest v_Key v_Offset v_Limit v_CountTotal v_Reverse, dynamicOffset).

Definition ABIPageRequest_c : Codec ABIPageRequest := mkCodec ABIPageRequest_EncodedSize ABIPageRequest_EncodeTo ABIPageRequest_Decode.

Definition PageResponseStaticSize : Z := 64.

Definition ABIPageResponse_EncodedSize (t : ABIPageResponse) : Z :=
  let dynamicSize := 0 in
  let dynamicSize := dynamicSize + c_Size bytes_c (pp_NextKey t) in
  PageResponseStaticSize + dynamicSize.

Definition ABIPageResponse_EncodeTo (value : ABIPageResponse) (buf : bytes) : result (bytes * Z) :=
  st ← enc_dynamic bytes_c (pp_NextKey value) 0 (buf, PageResponseStaticSize);
  st ← enc_static uint64_c (pp_Total value) 32 st;
  Ok st.

Definition ABIPageResponse_Decode (data : bytes) : result (ABIPageResponse * Z) :=
  _ ← check_len data 64;
  '(v_NextKey, dynamicOffset) ← dec_dynamic bytes_c ErrInvalidOffsetForDynamicField data 0 64;
  v_Total ← dec_static uint64_c data 32;
  Ok (mkABIPageResponse v_NextKey v_Total, dynamicOffset).

Definition ABIPageResponse_c : Codec ABIPageResponse := mkCodec ABIPageResponse_EncodedSize ABIPageResponse_EncodeTo ABIPageResponse_Decode.

Definition RecordStaticSize : Z := 320.

Definition ABIRecord_EncodedSize (t : ABIRecord) : Z :=
  let dynamicSize := 0 in
  let dynamicSize := dynamicSize + c_Size string_c (abr_Uri t) in
  let dynamicSize := dynamicSize + c_Size string_c (abr_Checksum t) in
  let dynamicSize := dynamicSize + c_Size string_c (abr_ChecksumAlgo t) in
  let dynamicSize := dynamicSize + c_Size string_c (abr_Metadata t) in
  let dynamicSize := dynamicSize + c_Size string_c (abr_Timestamp t) in
  let dynamicSize := dynamicSize + c_Size string_c (abr_Status t) in
  RecordStaticSize + dynamicSize.

Definition ABIRecord_EncodeTo (value : ABIRecord) (buf : bytes) : result (bytes * Z) :=
  st ← enc_dynamic string_c (abr_Uri value) 0 (buf, RecordStaticSize);
  st ← enc_dynamic string_c (abr_Checksum value) 32 st;
  st ← enc_dynamic string_c (abr_ChecksumAlgo value) 64 st;
  st ← enc_dynamic string_c (abr_Metadata value) 96 st;
  st ← enc_dynamic string_c (abr_Timestamp value) 128 st;
  st ← enc_dynamic string_c (abr_Status value) 160 st;
  st ← enc_static uint64_c (abr_RecordId value) 192 st;
  st ← enc_static uint64_c (abr_Index value) 224 st;
  st ← enc_static bool_c (abr_IsLatest value) 256 st;
  st ← enc_static uint64_c (abr_RegistryId value) 288 st;
  Ok st.

Definition ABIRecord_Decode (data : bytes) : result (ABIRecord * Z) :=
  _ ← check_len data 320;
  '(v_Uri, dynamicOffset) ← dec_dynamic string_c ErrInvalidOffsetForDynamicField data 0 320;
  '(v_Checksum, dynamicOffset) ← dec_dynamic string_c ErrInvalidOffsetForDynamicField data 32 dynamicOffset;
  '(v_ChecksumAlgo, dynamicOffset) ← dec_dynamic string_c ErrInvalidOffsetForDynamicField data 64 dynamicOffset;
  '(v_Metadata, dynamicOffset) ← dec_dynamic string_c ErrInvalidOffsetForDynamicField data 96 dynamicOffset;
  '(v_Timestamp, dynamicOffset) ← dec_dynamic string_c ErrInvalidOffsetForDynamicField data 128 dynamicOffset;
  '(v_Status, dynamicOffset) ← dec_dynamic string_c ErrInvalidOffsetForDynamicField data 160 dynamicOffset;
  v_RecordId ← dec_static uint64_c data 192;
  v_Index ← dec_static uint64_c data 224;
  v_IsLatest ← dec_static bool_c data 256;
  v_RegistryId ← dec_static uint64_c data 288;
  Ok (mkABIRecord v_Uri v_Checksum v_ChecksumAlgo v_Metadata v_Timestamp v_Status v_RecordId v_Index v_IsLatest v_RegistryId, dynamicOffset).

Definition ABIRecord_c : Codec ABIRecord := mkCodec ABIRecord_EncodedSize ABIRecord_EncodeTo ABIRecord_Decode.

Definition RegistryStaticSize : Z := 192.

Definition ABIRegistry_EncodedSize (t : ABIRegistry) : Z :=
  let dynamicSize := 0 in
  let dynamicSize := dynamicSize + c_Size string_c (abg_Name t) in
  let dynamicSize := dynamicSize + c_Size string_c (abg_Description t) in
  let dynamicSize := dynamicSize + c_Size string_c (abg_Creator t) in
  let dynamicSize := dynamicSize + c_Size string_c (abg_CreatedAt t) in
  let dynamicSize := dynamicSize + c_Size string_c (abg_Metadata t) in
  RegistryStaticSize + dynamicSize.

Definition ABIRegistry_EncodeTo (value : ABIRegistry) (buf : bytes) : result (bytes * Z) :=
  st ← enc_static uint64_c (abg_Id value) 0 (buf, RegistryStaticSize);
  st ← enc_dynamic string_c (abg_Name value) 32 st;
  st ← enc_dynamic string_c (abg_Description value) 64 st;
  st ← enc_dynamic string_c (abg_Creator value) 96 st;
  st ← enc_dynamic string_c (abg_CreatedAt value) 128 st;
  st ← enc_dynamic string_c (abg_Metadata value) 160 st;
  Ok st.

Definition ABIRegistry_Decode (data : bytes) : result (ABIRegistry * Z) :=
  _ ← check_len data 192;
  v_Id ← dec_static uint64_c data 0;
  '(v_Name, dynamicOffset) ← dec_dynamic string_c ErrInvalidOffsetForDynamicField data 32 192;
  '(v_Description, dynamicOffset) ← dec_dynamic string_c ErrInvalidOffsetForDynamicField data 64 dynamicOffset;
  '(v_Creator, dynamicOffset) ← dec_dynamic string_c ErrInvalidOffsetForDynamicField data 96 dynamicOffset;
  '(v_CreatedAt, dynamicOffset) ← dec_dynamic string_c ErrInvalidOffsetForDynamicField data 128 dynamicOffset;
  '(v_Metadata, dynamicOffset) ← dec_dynamic string_c ErrInvalidOffsetForDynamicField data 160 dynamicOffset;
  Ok (mkABIRegistry v_Id v_Name v_Description v_Creator v_CreatedAt v_Metadata, dynamicOffset).

Definition ABIRegistry_c : Codec ABIRegistry := mkCodec ABIRegistry_EncodedSize ABIRegistry_EncodeTo ABIRegistry_Decode.

Definition AddRecordCallStaticSize : Z := 32.

Definition ABIAddRecordCall_EncodedSize (t : ABIAddRecordCall) : Z :=
  let dynamicSize := 0 in
  let dynamicSize := dynamicSize + c_Size ABIRecord_c (arc_Record t) in
  AddRecordCallStaticSize + dynamicSize.

Definition ABIAddRecordCall_EncodeTo (value : ABIAddRecordCall) (buf : bytes) : result (bytes * Z) :=
  st ← enc_dynamic ABIRecord_c (arc_Record value) 0 (buf, AddRecordCallStaticSize);
  Ok st.

Definition ABIAddRecordCall_Decode (data : bytes) : result (ABIAddRecordCall * Z) :=
  _ ← check_len data 32;
  '(v_Record, dynamicOffset) ← dec_dynamic ABIRecord_c ErrInvalidOffsetForDynamicField data 0 32;
  Ok (mkABIAddRecordCall v_Record, dynamicOffset).

Definition ABIAddRecordCall_c : Codec ABIAddRecordCall := mkCodec ABIAddRecordCall_EncodedSize ABIAddRecordCall_EncodeTo ABIAddRecordCall_Decode.

Definition AddRecordReturnStaticSize : Z := 32.

Definition ABIAddRecordReturn_EncodedSize (t : ABIAddRecordReturn) : Z :=
  let dynamicSize := 0 in
  AddRecordReturnStaticSize + dynamicSize.

Definition ABIAddRecordReturn_EncodeTo (value : ABIAddRecordReturn) (buf : bytes) : result (bytes * Z) :=
  st ← enc_static uint64_c (arr_RecordId value) 0 (buf, AddRecordReturnStaticSize);
  Ok st.

Definition ABIAddRecordReturn_Decode (data : bytes) : result (ABIAddRecordReturn * Z) :=
  _ ← check_len data 32;
  v_RecordId ← dec_static uint64_c data 0;
  Ok (mkABIAddRecordReturn v_RecordId, 32).

Definition ABIAddRecordReturn_c : Codec ABIAddRecordReturn := mkCodec ABIAddRecordReturn_EncodedSize ABIAddRecordReturn_EncodeTo ABIAddRecordReturn_Decode.

Definition AddRegistryCallStaticSize : Z := 96.

Definition ABIAddRegistryCall_EncodedSize (t : ABIAddRegistryCall) : Z :=
  let dynamicSize := 0 in
  let dynamicSize := dynamicSize + c_Size string_c (agc_Name t) in
  let dynamicSize := dynamicSize + c_Size string_c (agc_Description t) in
  let dynamicSize := dynamicSize + c_Size string_c (agc_Metadata t) in
  AddRegistryCallStaticSize + dynamicSize.

Definition ABIAddRegistryCall_EncodeTo (value : ABIAddRegistryCall) (buf : bytes) : result (bytes * Z) :=
  st ← enc_dynamic string_c (agc_Name value) 0 (buf, AddRegistryCallStaticSize);
  st ← enc_dynamic string_c (agc_Description value) 32 st;
  st ← enc_dynamic string_c (agc_Metadata value) 64 st;
  Ok st.

Definition ABIAddRegistryCall_Decode (data : bytes) : result (ABIAddRegistryCall * Z) :=
  _ ← check_len data 96;
  '(v_Name, dynamicOffset) ← dec_dynamic string_c ErrInvalidOffsetForDynamicField data 0 96;
  '(v_Description, dynamicOffset) ← dec_dynamic string_c ErrInvalidOffsetForDynamicField data 32 dynamicOffset;
  '(v_Metadata, dynamicOffset) ← dec_dynamic string_c ErrInvalidOffsetForDynamicField data 64 dynamicOffset;
  Ok (mkABIAddRegistryCall v_Name v_Description v_Metadata, dynamicOffset).

Definition ABIAddRegistryCall_c : Codec ABIAddRegistryCall := mkCodec ABIAddRegistryCall_EncodedSize ABIAddRegistryCall_EncodeTo ABIAddRegistryCall_Decode.

Definition AddRegistryReturnStaticSize : Z := 32.

Definition ABIAddRegistryReturn_EncodedSize (t : ABIAddRegistryReturn) : Z :=
  let dynamicSize := 0 in
  AddRegistryReturnStaticSize + dynamicSize.

Definition ABIAddRegistryReturn_EncodeTo (value : ABIAddRegistryReturn) (buf : bytes) : result (bytes * Z) :=
  st ← enc_static uint64_c (agr_RegistryId value) 0 (buf, AddRegistryReturnStaticSize);
  Ok st.

Definition ABIAddRegistryReturn_Decode (data : bytes) : result (ABIAddRegistryReturn * Z) :=
  _ ← check_len data 32;
  v_RegistryId ← dec_static uint64_c data 0;
  Ok (mkABIAddRegistryReturn v_RegistryId, 32).

Definition ABIAddRegistryReturn_c : Codec ABIAddRegistryReturn := mkCodec ABIAddRegistryReturn_EncodedSize ABIAddRegistryReturn_EncodeTo ABIAddRegistryReturn_Decode.

Definition GrantRoleCallStaticSize : Z := 128.

Definition ABIGrantRoleCall_EncodedSize (t : ABIGrantRoleCall) : Z :=
  let dynamicSize := 0 in
  let dynamicSize := dynamicSize + c_Size string_c (grc_Checksum t) in
  let dynamicSize := dynamicSize + c_Size string_c (grc_Role t) in
  GrantRoleCallStaticSize + dynamicSize.

Definition ABIGrantRoleCall_EncodeTo (value : ABIGrantRoleCall) (buf : bytes) : result (bytes * Z) :=
  st ← enc_static uint64_c (grc_RegistryId value) 0 (buf, GrantRoleCallStaticSize);
  st ← enc_dynamic string_c (grc_Checksum value) 32 st;
  st ← enc_static address_c (grc_Account value) 64 st;
  st ← enc_dynamic string_c (grc_Role value) 96 st;
  Ok st.

Definition ABIGrantRoleCall_Decode (data : bytes) : result (ABIGrantRoleCall * Z) :=
  _ ← check_len data 128;
  v_RegistryId ← dec_static uint64_c data 0;
  '(v_Checksum, dynamicOffset) ← dec_dynamic string_c ErrInvalidOffsetForDynamicField data 32 128;
  v_Account ← dec_static address_c data 64;
  '(v_Role, dynamicOffset) ← dec_dynamic string_c ErrInvalidOffsetForDynamicField data 96 dynamicOffset;
  Ok (mkABIGrantRoleCall v_RegistryId v_Checksum v_Account v_Role, dynamicOffset).

Definition ABIGrantRoleCall_c : Codec ABIGrantRoleCall := mkCodec ABIGrantRoleCall_EncodedSize ABIGrantRoleCall_EncodeTo ABIGrantRoleCall_Decode.

Definition RecordsCallStaticSize : Z := 160.

Definition ABIRecordsCall_EncodedSize (t : ABIRecordsCall) : Z :=
  let dynamicSize := 0 in
  let dynamicSize := dynamicSize + c_Size string_c (rsc_Checksum t) in
  let dynamicSize := dynamicSize + c_Size ABIPageRequest_c (rsc_Pagination t) in
  RecordsCallStaticSize + dynamicSize.

Definition ABIRecordsCall_EncodeTo (value : ABIRecordsCall) (buf : bytes) : result (bytes * Z) :=
  st ← enc_static uint64_c (rsc_RegistryId value) 0 (buf, RecordsCallStaticSize);
  st ← enc_dynamic string_c (rsc_Checksum value) 32 st;
  st ← enc_static uint64_c (rsc_RecordId value) 64 st;
  st ← enc_static uint64_c (rsc_Index value) 96 st;
  st ← enc_dynamic ABIPageRequest_c (rsc_Pagination value) 128 st;
  Ok st.

Definition ABIRecordsCall_Decode (data : bytes) : result (ABIRecordsCall * Z) :=
  _ ← check_len data 160;
  v_RegistryId ← dec_static uint64_c data 0;
  '(v_Checksum, dynamicOffset) ← dec_dynamic string_c ErrInvalidOffsetForDynamicField data 32 160;
  v_RecordId ← dec_static uint64_c data 64;
  v_Index ← dec_static uint64_c data 96;
  '(v_Pagination, dynamicOffset) ← dec_dynamic ABIPageRequest_c ErrInvalidOffsetForDynamicField data 128 dynamicOffset;
  Ok (mkABIRecordsCall v_RegistryId v_Checksum v_RecordId v_Index v_Pagination, dynamicOffset).

Definition ABIRecordsCall_c : Codec ABIRecordsCall := mkCodec ABIRecordsCall_EncodedSize ABIRecordsCall_EncodeTo ABIRecordsCall_Decode.

Definition RecordsReturnStaticSize : Z := 64.

Definition ABIRecordsReturn_EncodedSize (t : ABIRecordsReturn) : Z :=
  let dynamicSize := 0 in
  let dynamicSize := dynamicSize + c_Size (slice_c ABIRecord_c) (rsr_Records t) in
  let dynamicSize := dynamicSize + c_Size ABIPageResponse_c (rsr_Pagination t) in
  RecordsReturnStaticSize + dynamicSize.

Definition ABIRecordsReturn_EncodeTo (value : ABIRecordsReturn) (buf : bytes) : result (bytes * Z) :=
  st ← enc_dynamic (slice_c ABIRecord_c) (rsr_Records value) 0 (buf, RecordsReturnStaticSize);
  st ← enc_dynamic ABIPageResponse_c (rsr_Pagination value) 32 st;
  Ok st.

Definition ABIRecordsReturn_Decode (data : bytes) : result (ABIRecordsReturn * Z) :=
  _ ← check_len data 64;
  '(v_Records, dynamicOffset) ← dec_dynamic (slice_c ABIRecord_c) ErrInvalidOffsetForDynamicField data 0 64;
  '(v_Pagination, dynamicOffset) ← dec_dynamic ABIPageResponse_c ErrInvalidOffsetForDynamicField data 32 dynamicOffset;
  Ok (mkABIRecordsReturn v_Records v_Pagination, dynamicOffset).

Definition ABIRecordsReturn_c : Codec ABIRecordsReturn := mkCodec ABIRecordsReturn_EncodedSize ABIRecordsReturn_EncodeTo ABIRecordsReturn_Decode.

Definition RegistriesCallStaticSize : Z := 64.

Definition ABIRegistriesCall_EncodedSize (t : ABIRegistriesCall) : Z :=
  let dynamicSize := 0 in
  let dynamicSize := dynamicSize + c_Size ABIPageRequest_c (rgc_Pagination t) in
  RegistriesCallStaticSize + dynamicSize.

Definition ABIRegistriesCall_EncodeTo (value : ABIRegistriesCall) (buf : bytes) : result (bytes * Z) :=
  st ← enc_static uint64_c (rgc_RegistryId value) 0 (buf, RegistriesCallStaticSize);
  st ← enc_dynamic ABIPageRequest_c (rgc_Pagination value) 32 st;
  Ok st.

Definition ABIRegistriesCall_Decode (data : bytes) : result (ABIRegistriesCall * Z) :=
  _ ← check_len data 64;
  v_RegistryId ← dec_static uint64_c data 0;
  '(v_Pagination, dynamicOffset) ← dec_dynamic ABIPageRequest_c ErrInvalidOffsetForDynamicField data 32 64;
  Ok (mkABIRegistriesCall v_RegistryId v_Pagination, dynamicOffset).

Definition ABIRegistriesCall_c : Codec ABIRegistriesCall := mkCodec ABIRegistriesCall_EncodedSize ABIRegistriesCall_EncodeTo ABIRegistriesCall_Decode.

Definition RegistriesReturnStaticSize : Z := 64.

Definition ABIRegistriesReturn_EncodedSize (t : ABIRegistriesReturn) : Z :=
  let dynamicSize := 0 in
  let dynamicSize := dynamicSize + c_Size (slice_c ABIRegistry_c) (rgr_Registries t) in
  let dynamicSize := dynamicSize + c_Size ABIPageResponse_c (rgr_Pagination t) in
  RegistriesReturnStaticSize + dynamicSize.

Definition ABIRegistriesReturn_EncodeTo (value : ABIRegistriesReturn) (buf : bytes) : result (bytes * Z) :=
  st ← enc_dynamic (slice_c ABIRegistry_c) (rgr_Registries value) 0 (buf, RegistriesReturnStaticSize);
  st ← enc_dynamic ABIPageResponse_c (rgr_Pagination value) 32 st;
  Ok st.

Definition ABIRegistriesReturn_Decode (data : bytes) : result (ABIRegistriesReturn * Z) :=
  _ ← check_len data 64;
  '(v_Registries, dynamicOffset) ← dec_dynamic (slice_c ABIRegistry_c) ErrInvalidOffsetForDynamicField data 0 64;
  '(v_Pagination, dynamicOffset) ← dec_dynamic ABIPageResponse_c ErrInvalidOffsetForDynamicField data 32 dynamicOffset;
  Ok (mkABIRegistriesReturn v_Registries v_Pagination, dynamicOffset).

Definition ABIRegistriesReturn_c : Codec ABIRegistriesReturn := mkCodec ABIRegistriesReturn_EncodedSize ABIRegistriesReturn_EncodeTo ABIRegistriesReturn_Decode.

Definition RegistriesByNameCallStaticSize : Z := 96.

Definition ABIRegistriesByNameCall_EncodedSize (t : ABIRegistriesByNameCall) : Z :=
  let dynamicSize := 0 in
  let dynamicSize := dynamicSize + c_Size string_c (rnc_Name t) in
  let dynamicSize := dynamicSize + c_Size ABIPageRequest_c (rnc_Pagination t) in
  RegistriesByNameCallStaticSize + dynamicSize.

Definition ABIRegistriesByNameCall_EncodeTo (value : ABIRegistriesByNameCall) (buf : bytes) : result (bytes * Z) :=
  st ← enc_dynamic string_c (rnc_Name value) 0 (buf, RegistriesByNameCallStaticSize);
  st ← enc_static uint8_c (rnc_MatchMode value) 32 st;
  st ← enc_dynamic ABIPageRequest_c (rnc_Pagination value) 64 st;
  Ok st.

Definition ABIRegistriesByNameCall_Decode (data : bytes) : result (ABIRegistriesByNameCall * Z) :=
  _ ← check_len data 96;
  '(v_Name, dynamicOffset) ← dec_dynamic string_c ErrInvalidOffsetForDynamicField data 0 96;
  v_MatchMode ← dec_static uint8_c data 32;
  '(v_Pagination, dynamicOffset) ← dec_dynamic ABIPageRequest_c ErrInvalidOffsetForDynamicField data 64 dynamicOffset;
  Ok (mkABIRegistriesByNameCall v_Name v_MatchMode v_Pagination, dynamicOffset).

Definition ABIRegistriesByNameCall_c : Codec ABIRegistriesByNameCall := mkCodec ABIRegistriesByNameCall_EncodedSize ABIRegistriesByNameCall_EncodeTo ABIRegistriesByNameCall_Decode.

Definition RegistriesByNameReturnStaticSize : Z := 64.

Definition ABIRegistriesByNameReturn_EncodedSize (t : ABIRegistriesByNameReturn) : Z :=
  let dynamicSize := 0 in
  let dynamicSize := dynamicSize + c_Size (slice_c ABIRegistry_c) (rnr_Registries t) in
  let dynamicSize := dynamicSize + c_Size ABIPageResponse_c (rnr_Pagination t) in
  RegistriesByNameReturnStaticSize + dynamicSize.

Definition ABIRegistriesByNameReturn_EncodeTo (value : ABIRegistriesByNameReturn) (buf : bytes) : result (bytes * Z) :=
  st ← enc_dynamic (slice_c ABIRegistry_c) (rnr_Registries value) 0 (buf, RegistriesByNameReturnStaticSize);
  st ← enc_dynamic ABIPageResponse_c (rnr_Pagination value) 32 st;
  Ok st.

Definition ABIRegistriesByNameReturn_Decode (data : bytes) : result (ABIRegistriesByNameReturn * Z) :=
  _ ← check_len data 64;
  '(v_Registries, dynamicOffset) ← dec_dynamic (slice_c ABIRegistry_c) ErrInvalidOffsetForDynamicField data 0 64;
  '(v_Pagination, dynamicOffset) ← dec_dynamic ABIPageResponse_c ErrInvalidOffsetForDynamicField data 32 dynamicOffset;
  Ok (mkABIRegistriesByNameReturn v_Registries v_Pagination, dynamicOffset).

Definition ABIRegistriesByNameReturn_c : Codec ABIRegistriesByNameReturn := mkCodec ABIRegistriesByNameReturn_EncodedSize ABIRegistriesByNameReturn_EncodeTo ABIRegistriesByNameReturn_Decode.

Definition RevokeRoleCallStaticSize : Z := 128.

Definition ABIRevokeRoleCall_EncodedSize (t : ABIRevokeRoleCall) : Z :=
  let dynamicSize := 0 in
  let dynamicSize := dynamicSize + c_Size string_c (rrc_Checksum t) in
  let dynamicSize := dynamicSize + c_Size string_c (rrc_Role t) in
  RevokeRoleCallStaticSize + dynamicSize.

Definition ABIRevokeRoleCall_EncodeTo (value : ABIRevokeRoleCall) (buf : bytes) : result (bytes * Z) :=
  st ← enc_static uint64_c (rrc_RegistryId value) 0 (buf, RevokeRoleCallStaticSize);
  st ← enc_dynamic string_c (rrc_Checksum value) 32 st;
  st ← enc_static address_c (rrc_Account value) 64 st;
  st ← enc_dynamic string_c (rrc_Role value) 96 st;
  Ok st.

Definition ABIRevokeRoleCall_Decode (data : bytes) : result (ABIRevokeRoleCall * Z) :=
  _ ← check_len data 128;
  v_RegistryId ← dec_static uint64_c data 0;
  '(v_Checksum, dynamicOffset) ← dec_dynamic string_c ErrInvalidOffsetForDynamicField data 32 128;
  v_Account ← dec_static address_c data 64;
  '(v_Role, dynamicOffset) ← dec_dynamic string_c ErrInvalidOffsetForDynamicField data 96 dynamicOffset;
  Ok (mkABIRevokeRoleCall v_RegistryId v_Checksum v_Account v_Role, dynamicOffset).

Definition ABIRevokeRoleCall_c : Codec ABIRevokeRoleCall := mkCodec ABIRevokeRoleCall_EncodedSize ABIRevokeRoleCall_EncodeTo ABIRevokeRoleCall_Decode.

Definition UpdateRecordStatusCallStaticSize : Z := 128.

Definition ABIUpdateRecordStatusCall_EncodedSize (t : ABIUpdateRecordStatusCall) : Z :=
  let dynamicSize := 0 in
  let dynamicSize := dynamicSize + c_Size string_c (usc_Status t) in
  UpdateRecordStatusCallStaticSize + dynamicSize.

Definition ABIUpdateRecordStatusCall_EncodeTo (value : ABIUpdateRecordStatusCall) (buf : bytes) : result (bytes * Z) :=
  st ← enc_static uint64_c (usc_RegistryId value) 0 (buf, UpdateRecordStatusCallStaticSize);
  st ← enc_static uint64_c (usc_RecordId value) 32 st;
  st ← enc_static uint64_c (usc_Index value) 64 st;
  st ← enc_dynamic string_c (usc_Status value) 96 st;
  Ok st.

Definition ABIUpdateRecordStatusCall_Decode (data : bytes) : result (ABIUpdateRecordStatusCall * Z) :=
  _ ← check_len data 128;
  v_RegistryId ← dec_static uint64_c data 0;
  v_RecordId ← dec_static uint64_c data 32;
  v_Index ← dec_static uint64_c data 64;
  '(v_Status, dynamicOffset) ← dec_dynamic string_c ErrInvalidOffsetForDynamicField data 96 128;
  Ok (mkABIUpdateRecordStatusCall v_RegistryId v_RecordId v_Index v_Status, dynamicOffset).

Definition ABIUpdateRecordStatusCall_c : Codec ABIUpdateRecordStatusCall := mkCodec ABIUpdateRecordStatusCall_EncodedSize ABIUpdateRecordStatusCall_EncodeTo ABIUpdateRecordStatusCall_Decode.

Definition AddRecordEventDataStaticSize : Z := 128.

Definition ABIAddRecordEventData_EncodedSize (t : ABIAddRecordEventData) : Z :=
  let dynamicSize := 0 in
  let dynamicSize := dynamicSize + c_Size string_c (ared_Checksum t) in
  AddRecordEventDataStaticSize + dynamicSize.

Definition ABIAddRecordEventData_EncodeTo (value : ABIAddRecordEventData) (buf : bytes) : result (bytes * Z) :=
  st ← enc_static uint64_c (ared_RegistryId value) 0 (buf, AddRecordEventDataStaticSize);
  st ← enc_static uint64_c (ared_RecordId value) 32 st;
  st ← enc_static uint64_c (ared_Index value) 64 st;
  st ← enc_dynamic string_c (ared_Checksum value) 96 st;
  Ok st.

Definition ABIAddRecordEventData_Decode (data : bytes) : result (ABIAddRecordEventData * Z) :=
  _ ← check_len data 128;
  v_RegistryId ← dec_static uint64_c data 0;
  v_RecordId ← dec_static uint64_c data 32;
  v_Index ← dec_static uint64_c data 64;
  '(v_Checksum, dynamicOffset) ← dec_dynamic string_c ErrInvalidOffsetForDynamicField data 96 128;
  Ok (mkABIAddRecordEventData v_RegistryId v_RecordId v_Index v_Checksum, dynamicOffset).

Definition ABIAddRecordEventData_c : Codec ABIAddRecordEventData := mkCodec ABIAddRecordEventData_EncodedSize ABIAddRecordEventData_EncodeTo ABIAddRecordEventData_Decode.

Definition AddRegistryEventDataStaticSize : Z := 64.

Definition ABIAddRegistryEventData_EncodedSize (t : ABIAddRegistryEventData) : Z :=
  let dynamicSize := 0 in
  let dynamicSize := dynamicSize + c_Size string_c (aged_Name t) in
  AddRegistryEventDataStaticSize + dynamicSize.

Definition ABIAddRegistryEventData_EncodeTo (value : ABIAddRegistryEventData) (buf : bytes) : result (bytes * Z) :=
  st ← enc_static uint64_c (aged_RegistryId value) 0 (buf, AddRegistryEventDataStaticSize);
  st ← enc_dynamic string_c (aged_Name value) 32 st;
  Ok st.

Definition ABIAddRegistryEventData_Decode (data : bytes) : result (ABIAddRegistryEventData * Z) :=
  _ ← check_len data 64;
  v_RegistryId ← dec_static uint64_c data 0;
  '(v_Name, dynamicOffset) ← dec_dynamic string_c ErrInvalidOffsetForDynamicField data 32 64;
  Ok (mkABIAddRegistryEventData v_RegistryId v_Name, dynamicOffset).

Definition ABIAddRegistryEventData_c : Codec ABIAddRegistryEventData := mkCodec ABIAddRegistryEventData_EncodedSize ABIAddRegistryEventData_EncodeTo ABIAddRegistryEventData_Decode.

Definition GrantRoleEventDataStaticSize : Z := 128.

Definition ABIGrantRoleEventData_EncodedSize (t : ABIGrantRoleEventData) : Z :=
  let dynamicSize := 0 in
  let dynamicSize := dynamicSize + c_Size string_c (gred_Checksum t) in
  let dynamicSize := dynamicSize + c_Size string_c (gred_Role t) in
  GrantRoleEventDataStaticSize + dynamicSize.

Definition ABIGrantRoleEventData_EncodeTo (value : ABIGrantRoleEventData) (buf : bytes) : result (bytes * Z) :=
  st ← enc_static uint64_c (gred_RegistryId value) 0 (buf, GrantRoleEventDataStaticSize);
  st ← enc_dynamic string_c (gred_Checksum value) 32 st;
  st ← enc_static address_c (gred_Account value) 64 st;
  st ← enc_dynamic string_c (gred_Role value) 96 st;
  Ok st.

Definition ABIGrantRoleEventData_Decode (data : bytes) : result (ABIGrantRoleEventData * Z) :=
  _ ← check_len data 128;
  v_RegistryId ← dec_static uint64_c data 0;
  '(v_Checksum, dynamicOffset) ← dec_dynamic string_c ErrInvalidOffsetForDynamicField data 32 128;
  v_Account ← dec_static address_c data 64;
  '(v_Role, dynamicOffset) ← dec_dynamic string_c ErrInvalidOffsetForDynamicField data 96 dynamicOffset;
  Ok (mkABIGrantRoleEventData v_RegistryId v_Checksum v_Account v_Role, dynamicOffset).

Definition ABIGrantRoleEventData_c : Codec ABIGrantRoleEventData := mkCodec ABIGrantRoleEventData_EncodedSize ABIGrantRoleEventData_EncodeTo ABIGrantRoleEventData_Decode.

Definition RevokeRoleEventDataStaticSize : Z := 128.

Definition ABIRevokeRoleEventData_EncodedSize (t : ABIRevokeRoleEventData) : Z :=
  let dynamicSize := 0 in
  let dynamicSize := dynamicSize + c_Size string_c (rred_Checksum t) in
  let dynamicSize := dynamicSize + c_Size string_c (rred_Role t) in
  RevokeRoleEventDataStaticSize + dynamicSize.

Definition ABIRevokeRoleEventData_EncodeTo (value : ABIRevokeRoleEventData) (buf : bytes) : result (bytes * Z) :=
  st ← enc_static uint64_c (rred_RegistryId value) 0 (buf, RevokeRoleEventDataStaticSize);
  st ← enc_dynamic string_c (rred_Checksum value) 32 st;
  st ← enc_static address_c (rred_Account value) 64 st;
  st ← enc_dynamic string_c (rred_Role value) 96 st;
  Ok st.

Definition ABIRevokeRoleEventData_Decode (data : bytes) : result (ABIRevokeRoleEventData * Z) :=
  _ ← check_len data 128;
  v_RegistryId ← dec_static uint64_c data 0;
  '(v_Checksum, dynamicOffset) ← dec_dynamic string_c ErrInvalidOffsetForDynamicField data 32 128;
  v_Account ← dec_static address_c data 64;
  '(v_Role, dynamicOffset) ← dec_dynamic string_c ErrInvalidOffsetForDynamicField data 96 dynamicOffset;
  Ok (mkABIRevokeRoleEventData v_RegistryId v_Checksum v_Account v_Role, dynamicOffset).

Definition ABIRevokeRoleEventData_c : Codec ABIRevokeRoleEventData := mkCodec ABIRevokeRoleEventData_EncodedSize ABIRevokeRoleEventData_EncodeTo ABIRevokeRoleEventData_Decode.

Definition UpdateRecordStatusEventDataStaticSize : Z := 128.

Definition ABIUpdateRecordStatusEventData_EncodedSize (t : ABIUpdateRecordStatusEventData) : Z :=
  let dynamicSize := 0 in
  let dynamicSize := dynamicSize + c_Size string_c (used_Status t) in
  UpdateRecordStatusEventDataStaticSize + dynamicSize.

Definition ABIUpdateRecordStatusEventData_EncodeTo (value : ABIUpdateRecordStatusEventData) (buf : bytes) : result (bytes * Z) :=
  st ← enc_static uint64_c (used_RegistryId value) 0 (buf, UpdateRecordStatusEventDataStaticSize);
  st ← enc_static uint64_c (used_RecordId value) 32 st;
  st ← enc_static uint64_c (used_Index value) 64 st;
  st ← enc_dynamic string_c (used_Status value) 96 st;
  Ok st.

Definition ABIUpdateRecordStatusEventData_Decode (data : bytes) : result (ABIUpdateRecordStatusEventData * Z) :=
  _ ← check_len data 128;
  v_RegistryId ← dec_static uint64_c data 0;
  v_RecordId ← dec_static uint64_c data 32;
  v_Index ← dec_static uint64_c data 64;
  '(v_Status, dynamicOffset) ← dec_dynamic string_c ErrInvalidOffsetForDynamicField data 96 128;
  Ok (mkABIUpdateRecordStatusEventData v_RegistryId v_RecordId v_Index v_Status, dynamicOffset).

Definition ABIUpdateRecordStatusEventData_c : Codec ABIUpdateRecordStatusEventData := mkCodec ABIUpdateRecordStatusEventData_EncodedSize ABIUpdateRecordStatusEventData_EncodeTo ABIUpdateRecordStatusEventData_Decode.
End tuples.

(** ** Events *)

Definition AddRecordEventTopic : bytes :=
  [x1a; x32; x95; xfa; x8c; xc0; xe2; x8c; x95; xd2; x19; x12; xc9; xe6; x95; x8f;
   x3b; xc7; x40; x23; x17; x81; xf7; x64; x0a; xd8; x85; xc9; x72; xa3; x52; xfd].

Definition AddRegistryEventTopic : bytes :=
  [x18; x17; x91; xbc; x37; x9a; xce; xdd; x36; x15; xcf; x06; x5d; x3c; x27; x5d;
   xfa; x6a; x3c; x46; x14; xc9; x06; x5d; x54; xc9; x87; x73; xf5; x76; x10; x8d].

Definition GrantRoleEventTopic : bytes :=
  [x0f; x49; xe3; x65; xba; xf9; x0d; xeb; x7d; x1f; x63; xe5; x76; x63; x79; x07;
   xe1; x2d; x1d; xdc; x75; xd1; xac; x68; x89; x4a; x2b; xcd; x19; x2b; x6d; xdb].

Definition RevokeRoleEventTopic : bytes :=
  [x82; x36; xb7; x6c; xce; x80; xea; xf6; x9b; x54; xd8; x92; x68; xd0; x0f; xda;
   x3d; xec; x9e; x5e; x05; x4f; x15; x48; xeb; xbb; x1f; x8b; x20; xb3; xb0; x8b].

Definition UpdateRecordStatusEventTopic : bytes :=
  [xd7; xb7; x54; x57; xd4; x12; x93; xea; xb4; x82; x99; x75; xc9; x51; xce; x8c;
   x53; x10; x68; x66; xf0; xc4; x29; xd1; x75; xfc; x6c; x91; xcd; xad; x5a; xde].

Definition ErrInvalidNumberOfTopics : err := ErrPlain "invalid number of topics".
Definition ErrInvalidEventTopic : err := ErrPlain "invalid event topic".

Section events.
Context {LIB : AbiLib}.

(** The body of every [EncodeTopics]: the event's topic and the indexed caller. *)
Definition EncodeTopics (topic Caller : bytes) : result (list bytes) :=
  '(hash, _) ← c_EncodeTo address_c Caller (replicate 32 x00);
  Ok [topic; hash].

Definition DecodeTopics (topic : bytes) (topics : list bytes) : result bytes :=
  match topics with
  | [t0; t1] =>
      _ ← guard_err (negb (bool_decide (t0 = topic))) ErrInvalidEventTopic;
      '(Caller, _) ← c_Decode address_c t1;
      Ok Caller
  | _ => Err ErrInvalidNumberOfTopics
  end.

Definition AddRecordEventIndexed_EncodeTopics : bytes -> result (list bytes) := EncodeTopics AddRecordEventTopic.
Definition AddRecordEventIndexed_DecodeTopics : list bytes -> result bytes := DecodeTopics AddRecordEventTopic.

Definition AddRegistryEventIndexed_EncodeTopics : bytes -> result (list bytes) := EncodeTopics AddRegistryEventTopic.
Definition AddRegistryEventIndexed_DecodeTopics : list bytes -> result bytes := DecodeTopics AddRegistryEventTopic.

Definition GrantRoleEventIndexed_EncodeTopics : bytes -> result (list bytes) := EncodeTopics GrantRoleEventTopic.
Definition GrantRoleEventIndexed_DecodeTopics : list bytes -> result bytes := DecodeTopics GrantRoleEventTopic.

Definition RevokeRoleEventIndexed_EncodeTopics : bytes -> result (list bytes) := EncodeTopics RevokeRoleEventTopic.
Definition RevokeRoleEventIndexed_DecodeTopics : list bytes -> result bytes := DecodeTopics RevokeRoleEventTopic.

Definition UpdateRecordStatusEventIndexed_EncodeTopics : bytes -> result (list bytes) := EncodeTopics UpdateRecordStatusEventTopic.
Definition UpdateRecordStatusEventIndexed_DecodeTopics : list bytes -> result bytes := DecodeTopics UpdateRecordStatusEventTopic.

(** An event: the indexed caller and the data tuple. *)
Inductive AbiEvent :=
| AddRecordEvent (Caller : bytes) (data : ABIAddRecordEventData)
| AddRegistryEvent (Caller : bytes) (data : ABIAddRegistryEventData)
| GrantRoleEvent (Caller : bytes) (data : ABIGrantRoleEventData)
| RevokeRoleEvent (Caller : bytes) (data : ABIRevokeRoleEventData)
| UpdateRecordStatusEvent (Caller : bytes) (data : ABIUpdateRecordStatusEventData).

Definition NewAddRecordEvent (caller : bytes) (registryId recordId index : Z) (checksum : bytes) : AbiEvent :=
  AddRecordEvent caller (mkABIAddRecordEventData registryId recordId index checksum).

Definition NewAddRegistryEvent (caller : bytes) (registryId : Z) (name : bytes) : AbiEvent :=
  AddRegistryEvent caller (mkABIAddRegistryEventData registryId name).

Definition NewGrantRoleEvent (caller : bytes) (registryId : Z) (checksum account role : bytes) : AbiEvent :=
  GrantRoleEvent caller (mkABIGrantRoleEventData registryId checksum account role).

Definition NewRevokeRoleEvent (caller : bytes) (registryId : Z) (checksum account role : bytes) : AbiEvent :=
  RevokeRoleEvent caller (mkABIRevokeRoleEventData registryId checksum account role).

Definition NewUpdateRecordStatusEvent (caller : bytes) (registryId recordId index : Z) (status : bytes) : AbiEvent :=
  UpdateRecordStatusEvent caller (mkABIUpdateRecordStatusEventData registryId recordId index status).

(** The methods of [abi.Event]. *)
Definition event_EncodeTopics (ev : AbiEvent) : result (list bytes) :=
  match ev with
  | AddRecordEvent Caller _ => AddRecordEventIndexed_EncodeTopics Caller
  | AddRegistryEvent Caller _ => AddRegistryEventIndexed_EncodeTopics Caller
  | GrantRoleEvent Caller _ => GrantRoleEventIndexed_EncodeTopics Caller
  | RevokeRoleEvent Caller _ => RevokeRoleEventIndexed_EncodeTopics Caller
  | UpdateRecordStatusEvent Caller _ => UpdateRecordStatusEventIndexed_EncodeTopics Caller
  end.

Definition event_Encode (ev : AbiEvent) : result bytes :=
  match ev with
  | AddRecordEvent _ data => abi_Encode ABIAddRecordEventData_c data
  | AddRegistryEvent _ data => abi_Encode ABIAddRegistryEventData_c data
  | GrantRoleEvent _ data => abi_Encode ABIGrantRoleEventData_c data
  | RevokeRoleEvent _ data => abi_Encode ABIRevokeRoleEventData_c data
  | UpdateRecordStatusEvent _ data => abi_Encode ABIUpdateRecordStatusEventData_c data
  end.

(** A reader of logs: the topics name the event, the data holds its tuple. *)
Definition event_Decode (topics : list bytes) (data : bytes) : result AbiEvent :=
  let try {A} (decode_topics : list bytes -> result bytes) (c : Codec A) (mk : bytes -> A -> AbiEvent)
      (next : result AbiEvent) : result AbiEvent :=
    match decode_topics topics with
    | Ok caller => '(x, _) ← c_Decode c data; Ok (mk caller x)
    | Err _ => next
    end in
  try AddRecordEventIndexed_DecodeTopics ABIAddRecordEventData_c AddRecordEvent (
  try AddRegistryEventIndexed_DecodeTopics ABIAddRegistryEventData_c AddRegistryEvent (
  try GrantRoleEventIndexed_DecodeTopics ABIGrantRoleEventData_c GrantRoleEvent (
  try RevokeRoleEventIndexed_DecodeTopics ABIRevokeRoleEventData_c RevokeRoleEvent (
  try UpdateRecordStatusEventIndexed_DecodeTopics ABIUpdateRecordStatusEventData_c UpdateRecordStatusEvent (
  Err ErrInvalidEventTopic))))).
End events.

(** ** The tuples are lawful *)

(** The five obligations of [lawful_tuple], from the code of the tuple. *)
Tactic Notation "lawful_by" uconstr(law) reference(codec) reference(size) reference(enc) reference(dec)
    reference(fields_ok) reference(parts) :=
  refine law; cbn [codec c_Size c_EncodeTo c_Decode];
  [ intros x Hx; unfold parts; words
  | intros x Hx; unfold fields_ok in Hx; destruct_and? Hx; unfold parts, size; size_steps
  | intros x rest Hx; unfold fields_ok in Hx; destruct_and? Hx; unfold enc;
    match goal with |- context [(fst ?st, ?n)] => change (fst st, n) with st end;
    unfold parts; enc_steps
  | intros [] rest Hx Hp; unfold fields_ok in Hx; destruct_and? Hx;
    unfold dec; erewrite check_len_at; [|apply Hp|reflexivity]; cbn [mbind result_bind];
    repeat dec_step; reflexivity
  | intros data; unfold dec; bound_steps ].

Section lawful_tuples.
Context {LIB : AbiLib} {LAWS : AbiLibLaws}.

Definition ABIPageRequest_fields_ok (x : ABIPageRequest) : Prop :=
  c_ok bytes_c (pq_Key x) /\
  c_ok uint64_c (pq_Offset x) /\
  c_ok uint64_c (pq_Limit x) /\
  c_ok bool_c (pq_CountTotal x) /\
  c_ok bool_c (pq_Reverse x).

Definition ABIPageRequest_parts (x : ABIPageRequest) : list Part :=
  [Dyn (c_enc bytes_c (pq_Key x));
   Stat (c_enc uint64_c (pq_Offset x));
   Stat (c_enc uint64_c (pq_Limit x));
   Stat (c_enc bool_c (pq_CountTotal x));
   Stat (c_enc bool_c (pq_Reverse x))].

#[export] Instance ABIPageRequest_lawful : Lawful ABIPageRequest_c.
Proof.
  lawful_by (lawful_tuple ABIPageRequest_c ABIPageRequest_fields_ok ABIPageRequest_parts _ _ _ _ _)
    ABIPageRequest_c ABIPageRequest_EncodedSize ABIPageRequest_EncodeTo ABIPageRequest_Decode ABIPageRequest_fields_ok ABIPageRequest_parts.
Defined.

Definition ABIPageResponse_fields_ok (x : ABIPageResponse) : Prop :=
  c_ok bytes_c (pp_NextKey x) /\
  c_ok uint64_c (pp_Total x).

Definition ABIPageResponse_parts (x : ABIPageResponse) : list Part :=
  [Dyn (c_enc bytes_c (pp_NextKey x));
   Stat (c_enc uint64_c (pp_Total x))].

#[export] Instance ABIPageResponse_lawful : Lawful ABIPageResponse_c.
Proof.
  lawful_by (lawful_tuple ABIPageResponse_c ABIPageResponse_fields_ok ABIPageResponse_parts _ _ _ _ _)
    ABIPageResponse_c ABIPageResponse_EncodedSize ABIPageResponse_EncodeTo ABIPageResponse_Decode ABIPageResponse_fields_ok ABIPageResponse_parts.
Defined.

Definition ABIRecord_fields_ok (x : ABIRecord) : Prop :=
  c_ok string_c (abr_Uri x) /\
  c_ok string_c (abr_Checksum x) /\
  c_ok string_c (abr_ChecksumAlgo x) /\
  c_ok string_c (abr_Metadata x) /\
  c_ok string_c (abr_Timestamp x) /\
  c_ok string_c (abr_Status x) /\
  c_ok uint64_c (abr_RecordId x) /\
  c_ok uint64_c (abr_Index x) /\
  c_ok bool_c (abr_IsLatest x) /\
  c_ok uint64_c (abr_RegistryId x).

Definition ABIRecord_parts (x : ABIRecord) : list Part :=
  [Dyn (c_enc string_c (abr_Uri x));
   Dyn (c_enc string_c (abr_Checksum x));
   Dyn (c_enc string_c (abr_ChecksumAlgo x));
   Dyn (c_enc string_c (abr_Metadata x));
   Dyn (c_enc string_c (abr_Timestamp x));
   Dyn (c_enc string_c (abr_Status x));
   Stat (c_enc uint64_c (abr_RecordId x));
   Stat (c_enc uint64_c (abr_Index x));
   Stat (c_enc bool_c (abr_IsLatest x));
   Stat (c_enc uint64_c (abr_RegistryId x))].

#[export] Instance ABIRecord_lawful : Lawful ABIRecord_c.
Proof.
  lawful_by (lawful_tuple ABIRecord_c ABIRecord_fields_ok ABIRecord_parts _ _ _ _ _)
    ABIRecord_c ABIRecord_EncodedSize ABIRecord_EncodeTo ABIRecord_Decode ABIRecord_fields_ok ABIRecord_parts.
Defined.

Definition ABIRegistry_fields_ok (x : ABIRegistry) : Prop :=
  c_ok uint64_c (abg_Id x) /\
  c_ok string_c (abg_Name x) /\
  c_ok string_c (abg_Description x) /\
  c_ok string_c (abg_Creator x) /\
  c_ok string_c (abg_CreatedAt x) /\
  c_ok string_c (abg_Metadata x).

Definition ABIRegistry_parts (x : ABIRegistry) : list Part :=
  [Stat (c_enc uint64_c (abg_Id x));
   Dyn (c_enc string_c (abg_Name x));
   Dyn (c_enc string_c (abg_Description x));
   Dyn (c_enc string_c (abg_Creator x));
   Dyn (c_enc string_c (abg_CreatedAt x));
   Dyn (c_enc string_c (abg_Metadata x))].

#[export] Instance ABIRegistry_lawful : Lawful ABIRegistry_c.
Proof.
  lawful_by (lawful_tuple ABIRegistry_c ABIRegistry_fields_ok ABIRegistry_parts _ _ _ _ _)
    ABIRegistry_c ABIRegistry_EncodedSize ABIRegistry_EncodeTo ABIRegistry_Decode ABIRegistry_fields_ok ABIRegistry_parts.
Defined.

Definition ABIAddRecordCall_fields_ok (x : ABIAddRecordCall) : Prop :=
  c_ok ABIRecord_c (arc_Record x).

Definition ABIAddRecordCall_parts (x : ABIAddRecordCall) : list Part :=
  [Dyn (c_enc ABIRecord_c (arc_Record x))].

#[export] Instance ABIAddRecordCall_lawful : Lawful ABIAddRecordCall_c.
Proof.
  lawful_by (lawful_tuple ABIAddRecordCall_c ABIAddRecordCall_fields_ok ABIAddRecordCall_parts _ _ _ _ _)
    ABIAddRecordCall_c ABIAddRecordCall_EncodedSize ABIAddRecordCall_EncodeTo ABIAddRecordCall_Decode ABIAddRecordCall_fields_ok ABIAddRecordCall_parts.
Defined.

Definition ABIAddRecordReturn_fields_ok (x : ABIAddRecordReturn) : Prop :=
  c_ok uint64_c (arr_RecordId x).

Definition ABIAddRecordReturn_parts (x : ABIAddRecordReturn) : list Part :=
  [Stat (c_enc uint64_c (arr_RecordId x))].

#[export] Instance ABIAddRecordReturn_lawful : Lawful ABIAddRecordReturn_c.
Proof.
  lawful_by (lawful_tuple ABIAddRecordReturn_c ABIAddRecordReturn_fields_ok ABIAddRecordReturn_parts _ _ _ _ _)
    ABIAddRecordReturn_c ABIAddRecordReturn_EncodedSize ABIAddRecordReturn_EncodeTo ABIAddRecordReturn_Decode ABIAddRecordReturn_fields_ok ABIAddRecordReturn_parts.
Defined.

Definition ABIAddRegistryCall_fields_ok (x : ABIAddRegistryCall) : Prop :=
  c_ok string_c (agc_Name x) /\
  c_ok string_c (agc_Description x) /\
  c_ok string_c (agc_Metadata x).

Definition ABIAddRegistryCall_parts (x : ABIAddRegistryCall) : list Part :=
  [Dyn (c_enc string_c (agc_Name x));
   Dyn (c_enc string_c (agc_Description x));
   Dyn (c_enc string_c (agc_Metadata x))].

#[export] Instance ABIAddRegistryCall_lawful : Lawful ABIAddRegistryCall_c.
Proof.
  lawful_by (lawful_tuple ABIAddRegistryCall_c ABIAddRegistryCall_fields_ok ABIAddRegistryCall_parts _ _ _ _ _)
    ABIAddRegistryCall_c ABIAddRegistryCall_EncodedSize ABIAddRegistryCall_EncodeTo ABIAddRegistryCall_Decode ABIAddRegistryCall_fields_ok ABIAddRegistryCall_parts.
Defined.

Definition ABIAddRegistryReturn_fields_ok (x : ABIAddRegistryReturn) : Prop :=
  c_ok uint64_c (agr_RegistryId x).

Definition ABIAddRegistryReturn_parts (x : ABIAddRegistryReturn) : list Part :=
  [Stat (c_enc uint64_c (agr_RegistryId x))].

#[export] Instance ABIAddRegistryReturn_lawful : Lawful ABIAddRegistryReturn_c.
Proof.
  lawful_by (lawful_tuple ABIAddRegistryReturn_c ABIAddRegistryReturn_fields_ok ABIAddRegistryReturn_parts _ _ _ _ _)
    ABIAddRegistryReturn_c ABIAddRegistryReturn_EncodedSize ABIAddRegistryReturn_EncodeTo ABIAddRegistryReturn_Decode ABIAddRegistryReturn_fields_ok ABIAddRegistryReturn_parts.
Defined.

Definition ABIGrantRoleCall_fields_ok (x : ABIGrantRoleCall) : Prop :=
  c_ok uint64_c (grc_RegistryId x) /\
  c_ok string_c (grc_Checksum x) /\
  c_ok address_c (grc_Account x) /\
  c_ok string_c (grc_Role x).

Definition ABIGrantRoleCall_parts (x : ABIGrantRoleCall) : list Part :=
  [Stat (c_enc uint64_c (grc_RegistryId x));
   Dyn (c_enc string_c (grc_Checksum x));
   Stat (c_enc address_c (grc_Account x));
   Dyn (c_enc string_c (grc_Role x))].

#[export] Instance ABIGrantRoleCall_lawful : Lawful ABIGrantRoleCall_c.
Proof.
  lawful_by (lawful_tuple ABIGrantRoleCall_c ABIGrantRoleCall_fields_ok ABIGrantRoleCall_parts _ _ _ _ _)
    ABIGrantRoleCall_c ABIGrantRoleCall_EncodedSize ABIGrantRoleCall_EncodeTo ABIGrantRoleCall_Decode ABIGrantRoleCall_fields_ok ABIGrantRoleCall_parts.
Defined.

Definition ABIRecordsCall_fields_ok (x : ABIRecordsCall) : Prop :=
  c_ok uint64_c (rsc_RegistryId x) /\
  c_ok string_c (rsc_Checksum x) /\
  c_ok uint64_c (rsc_RecordId x) /\
  c_ok uint64_c (rsc_Index x) /\
  c_ok ABIPageRequest_c (rsc_Pagination x).

Definition ABIRecordsCall_parts (x : ABIRecordsCall) : list Part :=
  [Stat (c_enc uint64_c (rsc_RegistryId x));
   Dyn (c_enc string_c (rsc_Checksum x));
   Stat (c_enc uint64_c (rsc_RecordId x));
   Stat (c_enc uint64_c (rsc_Index x));
   Dyn (c_enc ABIPageRequest_c (rsc_Pagination x))].

#[export] Instance ABIRecordsCall_lawful : Lawful ABIRecordsCall_c.
Proof.
  lawful_by (lawful_tuple ABIRecordsCall_c ABIRecordsCall_fields_ok ABIRecordsCall_parts _ _ _ _ _)
    ABIRecordsCall_c ABIRecordsCall_EncodedSize ABIRecordsCall_EncodeTo ABIRecordsCall_Decode ABIRecordsCall_fields_ok ABIRecordsCall_parts.
Defined.

Definition ABIRecordsReturn_fields_ok (x : ABIRecordsReturn) : Prop :=
  c_ok (slice_c ABIRecord_c) (rsr_Records x) /\
  c_ok ABIPageResponse_c (rsr_Pagination x).

Definition ABIRecordsReturn_parts (x : ABIRecordsReturn) : list Part :=
  [Dyn (c_enc (slice_c ABIRecord_c) (rsr_Records x));
   Dyn (c_enc ABIPageResponse_c (rsr_Pagination x))].

#[export] Instance ABIRecordsReturn_lawful : Lawful ABIRecordsReturn_c.
Proof.
  lawful_by (lawful_tuple ABIRecordsReturn_c ABIRecordsReturn_fields_ok ABIRecordsReturn_parts _ _ _ _ _)
    ABIRecordsReturn_c ABIRecordsReturn_EncodedSize ABIRecordsReturn_EncodeTo ABIRecordsReturn_Decode ABIRecordsReturn_fields_ok ABIRecordsReturn_parts.
Defined.

Definition ABIRegistriesCall_fields_ok (x : ABIRegistriesCall) : Prop :=
  c_ok uint64_c (rgc_RegistryId x) /\
  c_ok ABIPageRequest_c (rgc_Pagination x).

Definition ABIRegistriesCall_parts (x : ABIRegistriesCall) : list Part :=
  [Stat (c_enc uint64_c (rgc_RegistryId x));
   Dyn (c_enc ABIPageRequest_c (rgc_Pagination x))].

#[export] Instance ABIRegistriesCall_lawful : Lawful ABIRegistriesCall_c.
Proof.
  lawful_by (lawful_tuple ABIRegistriesCall_c ABIRegistriesCall_fields_ok ABIRegistriesCall_parts _ _ _ _ _)
    ABIRegistriesCall_c ABIRegistriesCall_EncodedSize ABIRegistriesCall_EncodeTo ABIRegistriesCall_Decode ABIRegistriesCall_fields_ok ABIRegistriesCall_parts.
Defined.

Definition ABIRegistriesReturn_fields_ok (x : ABIRegistriesReturn) : Prop :=
  c_ok (slice_c ABIRegistry_c) (rgr_Registries x) /\
  c_ok ABIPageResponse_c (rgr_Pagination x).

Definition ABIRegistriesReturn_parts (x : ABIRegistriesReturn) : list Part :=
  [Dyn (c_enc (slice_c ABIRegistry_c) (rgr_Registries x));
   Dyn (c_enc ABIPageResponse_c (rgr_Pagination x))].

#[export] Instance ABIRegistriesReturn_lawful : Lawful ABIRegistriesReturn_c.
Proof.
  lawful_by (lawful_tuple ABIRegistriesReturn_c ABIRegistriesReturn_fields_ok ABIRegistriesReturn_parts _ _ _ _ _)
    ABIRegistriesReturn_c ABIRegistriesReturn_EncodedSize ABIRegistriesReturn_EncodeTo ABIRegistriesReturn_Decode ABIRegistriesReturn_fields_ok ABIRegistriesReturn_parts.
Defined.

Definition ABIRegistriesByNameCall_fields_ok (x : ABIRegistriesByNameCall) : Prop :=
  c_ok string_c (rnc_Name x) /\
  c_ok uint8_c (rnc_MatchMode x) /\
  c_ok ABIPageRequest_c (rnc_Pagination x).

Definition ABIRegistriesByNameCall_parts (x : ABIRegistriesByNameCall) : list Part :=
  [Dyn (c_enc string_c (rnc_Name x));
   Stat (c_enc uint8_c (rnc_MatchMode x));
   Dyn (c_enc ABIPageRequest_c (rnc_Pagination x))].

#[export] Instance ABIRegistriesByNameCall_lawful : Lawful ABIRegistriesByNameCall_c.
Proof.
  lawful_by (lawful_tuple ABIRegistriesByNameCall_c ABIRegistriesByNameCall_fields_ok ABIRegistriesByNameCall_parts _ _ _ _ _)
    ABIRegistriesByNameCall_c ABIRegistriesByNameCall_EncodedSize ABIRegistriesByNameCall_EncodeTo ABIRegistriesByNameCall_Decode ABIRegistriesByNameCall_fields_ok ABIRegistriesByNameCall_parts.
Defined.

Definition ABIRegistriesByNameReturn_fields_ok (x : ABIRegistriesByNameReturn) : Prop :=
  c_ok (slice_c ABIRegistry_c) (rnr_Registries x) /\
  c_ok ABIPageResponse_c (rnr_Pagination x).

Definition ABIRegistriesByNameReturn_parts (x : ABIRegistriesByNameReturn) : list Part :=
  [Dyn (c_enc (slice_c ABIRegistry_c) (rnr_Registries x));
   Dyn (c_enc ABIPageResponse_c (rnr_Pagination x))].

#[export] Instance ABIRegistriesByNameReturn_lawful : Lawful ABIRegistriesByNameReturn_c.
Proof.
  lawful_by (lawful_tuple ABIRegistriesByNameReturn_c ABIRegistriesByNameReturn_fields_ok ABIRegistriesByNameReturn_parts _ _ _ _ _)
    ABIRegistriesByNameReturn_c ABIRegistriesByNameReturn_EncodedSize ABIRegistriesByNameReturn_EncodeTo ABIRegistriesByNameReturn_Decode ABIRegistriesByNameReturn_fields_ok ABIRegistriesByNameReturn_parts.
Defined.

Definition ABIRevokeRoleCall_fields_ok (x : ABIRevokeRoleCall) : Prop :=
  c_ok uint64_c (rrc_RegistryId x) /\
  c_ok string_c (rrc_Checksum x) /\
  c_ok address_c (rrc_Account x) /\
  c_ok string_c (rrc_Role x).

Definition ABIRevokeRoleCall_parts (x : ABIRevokeRoleCall) : list Part :=
  [Stat (c_enc uint64_c (rrc_RegistryId x));
   Dyn (c_enc string_c (rrc_Checksum x));
   Stat (c_enc address_c (rrc_Account x));
   Dyn (c_enc string_c (rrc_Role x))].

#[export] Instance ABIRevokeRoleCall_lawful : Lawful ABIRevokeRoleCall_c.
Proof.
  lawful_by (lawful_tuple ABIRevokeRoleCall_c ABIRevokeRoleCall_fields_ok ABIRevokeRoleCall_parts _ _ _ _ _)
    ABIRevokeRoleCall_c ABIRevokeRoleCall_EncodedSize ABIRevokeRoleCall_EncodeTo ABIRevokeRoleCall_Decode ABIRevokeRoleCall_fields_ok ABIRevokeRoleCall_parts.
Defined.

Definition ABIUpdateRecordStatusCall_fields_ok (x : ABIUpdateRecordStatusCall) : Prop :=
  c_ok uint64_c (usc_RegistryId x) /\
  c_ok uint64_c (usc_RecordId x) /\
  c_ok uint64_c (usc_Index x) /\
  c_ok string_c (usc_Status x).

Definition ABIUpdateRecordStatusCall_parts (x : ABIUpdateRecordStatusCall) : list Part :=
  [Stat (c_enc uint64_c (usc_RegistryId x));
   Stat (c_enc uint64_c (usc_RecordId x));
   Stat (c_enc uint64_c (usc_Index x));
   Dyn (c_enc string_c (usc_Status x))].

#[export] Instance ABIUpdateRecordStatusCall_lawful : Lawful ABIUpdateRecordStatusCall_c.
Proof.
  lawful_by (lawful_tuple ABIUpdateRecordStatusCall_c ABIUpdateRecordStatusCall_fields_ok ABIUpdateRecordStatusCall_parts _ _ _ _ _)
    ABIUpdateRecordStatusCall_c ABIUpdateRecordStatusCall_EncodedSize ABIUpdateRecordStatusCall_EncodeTo ABIUpdateRecordStatusCall_Decode ABIUpdateRecordStatusCall_fields_ok ABIUpdateRecordStatusCall_parts.
Defined.

Definition ABIAddRecordEventData_fields_ok (x : ABIAddRecordEventData) : Prop :=
  c_ok uint64_c (ared_RegistryId x) /\
  c_ok uint64_c (ared_RecordId x) /\
  c_ok uint64_c (ared_Index x) /\
  c_ok string_c (ared_Checksum x).

Definition ABIAddRecordEventData_parts (x : ABIAddRecordEventData) : list Part :=
  [Stat (c_enc uint64_c (ared_RegistryId x));
   Stat (c_enc uint64_c (ared_RecordId x));
   Stat (c_enc uint64_c (ared_Index x));
   Dyn (c_enc string_c (ared_Checksum x))].

#[export] Instance ABIAddRecordEventData_lawful : Lawful ABIAddRecordEventData_c.
Proof.
  lawful_by (lawful_tuple ABIAddRecordEventData_c ABIAddRecordEventData_fields_ok ABIAddRecordEventData_parts _ _ _ _ _)
    ABIAddRecordEventData_c ABIAddRecordEventData_EncodedSize ABIAddRecordEventData_EncodeTo ABIAddRecordEventData_Decode ABIAddRecordEventData_fields_ok ABIAddRecordEventData_parts.
Defined.

Definition ABIAddRegistryEventData_fields_ok (x : ABIAddRegistryEventData) : Prop :=
  c_ok uint64_c (aged_RegistryId x) /\
  c_ok string_c (aged_Name x).

Definition ABIAddRegistryEventData_parts (x : ABIAddRegistryEventData) : list Part :=
  [Stat (c_enc uint64_c (aged_RegistryId x));
   Dyn (c_enc string_c (aged_Name x))].

#[export] Instance ABIAddRegistryEventData_lawful : Lawful ABIAddRegistryEventData_c.
Proof.
  lawful_by (lawful_tuple ABIAddRegistryEventData_c ABIAddRegistryEventData_fields_ok ABIAddRegistryEventData_parts _ _ _ _ _)
    ABIAddRegistryEventData_c ABIAddRegistryEventData_EncodedSize ABIAddRegistryEventData_EncodeTo ABIAddRegistryEventData_Decode ABIAddRegistryEventData_fields_ok ABIAddRegistryEventData_parts.
Defined.

Definition ABIGrantRoleEventData_fields_ok (x : ABIGrantRoleEventData) : Prop :=
  c_ok uint64_c (gred_RegistryId x) /\
  c_ok string_c (gred_Checksum x) /\
  c_ok address_c (gred_Account x) /\
  c_ok string_c (gred_Role x).

Definition ABIGrantRoleEventData_parts (x : ABIGrantRoleEventData) : list Part :=
  [Stat (c_enc uint64_c (gred_RegistryId x));
   Dyn (c_enc string_c (gred_Checksum x));
   Stat (c_enc address_c (gred_Account x));
   Dyn (c_enc string_c (gred_Role x))].

#[export] Instance ABIGrantRoleEventData_lawful : Lawful ABIGrantRoleEventData_c.
Proof.
  lawful_by (lawful_tuple ABIGrantRoleEventData_c ABIGrantRoleEventData_fields_ok ABIGrantRoleEventData_parts _ _ _ _ _)
    ABIGrantRoleEventData_c ABIGrantRoleEventData_EncodedSize ABIGrantRoleEventData_EncodeTo ABIGrantRoleEventData_Decode ABIGrantRoleEventData_fields_ok ABIGrantRoleEventData_parts.
Defined.

Definition ABIRevokeRoleEventData_fields_ok (x : ABIRevokeRoleEventData) : Prop :=
  c_ok uint64_c (rred_RegistryId x) /\
  c_ok string_c (rred_Checksum x) /\
  c_ok address_c (rred_Account x) /\
  c_ok string_c (rred_Role x).

Definition ABIRevokeRoleEventData_parts (x : ABIRevokeRoleEventData) : list Part :=
  [Stat (c_enc uint64_c (rred_RegistryId x));
   Dyn (c_enc string_c (rred_Checksum x));
   Stat (c_enc address_c (rred_Account x));
   Dyn (c_enc string_c (rred_Role x))].

#[export] Instance ABIRevokeRoleEventData_lawful : Lawful ABIRevokeRoleEventData_c.
Proof.
  lawful_by (lawful_tuple ABIRevokeRoleEventData_c ABIRevokeRoleEventData_fields_ok ABIRevokeRoleEventData_parts _ _ _ _ _)
    ABIRevokeRoleEventData_c ABIRevokeRoleEventData_EncodedSize ABIRevokeRoleEventData_EncodeTo ABIRevokeRoleEventData_Decode ABIRevokeRoleEventData_fields_ok ABIRevokeRoleEventData_parts.
Defined.

Definition ABIUpdateRecordStatusEventData_fields_ok (x : ABIUpdateRecordStatusEventData) : Prop :=
  c_ok uint64_c (used_RegistryId x) /\
  c_ok uint64_c (used_RecordId x) /\
  c_ok uint64_c (used_Index x) /\
  c_ok string_c (used_Status x).

Definition ABIUpdateRecordStatusEventData_parts (x : ABIUpdateRecordStatusEventData) : list Part :=
  [Stat (c_enc uint64_c (used_RegistryId x));
   Stat (c_enc uint64_c (used_RecordId x));
   Stat (c_enc uint64_c (used_Index x));
   Dyn (c_enc string_c (used_Status x))].

#[export] Instance ABIUpdateRecordStatusEventData_lawful : Lawful ABIUpdateRecordStatusEventData_c.
Proof.
  lawful_by (lawful_tuple ABIUpdateRecordStatusEventData_c ABIUpdateRecordStatusEventData_fields_ok ABIUpdateRecordStatusEventData_parts _ _ _ _ _)
    ABIUpdateRecordStatusEventData_c ABIUpdateRecordStatusEventData_EncodedSize ABIUpdateRecordStatusEventData_EncodeTo ABIUpdateRecordStatusEventData_Decode ABIUpdateRecordStatusEventData_fields_ok ABIUpdateRecordStatusEventData_parts.
Defined.
End lawful_tuples.
