(* ===== verification/AbiConcrete.v ===== *)
(** A concrete instance of the go-abi codecs, written from the Solidity ABI
    specification, on which the witnesses evaluate: integers, booleans and
    addresses as left-padded words, strings and bytes as their length followed by
    the content padded to whole words. *)

From S2P Require Import Prelude Types EvmLayout Abi.

Definition ErrOverflow : err := ErrPlain "value overflows its type".

(** ** Words *)

Section word_codec.
Context {A : Type} (to_word : A -> bytes) (of_word : bytes -> result A).

Definition word_c : Codec A := mkCodec
  (fun _ => 32)
  (fun x buf => if blen buf <? 32 then Err ErrUnexpectedEOF else Ok (to_word x ++ drop 32 buf, 32))
  (fun data => if blen data <? 32 then Err ErrUnexpectedEOF else x ← of_word (take 32 data); Ok (x, 32)).

Context (ok : A -> Prop)
  (Hlen : forall x, length (to_word x) = 32%nat)
  (Hrt : forall x, ok x -> of_word (to_word x) = Ok x)
  (Herr : forall w e, of_word w = Err e -> e <> ErrPanic).

Definition word_lawful : Lawful word_c.
Proof.
  assert (Hb : forall x, blen (to_word x) = 32) by (intros x; unfold blen; by rewrite Hlen).
  refine {| c_ok := ok; c_enc := to_word |}; cbn [word_c c_Size c_EncodeTo c_Decode].
  - intros x _. by rewrite Hb.
  - intros x rest _. rewrite blen_app. unfold blen at 1. rewrite length_replicate, Hlen, Hb.
    pose proof (blen_nonneg rest). rewrite (proj2 (Z.ltb_ge _ _)) by lia.
    by rewrite drop_app_length' by done.
  - intros x rest Hx. rewrite blen_app, Hb. pose proof (blen_nonneg rest).
    rewrite (proj2 (Z.ltb_ge _ _)) by lia. rewrite take_app_length' by done.
    rewrite Hrt by done. done.
  - intros data. destruct (Z.ltb_spec (blen data) 32); [done|].
    destruct (of_word (take 32 data)) as [x|e] eqn:E; cbn; [lia|]. by apply (Herr _ _ E).
Defined.
End word_codec.

Definition uint_of_word (bound : Z) (w : bytes) : result Z :=
  if be_value w <? bound then Ok (be_value w) else Err ErrOverflow.

Definition bool_of_word (w : bytes) : result bool :=
  if be_value w =? 0 then Ok false else if be_value w =? 1 then Ok true else Err ErrOverflow.

Definition bool_word (b : bool) : bytes := Word (if b then 1 else 0).

(** ** Strings *)

Definition padded (n : Z) : Z := (n + 31) / 32 * 32.

Definition concrete_size (data : bytes) : result Z :=
  if blen data <? 32 then Err ErrUnexpectedEOF else
  if be_value (take 32 data) <? 2 ^ 63 then Ok (be_value (take 32 data)) else Err ErrOverflow.

Definition string_bytes (s : bytes) : bytes :=
  Word (blen s) ++ s ++ zeros (Z.to_nat (padded (blen s) - blen s)).

Definition concrete_string : Codec bytes := mkCodec
  (fun s => 32 + padded (blen s))
  (fun s buf => if blen buf <? 32 + padded (blen s) then Err ErrUnexpectedEOF
                else Ok (string_bytes s ++ drop (Z.to_nat (32 + padded (blen s))) buf, 32 + padded (blen s)))
  (fun data => n ← concrete_size data;
               if blen data <? 32 + padded n then Err ErrUnexpectedEOF
               else Ok (take (Z.to_nat n) (drop 32 data), 32 + padded n)).

Lemma padded_bound n : 0 <= n -> n <= padded n < n + 32.
Proof.
  intros Hn. unfold padded. pose proof (Z.div_mod (n + 31) 32 ltac:(lia)).
  pose proof (Z.mod_pos_bound (n + 31) 32 ltac:(lia)). lia.
Qed.

Lemma string_bytes_length s : blen (string_bytes s) = 32 + padded (blen s).
Proof.
  pose proof (padded_bound (blen s) (blen_nonneg s)). unfold string_bytes. rewrite !blen_app.
  rewrite blen_Word, blen_zeros. lia.
Qed.

Lemma concrete_size_Word n rest : 0 <= n < 2 ^ 63 -> concrete_size (Word n ++ rest) = Ok n.
Proof.
  intros Hn. unfold concrete_size. rewrite blen_app, blen_Word.
  pose proof (blen_nonneg rest). rewrite (proj2 (Z.ltb_ge _ _)) by lia.
  rewrite (take_app_length' (Word n)) by (by rewrite Word_length). rewrite Word_value by (unfold is_u64, two64; lia).
  by rewrite (proj2 (Z.ltb_lt _ _)) by lia.
Qed.

Lemma be_value_nonneg w : 0 <= be_value w.
Proof. pose proof (be_value_range w). lia. Qed.

Lemma concrete_size_total data : match concrete_size data with
  | Ok n => 0 <= n < 2 ^ 63
  | Err e => e <> ErrPanic
  end.
Proof.
  unfold concrete_size. destruct (blen data <? 32); [done|].
  destruct (Z.ltb_spec (be_value (take 32 data)) (2 ^ 63)); [|done].
  pose proof (be_value_nonneg (take 32 data)). lia.
Qed.

Definition string_fits (s : bytes) : Prop := blen s < 2 ^ 62.

Definition concrete_string_lawful : Lawful concrete_string.
Proof.
  refine {| c_ok := string_fits; c_enc := string_bytes |}; cbn [concrete_string c_Size c_EncodeTo c_Decode];
    unfold string_fits.
  - intros s _. by rewrite string_bytes_length.
  - intros s rest _. rewrite blen_app. unfold blen at 1. rewrite length_replicate.
    pose proof (string_bytes_length s) as Hl. rewrite Hl. unfold blen in Hl at 1. rewrite Hl.
    pose proof (blen_nonneg rest). rewrite (proj2 (Z.ltb_ge _ _)) by lia. do 3 f_equal.
    apply drop_app_length'. rewrite length_replicate. lia.
  - intros s rest Hs. pose proof (string_bytes_length s) as Hl. rewrite blen_app, Hl.
    unfold string_bytes. rewrite <- !app_assoc. pose proof (blen_nonneg s).
    rewrite concrete_size_Word by lia. cbn [mbind result_bind].
    pose proof (blen_nonneg rest). rewrite (proj2 (Z.ltb_ge _ _)) by lia.
    rewrite (drop_app_length' (Word (blen s))) by (by rewrite Word_length).
    rewrite take_app_length' by (unfold blen; lia). done.
  - intros data. pose proof (concrete_size_total data) as Ht.
    destruct (concrete_size data) as [n|e]; cbn [mbind result_bind]; [|done].
    pose proof (padded_bound n ltac:(lia)).
    destruct (Z.ltb_spec (blen data) (32 + padded n)); [done|]. lia.
Defined.

(** ** The instance *)

#[export] Instance concrete_lib : AbiLib := {|
  string_c := concrete_string;
  bytes_c := concrete_string;
  uint64_c := word_c Word (uint_of_word two64);
  uint8_c := word_c Word (uint_of_word 256);
  bool_c := word_c bool_word bool_of_word;
  address_c := word_c BytesToHash (fun w => Ok (drop 12 w));
  DecodeSize := concrete_size;
  EmptyTuple_Encode := Ok [];
  EncodeEvent := fun topics data => t ← topics; d ← data; Ok (t, d)
|}.

Lemma uint_word_lawful bound : 0 < bound <= two64 -> Lawful (word_c Word (uint_of_word bound)).
Proof.
  intros Hb. apply (word_lawful _ _ (fun n => 0 <= n < bound)); [apply Word_length| |].
  - intros n Hn. unfold uint_of_word. rewrite Word_value by (unfold is_u64; lia).
    by rewrite (proj2 (Z.ltb_lt _ _)) by lia.
  - intros w e. unfold uint_of_word. destruct (be_value w <? bound); [done|]. by intros [= <-].
Defined.

Lemma bool_word_lawful : Lawful (word_c bool_word bool_of_word).
Proof.
  apply (word_lawful _ _ (fun _ => True)); [intros b; apply Word_length| |].
  - intros b _. unfold bool_of_word, bool_word. rewrite Word_value by (by destruct b). by destruct b.
  - intros w e. unfold bool_of_word. destruct (be_value w =? 0); [done|]. destruct (be_value w =? 1); [done|].
    by intros [= <-].
Defined.

Lemma address_word_lawful : Lawful (word_c BytesToHash (fun w => Ok (drop 12 w))).
Proof.
  apply (word_lawful _ _ (fun a => length a = 20%nat)).
  - intros a. unfold BytesToHash. rewrite length_app, length_replicate, length_drop. lia.
  - intros a Ha. unfold BytesToHash. rewrite Ha. cbn [Nat.sub drop]. by rewrite drop_app_length' by done.
  - done.
Defined.

#[export] Instance concrete_lib_laws : AbiLibLaws.
Proof.
  unshelve refine {| string_lawful := concrete_string_lawful; bytes_lawful := concrete_string_lawful;
    uint64_lawful := uint_word_lawful two64 _; uint8_lawful := uint_word_lawful 256 _;
    bool_lawful := bool_word_lawful; address_lawful := address_word_lawful;
    DecodeSize_Word := concrete_size_Word; DecodeSize_total := concrete_size_total |}; try done.
  all: unfold Static; intros x; try apply Word_length.
  cbn. unfold BytesToHash. rewrite length_app, length_replicate, length_drop. lia.
Defined.
