(* ===== verification/AbiCalls.v ===== *)
(** Calls of the anchoring precompile as bytes: the method id that
    src/precompiles/common.go splits from the input, the arguments of the eight
    methods behind it, and the logs. *)

From S2P Require Import Prelude Types EvmLayout Abi AbiAnchoring AbiConcrete.

(** ** Method ids *)

(** [SplitMethodID] *)
Definition SplitMethodID (input : bytes) : result (Z * bytes) :=
  _ ← guard_err (blen input <? 4) (ErrPlain "invalid input length");
  Ok (be_value (take 4 input), drop 4 input).

Definition ErrWriteProtection : err := ErrPlain "write protection".

(** [ParseMethod] *)
Definition ParseMethod (input : bytes) (readOnly : bool) (isTransaction : Z -> bool) : result (Z * bytes) :=
  '(methodID, input) ← SplitMethodID input;
  _ ← guard_err (readOnly && isTransaction methodID) ErrWriteProtection;
  Ok (methodID, input).

(** ** Calls *)

Inductive AbiCall :=
| AddRecordCall (c : ABIAddRecordCall)
| AddRegistryCall (c : ABIAddRegistryCall)
| GrantRoleCall (c : ABIGrantRoleCall)
| RecordsCall (c : ABIRecordsCall)
| RegistriesCall (c : ABIRegistriesCall)
| RegistriesByNameCall (c : ABIRegistriesByNameCall)
| RevokeRoleCall (c : ABIRevokeRoleCall)
| UpdateRecordStatusCall (c : ABIUpdateRecordStatusCall).

(** [GetMethodID] and [GetMethodSelector] of the calls. *)
Definition GetMethodID (call : AbiCall) : Z :=
  match call with
  | AddRecordCall _ => AddRecordID
  | AddRegistryCall _ => AddRegistryID
  | GrantRoleCall _ => GrantRoleID
  | RecordsCall _ => RecordsID
  | RegistriesCall _ => RegistriesID
  | RegistriesByNameCall _ => RegistriesByNameID
  | RevokeRoleCall _ => RevokeRoleID
  | UpdateRecordStatusCall _ => UpdateRecordStatusID
  end.

Definition GetMethodSelector (call : AbiCall) : bytes :=
  match call with
  | AddRecordCall _ => AddRecordSelector
  | AddRegistryCall _ => AddRegistrySelector
  | GrantRoleCall _ => GrantRoleSelector
  | RecordsCall _ => RecordsSelector
  | RegistriesCall _ => RegistriesSelector
  | RegistriesByNameCall _ => RegistriesByNameSelector
  | RevokeRoleCall _ => RevokeRoleSelector
  | UpdateRecordStatusCall _ => UpdateRecordStatusSelector
  end.

Section calls.
Context {LIB : AbiLib}.

Definition EncodeWithSelector (call : AbiCall) : result bytes :=
  match call with
  | AddRecordCall c => abi_EncodeWithSelector ABIAddRecordCall_c AddRecordSelector c
  | AddRegistryCall c => abi_EncodeWithSelector ABIAddRegistryCall_c AddRegistrySelector c
  | GrantRoleCall c => abi_EncodeWithSelector ABIGrantRoleCall_c GrantRoleSelector c
  | RecordsCall c => abi_EncodeWithSelector ABIRecordsCall_c RecordsSelector c
  | RegistriesCall c => abi_EncodeWithSelector ABIRegistriesCall_c RegistriesSelector c
  | RegistriesByNameCall c => abi_EncodeWithSelector ABIRegistriesByNameCall_c RegistriesByNameSelector c
  | RevokeRoleCall c => abi_EncodeWithSelector ABIRevokeRoleCall_c RevokeRoleSelector c
  | UpdateRecordStatusCall c => abi_EncodeWithSelector ABIUpdateRecordStatusCall_c UpdateRecordStatusSelector c
  end.

(** The arguments behind a method id. *)
Definition call_Decode (methodID : Z) (input : bytes) : result AbiCall :=
  if methodID =? AddRecordID then '(c, _) ← ABIAddRecordCall_Decode input; Ok (AddRecordCall c)
  else if methodID =? AddRegistryID then '(c, _) ← ABIAddRegistryCall_Decode input; Ok (AddRegistryCall c)
  else if methodID =? GrantRoleID then '(c, _) ← ABIGrantRoleCall_Decode input; Ok (GrantRoleCall c)
  else if methodID =? RecordsID then '(c, _) ← ABIRecordsCall_Decode input; Ok (RecordsCall c)
  else if methodID =? RegistriesID then '(c, _) ← ABIRegistriesCall_Decode input; Ok (RegistriesCall c)
  else if methodID =? RegistriesByNameID then '(c, _) ← ABIRegistriesByNameCall_Decode input; Ok (RegistriesByNameCall c)
  else if methodID =? RevokeRoleID then '(c, _) ← ABIRevokeRoleCall_Decode input; Ok (RevokeRoleCall c)
  else if methodID =? UpdateRecordStatusID then '(c, _) ← ABIUpdateRecordStatusCall_Decode input; Ok (UpdateRecordStatusCall c)
  else Err (ErrPlain "unknown method id").
End calls.

(** ** Laws *)

Section laws.
Context {LIB : AbiLib} {LAWS : AbiLibLaws}.

(** The arguments fit their types. *)
Definition call_ok (call : AbiCall) : Prop :=
  match call with
  | AddRecordCall c => c_ok ABIAddRecordCall_c c
  | AddRegistryCall c => c_ok ABIAddRegistryCall_c c
  | GrantRoleCall c => c_ok ABIGrantRoleCall_c c
  | RecordsCall c => c_ok ABIRecordsCall_c c
  | RegistriesCall c => c_ok ABIRegistriesCall_c c
  | RegistriesByNameCall c => c_ok ABIRegistriesByNameCall_c c
  | RevokeRoleCall c => c_ok ABIRevokeRoleCall_c c
  | UpdateRecordStatusCall c => c_ok ABIUpdateRecordStatusCall_c c
  end.

Definition call_bytes (call : AbiCall) : bytes :=
  match call with
  | AddRecordCall c => c_enc ABIAddRecordCall_c c
  | AddRegistryCall c => c_enc ABIAddRegistryCall_c c
  | GrantRoleCall c => c_enc ABIGrantRoleCall_c c
  | RecordsCall c => c_enc ABIRecordsCall_c c
  | RegistriesCall c => c_enc ABIRegistriesCall_c c
  | RegistriesByNameCall c => c_enc ABIRegistriesByNameCall_c c
  | RevokeRoleCall c => c_enc ABIRevokeRoleCall_c c
  | UpdateRecordStatusCall c => c_enc ABIUpdateRecordStatusCall_c c
  end.

Lemma selector_id call rest :
  SplitMethodID (GetMethodSelector call ++ rest) = Ok (GetMethodID call, rest).
Proof.
  unfold SplitMethodID, guard_err. rewrite blen_app. pose proof (blen_nonneg rest).
  assert (E : blen (GetMethodSelector call) = 4) by (by destruct call).
  rewrite E, (proj2 (Z.ltb_ge _ _)) by lia. cbn [mbind result_bind]. by destruct call.
Qed.

Lemma EncodeWithSelector_ok call : call_ok call ->
  EncodeWithSelector call = Ok (GetMethodSelector call ++ call_bytes call).
Proof. destruct call; intros Hc; by apply abi_EncodeWithSelector_ok. Qed.

Lemma call_Decode_ok call rest : call_ok call ->
  call_Decode (GetMethodID call) (call_bytes call ++ rest) = Ok call.
Proof.
  destruct call; intros Hc; pose proof (lw_decode _ rest Hc) as E; cbn [GetMethodID call_bytes] in *;
    unfold call_Decode; cbn [Z.eqb Pos.eqb AddRecordID AddRegistryID GrantRoleID RecordsID RegistriesID
      RegistriesByNameID RevokeRoleID UpdateRecordStatusID]; cbn [c_Decode] in E; by setoid_rewrite E.
Qed.

(** C21: Every call the generated encoder writes is read back: the four selector
    bytes split off as the method id the precompile dispatches on, and the
    decoder of that method returns the arguments, whatever bytes follow. *)
Theorem calls_roundtrip call rest : call_ok call ->
  exists input, EncodeWithSelector call = Ok input /\
  SplitMethodID (input ++ rest) = Ok (GetMethodID call, call_bytes call ++ rest) /\
  call_Decode (GetMethodID call) (call_bytes call ++ rest) = Ok call.
Proof.
  intros Hc. eexists. split; [by apply EncodeWithSelector_ok|]. rewrite <- app_assoc.
  split; [apply selector_id|by apply call_Decode_ok].
Qed.

(** The caller is an address and the data fits its types. *)
Definition event_ok (ev : AbiEvent) : Prop :=
  match ev with
  | AddRecordEvent caller data => length caller = 20%nat /\ c_ok ABIAddRecordEventData_c data
  | AddRegistryEvent caller data => length caller = 20%nat /\ c_ok ABIAddRegistryEventData_c data
  | GrantRoleEvent caller data => length caller = 20%nat /\ c_ok ABIGrantRoleEventData_c data
  | RevokeRoleEvent caller data => length caller = 20%nat /\ c_ok ABIRevokeRoleEventData_c data
  | UpdateRecordStatusEvent caller data => length caller = 20%nat /\ c_ok ABIUpdateRecordStatusEventData_c data
  end.

Definition event_topic (ev : AbiEvent) : bytes :=
  match ev with
  | AddRecordEvent _ _ => AddRecordEventTopic
  | AddRegistryEvent _ _ => AddRegistryEventTopic
  | GrantRoleEvent _ _ => GrantRoleEventTopic
  | RevokeRoleEvent _ _ => RevokeRoleEventTopic
  | UpdateRecordStatusEvent _ _ => UpdateRecordStatusEventTopic
  end.

Definition event_caller (ev : AbiEvent) : bytes :=
  match ev with
  | AddRecordEvent caller _ => caller
  | AddRegistryEvent caller _ => caller
  | GrantRoleEvent caller _ => caller
  | RevokeRoleEvent caller _ => caller
  | UpdateRecordStatusEvent caller _ => caller
  end.

Definition event_topics (ev : AbiEvent) : list bytes := [event_topic ev; c_enc address_c (event_caller ev)].

Definition event_data (ev : AbiEvent) : bytes :=
  match ev with
  | AddRecordEvent _ data => c_enc ABIAddRecordEventData_c data
  | AddRegistryEvent _ data => c_enc ABIAddRegistryEventData_c data
  | GrantRoleEvent _ data => c_enc ABIGrantRoleEventData_c data
  | RevokeRoleEvent _ data => c_enc ABIRevokeRoleEventData_c data
  | UpdateRecordStatusEvent _ data => c_enc ABIUpdateRecordStatusEventData_c data
  end.

Lemma EncodeTopics_ok topic caller : length caller = 20%nat ->
  EncodeTopics topic caller = Ok [topic; c_enc address_c caller].
Proof.
  intros Hl. unfold EncodeTopics. pose proof (lw_encode caller [] (address_ok _ Hl)) as E.
  rewrite !app_nil_r, (one_word (c := address_c)) in E. by rewrite E.
Qed.

Lemma DecodeTopics_ok topic caller : length caller = 20%nat ->
  DecodeTopics topic [topic; c_enc address_c caller] = Ok caller.
Proof.
  intros Hl. unfold DecodeTopics, guard_err. rewrite bool_decide_eq_true_2 by done.
  pose proof (lw_decode caller [] (address_ok _ Hl)) as E. rewrite app_nil_r in E. cbn. by rewrite E.
Qed.

Lemma DecodeTopics_other topic topic' rest : topic <> topic' ->
  exists e, DecodeTopics topic (topic' :: rest) = Err e.
Proof.
  intros Hne. unfold DecodeTopics, guard_err. destruct rest as [|? [|]]; eauto.
  rewrite bool_decide_eq_false_2 by congruence. cbn. eauto.
Qed.

Lemma event_encoded ev : event_ok ev ->
  event_EncodeTopics ev = Ok (event_topics ev) /\ event_Encode ev = Ok (event_data ev).
Proof.
  destruct ev; intros [Ha Hd]; (split; [by apply EncodeTopics_ok|by apply abi_Encode_ok]).
Qed.

(** Every event the generated encoder writes is read back from its topics and
    data: the first topic selects the event, the second is the caller, and the
    data decodes to the tuple. *)
Theorem events_roundtrip ev : event_ok ev ->
  exists topics data, event_EncodeTopics ev = Ok topics /\ event_Encode ev = Ok data /\
  event_Decode topics data = Ok ev.
Proof.
  intros Hok. destruct (event_encoded ev Hok) as [Et Ed]. do 2 eexists. split; [exact Et|]. split; [exact Ed|].
  assert (Hl : length (event_caller ev) = 20%nat) by (by destruct ev, Hok).
  unfold event_Decode, AddRecordEventIndexed_DecodeTopics, AddRegistryEventIndexed_DecodeTopics,
    GrantRoleEventIndexed_DecodeTopics, RevokeRoleEventIndexed_DecodeTopics,
    UpdateRecordStatusEventIndexed_DecodeTopics, event_topics.
  destruct ev as [a d|a d|a d|a d|a d]; destruct Hok as [Ha Hd]; cbn [event_topic event_caller event_data];
    pose proof (lw_decode d [] Hd) as E; rewrite app_nil_r in E;
    repeat (rewrite DecodeTopics_ok by done ||
      (edestruct DecodeTopics_other as [? ->]; [|])); try done;
    by rewrite E.
Qed.
End laws.

(** ** Witnesses *)

Module DemoCalls.
Definition caller : bytes := replicate 20 x11.

Definition record : ABIRecord :=
  mkABIRecord (bs "ipfs://doc") (bs "abc") (bs "sha256") (bs "m") [] (bs "active") 0 0 false 1.

Definition add_record : AbiCall := AddRecordCall (mkABIAddRecordCall record).

Definition grant : AbiEvent := NewGrantRoleEvent caller 1 [] caller (bs "editor").

Lemma add_record_ok : call_ok add_record.
Proof.
  cbn [call_ok add_record]. split; [|by vm_compute]. split; [|by vm_compute].
  repeat split; vm_compute; done.
Qed.

Lemma grant_ok : event_ok grant.
Proof. split; [done|]. split; [|by vm_compute]. repeat split; vm_compute; done. Qed.
End DemoCalls.

Example decoded_call :
  (input ← EncodeWithSelector DemoCalls.add_record; '(id, args) ← SplitMethodID input; call_Decode id args)
  = Ok DemoCalls.add_record.
Proof. vm_compute. reflexivity. Qed.

Lemma calls_roundtrip_witness :
  exists input, EncodeWithSelector DemoCalls.add_record = Ok input /\
  SplitMethodID (input ++ bs "tail")
  = Ok (GetMethodID DemoCalls.add_record, call_bytes DemoCalls.add_record ++ bs "tail") /\
  call_Decode (GetMethodID DemoCalls.add_record) (call_bytes DemoCalls.add_record ++ bs "tail")
  = Ok DemoCalls.add_record.
Proof. exact (calls_roundtrip DemoCalls.add_record (bs "tail") DemoCalls.add_record_ok). Defined.

Lemma events_roundtrip_witness :
  exists topics data, event_EncodeTopics DemoCalls.grant = Ok topics /\
  event_Encode DemoCalls.grant = Ok data /\ event_Decode topics data = Ok DemoCalls.grant.
Proof. exact (events_roundtrip DemoCalls.grant DemoCalls.grant_ok). Defined.
