(* ===== verification/AbiCommon.v ===== *)
(** The other ABI types of src/precompiles/common.abi.go: coins, decimals, heights and
    allocations, and the call [dummy] that carries them all; and the packed encodings
    of the tuples that have only static fields, there and in
    src/x/anchoring/precompile/anchoring.abi.go. *)

From S2P Require Import Prelude Types EvmLayout Abi AbiAnchoring AbiConcrete AbiCalls.

(** ** Elementary codecs *)

(** The codecs of go-abi these types need besides those of [AbiLib]; the packed ones
    write an integer in as many bytes as its type has. *)
Class AbiLibCommon := {
  uint256_c : Codec Z;
  string_slice_c : Codec (list bytes);
  packed_uint8_c : Codec Z;
  packed_uint64_c : Codec Z;
  packed_uint256_c : Codec Z
}.

(** An encoding of a fixed number of bytes. *)
Class Fixed {A} (c : Codec A) `{!Lawful c} (n : nat) := fixed_bytes : forall x, length (c_enc c x) = n.

Class AbiLibCommonLaws `{AbiLibCommon} := {
  uint256_lawful :: Lawful uint256_c;
  uint256_static :: Static uint256_c;
  string_slice_lawful :: Lawful string_slice_c;
  packed_uint8_lawful :: Lawful packed_uint8_c;
  packed_uint64_lawful :: Lawful packed_uint64_c;
  packed_uint256_lawful :: Lawful packed_uint256_c;
  packed_uint8_fixed :: Fixed packed_uint8_c 1;
  packed_uint64_fixed :: Fixed packed_uint64_c 8;
  packed_uint256_fixed :: Fixed packed_uint256_c 32
}.

(** ** The tuples *)

Record ABICoin := mkABICoin {
  coin_Denom : bytes;
  coin_Amount : Z
}.

Record ABIDec := mkABIDec {
  dec_Value : Z;
  dec_Precision : Z
}.

Record ABIDecCoin := mkABIDecCoin {
  dcoin_Denom : bytes;
  dcoin_Amount : Z;
  dcoin_Precision : Z
}.

Record ABIHeight := mkABIHeight {
  hgt_RevisionNumber : Z;
  hgt_RevisionHeight : Z
}.

Record ABIICS20Allocation := mkABIICS20Allocation {
  alloc_SourcePort : bytes;
  alloc_SourceChannel : bytes;
  alloc_SpendLimit : list ABICoin;
  alloc_AllowList : list bytes;
  alloc_AllowedPacketData : list bytes
}.

Record ABIDummyCall := mkABIDummyCall {
  dum_A : ABICoin;
  dum_B : ABIDecCoin;
  dum_C : ABIDec;
  dum_D : ABIHeight;
  dum_E : ABIPageRequest;
  dum_F : ABIPageResponse;
  dum_G : ABIICS20Allocation
}.

Section tuples.
Context {LIB : AbiLib} {LIBC : AbiLibCommon}.

Definition CoinStaticSize : Z := 64.

Definition ABICoin_EncodedSize (t : ABICoin) : Z :=
  let dynamicSize := 0 in
  let dynamicSize := dynamicSize + c_Size string_c (coin_Denom t) in
  CoinStaticSize + dynamicSize.

Definition ABICoin_EncodeTo (value : ABICoin) (buf : bytes) : result (bytes * Z) :=
  st ← enc_dynamic string_c (coin_Denom value) 0 (buf, CoinStaticSize);
  st ← enc_static uint256_c (coin_Amount value) 32 st;
  Ok st.

Definition ABICoin_Decode (data : bytes) : result (ABICoin * Z) :=
  _ ← check_len data 64;
  '(v_Denom, dynamicOffset) ← dec_dynamic string_c ErrInvalidOffsetForDynamicField data 0 64;
  v_Amount ← dec_static uint256_c data 32;
  Ok (mkABICoin v_Denom v_Amount, dynamicOffset).

Definition ABICoin_c : Codec ABICoin := mkCodec ABICoin_EncodedSize ABICoin_EncodeTo ABICoin_Decode.

Definition DecStaticSize : Z := 64.

Definition ABIDec_EncodedSize (t : ABIDec) : Z :=
  let dynamicSize := 0 in
  DecStaticSize + dynamicSize.

Definition ABIDec_EncodeTo (value : ABIDec) (buf : bytes) : result (bytes * Z) :=
  st ← enc_static uint256_c (dec_Value value) 0 (buf, DecStaticSize);
  st ← enc_static uint8_c (dec_Precision value) 32 st;
  Ok st.

Definition ABIDec_Decode (data : bytes) : result (ABIDec * Z) :=
  _ ← check_len data 64;
  v_Value ← dec_static uint256_c data 0;
  v_Precision ← dec_static uint8_c data 32;
  Ok (mkABIDec v_Value v_Precision, 64).

Definition ABIDec_c : Codec ABIDec := mkCodec ABIDec_EncodedSize ABIDec_EncodeTo ABIDec_Decode.

Definition DecCoinStaticSize : Z := 96.

Definition ABIDecCoin_EncodedSize (t : ABIDecCoin) : Z :=
  let dynamicSize := 0 in
  let dynamicSize := dynamicSize + c_Size string_c (dcoin_Denom t) in
  DecCoinStaticSize + dynamicSize.

Definition ABIDecCoin_EncodeTo (value : ABIDecCoin) (buf : bytes) : result (bytes * Z) :=
  st ← enc_dynamic string_c (dcoin_Denom value) 0 (buf, DecCoinStaticSize);
  st ← enc_static uint256_c (dcoin_Amount value) 32 st;
  st ← enc_static uint8_c (dcoin_Precision value) 64 st;
  Ok st.

Definition ABIDecCoin_Decode (data : bytes) : result (ABIDecCoin * Z) :=
  _ ← check_len data 96;
  '(v_Denom, dynamicOffset) ← dec_dynamic string_c ErrInvalidOffsetForDynamicField data 0 96;
  v_Amount ← dec_static uint256_c data 32;
  v_Precision ← dec_static uint8_c data 64;
  Ok (mkABIDecCoin v_Denom v_Amount v_Precision, dynamicOffset).

Definition ABIDecCoin_c : Codec ABIDecCoin := mkCodec ABIDecCoin_EncodedSize ABIDecCoin_EncodeTo ABIDecCoin_Decode.

Definition HeightStaticSize : Z := 64.

Definition ABIHeight_EncodedSize (t : ABIHeight) : Z :=
  let dynamicSize := 0 in
  HeightStaticSize + dynamicSize.

Definition ABIHeight_EncodeTo (value : ABIHeight) (buf : bytes) : result (bytes * Z) :=
  st ← enc_static uint64_c (hgt_RevisionNumber value) 0 (buf, HeightStaticSize);
  st ← enc_static uint64_c (hgt_RevisionHeight value) 32 st;
  Ok st.

Definition ABIHeight_Decode (data : bytes) : result (ABIHeight * Z) :=
  _ ← check_len data 64;
  v_RevisionNumber ← dec_static uint64_c data 0;
  v_RevisionHeight ← dec_static uint64_c data 32;
  Ok (mkABIHeight v_RevisionNumber v_RevisionHeight, 64).

Definition ABIHeight_c : Codec ABIHeight := mkCodec ABIHeight_EncodedSize ABIHeight_EncodeTo ABIHeight_Decode.

Definition ICS20AllocationStaticSize : Z := 160.

Definition ABIICS20Allocation_EncodedSize (t : ABIICS20Allocation) : Z :=
  let dynamicSize := 0 in
  let dynamicSize := dynamicSize + c_Size string_c (alloc_SourcePort t) in
  let dynamicSize := dynamicSize + c_Size string_c (alloc_SourceChannel t) in
  let dynamicSize := dynamicSize + c_Size (slice_c ABICoin_c) (alloc_SpendLimit t) in
  let dynamicSize := dynamicSize + c_Size string_slice_c (alloc_AllowList t) in
  let dynamicSize := dynamicSize + c_Size string_slice_c (alloc_AllowedPacketData t) in
  ICS20AllocationStaticSize + dynamicSize.

Definition ABIICS20Allocation_EncodeTo (value : ABIICS20Allocation) (buf : bytes) : result (bytes * Z) :=
  st ← enc_dynamic string_c (alloc_SourcePort value) 0 (buf, ICS20AllocationStaticSize);
  st ← enc_dynamic string_c (alloc_SourceChannel value) 32 st;
  st ← enc_dynamic (slice_c ABICoin_c) (alloc_SpendLimit value) 64 st;
  st ← enc_dynamic string_slice_c (alloc_AllowList value) 96 st;
  st ← enc_dynamic string_slice_c (alloc_AllowedPacketData value) 128 st;
  Ok st.

Definition ABIICS20Allocation_Decode (data : bytes) : result (ABIICS20Allocation * Z) :=
  _ ← check_len data 160;
  '(v_SourcePort, dynamicOffset) ← dec_dynamic string_c ErrInvalidOffsetForDynamicField data 0 160;
  '(v_SourceChannel, dynamicOffset) ← dec_dynamic string_c ErrInvalidOffsetForDynamicField data 32 dynamicOffset;
  '(v_SpendLimit, dynamicOffset) ← dec_dynamic (slice_c ABICoin_c) ErrInvalidOffsetForDynamicField data 64 dynamicOffset;
  '(v_AllowList, dynamicOffset) ← dec_dynamic string_slice_c ErrInvalidOffsetForDynamicField data 96 dynamicOffset;
  '(v_AllowedPacketData, dynamicOffset) ← dec_dynamic string_slice_c ErrInvalidOffsetForDynamicField data 128 dynamicOffset;
  Ok (mkABIICS20Allocation v_SourcePort v_SourceChannel v_SpendLimit v_AllowList v_AllowedPacketData, dynamicOffset).

Definition ABIICS20Allocation_c : Codec ABIICS20Allocation := mkCodec ABIICS20Allocation_EncodedSize ABIICS20Allocation_EncodeTo ABIICS20Allocation_Decode.

Definition DummyCallStaticSize : Z := 288.

Definition ABIDummyCall_EncodedSize (t : ABIDummyCall) : Z :=
  let dynamicSize := 0 in
  let dynamicSize := dynamicSize + c_Size ABICoin_c (dum_A t) in
  let dynamicSize := dynamicSize + c_Size ABIDecCoin_c (dum_B t) in
  let dynamicSize := dynamicSize + c_Size ABIPageRequest_c (dum_E t) in
  let dynamicSize := dynamicSize + c_Size ABIPageResponse_c (dum_F t) in
  let dynamicSize := dynamicSize + c_Size ABIICS20Allocation_c (dum_G t) in
  DummyCallStaticSize + dynamicSize.

Definition ABIDummyCall_EncodeTo (value : ABIDummyCall) (buf : bytes) : result (bytes * Z) :=
  st ← enc_dynamic ABICoin_c (dum_A value) 0 (buf, DummyCallStaticSize);
  st ← enc_dynamic ABIDecCoin_c (dum_B value) 32 st;
  st ← enc_static ABIDec_c (dum_C value) 64 st;
  st ← enc_static ABIHeight_c (dum_D value) 128 st;
  st ← enc_dynamic ABIPageRequest_c (dum_E value) 192 st;
  st ← enc_dynamic ABIPageResponse_c (dum_F value) 224 st;
  st ← enc_dynamic ABIICS20Allocation_c (dum_G value) 256 st;
  Ok st.

Definition ABIDummyCall_Decode (data : bytes) : result (ABIDummyCall * Z) :=
  _ ← check_len data 288;
  '(v_A, dynamicOffset) ← dec_dynamic ABICoin_c ErrInvalidOffsetForDynamicField data 0 288;
  '(v_B, dynamicOffset) ← dec_dynamic ABIDecCoin_c ErrInvalidOffsetForDynamicField data 32 dynamicOffset;
  v_C ← dec_static ABIDec_c data 64;
  v_D ← dec_static ABIHeight_c data 128;
  '(v_E, dynamicOffset) ← dec_dynamic ABIPageRequest_c ErrInvalidOffsetForDynamicField data 192 dynamicOffset;
  '(v_F, dynamicOffset) ← dec_dynamic ABIPageResponse_c ErrInvalidOffsetForDynamicField data 224 dynamicOffset;
  '(v_G, dynamicOffset) ← dec_dynamic ABIICS20Allocation_c ErrInvalidOffsetForDynamicField data 256 dynamicOffset;
  Ok (mkABIDummyCall v_A v_B v_C v_D v_E v_F v_G, dynamicOffset).

Definition ABIDummyCall_c : Codec ABIDummyCall := mkCodec ABIDummyCall_EncodedSize ABIDummyCall_EncodeTo ABIDummyCall_Decode.

(** ** Packed encodings *)

(** [n, err = abi.PackedEncodeX(value.F, buf[offset:]); offset += n] *)
Definition packed_enc {A} (c : Codec A) (x : A) (st : bytes * Z) : result (bytes * Z) :=
  let '(buf, offset) := st in
  tail ← slice_from buf offset;
  '(tail', n) ← c_EncodeTo c x tail;
  Ok (take (Z.to_nat offset) buf ++ tail', offset + n).

Definition ABIDec_PackedEncodedSize (t : ABIDec) : Z := 33.

Definition ABIDec_PackedEncodeTo (value : ABIDec) (buf : bytes) : result (bytes * Z) :=
  st ← packed_enc packed_uint256_c (dec_Value value) (buf, 0);
  st ← packed_enc packed_uint8_c (dec_Precision value) st;
  Ok st.

Definition ABIDec_PackedDecode (data : bytes) : result (ABIDec * Z) :=
  _ ← check_len data 33;
  v_Value ← dec_static packed_uint256_c data 0;
  v_Precision ← dec_static packed_uint8_c data 32;
  Ok (mkABIDec v_Value v_Precision, 33).

Definition ABIHeight_PackedEncodedSize (t : ABIHeight) : Z := 16.

Definition ABIHeight_PackedEncodeTo (value : ABIHeight) (buf : bytes) : result (bytes * Z) :=
  st ← packed_enc packed_uint64_c (hgt_RevisionNumber value) (buf, 0);
  st ← packed_enc packed_uint64_c (hgt_RevisionHeight value) st;
  Ok st.

Definition ABIHeight_PackedDecode (data : bytes) : result (ABIHeight * Z) :=
  _ ← check_len data 16;
  v_RevisionNumber ← dec_static packed_uint64_c data 0;
  v_RevisionHeight ← dec_static packed_uint64_c data 8;
  Ok (mkABIHeight v_RevisionNumber v_RevisionHeight, 16).

Definition ABIAddRecordReturn_PackedEncodedSize (t : ABIAddRecordReturn) : Z := 8.

Definition ABIAddRecordReturn_PackedEncodeTo (value : ABIAddRecordReturn) (buf : bytes) : result (bytes * Z) :=
  st ← packed_enc packed_uint64_c (arr_RecordId value) (buf, 0);
  Ok st.

Definition ABIAddRecordReturn_PackedDecode (data : bytes) : result (ABIAddRecordReturn * Z) :=
  _ ← check_len data 8;
  v_RecordId ← dec_static packed_uint64_c data 0;
  Ok (mkABIAddRecordReturn v_RecordId, 8).

Definition ABIAddRegistryReturn_PackedEncodedSize (t : ABIAddRegistryReturn) : Z := 8.

Definition ABIAddRegistryReturn_PackedEncodeTo (value : ABIAddRegistryReturn) (buf : bytes) : result (bytes * Z) :=
  st ← packed_enc packed_uint64_c (agr_RegistryId value) (buf, 0);
  Ok st.

Definition ABIAddRegistryReturn_PackedDecode (data : bytes) : result (ABIAddRegistryReturn * Z) :=
  _ ← check_len data 8;
  v_RegistryId ← dec_static packed_uint64_c data 0;
  Ok (mkABIAddRegistryReturn v_RegistryId, 8).

Definition ABIDec_packed_c : Codec ABIDec :=
  mkCodec ABIDec_PackedEncodedSize ABIDec_PackedEncodeTo ABIDec_PackedDecode.

Definition ABIHeight_packed_c : Codec ABIHeight :=
  mkCodec ABIHeight_PackedEncodedSize ABIHeight_PackedEncodeTo ABIHeight_PackedDecode.

Definition ABIAddRecordReturn_packed_c : Codec ABIAddRecordReturn :=
  mkCodec ABIAddRecordReturn_PackedEncodedSize ABIAddRecordReturn_PackedEncodeTo ABIAddRecordReturn_PackedDecode.

Definition ABIAddRegistryReturn_packed_c : Codec ABIAddRegistryReturn :=
  mkCodec ABIAddRegistryReturn_PackedEncodedSize ABIAddRegistryReturn_PackedEncodeTo ABIAddRegistryReturn_PackedDecode.

End tuples.

(** ** Lawful tuples *)

(** A static tuple of two words inside another tuple. *)
Section two_words.
Context {LIB : AbiLib} {LAWS : AbiLibLaws}.
Context {A : Type} (c : Codec A) `{!Lawful c}.

Lemma enc_static2_at s done todo rest x off w1 w2 :
  c_ok c x -> c_enc c x = w1 ++ w2 -> length w1 = 32%nat -> length w2 = 32%nat ->
  Forall part_ok done -> off = static_size done ->
  enc_static c x off (enc_state s done (Stat w1 :: Stat w2 :: todo) rest)
  = Ok (enc_state s (done ++ [Stat w1; Stat w2]) todo rest).
Proof.
  intros Hx Ew H1 H2 Hd ->. unfold enc_static, enc_state. cbn [length tails].
  replace (32 * S (S (length todo)))%nat with (length (c_enc c x) + 32 * length todo)%nat
    by (rewrite Ew, length_app, H1, H2; lia).
  rewrite zeros_add, <- (blen_heads s done), <- (app_assoc (zeros _)) by done.
  rewrite slice_app, take_blen. cbn [mbind result_bind].
  change (zeros (length (c_enc c x))) with (replicate (length (c_enc c x)) x00).
  rewrite lw_encode by done. cbn [mbind result_bind].
  rewrite heads_app, tails_app, Ew. cbn [heads tails]. rewrite !app_nil_r, <- !app_assoc. done.
Qed.

Lemma slice_head2 i ps w1 w2 rest : Forall part_ok ps -> ps !! i = Some (Stat w1) -> ps !! S i = Some (Stat w2) ->
  exists after, slice_from (tuple_bytes ps ++ rest) (32 * Z.of_nat i) = Ok (w1 ++ w2 ++ after).
Proof.
  intros Hp Hi Hi'. rewrite <- (take_drop_middle ps i _ Hi) in Hp |- *. apply Forall_app in Hp as [Hp1 Hp2].
  assert (Hl : (i <= length ps)%nat) by (apply lookup_lt_Some in Hi; lia).
  set (ps1 := take i ps) in *. assert (Hl1 : length ps1 = i) by (unfold ps1; rewrite length_take; lia).
  assert (E : drop (S i) ps = Stat w2 :: drop (S (S i)) ps) by (by apply drop_S).
  rewrite E. unfold tuple_bytes. set (s := static_size _). rewrite heads_app, <- !app_assoc.
  replace (32 * Z.of_nat i) with (blen (heads s ps1)) by (rewrite blen_heads by done; unfold static_size; lia).
  rewrite slice_app. cbn [heads]. rewrite <- !app_assoc. eauto.
Qed.

Lemma dec_static2_at i ps rest x off w1 w2 :
  Forall part_ok ps -> ps !! i = Some (Stat w1) -> ps !! S i = Some (Stat w2) ->
  c_enc c x = w1 ++ w2 -> c_ok c x -> off = 32 * Z.of_nat i ->
  dec_static c (tuple_bytes ps ++ rest) off = Ok x.
Proof.
  intros Hp Hi Hi' Ew Hx ->. unfold dec_static. destruct (slice_head2 i ps w1 w2 rest Hp Hi Hi') as [after ->].
  cbn [mbind result_bind]. rewrite app_assoc, <- Ew. by rewrite lw_decode.
Qed.
End two_words.

Section lawful_tuples.
Context {LIB : AbiLib} {LAWS : AbiLibLaws} {LIBC : AbiLibCommon} {LAWSC : AbiLibCommonLaws}.

Definition ABICoin_fields_ok (x : ABICoin) : Prop :=
  c_ok string_c (coin_Denom x) /\
  c_ok uint256_c (coin_Amount x).

Definition ABICoin_parts (x : ABICoin) : list Part :=
  [Dyn (c_enc string_c (coin_Denom x));
   Stat (c_enc uint256_c (coin_Amount x))].

#[export] Instance ABICoin_lawful : Lawful ABICoin_c.
Proof.
  lawful_by (lawful_tuple ABICoin_c ABICoin_fields_ok ABICoin_parts _ _ _ _ _)
    ABICoin_c ABICoin_EncodedSize ABICoin_EncodeTo ABICoin_Decode ABICoin_fields_ok ABICoin_parts.
Defined.

Definition ABIDec_fields_ok (x : ABIDec) : Prop :=
  c_ok uint256_c (dec_Value x) /\
  c_ok uint8_c (dec_Precision x).

Definition ABIDec_parts (x : ABIDec) : list Part :=
  [Stat (c_enc uint256_c (dec_Value x));
   Stat (c_enc uint8_c (dec_Precision x))].

#[export] Instance ABIDec_lawful : Lawful ABIDec_c.
Proof.
  lawful_by (lawful_tuple ABIDec_c ABIDec_fields_ok ABIDec_parts _ _ _ _ _)
    ABIDec_c ABIDec_EncodedSize ABIDec_EncodeTo ABIDec_Decode ABIDec_fields_ok ABIDec_parts.
Defined.

Definition ABIDecCoin_fields_ok (x : ABIDecCoin) : Prop :=
  c_ok string_c (dcoin_Denom x) /\
  c_ok uint256_c (dcoin_Amount x) /\
  c_ok uint8_c (dcoin_Precision x).

Definition ABIDecCoin_parts (x : ABIDecCoin) : list Part :=
  [Dyn (c_enc string_c (dcoin_Denom x));
   Stat (c_enc uint256_c (dcoin_Amount x));
   Stat (c_enc uint8_c (dcoin_Precision x))].

#[export] Instance ABIDecCoin_lawful : Lawful ABIDecCoin_c.
Proof.
  lawful_by (lawful_tuple ABIDecCoin_c ABIDecCoin_fields_ok ABIDecCoin_parts _ _ _ _ _)
    ABIDecCoin_c ABIDecCoin_EncodedSize ABIDecCoin_EncodeTo ABIDecCoin_Decode ABIDecCoin_fields_ok ABIDecCoin_parts.
Defined.

Definition ABIHeight_fields_ok (x : ABIHeight) : Prop :=
  c_ok uint64_c (hgt_RevisionNumber x) /\
  c_ok uint64_c (hgt_RevisionHeight x).

Definition ABIHeight_parts (x : ABIHeight) : list Part :=
  [Stat (c_enc uint64_c (hgt_RevisionNumber x));
   Stat (c_enc uint64_c (hgt_RevisionHeight x))].

#[export] Instance ABIHeight_lawful : Lawful ABIHeight_c.
Proof.
  lawful_by (lawful_tuple ABIHeight_c ABIHeight_fields_ok ABIHeight_parts _ _ _ _ _)
    ABIHeight_c ABIHeight_EncodedSize ABIHeight_EncodeTo ABIHeight_Decode ABIHeight_fields_ok ABIHeight_parts.
Defined.

Definition ABIICS20Allocation_fields_ok (x : ABIICS20Allocation) : Prop :=
  c_ok string_c (alloc_SourcePort x) /\
  c_ok string_c (alloc_SourceChannel x) /\
  c_ok (slice_c ABICoin_c) (alloc_SpendLimit x) /\
  c_ok string_slice_c (alloc_AllowList x) /\
  c_ok string_slice_c (alloc_AllowedPacketData x).

Definition ABIICS20Allocation_parts (x : ABIICS20Allocation) : list Part :=
  [Dyn (c_enc string_c (alloc_SourcePort x));
   Dyn (c_enc string_c (alloc_SourceChannel x));
   Dyn (c_enc (slice_c ABICoin_c) (alloc_SpendLimit x));
   Dyn (c_enc string_slice_c (alloc_AllowList x));
   Dyn (c_enc string_slice_c (alloc_AllowedPacketData x))].

#[export] Instance ABIICS20Allocation_lawful : Lawful ABIICS20Allocation_c.
Proof.
  lawful_by (lawful_tuple ABIICS20Allocation_c ABIICS20Allocation_fields_ok ABIICS20Allocation_parts _ _ _ _ _)
    ABIICS20Allocation_c ABIICS20Allocation_EncodedSize ABIICS20Allocation_EncodeTo ABIICS20Allocation_Decode ABIICS20Allocation_fields_ok ABIICS20Allocation_parts.
Defined.
(** ** The call that carries them all *)

Lemma ABIDec_words x : c_enc ABIDec_c x = c_enc uint256_c (dec_Value x) ++ c_enc uint8_c (dec_Precision x).
Proof.
  change (c_enc ABIDec_c x) with (tuple_bytes (ABIDec_parts x)). unfold tuple_bytes. cbn [ABIDec_parts heads tails].
  by rewrite !app_nil_r.
Qed.

Lemma ABIHeight_words x :
  c_enc ABIHeight_c x = c_enc uint64_c (hgt_RevisionNumber x) ++ c_enc uint64_c (hgt_RevisionHeight x).
Proof.
  change (c_enc ABIHeight_c x) with (tuple_bytes (ABIHeight_parts x)). unfold tuple_bytes.
  cbn [ABIHeight_parts heads tails]. by rewrite !app_nil_r.
Qed.

Definition ABIDummyCall_fields_ok (x : ABIDummyCall) : Prop :=
  c_ok ABICoin_c (dum_A x) /\
  c_ok ABIDecCoin_c (dum_B x) /\
  c_ok ABIDec_c (dum_C x) /\
  c_ok ABIHeight_c (dum_D x) /\
  c_ok ABIPageRequest_c (dum_E x) /\
  c_ok ABIPageResponse_c (dum_F x) /\
  c_ok ABIICS20Allocation_c (dum_G x).

Definition ABIDummyCall_parts (x : ABIDummyCall) : list Part :=
  [Dyn (c_enc ABICoin_c (dum_A x));
   Dyn (c_enc ABIDecCoin_c (dum_B x));
   Stat (c_enc uint256_c (dec_Value (dum_C x)));
   Stat (c_enc uint8_c (dec_Precision (dum_C x)));
   Stat (c_enc uint64_c (hgt_RevisionNumber (dum_D x)));
   Stat (c_enc uint64_c (hgt_RevisionHeight (dum_D x)));
   Dyn (c_enc ABIPageRequest_c (dum_E x));
   Dyn (c_enc ABIPageResponse_c (dum_F x));
   Dyn (c_enc ABIICS20Allocation_c (dum_G x))].

#[export] Instance ABIDummyCall_lawful : Lawful ABIDummyCall_c.
Proof.
  refine (lawful_tuple ABIDummyCall_c ABIDummyCall_fields_ok ABIDummyCall_parts _ _ _ _ _);
    cbn [ABIDummyCall_c c_Size c_EncodeTo c_Decode].
  - intros x Hx. unfold ABIDummyCall_parts. words.
  - intros x Hx. unfold ABIDummyCall_fields_ok in Hx. destruct_and? Hx.
    unfold ABIDummyCall_parts, ABIDummyCall_EncodedSize. size_steps.
  - intros x rest Hx. unfold ABIDummyCall_fields_ok in Hx. destruct_and? Hx. unfold ABIDummyCall_EncodeTo.
    match goal with |- context [(fst ?st, ?n)] => change (fst st, n) with st end. unfold ABIDummyCall_parts.
    do 2 (erewrite enc_dynamic_at; [|assumption|words|reflexivity|reflexivity]; cbn [mbind result_bind app]).
    erewrite enc_static2_at; [|assumption|apply ABIDec_words|apply one_word|apply one_word|words|reflexivity].
    cbn [mbind result_bind app].
    erewrite enc_static2_at; [|assumption|apply ABIHeight_words|apply one_word|apply one_word|words|reflexivity].
    cbn [mbind result_bind app].
    do 3 (erewrite enc_dynamic_at; [|assumption|words|reflexivity|reflexivity]; cbn [mbind result_bind app]).
    reflexivity.
  - intros [] rest Hx Hp. unfold ABIDummyCall_fields_ok in Hx. destruct_and? Hx. unfold ABIDummyCall_Decode.
    erewrite check_len_at; [|apply Hp|reflexivity]. cbn [mbind result_bind].
    do 2 dec_step.
    erewrite (dec_static2_at _ 2 _ _ _ 64); [|apply Hp|reflexivity|reflexivity|apply ABIDec_words|assumption|reflexivity].
    cbn [mbind result_bind].
    erewrite (dec_static2_at _ 4 _ _ _ 128);
      [|apply Hp|reflexivity|reflexivity|apply ABIHeight_words|assumption|reflexivity].
    cbn [mbind result_bind]. do 3 dec_step. reflexivity.
  - intros data. unfold ABIDummyCall_Decode. bound_steps.
Defined.
End lawful_tuples.

(** ** Lawful packed tuples *)

Section packed.
Context {LIB : AbiLib} {LAWS : AbiLibLaws} {LIBC : AbiLibCommon} {LAWSC : AbiLibCommonLaws}.

Lemma packed_enc_step {A} (c : Codec A) `{!Lawful c} x (pre rest : bytes) n :
  c_ok c x -> n = length (c_enc c x) ->
  packed_enc c x (pre ++ replicate n x00 ++ rest, blen pre)
  = Ok ((pre ++ c_enc c x) ++ rest, blen (pre ++ c_enc c x)).
Proof.
  intros Hx ->. unfold packed_enc. rewrite slice_app, take_blen. cbn [mbind result_bind].
  rewrite lw_encode by done. cbn [mbind result_bind]. by rewrite <- app_assoc, blen_app.
Qed.

Lemma packed_dec {A} (c : Codec A) `{!Lawful c} x (pre rest : bytes) off :
  c_ok c x -> off = blen pre -> dec_static c (pre ++ c_enc c x ++ rest) off = Ok x.
Proof.
  intros Hx ->. unfold dec_static. rewrite slice_app. cbn [mbind result_bind]. by rewrite lw_decode.
Qed.

(** A tuple of one packed integer, and of two. *)
Section shapes.
Context {A B1 B2 : Type} (c1 : Codec B1) (c2 : Codec B2) `{!Lawful c1} `{!Lawful c2}.
Context (n1 n2 : nat) `{!Fixed c1 n1} `{!Fixed c2 n2}.

Lemma packed1_lawful (mk : B1 -> A) (get : A -> B1) : (forall x, mk (get x) = x) ->
  Lawful (mkCodec (fun _ => Z.of_nat n1)
    (fun value buf => st ← packed_enc c1 (get value) (buf, 0); Ok st)
    (fun data => _ ← check_len data (Z.of_nat n1); v ← dec_static c1 data 0; Ok (mk v, Z.of_nat n1))).
Proof.
  intros Hmk. refine {| c_ok := fun x => c_ok c1 (get x); c_enc := fun x => c_enc c1 (get x) |};
    cbn [c_Size c_EncodeTo c_Decode].
  - intros x _. unfold blen. by rewrite fixed_bytes.
  - intros x rest Hx. pose proof (packed_enc_step c1 (get x) [] rest _ Hx eq_refl) as E. cbn [app] in E.
    change (blen []) with 0 in E. by rewrite E.
  - intros x rest Hx. unfold check_len, guard_err. rewrite blen_app. unfold blen at 1. rewrite fixed_bytes.
    pose proof (blen_nonneg rest). rewrite (proj2 (Z.ltb_ge _ _)) by lia. cbn [mbind result_bind].
    pose proof (packed_dec c1 (get x) [] rest 0 Hx eq_refl) as E. cbn [app] in E. rewrite E. cbn [mbind result_bind].
    rewrite Hmk. unfold blen. by rewrite fixed_bytes.
  - intros data. apply (check_len_bound data). intros Hl. apply (dec_static_bound c1); [lia|]. intros v. cbn. lia.
Defined.

Lemma packed2_lawful (mk : B1 -> B2 -> A) (get1 : A -> B1) (get2 : A -> B2) :
  (forall x, mk (get1 x) (get2 x) = x) ->
  Lawful (mkCodec (fun _ => Z.of_nat (n1 + n2))
    (fun value buf => st ← packed_enc c1 (get1 value) (buf, 0); st ← packed_enc c2 (get2 value) st; Ok st)
    (fun data => _ ← check_len data (Z.of_nat (n1 + n2)); v1 ← dec_static c1 data 0;
       v2 ← dec_static c2 data (Z.of_nat n1); Ok (mk v1 v2, Z.of_nat (n1 + n2)))).
Proof.
  intros Hmk. refine {| c_ok := fun x => c_ok c1 (get1 x) /\ c_ok c2 (get2 x);
    c_enc := fun x => c_enc c1 (get1 x) ++ c_enc c2 (get2 x) |}; cbn [c_Size c_EncodeTo c_Decode].
  - intros x _. unfold blen. by rewrite length_app, !fixed_bytes.
  - intros x rest [H1 H2]. rewrite length_app, replicate_add, <- app_assoc.
    pose proof (packed_enc_step c1 (get1 x) [] (replicate (length (c_enc c2 (get2 x))) x00 ++ rest) _ H1 eq_refl) as E.
    cbn [app] in E. change (blen []) with 0 in E. rewrite E. cbn [mbind result_bind].
    rewrite (packed_enc_step c2) by done. done.
  - intros x rest [H1 H2]. unfold check_len, guard_err. rewrite !blen_app. unfold blen at 1 2. rewrite !fixed_bytes.
    pose proof (blen_nonneg rest). rewrite (proj2 (Z.ltb_ge _ _)) by lia. cbn [mbind result_bind].
    rewrite <- app_assoc. pose proof (packed_dec c1 (get1 x) [] (c_enc c2 (get2 x) ++ rest) 0 H1 eq_refl) as E.
    cbn [app] in E. rewrite E. cbn [mbind result_bind].
    rewrite (packed_dec c2) by (done || (unfold blen; by rewrite fixed_bytes)). cbn [mbind result_bind].
    rewrite Hmk. unfold blen. rewrite !fixed_bytes. do 2 f_equal. lia.
  - intros data. apply (check_len_bound data). intros Hl.
    apply (dec_static_bound c1); [lia|]. intros v. apply (dec_static_bound c2); [lia|]. intros w. cbn. lia.
Defined.
End shapes.

#[export] Instance ABIDec_packed_lawful : Lawful ABIDec_packed_c :=
  packed2_lawful packed_uint256_c packed_uint8_c 32 1 mkABIDec dec_Value dec_Precision ltac:(by intros []).

#[export] Instance ABIHeight_packed_lawful : Lawful ABIHeight_packed_c :=
  packed2_lawful packed_uint64_c packed_uint64_c 8 8 mkABIHeight hgt_RevisionNumber hgt_RevisionHeight
    ltac:(by intros []).

#[export] Instance ABIAddRecordReturn_packed_lawful : Lawful ABIAddRecordReturn_packed_c :=
  packed1_lawful packed_uint64_c 8 mkABIAddRecordReturn arr_RecordId ltac:(by intros []).

#[export] Instance ABIAddRegistryReturn_packed_lawful : Lawful ABIAddRegistryReturn_packed_c :=
  packed1_lawful packed_uint64_c 8 mkABIAddRegistryReturn agr_RegistryId ltac:(by intros []).
End packed.
