(* ===== verification/AbiMethods.v ===== *)
(** The methods and events of the ABI: the interface [abi.Method] each call of
    src/x/anchoring/precompile/anchoring.abi.go and src/precompiles/common.abi.go
    implements, the constructors of the calls, the [Encode] of every tuple and the
    slices; and the Solidity types the signatures are made of. *)

From S2P Require Import Prelude Types EvmLayout Concrete Abi AbiAnchoring AbiConcrete AbiCalls AbiCommon.

(** ** Methods *)

Definition DummySelector : bytes := [x59; xd4; xfe; x1a].
Definition DummyID : Z := 1507130906.

(** The interface of a call. *)
Record Method (A : Type) := mkMethod {
  m_Name : bytes;
  m_ID : Z;
  m_Selector : bytes;
  m_EncodeWithSelector : A -> result bytes
}.
Arguments mkMethod {_} _ _ _ _.
Arguments m_Name {_} _.
Arguments m_ID {_} _.
Arguments m_Selector {_} _.
Arguments m_EncodeWithSelector {_} _ _.

Section methods.
Context {LIB : AbiLib} {LIBC : AbiLibCommon}.

Definition AddRecordCall_Method : Method ABIAddRecordCall := {|
  m_Name := bs "addRecord";
  m_ID := AddRecordID;
  m_Selector := AddRecordSelector;
  m_EncodeWithSelector := abi_EncodeWithSelector ABIAddRecordCall_c AddRecordSelector
|}.

Definition AddRegistryCall_Method : Method ABIAddRegistryCall := {|
  m_Name := bs "addRegistry";
  m_ID := AddRegistryID;
  m_Selector := AddRegistrySelector;
  m_EncodeWithSelector := abi_EncodeWithSelector ABIAddRegistryCall_c AddRegistrySelector
|}.

Definition GrantRoleCall_Method : Method ABIGrantRoleCall := {|
  m_Name := bs "grantRole";
  m_ID := GrantRoleID;
  m_Selector := GrantRoleSelector;
  m_EncodeWithSelector := abi_EncodeWithSelector ABIGrantRoleCall_c GrantRoleSelector
|}.

Definition RecordsCall_Method : Method ABIRecordsCall := {|
  m_Name := bs "records";
  m_ID := RecordsID;
  m_Selector := RecordsSelector;
  m_EncodeWithSelector := abi_EncodeWithSelector ABIRecordsCall_c RecordsSelector
|}.

Definition RegistriesCall_Method : Method ABIRegistriesCall := {|
  m_Name := bs "registries";
  m_ID := RegistriesID;
  m_Selector := RegistriesSelector;
  m_EncodeWithSelector := abi_EncodeWithSelector ABIRegistriesCall_c RegistriesSelector
|}.

Definition RegistriesByNameCall_Method : Method ABIRegistriesByNameCall := {|
  m_Name := bs "registriesByName";
  m_ID := RegistriesByNameID;
  m_Selector := RegistriesByNameSelector;
  m_EncodeWithSelector := abi_EncodeWithSelector ABIRegistriesByNameCall_c RegistriesByNameSelector
|}.

Definition RevokeRoleCall_Method : Method ABIRevokeRoleCall := {|
  m_Name := bs "revokeRole";
  m_ID := RevokeRoleID;
  m_Selector := RevokeRoleSelector;
  m_EncodeWithSelector := abi_EncodeWithSelector ABIRevokeRoleCall_c RevokeRoleSelector
|}.

Definition UpdateRecordStatusCall_Method : Method ABIUpdateRecordStatusCall := {|
  m_Name := bs "updateRecordStatus";
  m_ID := UpdateRecordStatusID;
  m_Selector := UpdateRecordStatusSelector;
  m_EncodeWithSelector := abi_EncodeWithSelector ABIUpdateRecordStatusCall_c UpdateRecordStatusSelector
|}.

Definition DummyCall_Method : Method ABIDummyCall := {|
  m_Name := bs "dummy";
  m_ID := DummyID;
  m_Selector := DummySelector;
  m_EncodeWithSelector := abi_EncodeWithSelector ABIDummyCall_c DummySelector
|}.

(** [NewXCall] *)
Definition NewAddRecordCall (record : ABIRecord) : ABIAddRecordCall :=
  {| arc_Record := record |}.

Definition NewAddRegistryCall (name : bytes) (description : bytes) (metadata : bytes) : ABIAddRegistryCall :=
  {| agc_Name := name;
     agc_Description := description;
     agc_Metadata := metadata |}.

Definition NewGrantRoleCall (registryId : Z) (checksum : bytes) (account : bytes) (role : bytes) : ABIGrantRoleCall :=
  {| grc_RegistryId := registryId;
     grc_Checksum := checksum;
     grc_Account := account;
     grc_Role := role |}.

Definition NewRecordsCall (registryId : Z) (checksum : bytes) (recordId : Z) (index : Z) (pagination : ABIPageRequest) : ABIRecordsCall :=
  {| rsc_RegistryId := registryId;
     rsc_Checksum := checksum;
     rsc_RecordId := recordId;
     rsc_Index := index;
     rsc_Pagination := pagination |}.

Definition NewRegistriesCall (registryId : Z) (pagination : ABIPageRequest) : ABIRegistriesCall :=
  {| rgc_RegistryId := registryId;
     rgc_Pagination := pagination |}.

Definition NewRegistriesByNameCall (name : bytes) (matchMode : Z) (pagination : ABIPageRequest) : ABIRegistriesByNameCall :=
  {| rnc_Name := name;
     rnc_MatchMode := matchMode;
     rnc_Pagination := pagination |}.

Definition NewRevokeRoleCall (registryId : Z) (checksum : bytes) (account : bytes) (role : bytes) : ABIRevokeRoleCall :=
  {| rrc_RegistryId := registryId;
     rrc_Checksum := checksum;
     rrc_Account := account;
     rrc_Role := role |}.

Definition NewUpdateRecordStatusCall (registryId : Z) (recordId : Z) (index : Z) (status : bytes) : ABIUpdateRecordStatusCall :=
  {| usc_RegistryId := registryId;
     usc_RecordId := recordId;
     usc_Index := index;
     usc_Status := status |}.

Definition NewDummyCall (a : ABICoin) (b : ABIDecCoin) (c : ABIDec) (d : ABIHeight) (e : ABIPageRequest) (f : ABIPageResponse) (g : ABIICS20Allocation) : ABIDummyCall :=
  {| dum_A := a;
     dum_B := b;
     dum_C := c;
     dum_D := d;
     dum_E := e;
     dum_F := f;
     dum_G := g |}.

(** [Encode] of each tuple. *)
Definition ABIPageRequest_Encode (value : ABIPageRequest) : result bytes := abi_Encode ABIPageRequest_c value.
Definition ABIPageResponse_Encode (value : ABIPageResponse) : result bytes := abi_Encode ABIPageResponse_c value.
Definition ABIRecord_Encode (value : ABIRecord) : result bytes := abi_Encode ABIRecord_c value.
Definition ABIRegistry_Encode (value : ABIRegistry) : result bytes := abi_Encode ABIRegistry_c value.
Definition ABIAddRecordCall_Encode (value : ABIAddRecordCall) : result bytes := abi_Encode ABIAddRecordCall_c value.
Definition ABIAddRecordReturn_Encode (value : ABIAddRecordReturn) : result bytes := abi_Encode ABIAddRecordReturn_c value.
Definition ABIAddRegistryCall_Encode (value : ABIAddRegistryCall) : result bytes := abi_Encode ABIAddRegistryCall_c value.
Definition ABIAddRegistryReturn_Encode (value : ABIAddRegistryReturn) : result bytes := abi_Encode ABIAddRegistryReturn_c value.
Definition ABIGrantRoleCall_Encode (value : ABIGrantRoleCall) : result bytes := abi_Encode ABIGrantRoleCall_c value.
Definition ABIRecordsCall_Encode (value : ABIRecordsCall) : result bytes := abi_Encode ABIRecordsCall_c value.
Definition ABIRecordsReturn_Encode (value : ABIRecordsReturn) : result bytes := abi_Encode ABIRecordsReturn_c value.
Definition ABIRegistriesCall_Encode (value : ABIRegistriesCall) : result bytes := abi_Encode ABIRegistriesCall_c value.
Definition ABIRegistriesReturn_Encode (value : ABIRegistriesReturn) : result bytes := abi_Encode ABIRegistriesReturn_c value.
Definition ABIRegistriesByNameCall_Encode (value : ABIRegistriesByNameCall) : result bytes := abi_Encode ABIRegistriesByNameCall_c value.
Definition ABIRegistriesByNameReturn_Encode (value : ABIRegistriesByNameReturn) : result bytes := abi_Encode ABIRegistriesByNameReturn_c value.
Definition ABIRevokeRoleCall_Encode (value : ABIRevokeRoleCall) : result bytes := abi_Encode ABIRevokeRoleCall_c value.
Definition ABIUpdateRecordStatusCall_Encode (value : ABIUpdateRecordStatusCall) : result bytes := abi_Encode ABIUpdateRecordStatusCall_c value.
Definition ABIAddRecordEventData_Encode (value : ABIAddRecordEventData) : result bytes := abi_Encode ABIAddRecordEventData_c value.
Definition ABIAddRegistryEventData_Encode (value : ABIAddRegistryEventData) : result bytes := abi_Encode ABIAddRegistryEventData_c value.
Definition ABIGrantRoleEventData_Encode (value : ABIGrantRoleEventData) : result bytes := abi_Encode ABIGrantRoleEventData_c value.
Definition ABIRevokeRoleEventData_Encode (value : ABIRevokeRoleEventData) : result bytes := abi_Encode ABIRevokeRoleEventData_c value.
Definition ABIUpdateRecordStatusEventData_Encode (value : ABIUpdateRecordStatusEventData) : result bytes := abi_Encode ABIUpdateRecordStatusEventData_c value.
Definition ABICoin_Encode (value : ABICoin) : result bytes := abi_Encode ABICoin_c value.
Definition ABIDec_Encode (value : ABIDec) : result bytes := abi_Encode ABIDec_c value.
Definition ABIDecCoin_Encode (value : ABIDecCoin) : result bytes := abi_Encode ABIDecCoin_c value.
Definition ABIHeight_Encode (value : ABIHeight) : result bytes := abi_Encode ABIHeight_c value.
Definition ABIICS20Allocation_Encode (value : ABIICS20Allocation) : result bytes := abi_Encode ABIICS20Allocation_c value.
Definition ABIDummyCall_Encode (value : ABIDummyCall) : result bytes := abi_Encode ABIDummyCall_c value.

Definition ABIDec_PackedEncode (value : ABIDec) : result bytes := abi_Encode ABIDec_packed_c value.
Definition ABIHeight_PackedEncode (value : ABIHeight) : result bytes := abi_Encode ABIHeight_packed_c value.
Definition ABIAddRecordReturn_PackedEncode (value : ABIAddRecordReturn) : result bytes := abi_Encode ABIAddRecordReturn_packed_c value.
Definition ABIAddRegistryReturn_PackedEncode (value : ABIAddRegistryReturn) : result bytes := abi_Encode ABIAddRegistryReturn_packed_c value.

(** The slices of tuples. *)
Definition EncodeRegistrySlice : list ABIRegistry -> bytes -> result (bytes * Z) := EncodeSlice ABIRegistry_c.
Definition SizeRegistrySlice : list ABIRegistry -> Z := SizeSlice ABIRegistry_c.
Definition DecodeRegistrySlice : bytes -> result (list ABIRegistry * Z) := DecodeSlice ABIRegistry_c.
Definition EncodeCoinSlice : list ABICoin -> bytes -> result (bytes * Z) := EncodeSlice ABICoin_c.
Definition SizeCoinSlice : list ABICoin -> Z := SizeSlice ABICoin_c.
Definition DecodeCoinSlice : bytes -> result (list ABICoin * Z) := DecodeSlice ABICoin_c.
End methods.

(** ** Signatures *)

(** The types of the Solidity interface. *)
Inductive AbiType :=
| String | Bytes | Uint (bits : Z) | Bool | Address
| Slice (t : AbiType)
| Tuple (ts : list AbiType).

Fixpoint comma_sep (l : list bytes) : bytes :=
  match l with
  | [] => []
  | [x] => x
  | x :: l' => x ++ bs "," ++ comma_sep l'
  end.

(** The canonical text of a type. *)
Fixpoint type_text (t : AbiType) : bytes :=
  match t with
  | String => bs "string"
  | Bytes => bs "bytes"
  | Uint bits => bs "uint" ++ fmt_d bits
  | Bool => bs "bool"
  | Address => bs "address"
  | Slice t => type_text t ++ bs "[]"
  | Tuple ts => bs "(" ++ comma_sep (map type_text ts) ++ bs ")"
  end.

Definition signature (name : bytes) (args : list AbiType) : bytes := name ++ type_text (Tuple args).

(** The number of bytes of the head: a word for a dynamic type. *)
Fixpoint is_dynamic (t : AbiType) : bool :=
  match t with
  | String | Bytes | Slice _ => true
  | Uint _ | Bool | Address => false
  | Tuple ts => existsb is_dynamic ts
  end.

Fixpoint head_size (t : AbiType) : Z :=
  match t with
  | Tuple ts => if is_dynamic t then 32 else fold_right (fun t n => head_size t + n) 0 ts
  | _ => 32
  end.

(** The static part of a tuple of these types. *)
Definition static_part (ts : list AbiType) : Z := fold_right (fun t n => head_size t + n) 0 ts.

Definition Coin_type : AbiType := Tuple [String; Uint 256].
Definition Dec_type : AbiType := Tuple [Uint 256; Uint 8].
Definition DecCoin_type : AbiType := Tuple [String; Uint 256; Uint 8].
Definition Height_type : AbiType := Tuple [Uint 64; Uint 64].
Definition PageRequest_type : AbiType := Tuple [Bytes; Uint 64; Uint 64; Bool; Bool].
Definition PageResponse_type : AbiType := Tuple [Bytes; Uint 64].
Definition Record_type : AbiType := Tuple [String; String; String; String; String; String; Uint 64; Uint 64; Bool; Uint 64].
Definition Registry_type : AbiType := Tuple [Uint 64; String; String; String; String; String].
Definition ICS20Allocation_type : AbiType := Tuple [String; String; Slice Coin_type; Slice String; Slice String].

Definition AddRecordCall_args : list AbiType := [Record_type].
Definition AddRegistryCall_args : list AbiType := [String; String; String].
Definition GrantRoleCall_args : list AbiType := [Uint 64; String; Address; String].
Definition RecordsCall_args : list AbiType := [Uint 64; String; Uint 64; Uint 64; PageRequest_type].
Definition RegistriesCall_args : list AbiType := [Uint 64; PageRequest_type].
Definition RegistriesByNameCall_args : list AbiType := [String; Uint 8; PageRequest_type].
Definition RevokeRoleCall_args : list AbiType := [Uint 64; String; Address; String].
Definition UpdateRecordStatusCall_args : list AbiType := [Uint 64; Uint 64; Uint 64; String].
Definition DummyCall_args : list AbiType := [Coin_type; DecCoin_type; Dec_type; Height_type; PageRequest_type; PageResponse_type; ICS20Allocation_type].

(** The events: the caller is the indexed argument. *)
Definition AddRecordEvent_args : list AbiType := Address :: [Uint 64; Uint 64; Uint 64; String].
Definition AddRegistryEvent_args : list AbiType := Address :: [Uint 64; String].
Definition GrantRoleEvent_args : list AbiType := Address :: [Uint 64; String; Address; String].
Definition RevokeRoleEvent_args : list AbiType := Address :: [Uint 64; String; Address; String].
Definition UpdateRecordStatusEvent_args : list AbiType := Address :: [Uint 64; Uint 64; Uint 64; String].

(** [GetEventName] of an event; its id is its topic. *)
Definition GetEventName (ev : AbiEvent) : bytes :=
  match ev with
  | AddRecordEvent _ _ => bs "AddRecord"
  | AddRegistryEvent _ _ => bs "AddRegistry"
  | GrantRoleEvent _ _ => bs "GrantRole"
  | RevokeRoleEvent _ _ => bs "RevokeRole"
  | UpdateRecordStatusEvent _ _ => bs "UpdateRecordStatus"
  end.
Definition GetEventID (ev : AbiEvent) : bytes := event_topic ev.

Definition event_args (ev : AbiEvent) : list AbiType :=
  match ev with
  | AddRecordEvent _ _ => AddRecordEvent_args
  | AddRegistryEvent _ _ => AddRegistryEvent_args
  | GrantRoleEvent _ _ => GrantRoleEvent_args
  | RevokeRoleEvent _ _ => RevokeRoleEvent_args
  | UpdateRecordStatusEvent _ _ => UpdateRecordStatusEvent_args
  end.

(** ** Properties *)

Section properties.
Context {LIB : AbiLib} {LAWS : AbiLibLaws} {LIBC : AbiLibCommon} {LAWSC : AbiLibCommonLaws}.

(** The selector is the start of the digest of the signature, the id its value, and
    the static part the one of the types. *)
Definition method_ok {A} (m : Method A) (args : list AbiType) (size : Z) : Prop :=
  m_Selector m = take 4 (Keccak.digest (signature (m_Name m) args)) /\
  m_ID m = be_value (m_Selector m) /\ size = static_part args.

(** The method of a call. *)
Definition call_method (call : AbiCall) : Z * bytes * result bytes :=
  match call with
  | AddRecordCall c => (m_ID AddRecordCall_Method, m_Selector AddRecordCall_Method, m_EncodeWithSelector AddRecordCall_Method c)
  | AddRegistryCall c => (m_ID AddRegistryCall_Method, m_Selector AddRegistryCall_Method, m_EncodeWithSelector AddRegistryCall_Method c)
  | GrantRoleCall c => (m_ID GrantRoleCall_Method, m_Selector GrantRoleCall_Method, m_EncodeWithSelector GrantRoleCall_Method c)
  | RecordsCall c => (m_ID RecordsCall_Method, m_Selector RecordsCall_Method, m_EncodeWithSelector RecordsCall_Method c)
  | RegistriesCall c => (m_ID RegistriesCall_Method, m_Selector RegistriesCall_Method, m_EncodeWithSelector RegistriesCall_Method c)
  | RegistriesByNameCall c => (m_ID RegistriesByNameCall_Method, m_Selector RegistriesByNameCall_Method, m_EncodeWithSelector RegistriesByNameCall_Method c)
  | RevokeRoleCall c => (m_ID RevokeRoleCall_Method, m_Selector RevokeRoleCall_Method, m_EncodeWithSelector RevokeRoleCall_Method c)
  | UpdateRecordStatusCall c => (m_ID UpdateRecordStatusCall_Method, m_Selector UpdateRecordStatusCall_Method, m_EncodeWithSelector UpdateRecordStatusCall_Method c)
  end.

(** the generated constants are those of the Solidity interface.  Every
    selector is the first four bytes of the Keccak digest of the method's
    signature, every method id is its selector as a number, no two methods share
    one, every tuple's static part has the size of its types, and every event's
    topic is the digest of its signature; the id, selector and encoding the
    precompile uses for a call are those of its method. *)
Theorem selectors_match_signatures :
  method_ok AddRecordCall_Method AddRecordCall_args AddRecordCallStaticSize /\
  method_ok AddRegistryCall_Method AddRegistryCall_args AddRegistryCallStaticSize /\
  method_ok GrantRoleCall_Method GrantRoleCall_args GrantRoleCallStaticSize /\
  method_ok RecordsCall_Method RecordsCall_args RecordsCallStaticSize /\
  method_ok RegistriesCall_Method RegistriesCall_args RegistriesCallStaticSize /\
  method_ok RegistriesByNameCall_Method RegistriesByNameCall_args RegistriesByNameCallStaticSize /\
  method_ok RevokeRoleCall_Method RevokeRoleCall_args RevokeRoleCallStaticSize /\
  method_ok UpdateRecordStatusCall_Method UpdateRecordStatusCall_args UpdateRecordStatusCallStaticSize /\
  method_ok DummyCall_Method DummyCall_args DummyCallStaticSize /\
  NoDup [m_ID AddRecordCall_Method; m_ID AddRegistryCall_Method; m_ID GrantRoleCall_Method; m_ID RecordsCall_Method; m_ID RegistriesCall_Method; m_ID RegistriesByNameCall_Method; m_ID RevokeRoleCall_Method; m_ID UpdateRecordStatusCall_Method; m_ID DummyCall_Method] /\
  (forall ev, GetEventID ev = Keccak.digest (signature (GetEventName ev) (event_args ev))) /\
  (forall call, (GetMethodID call, GetMethodSelector call, EncodeWithSelector call) = call_method call).
Proof.
  split_and!; try (split_and!; vm_compute; reflexivity).
  - by_eval.
  - intros []; vm_compute; reflexivity.
  - by intros [].
Qed.

(** Encodings that have the announced size and decode to the value, whatever
    follows, and a decoder that reports a size inside any input or an error, but
    never reads outside it. *)
Definition sound_codec {A} (c : Codec A) `{!Lawful c} (encode : A -> result bytes) : Prop :=
  (forall x rest, c_ok c x -> exists buf,
     encode x = Ok buf /\ blen buf = c_Size c x /\ c_Decode c (buf ++ rest) = Ok (x, blen buf)) /\
  (forall data, in_bounds data (c_Decode c data)).

Lemma lawful_sound {A} (c : Codec A) `{!Lawful c} : sound_codec c (abi_Encode c).
Proof.
  split; [|exact lw_bound]. intros x rest Hx. exists (c_enc c x).
  split; [by apply abi_Encode_ok|]. split; [by rewrite (lw_size x)|by apply lw_decode].
Qed.

(** C22: the ABI codecs are sound.  On any byte string the decoder of each tuple, of
    each slice of tuples and of each packed tuple returns an error or a value and a
    size inside the input; and what [Encode] writes for a value that fits its types
    has the announced size and decodes to the value. *)
Theorem codecs_sound :
  sound_codec ABIPageRequest_c ABIPageRequest_Encode /\
  sound_codec ABIPageResponse_c ABIPageResponse_Encode /\
  sound_codec ABIRecord_c ABIRecord_Encode /\
  sound_codec ABIRegistry_c ABIRegistry_Encode /\
  sound_codec ABIAddRecordCall_c ABIAddRecordCall_Encode /\
  sound_codec ABIAddRecordReturn_c ABIAddRecordReturn_Encode /\
  sound_codec ABIAddRegistryCall_c ABIAddRegistryCall_Encode /\
  sound_codec ABIAddRegistryReturn_c ABIAddRegistryReturn_Encode /\
  sound_codec ABIGrantRoleCall_c ABIGrantRoleCall_Encode /\
  sound_codec ABIRecordsCall_c ABIRecordsCall_Encode /\
  sound_codec ABIRecordsReturn_c ABIRecordsReturn_Encode /\
  sound_codec ABIRegistriesCall_c ABIRegistriesCall_Encode /\
  sound_codec ABIRegistriesReturn_c ABIRegistriesReturn_Encode /\
  sound_codec ABIRegistriesByNameCall_c ABIRegistriesByNameCall_Encode /\
  sound_codec ABIRegistriesByNameReturn_c ABIRegistriesByNameReturn_Encode /\
  sound_codec ABIRevokeRoleCall_c ABIRevokeRoleCall_Encode /\
  sound_codec ABIUpdateRecordStatusCall_c ABIUpdateRecordStatusCall_Encode /\
  sound_codec ABIAddRecordEventData_c ABIAddRecordEventData_Encode /\
  sound_codec ABIAddRegistryEventData_c ABIAddRegistryEventData_Encode /\
  sound_codec ABIGrantRoleEventData_c ABIGrantRoleEventData_Encode /\
  sound_codec ABIRevokeRoleEventData_c ABIRevokeRoleEventData_Encode /\
  sound_codec ABIUpdateRecordStatusEventData_c ABIUpdateRecordStatusEventData_Encode /\
  sound_codec ABICoin_c ABICoin_Encode /\
  sound_codec ABIDec_c ABIDec_Encode /\
  sound_codec ABIDecCoin_c ABIDecCoin_Encode /\
  sound_codec ABIHeight_c ABIHeight_Encode /\
  sound_codec ABIICS20Allocation_c ABIICS20Allocation_Encode /\
  sound_codec ABIDummyCall_c ABIDummyCall_Encode /\
  sound_codec ABIDec_packed_c ABIDec_PackedEncode /\
  sound_codec ABIHeight_packed_c ABIHeight_PackedEncode /\
  sound_codec ABIAddRecordReturn_packed_c ABIAddRecordReturn_PackedEncode /\
  sound_codec ABIAddRegistryReturn_packed_c ABIAddRegistryReturn_PackedEncode /\
  sound_codec (slice_c ABIRecord_c) (abi_Encode (slice_c ABIRecord_c)) /\
  sound_codec (slice_c ABIRegistry_c) (abi_Encode (mkCodec SizeRegistrySlice EncodeRegistrySlice DecodeRegistrySlice)) /\
  sound_codec (slice_c ABICoin_c) (abi_Encode (mkCodec SizeCoinSlice EncodeCoinSlice DecodeCoinSlice)).
Proof. repeat split_and; apply lawful_sound. Qed.
End properties.

(** ** Witnesses *)

(** An integer in [n] bytes. *)
Definition fixed_c (n : nat) : Codec Z := mkCodec
  (fun _ => Z.of_nat n)
  (fun x buf => if blen buf <? Z.of_nat n then Err ErrUnexpectedEOF else Ok (be_bytes n x ++ drop n buf, Z.of_nat n))
  (fun data => if blen data <? Z.of_nat n then Err ErrUnexpectedEOF else Ok (be_value (take n data), Z.of_nat n)).

Definition fixed_lawful (n : nat) : Lawful (fixed_c n).
Proof.
  assert (Hb : forall x, blen (be_bytes n x) = Z.of_nat n) by (intros x; unfold blen; by rewrite be_bytes_length).
  refine {| c_ok := fun x => 0 <= x < 256 ^ Z.of_nat n; c_enc := be_bytes n |}; cbn [fixed_c c_Size c_EncodeTo c_Decode].
  - intros x _. by rewrite Hb.
  - intros x rest _. rewrite blen_app. unfold blen at 1. rewrite length_replicate, be_bytes_length, Hb.
    pose proof (blen_nonneg rest). rewrite (proj2 (Z.ltb_ge _ _)) by lia.
    by rewrite drop_app_length' by (by rewrite length_replicate).
  - intros x rest Hx. rewrite blen_app, Hb. pose proof (blen_nonneg rest). rewrite (proj2 (Z.ltb_ge _ _)) by lia.
    rewrite take_app_length' by (by rewrite be_bytes_length). by rewrite be_value_bytes, Z.mod_small.
  - intros data. destruct (Z.ltb_spec (blen data) (Z.of_nat n)); [done|lia].
Defined.

#[export] Instance concrete_common : AbiLibCommon := {|
  uint256_c := fixed_c 32;
  string_slice_c := slice_c concrete_string;
  packed_uint8_c := fixed_c 1;
  packed_uint64_c := fixed_c 8;
  packed_uint256_c := fixed_c 32
|}.

#[export] Instance concrete_common_laws : AbiLibCommonLaws.
Proof.
  unshelve refine {| uint256_lawful := fixed_lawful 32; string_slice_lawful := slice_lawful concrete_string;
    packed_uint8_lawful := fixed_lawful 1; packed_uint64_lawful := fixed_lawful 8;
    packed_uint256_lawful := fixed_lawful 32 |}; try (intros x; apply be_bytes_length).
  exact concrete_string_lawful.
Defined.

Module DemoCommon.
Definition coin : ABICoin := mkABICoin (bs "anvnm") (2 ^ 200).

Lemma coin_ok : c_ok ABICoin_c coin.
Proof. split; [|by vm_compute]. split; vm_compute; done. Qed.
End DemoCommon.

Lemma codecs_sound_witness :
  exists buf, ABICoin_Encode DemoCommon.coin = Ok buf /\ blen buf = c_Size ABICoin_c DemoCommon.coin /\
  c_Decode ABICoin_c (buf ++ bs "x") = Ok (DemoCommon.coin, blen buf).
Proof.
  pose proof codecs_sound as H. do 22 (destruct H as [_ H]). destruct H as [H _].
  apply (proj1 H). exact DemoCommon.coin_ok.
Defined.
