(* ===== verification/HumanAbi.v ===== *)
(** The Solidity interface as the source declares it: the texts [HumanABI] of
    src/x/anchoring/precompile/anchoring.go and [CommonABI] of
    src/precompiles/common.go, from which anchoring.abi.go and common.abi.go are
    generated.

    [parse_decl] reads the human-readable format: structs, functions and events, each
    with its parameters.  [encode] is the Solidity ABI encoding of a value of a
    declared type, driven by the declaration: the fields of a struct are found by
    name and laid out in the declared order.  The theorem is that the generated code
    writes these encodings, behind the selectors and topics of the declared
    signatures. *)

From S2P Require Import Prelude Types Concrete EvmLayout Abi AbiAnchoring AbiConcrete AbiCalls AbiCommon AbiMethods.

Definition HumanABI : list string :=
  ["struct Record {string uri; string checksum; string checksumAlgo; string metadata; string timestamp; string status; uint64 recordId; uint64 index; bool isLatest; uint64 registryId}";
   "struct Registry {uint64 id; string name; string description; string creator; string createdAt; string metadata}";
   "struct PageRequest { bytes key; uint64 offset; uint64 limit; bool countTotal; bool reverse; }";
   "struct PageResponse { bytes nextKey; uint64 total; }";
   "function addRegistry(string name, string description, string metadata) returns (uint64 registryId)";
   "function addRecord(Record record) returns (uint64 recordId)";
   "function updateRecordStatus(uint64 registryId, uint64 recordId, uint64 index, string status) returns ()";
   "function records(uint64 registryId, string checksum, uint64 recordId, uint64 index, PageRequest pagination) returns (Record[] records, PageResponse pagination)";
   "function registries(uint64 registryId, PageRequest pagination) returns (Registry[] registries, PageResponse pagination)";
   "function registriesByName(string name, uint8 matchMode, PageRequest pagination) returns (Registry[] registries, PageResponse pagination)";
   "function grantRole(uint64 registryId, string checksum, address account, string role) returns ()";
   "function revokeRole(uint64 registryId, string checksum, address account, string role) returns ()";
   "event AddRegistry(address indexed caller, uint64 registryId, string name)";
   "event AddRecord(address indexed caller, uint64 registryId, uint64 recordId, uint64 index, string checksum)";
   "event UpdateRecordStatus(address indexed caller, uint64 registryId, uint64 recordId, uint64 index, string status)";
   "event GrantRole(address indexed caller, uint64 registryId, string checksum, address account, string role)";
   "event RevokeRole(address indexed caller, uint64 registryId, string checksum, address account, string role)"]%string.

Definition CommonABI : list string :=
  ["struct Coin {string denom; uint256 amount;}";
   "struct DecCoin {string denom; uint256 amount; uint8 precision;}";
   "struct Dec {uint256 value; uint8 precision;}";
   "struct Height { uint64 revisionNumber; uint64 revisionHeight; }";
   "struct PageRequest { bytes key; uint64 offset; uint64 limit; bool countTotal; bool reverse; }";
   "struct PageResponse { bytes nextKey; uint64 total; }";
   "struct ICS20Allocation { string sourcePort; string sourceChannel; Coin[] spendLimit; string[] allowList; string[] allowedPacketData; }";
   "function dummy(Coin a, DecCoin b, Dec c, Height d, PageRequest e, PageResponse f, ICS20Allocation g)"]%string.

(** ** The format *)

Definition is_punct (b : byte) : bool := bool_decide (b ∈ bs "(){},;").
Definition is_space (b : byte) : bool := bool_decide (b ∈ bs " ").

(** The words and the punctuation of a text; [word] is the word being read. *)
Fixpoint tokens (word : bytes) (s : bytes) : list bytes :=
  let flush := match word with [] => [] | _ => [rev word] end in
  match s with
  | [] => flush
  | b :: s' =>
      if is_space b then flush ++ tokens [] s'
      else if is_punct b then flush ++ [b] :: tokens [] s'
      else tokens (b :: word) s'
  end.

(** A parameter: its type, whether it is indexed, its name. *)
Record Param := mkParam { par_Type : bytes; par_Indexed : bool; par_Name : bytes }.

(** Parameters up to the closing token, each followed by a separator or the end. *)
Fixpoint params (sep close : bytes) (fuel : nat) (ts : list bytes) : option (list Param * list bytes) :=
  match fuel with
  | O => None
  | S fuel' =>
      match ts with
      | t :: rest =>
          if bool_decide (t = close) then Some ([], rest) else
          let '(indexed, rest) := match rest with
                                  | i :: rest' => if bool_decide (i = bs "indexed") then (true, rest') else (false, rest)
                                  | [] => (false, [])
                                  end in
          match rest with
          | name :: sep' :: rest' =>
              let next := if bool_decide (sep' = sep) then rest' else sep' :: rest' in
              '(ps, rest) ← params sep close fuel' next;
              Some (mkParam t indexed name :: ps, rest)
          | _ => None
          end
      | [] => None
      end
  end.

Inductive Decl :=
| StructDecl (name : bytes) (fields : list Param)
| FunctionDecl (name : bytes) (args rets : list Param)
| EventDecl (name : bytes) (args : list Param).

Definition parse_decl (text : string) : option Decl :=
  let ts := tokens [] (bs text) in
  let fuel := S (length ts) in
  match ts with
  | kind :: name :: _ :: rest =>
      if bool_decide (kind = bs "struct") then
        '(fields, rest) ← params (bs ";") (bs "}") fuel rest;
        match rest with [] => Some (StructDecl name fields) | _ => None end
      else if bool_decide (kind = bs "event") then
        '(args, rest) ← params (bs ",") (bs ")") fuel rest;
        match rest with [] => Some (EventDecl name args) | _ => None end
      else if bool_decide (kind = bs "function") then
        '(args, rest) ← params (bs ",") (bs ")") fuel rest;
        match rest with
        | [] => Some (FunctionDecl name args [])
        | r :: _ :: rest =>
            if bool_decide (r = bs "returns") then
              '(rets, rest) ← params (bs ",") (bs ")") fuel rest;
              match rest with [] => Some (FunctionDecl name args rets) | _ => None end
            else None
        | _ => None
        end
      else None
  | _ => None
  end.

(** ** Types *)

(** A declared type; the fields of a struct have names. *)
Inductive Ty :=
| TString | TBytes | TUint (bits : Z) | TBool | TAddress
| TSlice (t : Ty)
| TStruct (fields : list (bytes * Ty)).

Abbreviation Fields := (list (bytes * Ty)).
Abbreviation Structs := (list (bytes * Ty)).

(** The type as it appears in a signature. *)
Fixpoint abi_type (t : Ty) : AbiType :=
  match t with
  | TString => String
  | TBytes => Bytes
  | TUint bits => Uint bits
  | TBool => Bool
  | TAddress => Address
  | TSlice t => Slice (abi_type t)
  | TStruct fs => Tuple (map (fun f => abi_type f.2) fs)
  end.

Definition is_prefix_of (p s : bytes) : bool := bool_decide (take (length p) s = p).

(** A name of a type; [T[]] is a slice. *)
Definition type_of (structs : Structs) (t : bytes) : option Ty :=
  let slice := bool_decide (drop (length t - 2) t = bs "[]") in
  let base := if slice then take (length t - 2) t else t in
  elem ← (if bool_decide (base = bs "string") then Some TString
          else if bool_decide (base = bs "bytes") then Some TBytes
          else if bool_decide (base = bs "bool") then Some TBool
          else if bool_decide (base = bs "address") then Some TAddress
          else if is_prefix_of (bs "uint") base then Some (TUint (digits_value (drop 4 base)))
          else (fun e => e.2.2) <$> list_find (fun e => e.1 = base) structs);
  Some (if slice then TSlice elem else elem).

Fixpoint fields_of (structs : Structs) (ps : list Param) : option Fields :=
  match ps with
  | [] => Some []
  | p :: ps => t ← type_of structs (par_Type p); ts ← fields_of structs ps; Some ((par_Name p, t) :: ts)
  end.

Record Function := mkFunction { f_Name : bytes; f_Args : Fields; f_Rets : Fields }.
Record Event := mkEvent { e_Name : bytes; e_Args : Fields; e_Indexed : list bool }.

(** What a list of texts declares. *)
Record Interface := mkInterface { functions : list Function; events : list Event }.

Fixpoint declare (structs : Structs) (texts : list string) : option Interface :=
  match texts with
  | [] => Some (mkInterface [] [])
  | text :: texts =>
      d ← parse_decl text;
      match d with
      | StructDecl name fields =>
          ts ← fields_of structs fields;
          declare ((name, TStruct ts) :: structs) texts
      | FunctionDecl name args rets =>
          ats ← fields_of structs args;
          rts ← fields_of structs rets;
          i ← declare structs texts;
          Some (mkInterface (mkFunction name ats rts :: functions i) (events i))
      | EventDecl name args =>
          ats ← fields_of structs args;
          i ← declare structs texts;
          Some (mkInterface (functions i) (mkEvent name ats (par_Indexed <$> args) :: events i))
      end
  end.

Definition find_function (i : Interface) (name : bytes) : option Function :=
  snd <$> list_find (fun f => f_Name f = name) (functions i).
Definition find_event (i : Interface) (name : bytes) : option Event :=
  snd <$> list_find (fun e => e_Name e = name) (events i).

Definition fields_signature (name : bytes) (fs : Fields) : bytes := signature name (map (fun f => abi_type f.2) fs).
Definition selector (f : Function) : bytes := take 4 (Keccak.digest (fields_signature (f_Name f) (f_Args f))).
Definition topic (e : Event) : bytes := Keccak.digest (fields_signature (e_Name e) (e_Args e)).

(** The arguments of an event that are topics, and those that are data. *)
Definition args_indexed (b : bool) (e : Event) : Fields :=
  fst <$> filter (fun a => a.2 = b) (zip (e_Args e) (e_Indexed e)).

(** ** The encoding of a declared type *)

(** A value; the fields of a struct under the names of the Go fields. *)
Inductive Val :=
| VBytes (b : bytes) | VNum (n : Z) | VBool (b : bool)
| VList (l : list Val)
| VStruct (fields : list (bytes * Val)).

(** The Go name of a declared field: its first letter in upper case. *)
Definition go_name (name : bytes) : bytes :=
  match name with
  | [] => []
  | b :: rest => (if (97 <=? b2z b) && (b2z b <=? 122) then z2b (b2z b - 32) else b) :: rest
  end.

Definition field (vs : list (bytes * Val)) (name : bytes) : option Val :=
  (fun e => e.2.2) <$> list_find (fun e => e.1 = go_name name) vs.

(** A sequence of encoded values of known types: a head for each, the value itself
    or, for a dynamic type, the offset of its data; then the data of the dynamic ones
    in order. *)
Fixpoint seq_heads (off : Z) (es : list (AbiType * bytes)) : bytes :=
  match es with
  | [] => []
  | (t, e) :: es' => if is_dynamic t then Word off ++ seq_heads (off + blen e) es' else e ++ seq_heads off es'
  end.

Fixpoint seq_data (es : list (AbiType * bytes)) : bytes :=
  match es with
  | [] => []
  | (t, e) :: es' => if is_dynamic t then e ++ seq_data es' else seq_data es'
  end.

Definition sequence (es : list (AbiType * bytes)) : bytes :=
  seq_heads (static_part es.*1) es ++ seq_data es.

Definition text_of (v : Val) : option bytes := match v with VBytes b => Some b | _ => None end.

Section encoding.
Context {LIB : AbiLib} {LAWS : AbiLibLaws} {LIBC : AbiLibCommon} {LAWSC : AbiLibCommonLaws}.

(** Elementary values and lists of strings are written by the library. *)
Fixpoint encode (t : Ty) (v : Val) : option bytes :=
  match t with
  | TString => match v with VBytes b => Some (c_enc string_c b) | _ => None end
  | TBytes => match v with VBytes b => Some (c_enc bytes_c b) | _ => None end
  | TAddress => match v with VBytes b => Some (c_enc address_c b) | _ => None end
  | TBool => match v with VBool b => Some (c_enc bool_c b) | _ => None end
  | TUint bits => match v with
                  | VNum n => if bits =? 8 then Some (c_enc uint8_c n)
                              else if bits =? 64 then Some (c_enc uint64_c n)
                              else if bits =? 256 then Some (c_enc uint256_c n) else None
                  | _ => None
                  end
  | TSlice TString => match v with VList l => ss ← mapM text_of l; Some (c_enc string_slice_c ss) | _ => None end
  | TSlice t' => match v with
                 | VList l => es ← mapM (encode t') l;
                              Some (Word (Z.of_nat (length l)) ++ sequence (pair (abi_type t') <$> es))
                 | _ => None
                 end
  | TStruct fs => match v with
                  | VStruct vs =>
                      es ← (fix encode_fields (fs : Fields) : option (list (AbiType * bytes)) :=
                              match fs with
                              | [] => Some []
                              | (name, t') :: fs' =>
                                  x ← field vs name; e ← encode t' x;
                                  es ← encode_fields fs'; Some ((abi_type t', e) :: es)
                              end) fs;
                      Some (sequence es)
                  | _ => None
                  end
  end.
End encoding.

(** ** The values of the generated code *)

(** The fields of the Go structs under their names. *)
Definition PageRequest_value (x : ABIPageRequest) : Val := VStruct
  [(bs "Key", VBytes (pq_Key x)); (bs "Offset", VNum (pq_Offset x)); (bs "Limit", VNum (pq_Limit x));
   (bs "CountTotal", VBool (pq_CountTotal x)); (bs "Reverse", VBool (pq_Reverse x))].

Definition PageResponse_value (x : ABIPageResponse) : Val := VStruct
  [(bs "NextKey", VBytes (pp_NextKey x)); (bs "Total", VNum (pp_Total x))].

Definition Record_value (x : ABIRecord) : Val := VStruct
  [(bs "Uri", VBytes (abr_Uri x)); (bs "Checksum", VBytes (abr_Checksum x));
   (bs "ChecksumAlgo", VBytes (abr_ChecksumAlgo x)); (bs "Metadata", VBytes (abr_Metadata x));
   (bs "Timestamp", VBytes (abr_Timestamp x)); (bs "Status", VBytes (abr_Status x));
   (bs "RecordId", VNum (abr_RecordId x)); (bs "Index", VNum (abr_Index x));
   (bs "IsLatest", VBool (abr_IsLatest x)); (bs "RegistryId", VNum (abr_RegistryId x))].

Definition Registry_value (x : ABIRegistry) : Val := VStruct
  [(bs "Id", VNum (abg_Id x)); (bs "Name", VBytes (abg_Name x)); (bs "Description", VBytes (abg_Description x));
   (bs "Creator", VBytes (abg_Creator x)); (bs "CreatedAt", VBytes (abg_CreatedAt x));
   (bs "Metadata", VBytes (abg_Metadata x))].

Definition Coin_value (x : ABICoin) : Val := VStruct
  [(bs "Denom", VBytes (coin_Denom x)); (bs "Amount", VNum (coin_Amount x))].

Definition DecCoin_value (x : ABIDecCoin) : Val := VStruct
  [(bs "Denom", VBytes (dcoin_Denom x)); (bs "Amount", VNum (dcoin_Amount x));
   (bs "Precision", VNum (dcoin_Precision x))].

Definition Dec_value (x : ABIDec) : Val := VStruct
  [(bs "Value", VNum (dec_Value x)); (bs "Precision", VNum (dec_Precision x))].

Definition Height_value (x : ABIHeight) : Val := VStruct
  [(bs "RevisionNumber", VNum (hgt_RevisionNumber x)); (bs "RevisionHeight", VNum (hgt_RevisionHeight x))].

Definition ICS20Allocation_value (x : ABIICS20Allocation) : Val := VStruct
  [(bs "SourcePort", VBytes (alloc_SourcePort x)); (bs "SourceChannel", VBytes (alloc_SourceChannel x));
   (bs "SpendLimit", VList (Coin_value <$> alloc_SpendLimit x));
   (bs "AllowList", VList (VBytes <$> alloc_AllowList x));
   (bs "AllowedPacketData", VList (VBytes <$> alloc_AllowedPacketData x))].

Definition DummyCall_value (x : ABIDummyCall) : Val := VStruct
  [(bs "A", Coin_value (dum_A x)); (bs "B", DecCoin_value (dum_B x)); (bs "C", Dec_value (dum_C x));
   (bs "D", Height_value (dum_D x)); (bs "E", PageRequest_value (dum_E x));
   (bs "F", PageResponse_value (dum_F x)); (bs "G", ICS20Allocation_value (dum_G x))].

(** The name of a call's method and its arguments. *)
Definition GetMethodName {LIB : AbiLib} (call : AbiCall) : bytes :=
  match call with
  | AddRecordCall _ => m_Name AddRecordCall_Method
  | AddRegistryCall _ => m_Name AddRegistryCall_Method
  | GrantRoleCall _ => m_Name GrantRoleCall_Method
  | RecordsCall _ => m_Name RecordsCall_Method
  | RegistriesCall _ => m_Name RegistriesCall_Method
  | RegistriesByNameCall _ => m_Name RegistriesByNameCall_Method
  | RevokeRoleCall _ => m_Name RevokeRoleCall_Method
  | UpdateRecordStatusCall _ => m_Name UpdateRecordStatusCall_Method
  end.

Definition call_value (call : AbiCall) : Val :=
  match call with
  | AddRecordCall c => VStruct [(bs "Record", Record_value (arc_Record c))]
  | AddRegistryCall c => VStruct
      [(bs "Name", VBytes (agc_Name c)); (bs "Description", VBytes (agc_Description c));
       (bs "Metadata", VBytes (agc_Metadata c))]
  | GrantRoleCall c => VStruct
      [(bs "RegistryId", VNum (grc_RegistryId c)); (bs "Checksum", VBytes (grc_Checksum c));
       (bs "Account", VBytes (grc_Account c)); (bs "Role", VBytes (grc_Role c))]
  | RecordsCall c => VStruct
      [(bs "RegistryId", VNum (rsc_RegistryId c)); (bs "Checksum", VBytes (rsc_Checksum c));
       (bs "RecordId", VNum (rsc_RecordId c)); (bs "Index", VNum (rsc_Index c));
       (bs "Pagination", PageRequest_value (rsc_Pagination c))]
  | RegistriesCall c => VStruct
      [(bs "RegistryId", VNum (rgc_RegistryId c)); (bs "Pagination", PageRequest_value (rgc_Pagination c))]
  | RegistriesByNameCall c => VStruct
      [(bs "Name", VBytes (rnc_Name c)); (bs "MatchMode", VNum (rnc_MatchMode c));
       (bs "Pagination", PageRequest_value (rnc_Pagination c))]
  | RevokeRoleCall c => VStruct
      [(bs "RegistryId", VNum (rrc_RegistryId c)); (bs "Checksum", VBytes (rrc_Checksum c));
       (bs "Account", VBytes (rrc_Account c)); (bs "Role", VBytes (rrc_Role c))]
  | UpdateRecordStatusCall c => VStruct
      [(bs "RegistryId", VNum (usc_RegistryId c)); (bs "RecordId", VNum (usc_RecordId c));
       (bs "Index", VNum (usc_Index c)); (bs "Status", VBytes (usc_Status c))]
  end.

(** The results of the methods that return a value. *)
Inductive AbiReturn :=
| AddRecordReturn (r : ABIAddRecordReturn)
| AddRegistryReturn (r : ABIAddRegistryReturn)
| RecordsReturn (r : ABIRecordsReturn)
| RegistriesReturn (r : ABIRegistriesReturn)
| RegistriesByNameReturn (r : ABIRegistriesByNameReturn).

Definition return_name {LIB : AbiLib} (r : AbiReturn) : bytes :=
  match r with
  | AddRecordReturn _ => m_Name AddRecordCall_Method
  | AddRegistryReturn _ => m_Name AddRegistryCall_Method
  | RecordsReturn _ => m_Name RecordsCall_Method
  | RegistriesReturn _ => m_Name RegistriesCall_Method
  | RegistriesByNameReturn _ => m_Name RegistriesByNameCall_Method
  end.

Definition return_value (r : AbiReturn) : Val :=
  match r with
  | AddRecordReturn r => VStruct [(bs "RecordId", VNum (arr_RecordId r))]
  | AddRegistryReturn r => VStruct [(bs "RegistryId", VNum (agr_RegistryId r))]
  | RecordsReturn r => VStruct
      [(bs "Records", VList (Record_value <$> rsr_Records r)); (bs "Pagination", PageResponse_value (rsr_Pagination r))]
  | RegistriesReturn r => VStruct
      [(bs "Registries", VList (Registry_value <$> rgr_Registries r));
       (bs "Pagination", PageResponse_value (rgr_Pagination r))]
  | RegistriesByNameReturn r => VStruct
      [(bs "Registries", VList (Registry_value <$> rnr_Registries r));
       (bs "Pagination", PageResponse_value (rnr_Pagination r))]
  end.

Definition return_Encode {LIB : AbiLib} (r : AbiReturn) : result bytes :=
  match r with
  | AddRecordReturn r => ABIAddRecordReturn_Encode r
  | AddRegistryReturn r => ABIAddRegistryReturn_Encode r
  | RecordsReturn r => ABIRecordsReturn_Encode r
  | RegistriesReturn r => ABIRegistriesReturn_Encode r
  | RegistriesByNameReturn r => ABIRegistriesByNameReturn_Encode r
  end.

Definition return_ok {LIB : AbiLib} {LAWS : AbiLibLaws} (r : AbiReturn) : Prop :=
  match r with
  | AddRecordReturn r => c_ok ABIAddRecordReturn_c r
  | AddRegistryReturn r => c_ok ABIAddRegistryReturn_c r
  | RecordsReturn r => c_ok ABIRecordsReturn_c r
  | RegistriesReturn r => c_ok ABIRegistriesReturn_c r
  | RegistriesByNameReturn r => c_ok ABIRegistriesByNameReturn_c r
  end.

Definition event_value (ev : AbiEvent) : Val :=
  match ev with
  | AddRecordEvent _ d => VStruct
      [(bs "RegistryId", VNum (ared_RegistryId d)); (bs "RecordId", VNum (ared_RecordId d));
       (bs "Index", VNum (ared_Index d)); (bs "Checksum", VBytes (ared_Checksum d))]
  | AddRegistryEvent _ d => VStruct
      [(bs "RegistryId", VNum (aged_RegistryId d)); (bs "Name", VBytes (aged_Name d))]
  | GrantRoleEvent _ d => VStruct
      [(bs "RegistryId", VNum (gred_RegistryId d)); (bs "Checksum", VBytes (gred_Checksum d));
       (bs "Account", VBytes (gred_Account d)); (bs "Role", VBytes (gred_Role d))]
  | RevokeRoleEvent _ d => VStruct
      [(bs "RegistryId", VNum (rred_RegistryId d)); (bs "Checksum", VBytes (rred_Checksum d));
       (bs "Account", VBytes (rred_Account d)); (bs "Role", VBytes (rred_Role d))]
  | UpdateRecordStatusEvent _ d => VStruct
      [(bs "RegistryId", VNum (used_RegistryId d)); (bs "RecordId", VNum (used_RecordId d));
       (bs "Index", VNum (used_Index d)); (bs "Status", VBytes (used_Status d))]
  end.

(** ** The generated code *)

(** The interface of [HumanABI], read by hand. *)
Definition PageRequest_ty : Ty := TStruct
  [(bs "key", TBytes); (bs "offset", TUint 64); (bs "limit", TUint 64); (bs "countTotal", TBool); (bs "reverse", TBool)].
Definition PageResponse_ty : Ty := TStruct [(bs "nextKey", TBytes); (bs "total", TUint 64)].
Definition Record_ty : Ty := TStruct
  [(bs "uri", TString); (bs "checksum", TString); (bs "checksumAlgo", TString); (bs "metadata", TString);
   (bs "timestamp", TString); (bs "status", TString); (bs "recordId", TUint 64); (bs "index", TUint 64);
   (bs "isLatest", TBool); (bs "registryId", TUint 64)].
Definition Registry_ty : Ty := TStruct
  [(bs "id", TUint 64); (bs "name", TString); (bs "description", TString); (bs "creator", TString);
   (bs "createdAt", TString); (bs "metadata", TString)].
Definition Coin_ty : Ty := TStruct [(bs "denom", TString); (bs "amount", TUint 256)].
Definition DecCoin_ty : Ty := TStruct [(bs "denom", TString); (bs "amount", TUint 256); (bs "precision", TUint 8)].
Definition Dec_ty : Ty := TStruct [(bs "value", TUint 256); (bs "precision", TUint 8)].
Definition Height_ty : Ty := TStruct [(bs "revisionNumber", TUint 64); (bs "revisionHeight", TUint 64)].
Definition ICS20Allocation_ty : Ty := TStruct
  [(bs "sourcePort", TString); (bs "sourceChannel", TString); (bs "spendLimit", TSlice Coin_ty);
   (bs "allowList", TSlice TString); (bs "allowedPacketData", TSlice TString)].

Definition role_args : Fields :=
  [(bs "registryId", TUint 64); (bs "checksum", TString); (bs "account", TAddress); (bs "role", TString)].
Definition status_args : Fields :=
  [(bs "registryId", TUint 64); (bs "recordId", TUint 64); (bs "index", TUint 64); (bs "status", TString)].
Definition registries_rets : Fields :=
  [(bs "registries", TSlice Registry_ty); (bs "pagination", PageResponse_ty)].

Definition anchoring_functions : list Function :=
  [mkFunction (bs "addRegistry") [(bs "name", TString); (bs "description", TString); (bs "metadata", TString)]
     [(bs "registryId", TUint 64)];
   mkFunction (bs "addRecord") [(bs "record", Record_ty)] [(bs "recordId", TUint 64)];
   mkFunction (bs "updateRecordStatus") status_args [];
   mkFunction (bs "records")
     [(bs "registryId", TUint 64); (bs "checksum", TString); (bs "recordId", TUint 64); (bs "index", TUint 64);
      (bs "pagination", PageRequest_ty)]
     [(bs "records", TSlice Record_ty); (bs "pagination", PageResponse_ty)];
   mkFunction (bs "registries") [(bs "registryId", TUint 64); (bs "pagination", PageRequest_ty)] registries_rets;
   mkFunction (bs "registriesByName")
     [(bs "name", TString); (bs "matchMode", TUint 8); (bs "pagination", PageRequest_ty)] registries_rets;
   mkFunction (bs "grantRole") role_args [];
   mkFunction (bs "revokeRole") role_args []].

Definition caller_and (name : bytes) (data : Fields) : Event :=
  mkEvent name ((bs "caller", TAddress) :: data) (true :: replicate (length data) false).

Definition anchoring_events : list Event :=
  [caller_and (bs "AddRegistry") [(bs "registryId", TUint 64); (bs "name", TString)];
   caller_and (bs "AddRecord")
     [(bs "registryId", TUint 64); (bs "recordId", TUint 64); (bs "index", TUint 64); (bs "checksum", TString)];
   caller_and (bs "UpdateRecordStatus") status_args;
   caller_and (bs "GrantRole") role_args;
   caller_and (bs "RevokeRole") role_args].

Definition dummy_function : Function := mkFunction (bs "dummy")
  [(bs "a", Coin_ty); (bs "b", DecCoin_ty); (bs "c", Dec_ty); (bs "d", Height_ty); (bs "e", PageRequest_ty);
   (bs "f", PageResponse_ty); (bs "g", ICS20Allocation_ty)] [].

Lemma declared_anchoring : declare [] HumanABI = Some (mkInterface anchoring_functions anchoring_events).
Proof. vm_compute. reflexivity. Qed.

Lemma declared_common : declare [] CommonABI = Some (mkInterface [dummy_function] []).
Proof. vm_compute. reflexivity. Qed.

Section generated.
Context {LIB : AbiLib} {LAWS : AbiLibLaws} {LIBC : AbiLibCommon} {LAWSC : AbiLibCommonLaws}.

(** *** The layout of the declared tuples is that of the code *)

Definition part_of (e : AbiType * bytes) : Part := if is_dynamic e.1 then Dyn e.2 else Stat e.2.

Lemma seq_heads_parts off es : seq_heads off es = heads off (part_of <$> es).
Proof.
  revert off. induction es as [|[t e] es IH]; intros off; cbn; [done|].
  unfold part_of. cbn. destruct (is_dynamic t); cbn; by rewrite IH.
Qed.

Lemma seq_data_parts es : seq_data es = tails (part_of <$> es).
Proof.
  induction es as [|[t e] es IH]; cbn; [done|]. unfold part_of. cbn. destruct (is_dynamic t); cbn; by rewrite IH.
Qed.

Lemma sequence_parts es : static_part es.*1 = static_size (part_of <$> es) ->
  sequence es = tuple_bytes (part_of <$> es).
Proof. intros Hs. unfold sequence, tuple_bytes. by rewrite Hs, seq_heads_parts, seq_data_parts. Qed.

(** Encodings field by field. *)
Inductive encoded (vs : list (bytes * Val)) : Fields -> list (AbiType * bytes) -> Prop :=
| encoded_nil : encoded vs [] []
| encoded_cons name t fs x e es :
    field vs name = Some x -> encode t x = Some e -> encoded vs fs es ->
    encoded vs ((name, t) :: fs) ((abi_type t, e) :: es).

Lemma encode_struct fs vs es : encoded vs fs es -> encode (TStruct fs) (VStruct vs) = Some (sequence es).
Proof.
  intros He. cbn [encode].
  enough (Ef : (fix encode_fields (fs : Fields) : option (list (AbiType * bytes)) :=
     match fs with
     | [] => Some []
     | (name, t') :: fs' =>
         x ← field vs name; e ← encode t' x; es ← encode_fields fs'; Some ((abi_type t', e) :: es)
     end) fs = Some es) by (by rewrite Ef).
  induction He as [|name t fs x e es Hx He Hr IH]; [done|]. rewrite Hx. cbn. rewrite He. cbn. by rewrite IH.
Qed.

Lemma encode_tuple fs vs es parts : encoded vs fs es -> part_of <$> es = parts ->
  static_part es.*1 = static_size parts -> encode (TStruct fs) (VStruct vs) = Some (tuple_bytes parts).
Proof. intros He <- Hs. rewrite (encode_struct _ _ _ He). by rewrite sequence_parts. Qed.

Lemma encode_slice {A} (c : Codec A) `{!Lawful c} (t : Ty) (value : A -> Val) (l : list A) :
  is_dynamic (abi_type t) = true -> head_size (abi_type t) = 32 -> t <> TString ->
  (forall x, encode t (value x) = Some (c_enc c x)) ->
  encode (TSlice t) (VList (value <$> l)) = Some (c_enc (slice_c c) l).
Proof.
  intros Hd Hh Ht He.
  assert (Em : mapM (encode t) (value <$> l) = Some (c_enc c <$> l)).
  { apply mapM_Some. induction l; constructor; eauto. }
  assert (E : sequence (pair (abi_type t) <$> (c_enc c <$> l)) = tuple_bytes (elem_parts c l)).
  { rewrite sequence_parts.
    - f_equal. unfold elem_parts. rewrite <- !list_fmap_compose. apply list_fmap_ext. intros ? x _. cbn.
      unfold part_of. cbn. by rewrite Hd.
    - unfold static_size. rewrite !length_fmap. clear -Hh. induction l as [|x l IH]; [done|]. cbn in *.
      unfold static_part in IH. rewrite IH, Hh. lia. }
  destruct t; try done; cbn [encode]; cbn [encode] in Em; rewrite Em; cbn [mbind option_bind];
    rewrite E, length_fmap; done.
Qed.

Lemma encode_strings l : encode (TSlice TString) (VList (VBytes <$> l)) = Some (c_enc string_slice_c l).
Proof.
  cbn [encode]. assert (Em : mapM text_of (VBytes <$> l) = Some l); [|by rewrite Em].
  apply mapM_Some. induction l; constructor; eauto.
Qed.

Create HintDb declared.

(** A tuple whose fields are words or dynamic. *)
Ltac encode_fields :=
  repeat (eapply encoded_cons; [lazy; reflexivity|first [solve [eauto with declared nocore] | reflexivity]|]);
  apply encoded_nil.
Ltac encode_tuple_by := eapply encode_tuple; [encode_fields|reflexivity|reflexivity].

Lemma PageRequest_encode x : encode PageRequest_ty (PageRequest_value x) = Some (c_enc ABIPageRequest_c x).
Proof. encode_tuple_by. Qed.
Lemma PageResponse_encode x : encode PageResponse_ty (PageResponse_value x) = Some (c_enc ABIPageResponse_c x).
Proof. encode_tuple_by. Qed.
Lemma Record_encode x : encode Record_ty (Record_value x) = Some (c_enc ABIRecord_c x).
Proof. encode_tuple_by. Qed.
Lemma Registry_encode x : encode Registry_ty (Registry_value x) = Some (c_enc ABIRegistry_c x).
Proof. encode_tuple_by. Qed.
Lemma Coin_encode x : encode Coin_ty (Coin_value x) = Some (c_enc ABICoin_c x).
Proof. encode_tuple_by. Qed.
Lemma DecCoin_encode x : encode DecCoin_ty (DecCoin_value x) = Some (c_enc ABIDecCoin_c x).
Proof. encode_tuple_by. Qed.
Lemma Dec_encode x : encode Dec_ty (Dec_value x) = Some (c_enc ABIDec_c x).
Proof. encode_tuple_by. Qed.
Lemma Height_encode x : encode Height_ty (Height_value x) = Some (c_enc ABIHeight_c x).
Proof. encode_tuple_by. Qed.

Lemma Records_encode l : encode (TSlice Record_ty) (VList (Record_value <$> l)) = Some (c_enc (slice_c ABIRecord_c) l).
Proof. apply encode_slice; [done..|exact Record_encode]. Qed.
Lemma Registries_encode l :
  encode (TSlice Registry_ty) (VList (Registry_value <$> l)) = Some (c_enc (slice_c ABIRegistry_c) l).
Proof. apply encode_slice; [done..|exact Registry_encode]. Qed.
Lemma Coins_encode l : encode (TSlice Coin_ty) (VList (Coin_value <$> l)) = Some (c_enc (slice_c ABICoin_c) l).
Proof. apply encode_slice; [done..|exact Coin_encode]. Qed.

#[local] Hint Resolve PageRequest_encode PageResponse_encode Record_encode Registry_encode Coin_encode DecCoin_encode
  Dec_encode Height_encode Records_encode Registries_encode Coins_encode encode_strings : declared.

Lemma ICS20Allocation_encode x :
  encode ICS20Allocation_ty (ICS20Allocation_value x) = Some (c_enc ABIICS20Allocation_c x).
Proof. encode_tuple_by. Qed.

#[local] Hint Resolve ICS20Allocation_encode : declared.

(** The static tuples [Dec] and [Height] stand in the head of the call, two words each. *)
Lemma DummyCall_encode x :
  encode (TStruct (f_Args dummy_function)) (DummyCall_value x) = Some (c_enc ABIDummyCall_c x).
Proof.
  etransitivity; [eapply encode_struct; encode_fields|]. f_equal.
  change (c_enc ABIDummyCall_c x) with (tuple_bytes (ABIDummyCall_parts x)).
  unfold sequence, tuple_bytes, ABIDummyCall_parts. cbn [seq_heads seq_data is_dynamic abi_type map existsb orb
    Coin_ty DecCoin_ty Dec_ty Height_ty PageRequest_ty PageResponse_ty ICS20Allocation_ty snd fst heads tails].
  rewrite ABIDec_words, ABIHeight_words, <- !app_assoc. reflexivity.
Qed.

Lemma call_encode call : exists f,
  find_function (mkInterface anchoring_functions anchoring_events) (GetMethodName call) = Some f /\
  encode (TStruct (f_Args f)) (call_value call) = Some (call_bytes call) /\
  GetMethodSelector call = selector f /\ GetMethodID call = be_value (selector f).
Proof.
  destruct call; (eexists; split; [lazy; reflexivity|]; split; [encode_tuple_by|split; vm_compute; reflexivity]).
Qed.

Definition return_bytes (r : AbiReturn) : bytes :=
  match r with
  | AddRecordReturn r => c_enc ABIAddRecordReturn_c r
  | AddRegistryReturn r => c_enc ABIAddRegistryReturn_c r
  | RecordsReturn r => c_enc ABIRecordsReturn_c r
  | RegistriesReturn r => c_enc ABIRegistriesReturn_c r
  | RegistriesByNameReturn r => c_enc ABIRegistriesByNameReturn_c r
  end.

Lemma return_encode r : exists f,
  find_function (mkInterface anchoring_functions anchoring_events) (return_name r) = Some f /\
  encode (TStruct (f_Rets f)) (return_value r) = Some (return_bytes r).
Proof. destruct r; (eexists; split; [lazy; reflexivity|encode_tuple_by]). Qed.

Lemma return_Encode_ok r : return_ok r -> return_Encode r = Ok (return_bytes r).
Proof. destruct r; intros Hr; by apply abi_Encode_ok. Qed.

Lemma event_encode ev : exists e,
  find_event (mkInterface anchoring_functions anchoring_events) (GetEventName ev) = Some e /\
  GetEventID ev = topic e /\ args_indexed true e = [(bs "caller", TAddress)] /\
  encode (TStruct (args_indexed false e)) (event_value ev) = Some (event_data ev).
Proof.
  destruct ev; (eexists; split; [lazy; reflexivity|]; split; [vm_compute; reflexivity|];
    split; [vm_compute; reflexivity|encode_tuple_by]).
Qed.

(** One call, result and event of each kind. *)
Definition some_page : ABIPageRequest := mkABIPageRequest [] 0 0 false false.
Definition some_record : ABIRecord := mkABIRecord [] [] [] [] [] [] 0 0 false 0.
Definition some_calls : list AbiCall :=
  [AddRecordCall (mkABIAddRecordCall some_record); AddRegistryCall (mkABIAddRegistryCall [] [] []);
   GrantRoleCall (mkABIGrantRoleCall 0 [] [] []); RecordsCall (mkABIRecordsCall 0 [] 0 0 some_page);
   RegistriesCall (mkABIRegistriesCall 0 some_page); RegistriesByNameCall (mkABIRegistriesByNameCall [] 0 some_page);
   RevokeRoleCall (mkABIRevokeRoleCall 0 [] [] []); UpdateRecordStatusCall (mkABIUpdateRecordStatusCall 0 0 0 [])].
Definition some_returns : list AbiReturn :=
  let page := mkABIPageResponse [] 0 in
  [AddRecordReturn (mkABIAddRecordReturn 0); AddRegistryReturn (mkABIAddRegistryReturn 0);
   RecordsReturn (mkABIRecordsReturn [] page); RegistriesReturn (mkABIRegistriesReturn [] page);
   RegistriesByNameReturn (mkABIRegistriesByNameReturn [] page)].
Definition some_events : list AbiEvent :=
  [NewAddRegistryEvent [] 0 []; NewAddRecordEvent [] 0 0 0 []; NewUpdateRecordStatusEvent [] 0 0 0 [];
   NewGrantRoleEvent [] 0 [] [] []; NewRevokeRoleEvent [] 0 [] [] []].

Lemma named {A B} (l : list A) (name : A -> B) n : n ∈ name <$> l -> exists x, name x = n.
Proof. intros Hn. apply list_elem_of_fmap in Hn as (x & -> & _). eauto. Qed.

(** C23: The generated code is that of the interface the source declares.  The texts
    [HumanABI] and [CommonABI] parse.  The method a call names is declared; its id is
    the number, and the first four bytes of the encoded call are the bytes, of the
    Keccak digest of the declared signature, structs expanded; and behind them stand
    the arguments, each Go field encoded with the declared type of that name, in the
    declared order.  The results of a method are encoded likewise by the declared
    results, and an event by its declaration: its id, the first topic, is the digest
    of its signature, the second topic is the indexed caller and the data are the other
    arguments.  Every declared method, result and event has its generated type, and no
    two methods have the same selector.  The call [dummy] of [CommonABI], which holds
    the shared structs, is encoded as declared. *)
Theorem interface_as_declared :
  exists i f, declare [] HumanABI = Some i /\ declare [] CommonABI = Some (mkInterface [f] []) /\
  (forall call, call_ok call -> exists fn args,
     find_function i (GetMethodName call) = Some fn /\
     encode (TStruct (f_Args fn)) (call_value call) = Some args /\
     GetMethodID call = be_value (selector fn) /\
     EncodeWithSelector call = Ok (selector fn ++ args)) /\
  (forall r, return_ok r -> exists fn rets,
     find_function i (return_name r) = Some fn /\
     encode (TStruct (f_Rets fn)) (return_value r) = Some rets /\ return_Encode r = Ok rets) /\
  (forall ev, event_ok ev -> exists e caller data,
     find_event i (GetEventName ev) = Some e /\
     args_indexed true e = [(bs "caller", TAddress)] /\
     encode TAddress (VBytes (event_caller ev)) = Some caller /\
     encode (TStruct (args_indexed false e)) (event_value ev) = Some data /\
     GetEventID ev = topic e /\
     event_EncodeTopics ev = Ok [topic e; caller] /\ event_Encode ev = Ok data) /\
  Forall (fun fn => exists call, GetMethodName call = f_Name fn) (functions i) /\
  Forall (fun fn => f_Rets fn <> [] -> exists r, return_name r = f_Name fn) (functions i) /\
  Forall (fun e => exists ev, GetEventName ev = e_Name e) (events i) /\
  NoDup (selector <$> functions i) /\
  (f_Name f = m_Name DummyCall_Method /\ m_ID DummyCall_Method = be_value (selector f) /\
   forall d, c_ok ABIDummyCall_c d -> exists args,
     encode (TStruct (f_Args f)) (DummyCall_value d) = Some args /\
     m_EncodeWithSelector DummyCall_Method d = Ok (selector f ++ args)).
Proof.
  eexists _, _. split; [exact declared_anchoring|]. split; [exact declared_common|].
  split; [|split; [|split; [|split; [|split; [|split; [|split]]]]]].
  - intros call Hc. destruct (call_encode call) as (f & Hf & He & Hs & Hid).
    exists f, (call_bytes call). rewrite <- Hs. split_and!; [done|done|by rewrite Hs|by apply EncodeWithSelector_ok].
  - intros r Hr. destruct (return_encode r) as (f & Hf & He).
    exists f, (return_bytes r). split_and!; [done|done|by apply return_Encode_ok].
  - intros ev Hev. destruct (event_encode ev) as (e & Hf & Hid & Hi & He), (event_encoded ev Hev) as [Et Ed].
    exists e, (c_enc address_c (event_caller ev)), (event_data ev). rewrite <- Hid. by split_and!.
  - repeat (constructor; [apply (named some_calls GetMethodName); by_eval|]); constructor.
  - repeat (constructor; [intros Hr; first [done|apply (named some_returns return_name); by_eval]|]); constructor.
  - repeat (constructor; [apply (named some_events GetEventName); by_eval|]); constructor.
  - by_eval.
  - split; [done|]. split; [by_eval|]. intros d Hd. exists (c_enc ABIDummyCall_c d). split; [apply DummyCall_encode|].
    cbn [m_EncodeWithSelector DummyCall_Method]. rewrite (abi_EncodeWithSelector_ok ABIDummyCall_c) by done.
    do 2 f_equal.
Qed.
End generated.

(** ** Witness *)

Lemma interface_as_declared_witness :
  exists i f, declare [] HumanABI = Some i /\ declare [] CommonABI = Some (mkInterface [f] []) /\
  exists fn args, find_function i (GetMethodName DemoCalls.add_record) = Some fn /\
    encode (TStruct (f_Args fn)) (call_value DemoCalls.add_record) = Some args /\
    GetMethodID DemoCalls.add_record = be_value (selector fn) /\
    EncodeWithSelector DemoCalls.add_record = Ok (selector fn ++ args).
Proof.
  destruct interface_as_declared as (i & f & Hi & Hf & Hcall & _). exists i, f.
  split; [exact Hi|]. split; [exact Hf|]. exact (Hcall DemoCalls.add_record DemoCalls.add_record_ok).
Defined.
