(* ===== verification/Precompile.v ===== *)
(** The anchoring precompile: src/x/anchoring/precompile/anchoring.go, events.go
    and types.go, with the method dispatch helpers of src/precompiles/common.go.

    The precompile is the EVM entry to the module.  It splits the method id from
    the call data, refuses writes in read-only mode, value transfers and callers
    that are not the externally owned account that signed the transaction, decodes
    the arguments, calls the message or query server and appends one EVM log per
    successful write.  The StateDB, the gas meter and the helpers of go-ethereum
    and cosmos/evm are parameters; gas charged by the stores is not modelled. *)

From S2P Require Import Prelude Types Concrete Rbac Keeper MsgServer NameIndex Query EvmLayout Abi AbiAnchoring AbiConcrete AbiCalls.

(** ** The EVM side *)

(** Functions of go-ethereum, cosmos/evm and the SDK: [ParseDelegation] and
    [RevertReasonBytes] (on the text of an error), the flat and per-byte read
    costs of the gas configuration, the gas meter's [ConsumeGas], and the
    required gas of the base precompile. *)
Class EvmLib := {
  ParseDelegation : bytes -> option bytes;
  RevertReasonBytes : err -> result bytes;
  ReadCostFlat : Z;
  ReadCostPerByte : Z;
  ConsumeGas : Z -> M Z unit;
  base_RequiredGas : bytes -> bool -> Z
}.

Definition ErrExecutionReverted : err := ErrPlain "execution reverted".
Definition ErrSenderNoEOA : err := ErrPlain "sender not an eoa".
Definition ErrCannotReceiveFunds : err := ErrPlain "cannot receive funds".
Definition ErrUnknownMethodID : err := ErrPlain "unknown method id".
Definition ErrRegistriesByNameInTx : err :=
  ErrPlain "registriesByName is query-only: use eth_call, not a transaction".
Definition ErrRegistriesByNameIndexOff : err :=
  ErrPlain "registry name index is not enabled on this node; see [anchoring-name-index] in app.toml".

Definition AnchoringPrecompileAddress : bytes := replicate 18 x00 ++ [x0a; x00].

(** [vm.Contract]: what the precompile reads of it. *)
Record Contract := mkContract { ct_Caller : bytes; ct_Input : bytes; ct_Value : option Z }.

Record StateDB := mkStateDB { GetCode : bytes -> bytes }.

Record Log := mkLog { lg_Address : bytes; lg_Topics : list bytes; lg_Data : bytes; lg_BlockNumber : Z }.

(** The module store, the logs added to the StateDB, the gas meter. *)
Record PState := mkPS { ps_store : KState; ps_logs : list Log; ps_gas : Z }.

Definition in_keeper {A} (m : M KState A) : M PState A :=
  zoom ps_store (fun k s => mkPS k (ps_logs s) (ps_gas s)) m.

Definition in_meter {A} (m : M Z A) : M PState A :=
  zoom ps_gas (fun g s => mkPS (ps_store s) (ps_logs s) g) m.

Definition add_log (l : Log) (s : PState) : PState := mkPS (ps_store s) (ps_logs s ++ [l]) (ps_gas s).

(** What the EVM receives: the returned bytes and the error. *)
Record Returned := mkReturned { rt_bytes : bytes; rt_err : option err }.

Definition returned (out : result bytes * PState) : Returned * PState :=
  match out with
  | (Ok bz, s) => (mkReturned bz None, s)
  | (Err e, s) => (mkReturned [] (Some e), s)
  end.

(** ** Conversions: types.go and common.go *)

Definition FromABIRecord (rec : ABIRecord) : Record_ :=
  mkRecord (abr_Uri rec) (abr_Checksum rec) (abr_ChecksumAlgo rec) (abr_Metadata rec) (abr_Timestamp rec)
    (abr_Status rec) (abr_RecordId rec) (abr_Index rec) (abr_IsLatest rec) (abr_RegistryId rec).

Definition ToABIRecord (rec : Record_) : ABIRecord :=
  mkABIRecord (rec_Uri rec) (rec_Checksum rec) (rec_ChecksumAlgo rec) (rec_Metadata rec) (rec_Timestamp rec)
    (rec_Status rec) (rec_RecordId rec) (rec_Index rec) (rec_IsLatest rec) (rec_RegistryId rec).

Definition ToABIRegistry (reg : Registry) : ABIRegistry :=
  mkABIRegistry (reg_Id reg) (reg_Name reg) (reg_Description reg) (reg_Creator reg) (reg_CreatedAt reg)
    (reg_Metadata reg).

Definition ToPageRequest (p : ABIPageRequest) : PageRequest :=
  mkPageRequest (pq_Key p) (pq_Offset p) (pq_Limit p) (pq_CountTotal p) (pq_Reverse p).

Definition FromPageResponse (pr : option PageResponse) : ABIPageResponse :=
  match pr with
  | None => mkABIPageResponse [] 0
  | Some pr => mkABIPageResponse (NextKey pr) (Total pr)
  end.

(** [Run] and [RunWithStateDB]: decode, call, encode. *)
Definition Run {I O} (decode : bytes -> result (I * Z)) (encode : O -> result bytes) (fn : I -> M PState O)
    (input : bytes) : M PState bytes :=
  '(arg, _) ← lift (decode input);
  out ← fn arg;
  lift (encode out).

(** ** Guards *)

Definition IsTransactionID (methodID : Z) : bool :=
  (methodID =? AddRegistryID) || (methodID =? AddRecordID) || (methodID =? UpdateRecordStatusID)
  || (methodID =? GrantRoleID) || (methodID =? RevokeRoleID).

Definition methodName (methodID : Z) : string :=
  if methodID =? AddRegistryID then "addRegistry"
  else if methodID =? AddRecordID then "addRecord"
  else if methodID =? UpdateRecordStatusID then "updateRecordStatus"
  else if methodID =? GrantRoleID then "grantRole"
  else if methodID =? RevokeRoleID then "revokeRole"
  else "".

Definition ensureNoValue (contract : option Contract) : result unit :=
  match contract with
  | None => Err (ErrPlain "nil contract")
  | Some c =>
      match ct_Value c with
      | Some value => guard_err (0 <? value) ErrCannotReceiveFunds
      | None => Ok tt
      end
  end.

(** The map [RegistryNameMatchMode_name] has the keys 0 to 4. *)
Definition matchModeFromABI (mode : Z) : result RegistryNameMatchMode :=
  if mode =? 0 then Ok UNSPECIFIED
  else if mode =? 1 then Ok EXACT
  else if mode =? 2 then Ok PREFIX
  else if mode =? 3 then Ok SUFFIX
  else if mode =? 4 then Ok CONTAINS
  else Err (ErrPlain "invalid matchMode: want 0/1 exact, 2 prefix, 3 suffix, 4 contains").

Section precompile.
Context {ENV : Env} {LIB : AbiLib} {EVM : EvmLib} {SQ : SQL}.

Definition isEOACode (code : bytes) : bool :=
  if (length code =? 0)%nat then true
  else match ParseDelegation code with Some _ => true | None => false end.

Definition encodeRevertReason (reason : err) : bytes :=
  match RevertReasonBytes reason with Ok bz => bz | Err _ => [] end.

Definition ensureEOACaller (stateDB : option StateDB) (contract : option Contract) (method : string)
    (txOrigin : bytes) : result unit :=
  match stateDB, contract with
  | Some db, Some c =>
      _ ← guard_err (negb (bool_decide (ct_Caller c = txOrigin)))
            (ErrWrap (String.append "caller != tx.origin, method: " method) ErrSenderNoEOA);
      guard_err (negb (isEOACode (GetCode db txOrigin)))
        (ErrWrap (String.append "tx.origin has non-EOA code, method: " method) ErrSenderNoEOA)
  | _, _ => Err (ErrWrap (String.append "method " method) ErrSenderNoEOA)
  end.

(** The name index of the node, nil when it is off. *)
Context (NameIndex : option DB).

Definition registriesByNameGate (ctx : Ctx) (stateDB : option StateDB) (contract : option Contract)
    (txOrigin : bytes) : result unit :=
  _ ← guard_err (negb (IsCheckTx ctx)) ErrRegistriesByNameInTx;
  _ ← match ensureEOACaller stateDB contract "registriesByName" txOrigin with
      | Err _ => Err ErrSenderNoEOA
      | Ok _ => Ok tt
      end;
  guard_err (negb (bool_decide (is_Some NameIndex))) ErrRegistriesByNameIndexOff.

(** ** Events: events.go *)

Definition emitEvent (ctx : Ctx) (stateDB : option StateDB) (ev : AbiEvent) : M PState unit :=
  match stateDB with
  | None => mret tt
  | Some _ =>
      '(topics, data) ← lift (EncodeEvent (event_EncodeTopics ev) (event_Encode ev));
      modify (add_log (mkLog AnchoringPrecompileAddress topics data (wrap64 (BlockHeight ctx))))
  end.

Definition emitAddRegistryEvent ctx stateDB (caller : bytes) (registryID : Z) (name : bytes) : M PState unit :=
  emitEvent ctx stateDB (NewAddRegistryEvent caller registryID name).

Definition emitAddRecordEvent ctx stateDB (caller : bytes) (registryID recordID : Z) (checksum : bytes) :
    M PState unit :=
  known ← in_keeper (gets (fun k => RecordIndices k !! (registryID, recordID)));
  index ← lift (of_option known ErrCollNotFound);
  emitEvent ctx stateDB (NewAddRecordEvent caller registryID recordID index checksum).

Definition emitUpdateRecordStatusEvent ctx stateDB (caller : bytes) (registryID recordID index : Z)
    (status : bytes) : M PState unit :=
  emitEvent ctx stateDB (NewUpdateRecordStatusEvent caller registryID recordID index status).

Definition emitGrantRoleEvent ctx stateDB (caller : bytes) (registryID : Z) (checksum account role : bytes) :
    M PState unit :=
  emitEvent ctx stateDB (NewGrantRoleEvent caller registryID checksum account role).

Definition emitRevokeRoleEvent ctx stateDB (caller : bytes) (registryID : Z) (checksum account role : bytes) :
    M PState unit :=
  emitEvent ctx stateDB (NewRevokeRoleEvent caller registryID checksum account role).

(** ** Methods *)

(** [p.keeper.BytesToString(address.Bytes())] *)
Definition address_text (address : bytes) : M PState bytes :=
  lift (of_option (BytesToString address) ErrBech32).

Definition Precompile_AddRegistry ctx stateDB (contract : Contract) (input : ABIAddRegistryCall) :
    M PState ABIAddRegistryReturn :=
  senderStr ← address_text (ct_Caller contract);
  let msg := mkMsgAddRegistry senderStr (agc_Name input) (agc_Description input) (agc_Metadata input) in
  registryId ← in_keeper (Msg_AddRegistry ctx (Some msg));
  _ ← emitAddRegistryEvent ctx stateDB (ct_Caller contract) registryId (agc_Name input);
  mret (mkABIAddRegistryReturn registryId).

Definition Precompile_AddRecord ctx stateDB (contract : Contract) (input : ABIAddRecordCall) :
    M PState ABIAddRecordReturn :=
  senderStr ← address_text (ct_Caller contract);
  let doc := FromABIRecord (arc_Record input) in
  let msg := mkMsgAddRecord senderStr (Some doc) in
  recordId ← in_keeper (Msg_AddRecord ctx (Some msg));
  _ ← emitAddRecordEvent ctx stateDB (ct_Caller contract) (rec_RegistryId doc) recordId (rec_Checksum doc);
  mret (mkABIAddRecordReturn recordId).

Definition Precompile_UpdateRecordStatus ctx stateDB (contract : Contract) (input : ABIUpdateRecordStatusCall) :
    M PState unit :=
  sender ← address_text (ct_Caller contract);
  let msg := mkMsgUpdateRecordStatus sender (usc_RegistryId input) (usc_RecordId input) (usc_Index input)
               (usc_Status input) in
  _ ← in_keeper (Msg_UpdateRecordStatus (Some msg));
  emitUpdateRecordStatusEvent ctx stateDB (ct_Caller contract) (usc_RegistryId input) (usc_RecordId input)
    (usc_Index input) (usc_Status input).

Definition Precompile_GrantRole ctx stateDB (contract : Contract) (input : ABIGrantRoleCall) : M PState unit :=
  admin ← address_text (ct_Caller contract);
  address ← address_text (grc_Account input);
  let msg := mkMsgRole admin (grc_RegistryId input) (grc_Checksum input) address (grc_Role input) in
  _ ← in_keeper (Msg_GrantRole (Some msg));
  emitGrantRoleEvent ctx stateDB (ct_Caller contract) (grc_RegistryId input) (grc_Checksum input)
    (grc_Account input) (grc_Role input).

Definition Precompile_RevokeRole ctx stateDB (contract : Contract) (input : ABIRevokeRoleCall) : M PState unit :=
  _ ← lift (guard_err (is_empty (rrc_Role input)) (ErrPlain "role cannot be empty"));
  admin ← address_text (ct_Caller contract);
  address ← address_text (rrc_Account input);
  let msg := mkMsgRole admin (rrc_RegistryId input) (rrc_Checksum input) address (rrc_Role input) in
  _ ← in_keeper (Msg_RevokeRole (Some msg));
  emitRevokeRoleEvent ctx stateDB (ct_Caller contract) (rrc_RegistryId input) (rrc_Checksum input)
    (rrc_Account input) (rrc_Role input).

(** A query of the current store. *)
Definition ask {A} (query : KState -> result A) : M PState A :=
  out ← in_keeper (gets query);
  lift out.

Definition Precompile_Records (input : ABIRecordsCall) : M PState ABIRecordsReturn :=
  let pgReq := ToPageRequest (rsc_Pagination input) in
  rsp ← ask (Query_Records (Some (mkQueryRecords (rsc_Checksum input) (rsc_RegistryId input)
                                   (rsc_RecordId input) (rsc_Index input) (Some pgReq))));
  mret (mkABIRecordsReturn (ToABIRecord <$> qrr_Records rsp) (FromPageResponse (qrr_Pagination rsp))).

(** [query.CollectionPaginate], as in the query server. *)
Context (CollectionPaginate : list (Z * Registry) -> PageRequest -> result (list Registry * PageResponse)).

Definition Precompile_Registries (input : ABIRegistriesCall) : M PState ABIRegistriesReturn :=
  let pgReq := ToPageRequest (rgc_Pagination input) in
  rsp ← ask (Query_Registries CollectionPaginate (mkQueryRegistries (rgc_RegistryId input) (Some pgReq)));
  mret (mkABIRegistriesReturn (ToABIRegistry <$> rsp.1) (FromPageResponse rsp.2)).

Definition chargeIndexReadGas (registries : list ABIRegistry) : M PState unit :=
  for_each (fun reg => in_meter (ConsumeGas
    (wrap64 (ReadCostFlat + wrap64 (ReadCostPerByte * wrap64 (ABIRegistry_EncodedSize reg)))))) registries.

Definition Precompile_RegistriesByName (input : ABIRegistriesByNameCall) : M PState ABIRegistriesByNameReturn :=
  mode ← lift (matchModeFromABI (rnc_MatchMode input));
  rsp ← lift (SearchRegistriesByName NameIndex
                (Some (mkQuerySearch (rnc_Name input) mode (Some (ToPageRequest (rnc_Pagination input))))));
  let abiRegistries := ToABIRegistry <$> rsp.1 in
  _ ← chargeIndexReadGas abiRegistries;
  mret (mkABIRegistriesByNameReturn abiRegistries (FromPageResponse rsp.2)).

(** [Encode] of the empty results. *)
Definition EmptyReturn_Encode (_ : unit) : result bytes := EmptyTuple_Encode.

(** The switch of [Execute]. *)
Definition dispatch ctx (stateDB : option StateDB) (contract : Contract) (txOrigin : bytes) (methodID : Z)
    (input : bytes) (s : PState) : Returned * PState :=
  if methodID =? AddRegistryID then
    returned (Run ABIAddRegistryCall_Decode (abi_Encode ABIAddRegistryReturn_c)
                (Precompile_AddRegistry ctx stateDB contract) input s)
  else if methodID =? AddRecordID then
    returned (Run ABIAddRecordCall_Decode (abi_Encode ABIAddRecordReturn_c)
                (Precompile_AddRecord ctx stateDB contract) input s)
  else if methodID =? UpdateRecordStatusID then
    returned (Run ABIUpdateRecordStatusCall_Decode EmptyReturn_Encode
                (Precompile_UpdateRecordStatus ctx stateDB contract) input s)
  else if methodID =? RecordsID then
    returned (Run ABIRecordsCall_Decode (abi_Encode ABIRecordsReturn_c) Precompile_Records input s)
  else if methodID =? RegistriesID then
    returned (Run ABIRegistriesCall_Decode (abi_Encode ABIRegistriesReturn_c) Precompile_Registries input s)
  else if methodID =? RegistriesByNameID then
    match registriesByNameGate ctx stateDB (Some contract) txOrigin with
    | Err e => (mkReturned (encodeRevertReason e) (Some ErrExecutionReverted), s)
    | Ok _ => returned (Run ABIRegistriesByNameCall_Decode (abi_Encode ABIRegistriesByNameReturn_c)
                          Precompile_RegistriesByName input s)
    end
  else if methodID =? GrantRoleID then
    returned (Run ABIGrantRoleCall_Decode EmptyReturn_Encode (Precompile_GrantRole ctx stateDB contract) input s)
  else if methodID =? RevokeRoleID then
    returned (Run ABIRevokeRoleCall_Decode EmptyReturn_Encode (Precompile_RevokeRole ctx stateDB contract) input s)
  else (mkReturned [] (Some ErrUnknownMethodID), s).

Definition Execute ctx (stateDB : option StateDB) (contract : option Contract) (readOnly : bool)
    (txOrigin : bytes) (s : PState) : Returned * PState :=
  match contract with
  | None => (mkReturned [] (Some (ErrPlain "contract is nil")), s)
  | Some c =>
      match ParseMethod (ct_Input c) readOnly IsTransactionID with
      | Err e => (mkReturned [] (Some e), s)
      | Ok (methodID, input) =>
          match ensureNoValue contract with
          | Err e => (mkReturned (encodeRevertReason e) (Some ErrExecutionReverted), s)
          | Ok _ =>
              match (if IsTransactionID methodID
                     then ensureEOACaller stateDB contract (methodName methodID) txOrigin else Ok tt) with
              | Err _ => (mkReturned (encodeRevertReason ErrSenderNoEOA) (Some ErrExecutionReverted), s)
              | Ok _ => dispatch ctx stateDB c txOrigin methodID input s
              end
          end
      end
  end.

Definition RequiredGas (input : bytes) : Z :=
  match SplitMethodID input with
  | Err _ => 0
  | Ok (methodID, input) => base_RequiredGas input (IsTransactionID methodID)
  end.

(** A call from the EVM: the state changes of a failed call are reverted. *)
Definition evm_call ctx stateDB contract readOnly txOrigin (s : PState) : Returned * PState :=
  let '(out, s') := Execute ctx stateDB contract readOnly txOrigin s in
  match rt_err out with
  | None => (out, s')
  | Some _ => (out, s)
  end.
End precompile.
