(* ===== verification/PrecompileSafety.v ===== *)
(** What a call of the precompile may do: which calls can write, which answers can
    reach a block, and what a read returns. *)

From S2P Require Import Prelude Types Concrete Rbac Keeper MsgServer Spec Refine Ledger NameIndex Query EvmLayout Abi AbiAnchoring AbiConcrete AbiCalls Precompile.

Section safety.
Context {ENV : Env} {LIB : AbiLib} {EVM : EvmLib} {SQ : SQL}.
Context (CollectionPaginate : list (Z * Registry) -> PageRequest -> result (list Registry * PageResponse)).
Implicit Types (s : PState) (ctx : Ctx) (index : option DB).

(** ** Frames *)

(** The module store and the logs are as before; only gas was charged. *)
Definition unwritten s s' : Prop := ps_store s' = ps_store s /\ ps_logs s' = ps_logs s.

Lemma unwritten_trans s1 s2 s3 : unwritten s1 s2 -> unwritten s2 s3 -> unwritten s1 s3.
Proof. unfold unwritten. intuition congruence. Qed.

Lemma ask_state {A} (query : KState -> result A) s : ask query s = (query (ps_store s), s).
Proof. unfold ask, in_keeper, zoom. cbv [mbind M_bind gets lift]. by destruct s. Qed.

Lemma Run_state {I O} decode encode (fn : I -> M PState O) input s :
  (forall arg, unwritten s (fn arg s).2) -> unwritten s (returned (Run decode encode fn input s)).2.
Proof.
  intros Hfn. unfold Run. cbv [mbind M_bind lift].
  destruct (decode input) as [[arg n]|e]; [|done]. specialize (Hfn arg).
  destruct (fn arg s) as [[out|e] s']; [|done]. by destruct (encode out).
Qed.

Lemma charge_unwritten regs s : unwritten s (chargeIndexReadGas regs s).2.
Proof.
  unfold chargeIndexReadGas. revert s. induction regs as [|reg regs IH]; intros s; cbn [for_each]; [done|].
  cbv [mbind M_bind in_meter zoom]. destruct (ConsumeGas _ (ps_gas s)) as [[u|e] g]; [|done].
  eapply unwritten_trans; [|apply IH]. done.
Qed.

Lemma Records_unwritten input s : (Precompile_Records input s).2 = s.
Proof.
  unfold Precompile_Records. cbv [mbind M_bind]. rewrite ask_state. by destruct (Query_Records _ _).
Qed.

Lemma Registries_unwritten input s : (Precompile_Registries CollectionPaginate input s).2 = s.
Proof.
  unfold Precompile_Registries. cbv [mbind M_bind]. rewrite ask_state. by destruct (Query_Registries _ _ _).
Qed.

Lemma RegistriesByName_unwritten index input s : unwritten s (Precompile_RegistriesByName index input s).2.
Proof.
  unfold Precompile_RegistriesByName. cbv [mbind M_bind lift].
  destruct (matchModeFromABI _) as [mode|]; [|done].
  destruct (SearchRegistriesByName _ _) as [rsp|]; [|done].
  pose proof (charge_unwritten (ToABIRegistry <$> rsp.1) s) as Hc.
  by destruct (chargeIndexReadGas _ s) as [[]].
Qed.

Lemma query_dispatch_unwritten index ctx stateDB c origin id input s : IsTransactionID id = false ->
  unwritten s (dispatch index CollectionPaginate ctx stateDB c origin id input s).2.
Proof.
  unfold IsTransactionID. rewrite !orb_false_iff. intros [[[[E1 E2] E3] E4] E5].
  unfold dispatch. rewrite E1, E2, E3, E4, E5.
  destruct (id =? RecordsID); [apply Run_state; intros; by rewrite Records_unwritten|].
  destruct (id =? RegistriesID); [apply Run_state; intros; by rewrite Registries_unwritten|].
  destruct (id =? RegistriesByNameID); [|done].
  destruct (registriesByNameGate _ _ _ _ _); [|done].
  apply Run_state. intros. apply RegistriesByName_unwritten.
Qed.

(** ** Who may write *)

(** A direct call of the account that signed the transaction. *)
Record direct_call (stateDB : option StateDB) (c : Contract) (origin : bytes) : Prop := {
  dc_db : exists db, stateDB = Some db /\ isEOACode (GetCode db origin) = true;
  dc_caller : ct_Caller c = origin
}.

Lemma ensureEOACaller_spec stateDB c method origin :
  (exists u, ensureEOACaller stateDB (Some c) method origin = Ok u) <-> direct_call stateDB c origin.
Proof.
  unfold ensureEOACaller, guard_err. destruct stateDB as [db|].
  - case_bool_decide as Hc; cbn; [|split; [by intros [u [=]]|by intros [_ ?]]].
    destruct (isEOACode (GetCode db origin)) eqn:E; cbn; (split; [|]).
    + intros _. split; eauto.
    + eauto.
    + by intros [u [=]].
    + intros [(db' & [= <-] & ?) _]. congruence.
  - split; [by intros [u [=]]|]. by intros [(db' & [=] & _) _].
Qed.

Lemma ensureNoValue_spec c :
  (exists u, ensureNoValue (Some c) = Ok u) <-> (forall v, ct_Value c = Some v -> v <= 0).
Proof.
  unfold ensureNoValue, guard_err. destruct (ct_Value c) as [v|].
  - destruct (Z.ltb_spec 0 v); (split; [|]).
    + by intros [u [=]].
    + intros Hv. specialize (Hv v eq_refl). lia.
    + intros _ v' [= <-]. done.
    + eauto.
  - split; [done|eauto].
Qed.

(** C12: Only a direct call writes: when [Execute] changes the module store or the
    logs, the call is not read-only, its method is one of the five transactions,
    no value is attached, and the caller is the account that signed the
    transaction and has no contract code. *)
Theorem only_direct_calls_write index ctx stateDB contract readOnly origin s :
  ~ unwritten s (Execute index CollectionPaginate ctx stateDB contract readOnly origin s).2 ->
  readOnly = false /\ exists c id input, contract = Some c /\
  SplitMethodID (ct_Input c) = Ok (id, input) /\ IsTransactionID id = true /\
  direct_call stateDB c origin /\ (forall v, ct_Value c = Some v -> v <= 0).
Proof.
  intros Hw. unfold Execute in Hw. destruct contract as [c|]; [|by destruct Hw].
  unfold ParseMethod, guard_err in Hw.
  destruct (SplitMethodID (ct_Input c)) as [[id input]|e] eqn:Es; cbn [mbind result_bind] in Hw; [|by destruct Hw].
  destruct (readOnly && IsTransactionID id) eqn:Er; cbn [mbind result_bind] in Hw; [by destruct Hw|].
  destruct (ensureNoValue (Some c)) as [u|e] eqn:Ev; [|by destruct Hw].
  destruct (IsTransactionID id) eqn:Et; [|by destruct Hw; apply query_dispatch_unwritten].
  destruct (ensureEOACaller stateDB (Some c) (methodName id) origin) as [u'|e] eqn:Ee; [|by destruct Hw].
  split; [by destruct readOnly|]. exists c, id, input. do 3 (split; [done|]).
  split; [by apply (ensureEOACaller_spec _ _ (methodName id)); exists u'|by apply ensureNoValue_spec; exists u].
Qed.

(** ** What can reach a block *)

Lemma gate_in_block index ctx stateDB contract origin : IsCheckTx ctx = false ->
  registriesByNameGate index ctx stateDB contract origin = Err ErrRegistriesByNameInTx.
Proof. intros Hc. unfold registriesByNameGate. by rewrite Hc. Qed.

(** C33: Block execution does not depend on the name index, which each node keeps for
    itself and may not have: outside a query context a call returns the same bytes and
    error and leaves the same state on two nodes whose indexes differ, or of which one
    has none. *)
Theorem block_execution_ignores_index index1 index2 ctx stateDB contract readOnly origin s :
  IsCheckTx ctx = false ->
  Execute index1 CollectionPaginate ctx stateDB contract readOnly origin s
  = Execute index2 CollectionPaginate ctx stateDB contract readOnly origin s.
Proof.
  intros Hc. unfold Execute. destruct contract as [c|]; [|done].
  destruct (ParseMethod _ _ _) as [[id input]|]; [|done]. destruct (ensureNoValue _); [|done].
  destruct (if IsTransactionID id then _ else _); [|done].
  unfold dispatch. by rewrite !gate_in_block by done.
Qed.

(** ** Reads *)

Context {LAWS : AbiLibLaws}.

(** A call without value whose input starts with the selector of a query reaches
    the query. *)
Lemma Execute_query index ctx stateDB c readOnly origin s call args :
  ct_Input c = GetMethodSelector call ++ args -> IsTransactionID (GetMethodID call) = false ->
  (forall v, ct_Value c = Some v -> v <= 0) ->
  Execute index CollectionPaginate ctx stateDB (Some c) readOnly origin s
  = dispatch index CollectionPaginate ctx stateDB c origin (GetMethodID call) args s.
Proof.
  intros Hi Ht Hv. apply ensureNoValue_spec in Hv as [u Hv]. unfold Execute, ParseMethod, guard_err.
  rewrite Hi, selector_id. cbn [mbind result_bind]. rewrite Ht, andb_false_r. cbn [mbind result_bind].
  by rewrite Hv, Ht.
Qed.

Lemma Run_ok {I O} (ci : Codec I) `{!Lawful ci} (co : Codec O) `{!Lawful co} (fn : I -> M PState O) arg rest out s s' :
  c_ok ci arg -> fn arg s = (Ok out, s') -> c_ok co out ->
  returned (Run (c_Decode ci) (abi_Encode co) fn (c_enc ci arg ++ rest) s)
  = (mkReturned (c_enc co out) None, s').
Proof.
  intros Ha Hf Ho. unfold Run. cbv [mbind M_bind lift]. rewrite lw_decode by done. rewrite Hf.
  by rewrite (abi_Encode_ok co) by done.
Qed.

Lemma Run_err {I O} (ci : Codec I) `{!Lawful ci} encode (fn : I -> M PState O) arg rest e s s' :
  c_ok ci arg -> fn arg s = (Err e, s') ->
  returned (Run (c_Decode ci) encode fn (c_enc ci arg ++ rest) s) = (mkReturned [] (Some e), s').
Proof. intros Ha Hf. unfold Run. cbv [mbind M_bind lift]. rewrite lw_decode by done. by rewrite Hf. Qed.

Lemma FromToABIRecord r : FromABIRecord (ToABIRecord r) = r.
Proof. by destruct r. Qed.

Lemma FromToABIRecords (l : list Record_) : FromABIRecord <$> (ToABIRecord <$> l) = l.
Proof.
  rewrite <- list_fmap_compose. rewrite <- (list_fmap_id l) at 2.
  apply list_fmap_ext. intros i r _. apply FromToABIRecord.
Qed.

(** The request a records call stands for. *)
Definition records_request (arg : ABIRecordsCall) : QueryRecordsRequest :=
  mkQueryRecords (rsc_Checksum arg) (rsc_RegistryId arg) (rsc_RecordId arg) (rsc_Index arg)
    (Some (ToPageRequest (rsc_Pagination arg))).

(** The answer the caller decodes from the returned bytes. *)
Definition records_answer (bz : bytes) : result (list Record_ * ABIPageResponse) :=
  '(ret, _) ← ABIRecordsReturn_Decode bz;
  Ok (FromABIRecord <$> rsr_Records ret, rsr_Pagination ret).

(** C29: A [records] call answers as the query service does: the bytes it returns
    decode to the records and the page of the query with the call's arguments on
    the current store, an error of the query is returned as it is, and the state is
    left as it was. *)
Theorem records_call_answers index ctx stateDB c readOnly origin s arg rest :
  c_ok ABIRecordsCall_c arg -> ct_Input c = RecordsSelector ++ c_enc ABIRecordsCall_c arg ++ rest ->
  (forall v, ct_Value c = Some v -> v <= 0) ->
  (forall rsp, Query_Records (Some (records_request arg)) (ps_store s) = Ok rsp ->
     c_ok ABIRecordsReturn_c (mkABIRecordsReturn (ToABIRecord <$> qrr_Records rsp)
                                (FromPageResponse (qrr_Pagination rsp)))) ->
  let out := Execute index CollectionPaginate ctx stateDB (Some c) readOnly origin s in
  out.2 = s /\
  match Query_Records (Some (records_request arg)) (ps_store s) with
  | Ok rsp => rt_err out.1 = None /\
      records_answer (rt_bytes out.1) = Ok (qrr_Records rsp, FromPageResponse (qrr_Pagination rsp))
  | Err e => out.1 = mkReturned [] (Some e)
  end.
Proof.
  intros Ha Hi Hv Hok. cbn zeta.
  rewrite (Execute_query index ctx stateDB c readOnly origin s (RecordsCall arg) (c_enc ABIRecordsCall_c arg ++ rest))
    by done.
  unfold dispatch. cbn [GetMethodID]. change (returned (Run ABIRecordsCall_Decode ?e ?f ?i ?st))
    with (returned (Run (c_Decode ABIRecordsCall_c) e f i st)).
  assert (Ef : Precompile_Records arg s =
    (rsp ← Query_Records (Some (records_request arg)) (ps_store s);
     Ok (mkABIRecordsReturn (ToABIRecord <$> qrr_Records rsp) (FromPageResponse (qrr_Pagination rsp))), s)).
  { unfold Precompile_Records. cbv [mbind M_bind]. rewrite ask_state. fold (records_request arg). by destruct (Query_Records _ _). }
  destruct (Query_Records (Some (records_request arg)) (ps_store s)) as [rsp|e] eqn:Eq; cbn [mbind result_bind] in Ef;
    cbn [Z.eqb Pos.eqb RecordsID AddRegistryID AddRecordID UpdateRecordStatusID].
  - rewrite (Run_ok ABIRecordsCall_c ABIRecordsReturn_c _ _ _ _ _ _ Ha Ef (Hok rsp eq_refl)). split; [done|].
    split; [done|]. unfold records_answer. cbn [fst rt_bytes].
    pose proof (lw_decode _ [] (Hok rsp eq_refl)) as Ed. rewrite app_nil_r in Ed. cbn [c_Decode ABIRecordsReturn_c] in Ed.
    rewrite Ed. cbn. by rewrite FromToABIRecords.
  - by rewrite (Run_err ABIRecordsCall_c _ _ _ _ _ _ _ Ha Ef).
Qed.
End safety.

(** ** Witnesses *)

(** A concrete EVM: EIP-7702 delegations are recognised by their prefix, revert
    reasons are encoded as [Error(string)], the gas meter has a limit. *)
#[export] Instance concrete_evm : EvmLib := {|
  ParseDelegation := fun code =>
    if bool_decide (take 3 code = [xef; x01; x00]) && (length code =? 23)%nat then Some (drop 3 code) else None;
  RevertReasonBytes := fun e =>
    match e with
    | ErrPlain m => Ok ([x08; xc3; x79; xa0] ++ Word 32 ++ string_bytes (bs m))
    | _ => Err e
    end;
  ReadCostFlat := 1000;
  ReadCostPerByte := 3;
  ConsumeGas := fun n g => if g + n <=? 10000000 then (Ok tt, g + n) else (Err (ErrPlain "out of gas"), g);
  base_RequiredGas := fun input tx => (if tx then 30 else 3) * blen input
|}.

Module DemoEvm.
Definition db : StateDB := mkStateDB (fun _ => []).

(** A page of registries: the first [pr_Limit] ones. *)
Definition paginate (l : list (Z * Registry)) (pr : PageRequest) : result (list Registry * PageResponse) :=
  Ok (take (Z.to_nat (pr_Limit pr)) l.*2, mkPageResponse [] 0).

Definition retire : AbiCall := UpdateRecordStatusCall (mkABIUpdateRecordStatusCall 1 1 2 (bs "withdrawn")).

Definition input (call : AbiCall) : bytes := GetMethodSelector call ++ call_bytes call ++ [].

Definition from_bob (call : AbiCall) : Contract := mkContract Demo.bob (input call) (Some 0).

Definition start : PState := mkPS Demo.store [] 0.

Definition lookup_page : ABIPageRequest := mkABIPageRequest [] 0 0 false false.

Definition lookup_arg : ABIRecordsCall := mkABIRecordsCall 1 [] 0 0 lookup_page.

Definition run (call : AbiCall) : Returned * PState :=
  Execute None paginate Demo.ctx (Some db) (Some (from_bob call)) false Demo.bob start.
End DemoEvm.

Example withdrawn : rt_err (DemoEvm.run DemoEvm.retire).1 = None /\
  length (ps_logs (DemoEvm.run DemoEvm.retire).2) = 1%nat.
Proof. vm_compute. done. Qed.

Lemma only_direct_calls_write_witness :
  false = false /\ exists c id input, Some (DemoEvm.from_bob DemoEvm.retire) = Some c /\
  SplitMethodID (ct_Input c) = Ok (id, input) /\ IsTransactionID id = true /\
  direct_call (Some DemoEvm.db) c Demo.bob /\ (forall v, ct_Value c = Some v -> v <= 0).
Proof.
  apply (only_direct_calls_write DemoEvm.paginate None Demo.ctx (Some DemoEvm.db)
    (Some (DemoEvm.from_bob DemoEvm.retire)) false Demo.bob DemoEvm.start).
  intros [_ Hl]. apply (f_equal length) in Hl. vm_compute in Hl. done.
Defined.

Lemma block_execution_ignores_index_witness :
  Execute None DemoEvm.paginate Demo.ctx (Some DemoEvm.db)
    (Some (DemoEvm.from_bob (RegistriesByNameCall (mkABIRegistriesByNameCall (bs "deeds") 1 DemoEvm.lookup_page))))
    true Demo.bob DemoEvm.start
  = Execute (Some ∅) DemoEvm.paginate Demo.ctx (Some DemoEvm.db)
    (Some (DemoEvm.from_bob (RegistriesByNameCall (mkABIRegistriesByNameCall (bs "deeds") 1 DemoEvm.lookup_page))))
    true Demo.bob DemoEvm.start.
Proof. by apply block_execution_ignores_index. Defined.

Definition demo_answer : QueryRecordsResponse := Eval vm_compute in
  match Query_Records (Some (records_request DemoEvm.lookup_arg)) Demo.store with
  | Ok r => r
  | Err _ => mkRecordsResponse [] None
  end.

Lemma demo_query : Query_Records (Some (records_request DemoEvm.lookup_arg)) (ps_store DemoEvm.start) = Ok demo_answer.
Proof. vm_compute. reflexivity. Qed.

Lemma demo_lookup_ok : c_ok ABIRecordsCall_c DemoEvm.lookup_arg.
Proof. split; [repeat split; vm_compute; done|by vm_compute]. Qed.

Lemma demo_answer_ok : c_ok ABIRecordsReturn_c
  (mkABIRecordsReturn (ToABIRecord <$> qrr_Records demo_answer) (FromPageResponse (qrr_Pagination demo_answer))).
Proof.
  split; [|by vm_compute]. split.
  - split; [|by vm_compute]. apply Forall_singleton. split; [|by vm_compute].
    repeat split; vm_compute; done.
  - split; [|by vm_compute]. repeat split; vm_compute; done.
Qed.

Lemma records_call_answers_witness :
  let out := DemoEvm.run (RecordsCall DemoEvm.lookup_arg) in
  out.2 = DemoEvm.start /\ length (qrr_Records demo_answer) = 1%nat /\ rt_err out.1 = None /\
  records_answer (rt_bytes out.1) = Ok (qrr_Records demo_answer, FromPageResponse (qrr_Pagination demo_answer)).
Proof.
  pose proof (records_call_answers DemoEvm.paginate None Demo.ctx (Some DemoEvm.db)
    (DemoEvm.from_bob (RecordsCall DemoEvm.lookup_arg)) false Demo.bob DemoEvm.start DemoEvm.lookup_arg []
    demo_lookup_ok eq_refl) as H. rewrite demo_query in H. destruct H as (Hs & He & Hr).
  - intros v [= <-]. done.
  - intros rsp [= <-]. exact demo_answer_ok.
  - split; [exact Hs|]. split; [done|]. split; [exact He|exact Hr].
Defined.
