(* ===== verification/PrecompileDeliver.v ===== *)
(** A transaction method of the precompile is the message of the module: the same
    store, the identifier in the returned bytes, and one log. *)

From S2P Require Import Prelude Types Concrete Rbac Keeper MsgServer Spec Refine Ledger Access NameIndex Query EvmLayout Abi AbiAnchoring AbiConcrete AbiCalls Precompile PrecompileSafety.

(** ** Identifiers are uint64 *)

Record ids_fit (k : KState) : Prop := {
  if_registries : forall n, RegistryCount k = Some n -> is_u64 n;
  if_counts : map_Forall (fun _ n => is_u64 n) (RecordsCountByRegistry k);
  if_ids : map_Forall (fun _ n => is_u64 n) (RecordIdByRegistryAndChecksum k);
  if_latest : map_Forall (fun _ n => is_u64 n) (RecordIndices k)
}.

Section ids.
Context {ENV : Env}.
Implicit Types s : KState.

Lemma map_Forall_u64 `{Countable K} (m : gmap K Z) k n :
  is_u64 n -> map_Forall (fun _ n => is_u64 n) m -> map_Forall (fun _ n => is_u64 n) (<[k := n]> m).
Proof. intros Hn Hm. by apply map_Forall_insert_2. Qed.

(** A method that keeps the identifiers in range on every run. *)
Definition keeps_ids {A} (m : M KState A) : Prop := forall s, ids_fit s -> ids_fit (m s).2.

Lemma keeps_ret {A} (a : A) : keeps_ids (mret a).
Proof. by intros s. Qed.
Lemma keeps_lift {A} (r : result A) : keeps_ids (lift r).
Proof. by intros s. Qed.
Lemma keeps_throw {A} e : keeps_ids (throw e : M KState A).
Proof. by intros s. Qed.
Lemma keeps_gets {A} (f : KState -> A) : keeps_ids (gets f).
Proof. by intros s. Qed.
Lemma keeps_get {A} (f : KState -> option A) : keeps_ids (get_or_not_found f).
Proof. intros s Hs. unfold get_or_not_found. run_unfold. by destruct (f s). Qed.
Lemma keeps_bind {A B} (m : M KState A) (f : A -> M KState B) :
  keeps_ids m -> (forall a, keeps_ids (f a)) -> keeps_ids (m ≫= f).
Proof.
  intros Hm Hf s Hs. specialize (Hm s Hs). cbv [mbind M_bind]. destruct (m s) as [[a|e] s']; [by apply Hf|done].
Qed.
Lemma keeps_if {A} (b : bool) (m1 m2 : M KState A) : keeps_ids m1 -> keeps_ids m2 -> keeps_ids (if b then m1 else m2).
Proof. by destruct b. Qed.

(** A write to the tables that hold no identifier. *)
Lemma keeps_modify f : (forall s, RegistryCount (f s) = RegistryCount s /\
    RecordsCountByRegistry (f s) = RecordsCountByRegistry s /\
    RecordIdByRegistryAndChecksum (f s) = RecordIdByRegistryAndChecksum s /\
    RecordIndices (f s) = RecordIndices s) -> keeps_ids (modify f).
Proof.
  intros Hf s [H1 H2 H3 H4]. destruct (Hf s) as (E1 & E2 & E3 & E4).
  split; simpl; rewrite ?E1, ?E2, ?E3, ?E4; done.
Qed.

Lemma keeps_rbac {A} (m : M RBACState A) : keeps_ids (rbac m).
Proof.
  intros s [H1 H2 H3 H4]. unfold rbac, zoom. destruct (m (get_RBAC s)) as [r t]. by split.
Qed.

Lemma keeps_emit ev : keeps_ids (emit ev).
Proof. by apply keeps_modify. Qed.

Lemma keeps_request {A} (v : A -> result unit) req : keeps_ids (valid_request v req).
Proof. intros s Hs. by rewrite valid_request_store. Qed.

Lemma keeps_scope id c : keeps_ids (ensureRoleScopeExists id c).
Proof. intros s Hs. by rewrite ensureRoleScopeExists_store. Qed.

Lemma keeps_permission sender id c roles : keeps_ids (checkPermission sender id c roles).
Proof. intros s Hs. rewrite checkPermission_spec. by destruct (permitted _ _ _ _ _). Qed.

#[local] Hint Resolve keeps_ret keeps_lift keeps_throw keeps_gets keeps_get keeps_rbac keeps_emit keeps_request
  keeps_scope keeps_permission wrap64_u64 : nvnm.

(** Walks through the body of a handler. *)
Ltac keeps :=
  repeat first
    [ simple apply keeps_bind; [|intros ?]
    | simple apply keeps_if
    | solve [eauto with nvnm] ].

Lemma AddRegistry_ids ctx sender n d m : keeps_ids (AddRegistry ctx sender n d m).
Proof.
  unfold AddRegistry, initializeRegistryRecordCounter. keeps; try by apply keeps_modify.
  - intros s [H1 H2 H3 H4]. split; simpl; [done|by apply map_Forall_u64|done|done].
  - intros s [H1 H2 H3 H4]. split; simpl; [intros ? [= <-]; auto with nvnm|done|done|done].
Qed.

Lemma assign_record_id_ids id c : keeps_ids (assign_record_id id c).
Proof.
  unfold assign_record_id. keeps. destruct a as [rid|]; keeps; try by apply keeps_modify.
  - intros s [H1 H2 H3 H4]. split; simpl; [done|apply map_Forall_u64; auto with nvnm|done|done].
  - intros s [H1 H2 H3 H4]. split; simpl; [done|done|apply map_Forall_u64; auto with nvnm|done].
Qed.

Lemma AddRecord_ids ctx sender record : keeps_ids (AddRecord ctx sender record).
Proof.
  unfold AddRecord, put_record. keeps; try (by apply keeps_modify); [apply assign_record_id_ids|].
  intros s [H1 H2 H3 H4]. split; simpl; [done|done|done|]. apply map_Forall_u64; [|done].
  destruct a3; [auto with nvnm|done].
Qed.

Lemma UpdateRecordStatus_ids sender id rid i st : keeps_ids (UpdateRecordStatus sender id rid i st).
Proof. unfold UpdateRecordStatus, put_record. keeps. by apply keeps_modify. Qed.

Lemma handle_ids ctx msg : keeps_ids (handle ctx msg).
Proof.
  destruct msg as [req|req|req|req|req|req]; cbn [handle].
  - unfold Msg_AddRegistry, decode_address. keeps. apply AddRegistry_ids.
  - unfold Msg_AddRecord, decode_address. keeps. apply AddRecord_ids.
  - unfold Msg_UpdateRecordStatus, decode_address. keeps. apply UpdateRecordStatus_ids.
  - unfold Msg_GrantRole, decode_address, isModuleAdmin. keeps.
  - unfold Msg_RevokeRole, decode_address. keeps.
  - unfold Msg_UpdateParams. keeps. by apply keeps_modify.
Qed.

(** ** The identifiers in the answers *)

Lemma AddRegistry_answer ctx sender n d m s id s' :
  AddRegistry ctx sender n d m s = (Ok id, s') -> RegistryCount s' = Some id.
Proof.
  unfold AddRegistry, get_or_not_found, rbac, SetRoleAdmin, initializeRegistryRecordCounter, emit.
  run_unfold. intros E. destruct (invalid_request _); simplify_eq/=.
  destruct (RegistryCount s); simplify_eq/=. destruct (StringToBytes _); simplify_eq/=. done.
Qed.

Lemma assign_record_id_answer id c s rid s' :
  assign_record_id id c s = (Ok rid, s') -> RecordIdByRegistryAndChecksum s' !! (id, c) = Some rid.
Proof.
  unfold assign_record_id, get_or_not_found. run_unfold. intros E.
  destruct (RecordIdByRegistryAndChecksum s !! _) eqn:Ei; simplify_eq/=; [done|].
  destruct (RecordsCountByRegistry s !! id); simplify_eq/=.
  destruct (key_string_ok c); simplify_eq/=. by rewrite lookup_insert_eq.
Qed.

Lemma AddRecord_answer ctx sender record s rid s' :
  AddRecord ctx sender record s = (Ok rid, s') ->
  RecordIdByRegistryAndChecksum s' !! (rec_RegistryId record, rec_Checksum record) = Some rid /\
  is_Some (RecordIndices s' !! (rec_RegistryId record, rid)).
Proof.
  unfold AddRecord, put_record, emit, get_or_not_found. run_unfold. intros E.
  destruct (invalid_request _); simplify_eq/=. destruct (Registries s !! _); simplify_eq/=.
  rewrite checkPermission_spec in E. destruct (permitted s sender _ _ _); simplify_eq/=.
  destruct (assign_record_id _ _ s) as [[rid'|] s1] eqn:Ea; simplify_eq/=.
  apply assign_record_id_answer in Ea.
  set (idx := match _ with Some i => wrap64 (i + 1) | None => 1 end) in *.
  destruct (1 <? idx); simplify_eq/=.
  - destruct (<[_ := _]> (Records s1) !! _); simplify_eq/=. rewrite lookup_insert_eq. eauto.
  - rewrite lookup_insert_eq. eauto.
Qed.
End ids.

(** ** A call as a message *)

Section deliver.
Context {ENV : Env} {LIB : AbiLib} {EVM : EvmLib} {SQ : SQL} {LAWS : AbiLibLaws}.
Context (index : option DB).
Context (CollectionPaginate : list (Z * Registry) -> PageRequest -> result (list Registry * PageResponse)).
Implicit Types (s : PState) (ctx : Ctx) (call : AbiCall).

(** The message a transaction method stands for, signed by the caller. *)
Definition call_msg (caller : bytes) call : option Msg :=
  sender ← BytesToString caller;
  match call with
  | AddRegistryCall c =>
      Some (AddRegistryMsg (Some (mkMsgAddRegistry sender (agc_Name c) (agc_Description c) (agc_Metadata c))))
  | AddRecordCall c => Some (AddRecordMsg (Some (mkMsgAddRecord sender (Some (FromABIRecord (arc_Record c))))))
  | UpdateRecordStatusCall c =>
      Some (UpdateRecordStatusMsg (Some (mkMsgUpdateRecordStatus sender (usc_RegistryId c) (usc_RecordId c)
                                           (usc_Index c) (usc_Status c))))
  | GrantRoleCall c =>
      address ← BytesToString (grc_Account c);
      Some (GrantRoleMsg (Some (mkMsgRole sender (grc_RegistryId c) (grc_Checksum c) address (grc_Role c))))
  | RevokeRoleCall c =>
      address ← BytesToString (rrc_Account c);
      Some (RevokeRoleMsg (Some (mkMsgRole sender (rrc_RegistryId c) (rrc_Checksum c) address (rrc_Role c))))
  | _ => None
  end.

(** The bytes returned for the answer of the message server. *)
Definition call_answer call (ans : option Z) : bytes :=
  match call with
  | AddRegistryCall _ => c_enc ABIAddRegistryReturn_c (mkABIAddRegistryReturn (default 0 ans))
  | AddRecordCall _ => c_enc ABIAddRecordReturn_c (mkABIAddRecordReturn (default 0 ans))
  | _ => []
  end.

(** The event of a successful call, [k] the store it leaves. *)
Definition call_event (caller : bytes) call (ans : option Z) (k : KState) : option AbiEvent :=
  match call with
  | AddRegistryCall c => Some (NewAddRegistryEvent caller (default 0 ans) (agc_Name c))
  | AddRecordCall c =>
      let id := abr_RegistryId (arc_Record c) in
      Some (NewAddRecordEvent caller id (default 0 ans) (default 0 (RecordIndices k !! (id, default 0 ans)))
              (abr_Checksum (arc_Record c)))
  | UpdateRecordStatusCall c =>
      Some (NewUpdateRecordStatusEvent caller (usc_RegistryId c) (usc_RecordId c) (usc_Index c) (usc_Status c))
  | GrantRoleCall c =>
      Some (NewGrantRoleEvent caller (grc_RegistryId c) (grc_Checksum c) (grc_Account c) (grc_Role c))
  | RevokeRoleCall c =>
      Some (NewRevokeRoleEvent caller (rrc_RegistryId c) (rrc_Checksum c) (rrc_Account c) (rrc_Role c))
  | _ => None
  end.

Definition event_log ctx (ev : AbiEvent) : Log :=
  mkLog AnchoringPrecompileAddress (event_topics ev) (event_data ev) (wrap64 (BlockHeight ctx)).

Lemma emitEvent_ok ctx db ev s : event_ok ev ->
  emitEvent ctx (Some db) ev s = (Ok tt, add_log (event_log ctx ev) s).
Proof.
  intros Hok. destruct (event_encoded ev Hok) as [Et Ed]. unfold emitEvent. rewrite Et, Ed, EncodeEvent_ok. done.
Qed.

(** ** The events fit *)

Lemma tuple_size_lt ps n : Forall part_ok ps -> static_size ps + blen (tails ps) < n -> blen (tuple_bytes ps) < n.
Proof. intros Hp Hl. by rewrite tuple_bytes_length. Qed.

Lemma add_registry_event_ok caller arg id : length caller = 20%nat -> c_ok ABIAddRegistryCall_c arg -> is_u64 id ->
  event_ok (NewAddRegistryEvent caller id (agc_Name arg)).
Proof.
  intros Hc [(H1 & H2 & H3) Hl] Hid. split; [done|]. rewrite tuple_bytes_length in Hl by words.
  split; [split; [by apply uint64_ok|done]|]. apply tuple_size_lt; [words|].
  unfold ABIAddRegistryEventData_parts, ABIAddRegistryCall_parts, static_size in *. cbn [length tails] in *.
  rewrite !blen_app in *. change (blen []) with 0 in *.
  pose proof (blen_nonneg (c_enc string_c (agc_Description arg))).
  pose proof (blen_nonneg (c_enc string_c (agc_Metadata arg))). cbn [aged_Name] in *. lia.
Qed.

Lemma add_record_event_ok caller arg rid i : length caller = 20%nat -> c_ok ABIAddRecordCall_c arg ->
  is_u64 rid -> is_u64 i ->
  event_ok (NewAddRecordEvent caller (abr_RegistryId (arc_Record arg)) rid i (abr_Checksum (arc_Record arg))).
Proof.
  intros Hc [[(Hu & Hcs & Ha & Hm & Ht & Hst & Hr & Hi & Hlt & Hg) Hl] _] Hrid Hidx. split; [done|].
  rewrite tuple_bytes_length in Hl by words.
  split; [repeat split; [done|by apply uint64_ok..|done]|]. apply tuple_size_lt; [words|].
  unfold ABIAddRecordEventData_parts, ABIRecord_parts, static_size in *. cbn [length tails] in *.
  rewrite !blen_app in *. change (blen []) with 0 in *. cbn [ared_Checksum] in *.
  pose proof (blen_nonneg (c_enc string_c (abr_Uri (arc_Record arg)))).
  pose proof (blen_nonneg (c_enc string_c (abr_ChecksumAlgo (arc_Record arg)))).
  pose proof (blen_nonneg (c_enc string_c (abr_Metadata (arc_Record arg)))).
  pose proof (blen_nonneg (c_enc string_c (abr_Timestamp (arc_Record arg)))).
  pose proof (blen_nonneg (c_enc string_c (abr_Status (arc_Record arg)))). lia.
Qed.

(** ** The methods *)

Lemma Run_empty {I} (ci : Codec I) `{!Lawful ci} (fn : I -> M PState unit) arg rest s s' :
  c_ok ci arg -> fn arg s = (Ok tt, s') ->
  returned (Run (c_Decode ci) EmptyReturn_Encode fn (c_enc ci arg ++ rest) s) = (mkReturned [] None, s').
Proof.
  intros Ha Hf. unfold Run, EmptyReturn_Encode. cbv [mbind M_bind lift]. rewrite lw_decode by done.
  by rewrite Hf, EmptyTuple_bytes.
Qed.

Lemma address_text_ok a t s : BytesToString a = Some t -> address_text a s = (Ok t, s).
Proof. intros Ha. unfold address_text. by rewrite Ha. Qed.

Lemma registry_answer_ok id : is_u64 id -> c_ok ABIAddRegistryReturn_c (mkABIAddRegistryReturn id).
Proof. intros Hid. split; [by apply uint64_ok|]. apply tuple_size_lt; [words|]. done. Qed.

Lemma record_answer_ok id : is_u64 id -> c_ok ABIAddRecordReturn_c (mkABIAddRecordReturn id).
Proof. intros Hid. split; [by apply uint64_ok|]. apply tuple_size_lt; [words|]. done. Qed.

(** What a call owes to its message: the answer, the store and the log of a
    successful one, an error for a failed one. *)
Definition delivers ctx (c : Contract) call (msg : Msg) s (out : Returned * PState) : Prop :=
  match handle ctx msg (ps_store s) with
  | (Ok ans, k) => exists ev, call_event (ct_Caller c) call ans k = Some ev /\
      out = (mkReturned (call_answer call ans) None, mkPS k (ps_logs s ++ [event_log ctx ev]) (ps_gas s))
  | (Err _, _) => exists e, rt_err out.1 = Some e
  end.

Section methods.
Context (ctx : Ctx) (db : StateDB) (c : Contract) (rest : bytes) (s : PState).
Context (Hcaller : length (ct_Caller c) = 20%nat) (Hids : ids_fit (ps_store s)).

Lemma AddRegistry_delivers arg msg :
  c_ok ABIAddRegistryCall_c arg -> call_msg (ct_Caller c) (AddRegistryCall arg) = Some msg ->
  delivers ctx c (AddRegistryCall arg) msg s
    (returned (Run (c_Decode ABIAddRegistryCall_c) (abi_Encode ABIAddRegistryReturn_c)
       (Precompile_AddRegistry ctx (Some db) c) (c_enc ABIAddRegistryCall_c arg ++ rest) s)).
Proof.
  intros Ha Hm. unfold call_msg in Hm. destruct (BytesToString (ct_Caller c)) as [t|] eqn:Et; [|done].
  cbn [mbind option_bind] in Hm. injection Hm as <-.
  set (m := mkMsgAddRegistry t _ _ _). pose proof (handle_ids ctx (AddRegistryMsg (Some m)) _ Hids) as Hk.
  unfold delivers. cbn [handle] in *. cbv [mbind M_bind] in *.
  destruct (Msg_AddRegistry ctx (Some m) (ps_store s)) as [[id|e] k] eqn:E.
  - assert (Hid : is_u64 id).
    { apply (if_registries k Hk). clear Hk. unfold Msg_AddRegistry in E. run_inv E. by eapply AddRegistry_answer. }
    eexists. split; [done|].
    erewrite Run_ok; [done|done| |by apply registry_answer_ok].
    unfold Precompile_AddRegistry. cbv [mbind M_bind]. rewrite (address_text_ok _ t) by done.
    unfold in_keeper, zoom. fold m. rewrite E. unfold emitAddRegistryEvent.
    rewrite emitEvent_ok; [done|]. by apply add_registry_event_ok.
  - eexists. erewrite Run_err; [done|done|]. unfold Precompile_AddRegistry. cbv [mbind M_bind].
    rewrite (address_text_ok _ t) by done. unfold in_keeper, zoom. fold m. by rewrite E.
Qed.

Lemma AddRecord_delivers arg msg :
  c_ok ABIAddRecordCall_c arg -> call_msg (ct_Caller c) (AddRecordCall arg) = Some msg ->
  delivers ctx c (AddRecordCall arg) msg s
    (returned (Run (c_Decode ABIAddRecordCall_c) (abi_Encode ABIAddRecordReturn_c)
       (Precompile_AddRecord ctx (Some db) c) (c_enc ABIAddRecordCall_c arg ++ rest) s)).
Proof.
  intros Ha Hm. unfold call_msg in Hm. destruct (BytesToString (ct_Caller c)) as [t|] eqn:Et; [|done].
  cbn [mbind option_bind] in Hm. injection Hm as <-.
  set (m := mkMsgAddRecord t _). pose proof (handle_ids ctx (AddRecordMsg (Some m)) _ Hids) as Hk.
  unfold delivers. cbn [handle] in *. cbv [mbind M_bind] in *.
  destruct (Msg_AddRecord ctx (Some m) (ps_store s)) as [[rid|e] k] eqn:E.
  - assert (Hr : RecordIdByRegistryAndChecksum k !! (abr_RegistryId (arc_Record arg), abr_Checksum (arc_Record arg))
        = Some rid /\ is_Some (RecordIndices k !! (abr_RegistryId (arc_Record arg), rid))).
    { clear Hk. unfold Msg_AddRecord in E. run_inv E. apply valid_request_ok in E0 as [[= <-] _].
      injection E2 as <-. by apply AddRecord_answer in E. }
    destruct Hr as [Hrid [i Hi]]. pose proof (if_ids _ Hk _ _ Hrid) as Hu. pose proof (if_latest _ Hk _ _ Hi) as Hv.
    eexists. split; [done|]. cbn [fst snd] in Hu, Hv.
    erewrite Run_ok; [done|done| |by apply record_answer_ok].
    unfold Precompile_AddRecord. cbv [mbind M_bind]. rewrite (address_text_ok _ t) by done.
    unfold emitAddRecordEvent, in_keeper, zoom. fold m. rewrite E. cbv [mbind M_bind gets lift].
    cbn [ps_store default]. change (rec_RegistryId (FromABIRecord ?r)) with (abr_RegistryId r).
    change (rec_Checksum (FromABIRecord ?r)) with (abr_Checksum r).
    unfold Datatypes.id. rewrite Hi. cbn [of_option from_option].
    rewrite emitEvent_ok by (by apply add_record_event_ok). done.
  - eexists. erewrite Run_err; [done|done|]. unfold Precompile_AddRecord. cbv [mbind M_bind].
    rewrite (address_text_ok _ t) by done. unfold in_keeper, zoom. fold m. by rewrite E.
Qed.

(** A method that runs a handler without an answer and logs the event. *)
Lemma logged_call {I} (ci : Codec I) `{!Lawful ci} (fn : I -> M PState unit) arg (handler : M KState unit) ev call msg :
  c_ok ci arg -> (forall k, call_event (ct_Caller c) call None k = Some ev) -> event_ok ev ->
  handle ctx msg (ps_store s) = (_ ← handler; mret None) (ps_store s) -> call_answer call None = [] ->
  fn arg s = (_ ← in_keeper handler; emitEvent ctx (Some db) ev) s ->
  delivers ctx c call msg s (returned (Run (c_Decode ci) EmptyReturn_Encode fn (c_enc ci arg ++ rest) s)).
Proof.
  intros Ha Ec Hev Eh Er Ef. unfold delivers. rewrite Eh. unfold in_keeper, zoom in Ef. cbv [mbind M_bind] in *.
  destruct (handler (ps_store s)) as [[u|e] k].
  - exists ev. split; [apply Ec|]. rewrite emitEvent_ok in Ef by done. erewrite Run_empty by done. by rewrite Er.
  - eexists. by erewrite Run_err by done.
Qed.

Lemma UpdateRecordStatus_delivers arg msg :
  c_ok ABIUpdateRecordStatusCall_c arg -> call_msg (ct_Caller c) (UpdateRecordStatusCall arg) = Some msg ->
  delivers ctx c (UpdateRecordStatusCall arg) msg s
    (returned (Run (c_Decode ABIUpdateRecordStatusCall_c) EmptyReturn_Encode
       (Precompile_UpdateRecordStatus ctx (Some db) c) (c_enc ABIUpdateRecordStatusCall_c arg ++ rest) s)).
Proof.
  intros Ha Hm. unfold call_msg in Hm. destruct (BytesToString (ct_Caller c)) as [t|] eqn:Et; [|done].
  cbn [mbind option_bind] in Hm. injection Hm as <-.
  eapply logged_call; [exact Ha|done|split; [done|exact Ha]|done|done|].
  unfold Precompile_UpdateRecordStatus, emitUpdateRecordStatusEvent. cbv [mbind M_bind].
  by rewrite (address_text_ok _ t) by done.
Qed.

Lemma GrantRole_delivers arg msg :
  c_ok ABIGrantRoleCall_c arg -> call_msg (ct_Caller c) (GrantRoleCall arg) = Some msg ->
  delivers ctx c (GrantRoleCall arg) msg s
    (returned (Run (c_Decode ABIGrantRoleCall_c) EmptyReturn_Encode
       (Precompile_GrantRole ctx (Some db) c) (c_enc ABIGrantRoleCall_c arg ++ rest) s)).
Proof.
  intros Ha Hm. unfold call_msg in Hm. destruct (BytesToString (ct_Caller c)) as [t|] eqn:Et; [|done].
  cbn [mbind option_bind] in Hm. destruct (BytesToString (grc_Account arg)) as [t'|] eqn:Et'; [|done].
  cbn [mbind option_bind] in Hm. injection Hm as <-.
  eapply logged_call; [exact Ha|done|split; [done|exact Ha]|done|done|].
  unfold Precompile_GrantRole, emitGrantRoleEvent. cbv [mbind M_bind].
  by rewrite (address_text_ok _ t), (address_text_ok _ t') by done.
Qed.

Lemma revoke_needs_role m k : is_empty (mr_Role m) = true ->
  exists e, handle ctx (RevokeRoleMsg (Some m)) k = (Err e, k).
Proof.
  intros Hr. cbn [handle]. unfold Msg_RevokeRole, valid_request, MsgRevokeRole_ValidateBasic.
  cbv [mbind M_bind lift result_bind of_option guard_err invalid_request]. rewrite Hr.
  destruct (check_address _ _); [|eauto]. destruct (check_address _ _); [|eauto].
  destruct (mr_RegistryId m =? 0); [eauto|]. destruct (validateMaxLen _ _ _); eauto.
Qed.

Lemma RevokeRole_delivers arg msg :
  c_ok ABIRevokeRoleCall_c arg -> call_msg (ct_Caller c) (RevokeRoleCall arg) = Some msg ->
  delivers ctx c (RevokeRoleCall arg) msg s
    (returned (Run (c_Decode ABIRevokeRoleCall_c) EmptyReturn_Encode
       (Precompile_RevokeRole ctx (Some db) c) (c_enc ABIRevokeRoleCall_c arg ++ rest) s)).
Proof.
  intros Ha Hm. unfold call_msg in Hm. destruct (BytesToString (ct_Caller c)) as [t|] eqn:Et; [|done].
  cbn [mbind option_bind] in Hm. destruct (BytesToString (rrc_Account arg)) as [t'|] eqn:Et'; [|done].
  cbn [mbind option_bind] in Hm. injection Hm as <-. destruct (is_empty (rrc_Role arg)) eqn:Er.
  - destruct (revoke_needs_role (mkMsgRole t (rrc_RegistryId arg) (rrc_Checksum arg) t' (rrc_Role arg))
      (ps_store s) Er) as [e Eh]. unfold delivers. rewrite Eh. eexists. erewrite Run_err; [done|exact Ha|].
    unfold Precompile_RevokeRole. by rewrite Er.
  - eapply logged_call; [exact Ha|done|split; [done|exact Ha]|done|done|].
    unfold Precompile_RevokeRole, emitRevokeRoleEvent. cbv [mbind M_bind]. rewrite Er. cbn [guard_err lift].
    by rewrite (address_text_ok _ t), (address_text_ok _ t') by done.
Qed.
End methods.

(** A direct call without value that starts with the selector of a transaction
    reaches its method. *)
Lemma Execute_tx ctx stateDB c origin s call args :
  ct_Input c = GetMethodSelector call ++ args -> direct_call stateDB c origin ->
  (forall v, ct_Value c = Some v -> v <= 0) ->
  Execute index CollectionPaginate ctx stateDB (Some c) false origin s
  = dispatch index CollectionPaginate ctx stateDB c origin (GetMethodID call) args s.
Proof.
  intros Hi Hd Hv. apply ensureNoValue_spec in Hv as [u Hv].
  apply (ensureEOACaller_spec _ _ (methodName (GetMethodID call))) in Hd as [u' Hd].
  unfold Execute, ParseMethod, guard_err. rewrite Hi, selector_id. cbn [andb mbind result_bind].
  rewrite Hv, Hd. by destruct (IsTransactionID (GetMethodID call)).
Qed.

Lemma dispatch_delivers ctx db c origin rest s call msg :
  call_ok call -> call_msg (ct_Caller c) call = Some msg -> length (ct_Caller c) = 20%nat ->
  ids_fit (ps_store s) ->
  delivers ctx c call msg s
    (dispatch index CollectionPaginate ctx (Some db) c origin (GetMethodID call) (call_bytes call ++ rest) s).
Proof.
  intros Hok Hm Hl Hids. destruct call as [a|a|a|a|a|a|a|a];
    try (unfold call_msg in Hm; by destruct (BytesToString (ct_Caller c))).
  - by apply AddRecord_delivers.
  - by apply AddRegistry_delivers.
  - by apply GrantRole_delivers.
  - by apply RevokeRole_delivers.
  - by apply UpdateRecordStatus_delivers.
Qed.

(** C8: A transaction method is the message of the module: a direct call of the
    precompile leaves the store that delivering the message signed by the caller
    leaves; it succeeds exactly when the handler does, returns the encoded
    identifier the handler assigned, and then adds exactly one log, which holds
    the event of the call.  A failed call leaves everything as it was. *)
Theorem calls_deliver ctx stateDB c origin rest s call msg :
  call_ok call -> ct_Input c = GetMethodSelector call ++ call_bytes call ++ rest ->
  call_msg (ct_Caller c) call = Some msg -> length (ct_Caller c) = 20%nat ->
  direct_call stateDB c origin -> (forall v, ct_Value c = Some v -> v <= 0) -> ids_fit (ps_store s) ->
  let '(out, s') := evm_call index CollectionPaginate ctx stateDB (Some c) false origin s in
  ps_store s' = deliver ctx msg (ps_store s) /\
  match (handle ctx msg (ps_store s)).1 with
  | Ok ans => rt_err out = None /\ rt_bytes out = call_answer call ans /\
      exists ev, call_event (ct_Caller c) call ans (ps_store s') = Some ev /\
      ps_logs s' = ps_logs s ++ [event_log ctx ev]
  | Err _ => is_Some (rt_err out) /\ s' = s
  end.
Proof.
  intros Hok Hi Hm Hl Hd Hv Hids. unfold evm_call. rewrite (Execute_tx ctx stateDB c origin s call _ Hi Hd Hv).
  destruct Hd as [(db & -> & _) _].
  pose proof (dispatch_delivers ctx db c origin rest s call msg Hok Hm Hl Hids) as Hdel.
  unfold delivers in Hdel. unfold deliver.
  destruct (dispatch _ _ _ _ _ _ _ _ s) as [out s'].
  destruct (handle ctx msg (ps_store s)) as [[ans|e] k].
  - destruct Hdel as (ev & Hev & [= -> ->]). cbn. split; [done|]. split; [done|]. split; [done|]. eauto.
  - destruct Hdel as [e' He]. cbn [fst] in *. rewrite He. split; [done|]. split; [by eexists|done].
Qed.
End deliver.

Section traces.
Context {ENV : Env}.

Lemma deliver_ids ctx msg s : ids_fit s -> ids_fit (deliver ctx msg s).
Proof. intros Hs. pose proof (handle_ids ctx msg s Hs) as Hh. unfold deliver. by destruct (handle ctx msg s) as [[|] s']. Qed.

End traces.

(** ** Witnesses *)

Lemma demo_ids_fit : ids_fit Demo.store.
Proof.
  split; try by_eval. intros n Hn. assert (RegistryCount Demo.store = Some 1) as E by by_eval.
  rewrite E in Hn. injection Hn as <-. by_eval.
Qed.

Definition demo_msg : Msg :=
  UpdateRecordStatusMsg (Some (mkMsgUpdateRecordStatus (addr_to_text Demo.bob) 1 1 2 (bs "withdrawn"))).

Lemma demo_retire_ok : call_ok DemoEvm.retire.
Proof. split; [repeat split; vm_compute; done|by vm_compute]. Qed.

Lemma demo_handled : (handle Demo.ctx demo_msg (ps_store DemoEvm.start)).1 = Ok None.
Proof. vm_compute. reflexivity. Qed.

Lemma demo_direct : direct_call (Some DemoEvm.db) (DemoEvm.from_bob DemoEvm.retire) Demo.bob.
Proof. split; [by eexists|done]. Qed.

Lemma calls_deliver_witness :
  let '(out, s') := evm_call None DemoEvm.paginate Demo.ctx (Some DemoEvm.db)
    (Some (DemoEvm.from_bob DemoEvm.retire)) false Demo.bob DemoEvm.start in
  ps_store s' = deliver Demo.ctx demo_msg (ps_store DemoEvm.start) /\ rt_err out = None /\ rt_bytes out = [] /\
  ps_logs s' = [event_log Demo.ctx (NewUpdateRecordStatusEvent Demo.bob 1 1 2 (bs "withdrawn"))].
Proof.
  pose proof (calls_deliver None DemoEvm.paginate Demo.ctx (Some DemoEvm.db) (DemoEvm.from_bob DemoEvm.retire)
    Demo.bob [] DemoEvm.start DemoEvm.retire demo_msg demo_retire_ok eq_refl eq_refl eq_refl demo_direct) as H.
  destruct (evm_call _ _ _ _ _ _ _ _) as [out s']. rewrite demo_handled in H.
  destruct H as (Hs & He & Hb & ev & [= <-] & Hl).
  - intros v [= <-]. done.
  - exact demo_ids_fit.
  - split; [exact Hs|]. split; [exact He|]. split; [exact Hb|exact Hl].
Defined.
