(* ===== verification/MsgService.v ===== *)
(** The gRPC service of the transaction messages: the client, the handlers and the
    descriptor of src/x/anchoring/types/tx.pb.go, over the message server.  [serve_msg]
    is a connection to a server with the descriptor. *)

From S2P Require Import Prelude Types Concrete Rbac Keeper MsgServer Spec Refine Ledger Access Proto ProtoMsg Grpc PrecompileDeliver.

(** ** The client *)

Definition msgClient_UpdateParams (cc : Conn KState) (req : MsgUpdateParams) : M KState EmptyResponse :=
  Invoke cc "/nvnmchain.anchoring.v1.Msg/UpdateParams" req.
Definition msgClient_AddRegistry (cc : Conn KState) (req : MsgAddRegistry) : M KState MsgAddRegistryResponse :=
  Invoke cc "/nvnmchain.anchoring.v1.Msg/AddRegistry" req.
Definition msgClient_AddRecord (cc : Conn KState) (req : MsgAddRecord) : M KState MsgAddRecordResponse :=
  Invoke cc "/nvnmchain.anchoring.v1.Msg/AddRecord" req.
Definition msgClient_UpdateRecordStatus (cc : Conn KState) (req : MsgUpdateRecordStatus) : M KState EmptyResponse :=
  Invoke cc "/nvnmchain.anchoring.v1.Msg/UpdateRecordStatus" req.
Definition msgClient_GrantRole (cc : Conn KState) (req : MsgRole) : M KState EmptyResponse :=
  Invoke cc "/nvnmchain.anchoring.v1.Msg/GrantRole" req.
Definition msgClient_RevokeRole (cc : Conn KState) (req : MsgRole) : M KState EmptyResponse :=
  Invoke cc "/nvnmchain.anchoring.v1.Msg/RevokeRole" req.

(** ** The server *)

Section service.
Context {ENV : Env} {GR : Grpc}.
Context (ctx : Ctx).

Definition Msg_UpdateParams_Handler : option (Interceptor KState) -> bytes -> M KState EmptyResponse :=
  unary_handler "/nvnmchain.anchoring.v1.Msg/UpdateParams"
    (fun req => _ ← Msg_UpdateParams req; mret mkEmptyResponse).
Definition Msg_AddRegistry_Handler : option (Interceptor KState) -> bytes -> M KState MsgAddRegistryResponse :=
  unary_handler "/nvnmchain.anchoring.v1.Msg/AddRegistry"
    (fun req => id ← Msg_AddRegistry ctx (Some req); mret (mkAddRegistryResponse id)).
Definition Msg_AddRecord_Handler : option (Interceptor KState) -> bytes -> M KState MsgAddRecordResponse :=
  unary_handler "/nvnmchain.anchoring.v1.Msg/AddRecord"
    (fun req => id ← Msg_AddRecord ctx (Some req); mret (mkAddRecordResponse id)).
Definition Msg_UpdateRecordStatus_Handler : option (Interceptor KState) -> bytes -> M KState EmptyResponse :=
  unary_handler "/nvnmchain.anchoring.v1.Msg/UpdateRecordStatus"
    (fun req => _ ← Msg_UpdateRecordStatus (Some req); mret mkEmptyResponse).
Definition Msg_GrantRole_Handler : option (Interceptor KState) -> bytes -> M KState EmptyResponse :=
  unary_handler "/nvnmchain.anchoring.v1.Msg/GrantRole"
    (fun req => _ ← Msg_GrantRole (Some req); mret mkEmptyResponse).
Definition Msg_RevokeRole_Handler : option (Interceptor KState) -> bytes -> M KState EmptyResponse :=
  unary_handler "/nvnmchain.anchoring.v1.Msg/RevokeRole"
    (fun req => _ ← Msg_RevokeRole (Some req); mret mkEmptyResponse).

Definition Msg_serviceDesc : ServiceDesc KState :=
  mkServiceDesc "nvnmchain.anchoring.v1.Msg"
    [mkMethod "UpdateParams" (answering Msg_UpdateParams_Handler);
     mkMethod "AddRegistry" (answering Msg_AddRegistry_Handler);
     mkMethod "AddRecord" (answering Msg_AddRecord_Handler);
     mkMethod "UpdateRecordStatus" (answering Msg_UpdateRecordStatus_Handler);
     mkMethod "GrantRole" (answering Msg_GrantRole_Handler);
     mkMethod "RevokeRole" (answering Msg_RevokeRole_Handler)].

(** The connection to a server with the descriptor. *)
Definition serve_msg : option (Interceptor KState) -> Conn KState := serve Msg_serviceDesc.

(** The call of a client for a message, and the id in its answer. *)
Definition client_call (cc : Conn KState) (msg : Msg) : M KState (option Z) :=
  match msg with
  | AddRegistryMsg (Some m) => r ← msgClient_AddRegistry cc m; mret (Some (resp_RegistryId r))
  | AddRecordMsg (Some m) => r ← msgClient_AddRecord cc m; mret (Some (resp_RecordId r))
  | UpdateRecordStatusMsg (Some m) => _ ← msgClient_UpdateRecordStatus cc m; mret None
  | GrantRoleMsg (Some m) => _ ← msgClient_GrantRole cc m; mret None
  | RevokeRoleMsg (Some m) => _ ← msgClient_RevokeRole cc m; mret None
  | UpdateParamsMsg m => _ ← msgClient_UpdateParams cc m; mret None
  | _ => throw ErrPanic
  end.

(** The types that [RegisterInterfaces] registers as messages. *)
Definition RegisterInterfaces : list string :=
  ["MsgUpdateParams"; "MsgAddRegistry"; "MsgAddRecord"; "MsgUpdateRecordStatus"; "MsgGrantRole"; "MsgRevokeRole"]%string.

(** A request as it arrives, executed in a transaction. *)
Definition deliver_raw (interceptor : option (Interceptor KState)) (path : string) (payload : bytes) (s : KState) :
    KState :=
  match serve_msg interceptor path payload s with
  | (Ok _, s') => s'
  | (Err _, _) => s
  end.
End service.

(** The bodies of a block, each with its context. *)
Definition deliver_raw_all {ENV : Env} {GR : Grpc} (interceptor : option (Interceptor KState)) (reqs : list (Ctx * (string * bytes)))
    (s : KState) : KState :=
  fold_left (fun s r => deliver_raw r.1 interceptor r.2.1 r.2.2 s) reqs s.

(** The message of a request: its path selects the type its payload is decoded as. *)
Definition decode_as {Req} `{Message Req} (as_msg : Req -> Msg) (payload : bytes) : option Msg :=
  match msg_Unmarshal msg_zero payload with Ok req => Some (as_msg req) | Err _ => None end.

Definition request_of (path : string) (payload : bytes) : option Msg :=
  if decide (path = "/nvnmchain.anchoring.v1.Msg/UpdateParams"%string) then decode_as UpdateParamsMsg payload
  else if decide (path = "/nvnmchain.anchoring.v1.Msg/AddRegistry"%string) then
    decode_as (fun m => AddRegistryMsg (Some m)) payload
  else if decide (path = "/nvnmchain.anchoring.v1.Msg/AddRecord"%string) then
    decode_as (fun m => AddRecordMsg (Some m)) payload
  else if decide (path = "/nvnmchain.anchoring.v1.Msg/UpdateRecordStatus"%string) then
    decode_as (fun m => UpdateRecordStatusMsg (Some m)) payload
  else if decide (path = "/nvnmchain.anchoring.v1.Msg/GrantRole"%string) then
    decode_as (fun m => GrantRoleMsg (Some m)) payload
  else if decide (path = "/nvnmchain.anchoring.v1.Msg/RevokeRole"%string) then
    decode_as (fun m => RevokeRoleMsg (Some m)) payload
  else None.

Definition message_of (req : Ctx * (string * bytes)) : option (Ctx * Msg) :=
  (fun msg => (req.1, msg)) <$> request_of req.2.1 req.2.2.

(** A message that a client can send: not nil, and in the ranges of its fields. *)
Definition sendable (msg : Msg) : Prop :=
  match msg with
  | AddRegistryMsg (Some m) => MsgAddRegistry_ok m
  | AddRecordMsg (Some m) => MsgAddRecord_ok m
  | UpdateRecordStatusMsg (Some m) => MsgUpdateRecordStatus_ok m
  | GrantRoleMsg (Some m) | RevokeRoleMsg (Some m) => MsgRole_ok m
  | UpdateParamsMsg m => MsgUpdateParams_ok m
  | _ => False
  end.

(** ** Proofs *)

Section proofs.
Context {ENV : Env} {GR : Grpc} {GL : GrpcLaws}.
Implicit Types (s : KState) (ctx : Ctx).

(** The identifiers in the answers of the two methods that assign one. *)
Lemma Msg_AddRegistry_u64 ctx req s id s' :
  ids_fit s -> Msg_AddRegistry ctx req s = (Ok id, s') -> is_u64 id.
Proof.
  intros Hs E. assert (Hs' : ids_fit s').
  { pose proof (handle_ids ctx (AddRegistryMsg req) s Hs) as Hi. cbn [handle] in Hi.
    cbv [mbind M_bind mret M_ret] in Hi. by rewrite E in Hi. }
  unfold Msg_AddRegistry in E. revert E. cbv [mbind M_bind].
  destruct (valid_request _ _ s) as [[msg|] s1]; [|done].
  destruct (decode_address _ s1) as [[sender|] s2]; [|done].
  intros E%AddRegistry_answer. by apply (if_registries _ Hs').
Qed.

Lemma Msg_AddRecord_u64 ctx req s id s' :
  ids_fit s -> Msg_AddRecord ctx req s = (Ok id, s') -> is_u64 id.
Proof.
  intros Hs E. assert (Hs' : ids_fit s').
  { pose proof (handle_ids ctx (AddRecordMsg req) s Hs) as Hi. cbn [handle] in Hi.
    cbv [mbind M_bind mret M_ret] in Hi. by rewrite E in Hi. }
  unfold Msg_AddRecord in E. revert E. cbv [mbind M_bind].
  destruct (valid_request _ _ s) as [[msg|] s1]; [|done].
  destruct (decode_address _ s1) as [[sender|] s2]; [|done].
  destruct (lift _ s2) as [[record|] s3]; [|done].
  intros [E _]%AddRecord_answer. exact (if_ids _ Hs' _ _ E).
Qed.

Lemma registry_response_ok id : is_u64 id -> MsgAddRegistryResponse_ok (mkAddRegistryResponse id).
Proof. intros Hid. split; [done|]. pose proof (size_uint_le id Hid). unfold MsgAddRegistryResponse_Size. cbn. lia. Qed.

Lemma record_response_ok id : is_u64 id -> MsgAddRecordResponse_ok (mkAddRecordResponse id).
Proof. intros Hid. split; [done|]. pose proof (size_uint_le id Hid). unfold MsgAddRecordResponse_Size. cbn. lia. Qed.

(** What the server does with arbitrary bytes at the path of a method. *)
Lemma deliver_raw_at {Req Resp A} `{Message Req} `{Wire Resp} ctx path full (m : Req -> M KState A)
    (build : A -> Resp) (read : A -> option Z) (as_msg : Req -> Msg) interceptor payload s :
  (forall payload, serve_msg ctx interceptor path payload s
     = arrived (answering (unary_handler full (fun req => a ← m req; mret (build a))) interceptor payload s)) ->
  (forall req, handle ctx (as_msg req) s = (a ← m req; mret (read a)) s) ->
  transparent interceptor ->
  (forall req a s', m req s = (Ok a, s') -> wire_ok (build a)) ->
  deliver_raw ctx interceptor path payload s
  = match decode_as as_msg payload with Some msg => deliver ctx msg s | None => s end.
Proof.
  intros Hserve Hhandle Ht Hrsp. unfold deliver_raw, decode_as. rewrite Hserve. unfold arrived, answering. cbv [mbind M_bind].
  rewrite through_interceptor by done. cbv [mbind M_bind mret M_ret lift].
  destruct (msg_Unmarshal msg_zero payload) as [req|]; [|done].
  unfold deliver. rewrite Hhandle. cbv [mbind M_bind mret M_ret].
  destruct (m req s) as [[a|e] s'] eqn:E; [|done]. by rewrite Marshal_wire by (by eapply Hrsp).
Qed.

(** A request is the delivery of the message it decodes to. *)
Lemma deliver_raw_message ctx interceptor path payload s :
  transparent interceptor -> ids_fit s ->
  deliver_raw ctx interceptor path payload s
  = match request_of path payload with Some msg => deliver ctx msg s | None => s end.
Proof.
  intros Ht Hs. unfold request_of. repeat (case_decide; [subst path|]).
  - refine (deliver_raw_at ctx _ _ Msg_UpdateParams (fun _ => mkEmptyResponse) (fun _ => None) _ _ _ _ _ _ Ht _);
      [served|done..].
  - refine (deliver_raw_at ctx _ _ (fun req => Msg_AddRegistry ctx (Some req)) mkAddRegistryResponse Some
      _ _ _ _ _ _ Ht _); [served|reflexivity|].
    intros req a s' E. apply registry_response_ok. by eapply Msg_AddRegistry_u64.
  - refine (deliver_raw_at ctx _ _ (fun req => Msg_AddRecord ctx (Some req)) mkAddRecordResponse Some
      _ _ _ _ _ _ Ht _); [served|reflexivity|].
    intros req a s' E. apply record_response_ok. by eapply Msg_AddRecord_u64.
  - refine (deliver_raw_at ctx _ _ (fun req => Msg_UpdateRecordStatus (Some req)) (fun _ => mkEmptyResponse)
      (fun _ => None) _ _ _ _ _ _ Ht _); [served|done..].
  - refine (deliver_raw_at ctx _ _ (fun req => Msg_GrantRole (Some req)) (fun _ => mkEmptyResponse)
      (fun _ => None) _ _ _ _ _ _ Ht _); [served|done..].
  - refine (deliver_raw_at ctx _ _ (fun req => Msg_RevokeRole (Some req)) (fun _ => mkEmptyResponse)
      (fun _ => None) _ _ _ _ _ _ Ht _); [served|done..].
  - unfold deliver_raw, serve_msg. destruct (serve_unknown _ (Msg_serviceDesc ctx) interceptor path payload s) as [e ->];
      [|done]. repeat constructor; intros <-; done.
Qed.

(** Every method of the service has a registered message, and every registered message a
    method. *)
Lemma registered_messages ctx :
  (fun m => String.append "Msg" (MethodName m)) <$> Methods (Msg_serviceDesc ctx) = RegisterInterfaces.
Proof. done. Qed.

(** ** Properties *)

(** C9: A client of the message service gets what the message server answers: for a
    message that can be sent and a store whose identifiers are [uint64] values, the
    call of the client over the wire, with the request and the answer encoded and
    decoded, has the result and the store of the handler run on the message; an error
    arrives as the status gRPC makes of it. *)
Theorem client_calls_handler ctx interceptor msg s :
  transparent interceptor -> sendable msg -> ids_fit s ->
  client_call (serve_msg ctx interceptor) msg s = arrived (handle ctx msg s).
Proof.
  intros Ht Hm Hs.
  destruct msg as [[m|]|[m|]|[m|]|[m|]|[m|]|m]; try done; cbn [client_call handle].
  - refine (client_of_method _ _ (fun req => Msg_AddRegistry ctx (Some req)) mkAddRegistryResponse
      (fun r => Some (resp_RegistryId r)) _ interceptor m s _ Ht Hm _); [served|].
    intros a s' E. apply registry_response_ok. by eapply Msg_AddRegistry_u64.
  - refine (client_of_method _ _ (fun req => Msg_AddRecord ctx (Some req)) mkAddRecordResponse
      (fun r => Some (resp_RecordId r)) _ interceptor m s _ Ht Hm _); [served|].
    intros a s' E. apply record_response_ok. by eapply Msg_AddRecord_u64.
  - refine (client_of_method _ _ (fun req => Msg_UpdateRecordStatus (Some req)) (fun _ => mkEmptyResponse)
      (fun _ => None) _ interceptor m s _ Ht Hm _); [served|done].
  - refine (client_of_method _ _ (fun req => Msg_GrantRole (Some req)) (fun _ => mkEmptyResponse)
      (fun _ => None) _ interceptor m s _ Ht Hm _); [served|done].
  - refine (client_of_method _ _ (fun req => Msg_RevokeRole (Some req)) (fun _ => mkEmptyResponse)
      (fun _ => None) _ interceptor m s _ Ht Hm _); [served|done].
  - refine (client_of_method _ _ Msg_UpdateParams (fun _ => mkEmptyResponse)
      (fun _ => None) _ interceptor m s _ Ht Hm _); [served|done].
Qed.

(** C10: Whatever bytes are sent to the message service, to known paths or not, what is
    executed is the messages they decode to: on a store whose identifiers are [uint64]
    values, a sequence of requests leaves the store that delivering, in the same order,
    the message of each request that has a known path and decodes leaves; the other
    requests change nothing.  So every property of the stores that messages reach holds
    of a chain that is sent arbitrary bytes. *)
Theorem raw_requests_are_messages interceptor reqs s :
  transparent interceptor -> ids_fit s ->
  deliver_raw_all interceptor reqs s = deliver_all (omap message_of reqs) s.
Proof.
  intros Ht. revert s. induction reqs as [|[ctx [path payload]] reqs IH]; intros s Hs; [done|].
  unfold deliver_raw_all. cbn [fold_left omap list_omap]. unfold message_of at 1. cbn [fst snd].
  rewrite deliver_raw_message by done. destruct (request_of path payload) as [msg|]; cbn [fmap option_fmap option_map].
  - apply IH. by apply deliver_ids.
  - by apply IH.
Qed.
End proofs.

(** ** Witnesses *)

Lemma client_calls_handler_witness :
  client_call (serve_msg Demo.ctx None) (Demo.anchor Demo.bob (bs "ipfs://3")) Demo.store
  = arrived (handle Demo.ctx (Demo.anchor Demo.bob (bs "ipfs://3")) Demo.store).
Proof.
  apply (client_calls_handler Demo.ctx None (Demo.anchor Demo.bob (bs "ipfs://3")) Demo.store).
  - exact I.
  - split; [|by vm_compute]. repeat split; by vm_compute.
  - exact demo_ids_fit.
Defined.

(** Alice creates a registry; a request to an unknown path and one that does not
    decode leave the store as it was. *)
Definition demo_requests : list (Ctx * (string * bytes)) :=
  [(Demo.ctx, ("/nvnmchain.anchoring.v1.Msg/AddRegistry"%string,
     wire (mkMsgAddRegistry (addr_to_text Demo.alice) (bs "deeds") [] [])));
   (Demo.ctx, ("/nvnmchain.anchoring.v1.Msg/DropRegistry"%string, []));
   (Demo.ctx, ("/nvnmchain.anchoring.v1.Msg/AddRecord"%string, [x0b; x0c; xff]))].

Example demo_requests_store :
  reg_Name <$> Registries (deliver_raw_all None demo_requests (genesis_store Demo.params)) !! 1
  = Some (bs "deeds").
Proof. vm_compute. reflexivity. Qed.

Lemma raw_requests_are_messages_witness :
  deliver_raw_all None demo_requests Demo.store
  = deliver_all [(Demo.ctx, AddRegistryMsg (Some (mkMsgAddRegistry (addr_to_text Demo.alice) (bs "deeds") [] [])))]
      Demo.store.
Proof. apply (raw_requests_are_messages None demo_requests Demo.store); [exact I|exact demo_ids_fit]. Defined.
