(* ===== verification/MigrateV2.v ===== *)
(** The store migration of x/anchoring from consensus version 1 to 2:
    src/x/anchoring/migrations/v2/store.go and keeper/migrations.go.

    Version 1 kept records without their registry id, and an index from registry
    names to ids.  The migration copies the id from the key of every record into
    the record and clears the index. *)

From S2P Require Import Prelude Types Rbac Keeper MsgServer.

(** The module store together with the retired index. *)
Record V1Store := mkV1 { v1_keeper : KState; registryIdByName : gmap bytes Z }.

Definition set_RegistryId (id : Z) (r : Record_) : Record_ :=
  mkRecord (rec_Uri r) (rec_Checksum r) (rec_ChecksumAlgo r) (rec_Metadata r) (rec_Timestamp r)
    (rec_Status r) (rec_RecordId r) (rec_Index r) (rec_IsLatest r) id.

Definition v1_records (s : V1Store) : gmap (Z * Z * Z) Record_ := Records (v1_keeper s).

Definition put_records (m : gmap (Z * Z * Z) Record_) (s : V1Store) : V1Store :=
  mkV1 (set_Records m (v1_keeper s)) (registryIdByName s).

(** The body of the loop over the collected keys. *)
Definition backfill (key : Z * Z * Z) : M V1Store unit :=
  record ← gets (fun s => v1_records s !! key);
  record ← lift (of_option record ErrCollNotFound);
  modify (fun s => put_records (<[key := set_RegistryId key.1.1 record]> (v1_records s)) s).

Definition MigrateStore : M V1Store unit :=
  keys ← gets (fun s => (walk (v1_records s)).*1);
  _ ← for_each backfill keys;
  modify (fun s => mkV1 (v1_keeper s) ∅).

Definition Migrate1to2 : M V1Store unit := MigrateStore.

(** ** What it leaves *)

Definition backfilled (m : gmap (Z * Z * Z) Record_) : gmap (Z * Z * Z) Record_ :=
  map_imap (fun key r => Some (set_RegistryId key.1.1 r)) m.

Lemma lookup_backfilled m key : backfilled m !! key = set_RegistryId key.1.1 <$> m !! key.
Proof. unfold backfilled. rewrite map_lookup_imap. by destruct (m !! key). Qed.

Lemma put_records_twice m m' s : put_records m (put_records m' s) = put_records m s.
Proof. done. Qed.

Lemma v1_records_put m s : v1_records (put_records m s) = m.
Proof. done. Qed.

(** The records after the loop over [keys]. *)
Definition visited (keys : list (Z * Z * Z)) (m : gmap (Z * Z * Z) Record_) : gmap (Z * Z * Z) Record_ :=
  map_imap (fun key r => Some (if bool_decide (key ∈ keys) then set_RegistryId key.1.1 r else r)) m.

Lemma backfill_present key r s : v1_records s !! key = Some r ->
  backfill key s = (Ok tt, put_records (<[key := set_RegistryId key.1.1 r]> (v1_records s)) s).
Proof. intros Hr. unfold backfill. cbv [mbind M_bind gets lift modify]. by rewrite Hr. Qed.

Lemma backfill_loop keys s :
  (forall key, key ∈ keys -> is_Some (v1_records s !! key)) ->
  for_each backfill keys s = (Ok tt, put_records (visited keys (v1_records s)) s).
Proof.
  revert s. induction keys as [|key keys IH]; intros s Hk; cbn [for_each].
  - replace (visited [] (v1_records s)) with (v1_records s); [by destruct s as [[]]|].
    apply map_eq. intros k. unfold visited. rewrite map_lookup_imap.
    destruct (v1_records s !! k); cbn; [|done]. by rewrite bool_decide_eq_false_2 by apply not_elem_of_nil.
  - destruct (Hk key) as [r Hr]; [by left|]. cbv [mbind M_bind]. rewrite (backfill_present key r) by done. rewrite IH.
    + rewrite v1_records_put, put_records_twice. do 2 f_equal. apply map_eq. intros k. unfold visited.
      rewrite !map_lookup_imap. destruct (decide (k = key)) as [->|Hne].
      * rewrite lookup_insert_eq, Hr. cbn. rewrite (bool_decide_eq_true_2 (key ∈ key :: keys)) by left.
        by destruct (bool_decide (key ∈ keys)).
      * rewrite lookup_insert_ne by done. destruct (v1_records s !! k); cbn; [|done].
        rewrite (bool_decide_ext (k ∈ key :: keys) (k ∈ keys)); [done|]. rewrite elem_of_cons. naive_solver.
    + intros k Hin. rewrite v1_records_put. destruct (decide (k = key)) as [->|Hne].
      * rewrite lookup_insert_eq. eauto.
      * rewrite lookup_insert_ne by done. apply Hk. by right.
Qed.

Lemma Migrate1to2_eq s :
  Migrate1to2 s = (Ok tt, mkV1 (set_Records (backfilled (v1_records s)) (v1_keeper s)) ∅).
Proof.
  unfold Migrate1to2, MigrateStore. cbv [mbind M_bind gets].
  assert (Hw : forall key, key ∈ (walk (v1_records s)).*1 <-> is_Some (v1_records s !! key)).
  { intros key. rewrite list_elem_of_fmap. split.
    - intros ([k r] & -> & Hin). apply elem_of_walk in Hin. by eexists.
    - intros [r Hr]. exists (key, r). split; [done|]. by apply elem_of_walk. }
  rewrite backfill_loop by (intros key; apply Hw). cbv [modify put_records]. cbn [v1_keeper].
  do 3 f_equal. unfold visited, backfilled. apply map_eq. intros k. rewrite !map_lookup_imap.
  destruct (v1_records s !! k) as [r|] eqn:Er; cbn; [|done].
  rewrite bool_decide_eq_true_2; [done|]. apply Hw. eauto.
Qed.

(** C40: The migration always succeeds, writes the registry id of the key into every
    record and nothing else of it, changes no other table, and clears the name
    index; running it again changes nothing. *)
Theorem migration_backfills s :
  let s' := mkV1 (set_Records (backfilled (v1_records s)) (v1_keeper s)) ∅ in
  Migrate1to2 s = (Ok tt, s') /\ Migrate1to2 s' = (Ok tt, s') /\
  (forall key, v1_records s' !! key = set_RegistryId key.1.1 <$> v1_records s !! key) /\
  (forall key r, v1_records s' !! key = Some r -> rec_RegistryId r = key.1.1).
Proof.
  cbn zeta. pose proof Migrate1to2_eq as E.
  split; [apply E|]. split; [|split].
  - rewrite E. unfold v1_records. cbn [v1_keeper set_Records Records]. do 2 f_equal. unfold set_Records. cbn. f_equal. apply map_eq. intros k. rewrite !lookup_backfilled.
    by destruct (Records (v1_keeper s) !! k).
  - intros key. apply lookup_backfilled.
  - intros key r. cbn. rewrite lookup_backfilled. intros (r' & _ & ->)%fmap_Some. done.
Qed.
