(* ===== verification/Native.v ===== *)
(** The frame of a precompile call: [RunNativeAction] of src/precompiles/common.go
    and [Run] of src/x/anchoring/precompile/anchoring.go.

    The frame takes the cached context of the StateDB, journals a snapshot for the
    EVM to revert to, runs the action against a gas meter limited by the gas of the
    contract, and charges the contract what the action consumed.  The StateDB, the
    gas meter and the contract's gas are library objects: what the frame calls of
    them are parameters. *)

From S2P Require Import Prelude Types Concrete Rbac Keeper MsgServer Spec Refine Ledger NameIndex Query EvmLayout Abi AbiAnchoring AbiConcrete AbiCalls Precompile PrecompileSafety.

(** The panic of an exhausted gas meter, and the error the EVM reports for it. *)
Definition ErrorOutOfGas : err := ErrPlain "gas meter exhausted".
Definition ErrOutOfGas : err := ErrPlain "out of gas".
Definition ErrNotRunInEvm : err := ErrPlain "not run in EVM".

#[export] Instance err_eq_dec : EqDecision err.
Proof. solve_decision. Defined.

(** [meter_ConsumeGas limit amount] is [ConsumeGas] of [NewGasMeter(limit)],
    [UseGas gas cost] the remaining gas of the contract, if it has enough, and
    [HandleGasError gas] the gas the deferred handler leaves after a panic. *)
Class GasLib := {
  meter_ConsumeGas : Z -> Z -> M Z unit;
  UseGas : Z -> Z -> option Z;
  HandleGasError : Z -> Z
}.

Class GasLaws `{GasLib} := {
  ConsumeGas_spec : forall limit amount consumed, 0 <= amount -> 0 <= consumed ->
    if consumed + amount <=? limit then meter_ConsumeGas limit amount consumed = (Ok tt, consumed + amount)
    else (meter_ConsumeGas limit amount consumed).1 = Err ErrorOutOfGas;
  UseGas_spec : forall gas cost, UseGas gas cost = if cost <=? gas then Some (gas - cost) else None;
  HandleGasError_le : forall gas, 0 <= gas -> 0 <= HandleGasError gas <= gas
}.

(** What the frame reads of the EVM: whether its StateDB is the one of cosmos/evm,
    and the results of [GetCacheContext] (the gas its meter has counted),
    [AddPrecompileFn] and [FlushToCacheCtx]. *)
Record NativeEnv := mkNative {
  ne_StateDB : bool;
  ne_GetCacheContext : result Z;
  ne_AddPrecompileFn : result unit;
  ne_FlushToCacheCtx : result unit
}.

(** The call's state, the snapshots in the journal, the gas of the contract. *)
Record NState := mkN { n_state : PState; n_journal : list PState; n_gas : Z }.

Definition with_gas (g : Z) (s : PState) : PState := mkPS (ps_store s) (ps_logs s) g.

Section native.
Context {GAS : GasLib}.

(** The action under its meter, and the charge. *)
Definition run_action (initialGas : Z) (action : Z -> PState -> Returned * PState) (st : NState) :
    Returned * NState :=
  let s := n_state st in
  let limit := n_gas st in
  match meter_ConsumeGas limit initialGas 0 with
  | (Err _, _) => (mkReturned [] (Some ErrOutOfGas), mkN s (n_journal st) (HandleGasError limit))
  | (Ok _, consumed) =>
      let '(out, s') := action limit (with_gas consumed s) in
      let back := with_gas (ps_gas s) s' in
      if bool_decide (rt_err out = Some ErrorOutOfGas)
      then (mkReturned [] (Some ErrOutOfGas), mkN back (n_journal st) (HandleGasError limit))
      else match rt_err out with
      | Some e => (out, mkN back (n_journal st) limit)
      | None =>
          let cost := wrap64 (ps_gas s' - initialGas) in
          match UseGas limit cost with
          | None => (mkReturned [] (Some ErrOutOfGas), mkN back (n_journal st) limit)
          | Some gas => (out, mkN back (n_journal st) gas)
          end
      end
  end.

Definition RunNativeAction (env : NativeEnv) (action : Z -> PState -> Returned * PState) (st : NState) :
    Returned * NState :=
  let fail e st := (mkReturned [] (Some e), st) in
  if negb (ne_StateDB env) then fail ErrNotRunInEvm st else
  match ne_GetCacheContext env with
  | Err e => fail e st
  | Ok initialGas =>
      let snapshot := n_state st in
      match ne_AddPrecompileFn env with
      | Err e => fail e st
      | Ok _ =>
          let st := mkN (n_state st) (n_journal st ++ [snapshot]) (n_gas st) in
          match ne_FlushToCacheCtx env with
          | Err e => fail e st
          | Ok _ => run_action initialGas action st
          end
      end
  end.
End native.

(** The libraries of a call whose context has the meter [consume]. *)
Definition with_meter (EVM : EvmLib) (consume : Z -> M Z unit) : EvmLib := {|
  ParseDelegation := @ParseDelegation EVM;
  RevertReasonBytes := @RevertReasonBytes EVM;
  ReadCostFlat := @ReadCostFlat EVM;
  ReadCostPerByte := @ReadCostPerByte EVM;
  ConsumeGas := consume;
  base_RequiredGas := @base_RequiredGas EVM
|}.

Section run.
Context {ENV : Env} {LIB : AbiLib} {EVM : EvmLib} {SQ : SQL} {GAS : GasLib}.
Context (index : option DB).
Context (CollectionPaginate : list (Z * Registry) -> PageRequest -> result (list Registry * PageResponse)).

(** [Precompile.Run] *)
Definition Precompile_Run (env : NativeEnv) ctx db contract readOnly origin (st : NState) : Returned * NState :=
  RunNativeAction env (fun limit s =>
    Execute (EVM := with_meter EVM (meter_ConsumeGas limit)) index CollectionPaginate ctx (Some db) (Some contract)
      readOnly origin s) st.
End run.

(** ** The meter *)

Section metered.
Context {ENV : Env} {LIB : AbiLib} {EVM : EvmLib} {SQ : SQL} {GAS : GasLib} {LAWS : GasLaws}.
Context (limit : Z).

(** A step moves the meter forward and not past the limit, or exhausts it. *)
Definition moves (s : PState) (e : option err) (s' : PState) : Prop :=
  e = Some ErrorOutOfGas \/ (ps_gas s <= ps_gas s' /\ (ps_gas s <= limit -> ps_gas s' <= limit)).

Definition err_of {A} (r : result A) : option err := match r with Ok _ => None | Err e => Some e end.

Definition metered {A} (m : M PState A) : Prop :=
  forall s, 0 <= ps_gas s -> moves s (err_of (m s).1) (m s).2.

Lemma moves_refl s e : moves s e s.
Proof. right. lia. Qed.

Lemma metered_lift {A} (r : result A) : metered (lift r).
Proof. intros s _. apply moves_refl. Qed.

Lemma metered_ret {A} (a : A) : metered (mret a).
Proof. intros s _. apply moves_refl. Qed.

Lemma metered_bind {A B} (m : M PState A) (f : A -> M PState B) :
  metered m -> (forall a, metered (f a)) -> metered (m ≫= f).
Proof.
  intros Hm Hf s Hs. specialize (Hm s Hs). cbv [mbind M_bind].
  destruct (m s) as [[a|e] s1]; cbn [fst snd err_of] in *; [|done].
  destruct Hm as [|[H1 H2]]; [done|]. specialize (Hf a s1 ltac:(lia)).
  destruct Hf as [|[H3 H4]]; [by left|right]. split; [lia|auto].
Qed.

Lemma metered_keeper {A} (m : M KState A) : metered (in_keeper m).
Proof. intros s Hs. unfold in_keeper, zoom. destruct (m (ps_store s)). right. cbn. lia. Qed.

Lemma metered_modify f : (forall s, ps_gas (f s) = ps_gas s) -> metered (modify f).
Proof. intros Hf s Hs. right. cbn. rewrite Hf. lia. Qed.

Lemma metered_ask {A} (query : KState -> result A) : metered (ask query).
Proof. intros s Hs. rewrite ask_state. apply moves_refl. Qed.

Lemma metered_consume amount : 0 <= amount -> metered (in_meter (meter_ConsumeGas limit amount)).
Proof.
  intros Ha s Hs. unfold in_meter, zoom. pose proof (ConsumeGas_spec limit amount (ps_gas s) Ha Hs) as Hc.
  destruct (Z.leb_spec (ps_gas s + amount) limit).
  - rewrite Hc. right. cbn. lia.
  - destruct (meter_ConsumeGas limit amount (ps_gas s)) as [r g]. cbn in Hc. subst r. by left.
Qed.

Lemma metered_each {A} (f : A -> M PState unit) l : (forall x, metered (f x)) -> metered (for_each f l).
Proof.
  intros Hf. induction l as [|x l IH]; cbn [for_each]; [apply metered_ret|].
  apply metered_bind; [apply Hf|done].
Qed.

#[local] Instance limited : EvmLib := with_meter EVM (meter_ConsumeGas limit).

Lemma metered_emit ctx stateDB ev : metered (emitEvent ctx stateDB ev).
Proof.
  unfold emitEvent. destruct stateDB; [|apply metered_ret].
  apply metered_bind; [apply metered_lift|intros [topics data]]. by apply metered_modify.
Qed.

#[local] Hint Resolve metered_lift metered_ret metered_keeper metered_ask metered_emit : nvnm.

Ltac metered :=
  repeat first
    [ simple apply metered_bind; [|intros ?]
    | solve [eauto with nvnm] ].

Lemma metered_charge regs : metered (chargeIndexReadGas (EVM := limited) regs).
Proof.
  unfold chargeIndexReadGas. apply metered_each. intros reg. apply metered_consume.
  apply Z.mod_pos_bound. done.
Qed.

Lemma metered_AddRegistry ctx stateDB c a : metered (Precompile_AddRegistry ctx stateDB c a).
Proof. unfold Precompile_AddRegistry, address_text, emitAddRegistryEvent. metered. Qed.

Lemma metered_AddRecord ctx stateDB c a : metered (Precompile_AddRecord ctx stateDB c a).
Proof. unfold Precompile_AddRecord, address_text, emitAddRecordEvent. metered. Qed.

Lemma metered_UpdateRecordStatus ctx stateDB c a : metered (Precompile_UpdateRecordStatus ctx stateDB c a).
Proof. unfold Precompile_UpdateRecordStatus, address_text, emitUpdateRecordStatusEvent. metered. Qed.

Lemma metered_GrantRole ctx stateDB c a : metered (Precompile_GrantRole ctx stateDB c a).
Proof. unfold Precompile_GrantRole, address_text, emitGrantRoleEvent. metered. Qed.

Lemma metered_RevokeRole ctx stateDB c a : metered (Precompile_RevokeRole ctx stateDB c a).
Proof. unfold Precompile_RevokeRole, address_text, emitRevokeRoleEvent. metered. Qed.

Lemma metered_Records a : metered (Precompile_Records a).
Proof. unfold Precompile_Records. metered. Qed.

Lemma metered_Registries paginate a : metered (Precompile_Registries paginate a).
Proof. unfold Precompile_Registries. metered. Qed.

Lemma metered_RegistriesByName index a : metered (Precompile_RegistriesByName index a).
Proof. unfold Precompile_RegistriesByName. metered. apply metered_charge. Qed.

Lemma metered_Run {I O} decode encode (fn : I -> M PState O) input s : (forall a, metered (fn a)) -> 0 <= ps_gas s ->
  let '(out, s') := returned (Run decode encode fn input s) in moves s (rt_err out) s'.
Proof.
  intros Hf Hs. assert (Hm : metered (Run decode encode fn input)).
  { unfold Run. apply metered_bind; [apply metered_lift|]. intros [arg n].
    apply metered_bind; [apply Hf|]. intros out. apply metered_lift. }
  specialize (Hm s Hs). by destruct (Run decode encode fn input s) as [[bz|e] s'].
Qed.

Lemma metered_dispatch index paginate ctx stateDB c origin id input s : 0 <= ps_gas s ->
  let '(out, s') := dispatch index paginate ctx stateDB c origin id input s in moves s (rt_err out) s'.
Proof.
  intros Hs. unfold dispatch.
  destruct (id =? AddRegistryID); [apply metered_Run; [apply metered_AddRegistry|done]|].
  destruct (id =? AddRecordID); [apply metered_Run; [apply metered_AddRecord|done]|].
  destruct (id =? UpdateRecordStatusID); [apply metered_Run; [apply metered_UpdateRecordStatus|done]|].
  destruct (id =? RecordsID); [apply metered_Run; [apply metered_Records|done]|].
  destruct (id =? RegistriesID); [apply metered_Run; [apply metered_Registries|done]|].
  destruct (id =? RegistriesByNameID).
  { destruct (registriesByNameGate _ _ _ _ _); [|apply moves_refl].
    apply metered_Run; [apply metered_RegistriesByName|done]. }
  destruct (id =? GrantRoleID); [apply metered_Run; [apply metered_GrantRole|done]|].
  destruct (id =? RevokeRoleID); [apply metered_Run; [apply metered_RevokeRole|done]|apply moves_refl].
Qed.

Lemma metered_Execute index paginate ctx stateDB contract readOnly origin s : 0 <= ps_gas s ->
  let '(out, s') := Execute index paginate ctx stateDB contract readOnly origin s in moves s (rt_err out) s'.
Proof.
  intros Hs. unfold Execute. destruct contract as [c|]; [|apply moves_refl].
  destruct (ParseMethod _ _ _) as [[id input]|]; [|apply moves_refl].
  destruct (ensureNoValue _); [|apply moves_refl].
  destruct (if IsTransactionID id then _ else _); [|apply moves_refl]. by apply metered_dispatch.
Qed.
End metered.

(** ** The frame *)

Section frame.
Context {ENV : Env} {LIB : AbiLib} {EVM : EvmLib} {SQ : SQL} {GAS : GasLib} {LAWS : GasLaws}.
Context (index : option DB).
Context (CollectionPaginate : list (Z * Registry) -> PageRequest -> result (list Registry * PageResponse)).

(** C13: A call through the frame journals the state it starts from before it runs,
    so that the EVM can revert it.  When [Execute], metered by the gas of the
    contract, succeeds, its output and state are the call's, and the contract pays
    exactly the gas consumed beyond what was already counted, which never exceeds
    what it has; when it fails, the call fails and the contract gains no gas. *)
Theorem run_charges_gas env ctx db c readOnly origin st g :
  ne_StateDB env = true -> ne_GetCacheContext env = Ok g -> ne_AddPrecompileFn env = Ok tt ->
  ne_FlushToCacheCtx env = Ok tt -> 0 <= g <= n_gas st -> is_u64 (n_gas st) ->
  let '(out, st') := Precompile_Run index CollectionPaginate env ctx db c readOnly origin st in
  let '(res, s') := Execute (EVM := with_meter EVM (meter_ConsumeGas (n_gas st))) index CollectionPaginate ctx
                      (Some db) (Some c) readOnly origin (with_gas g (n_state st)) in
  n_journal st' = n_journal st ++ [n_state st] /\
  match rt_err res with
  | None => out = res /\ n_state st' = with_gas (ps_gas (n_state st)) s' /\
      g <= ps_gas s' <= n_gas st /\ n_gas st' = n_gas st - (ps_gas s' - g)
  | Some _ => is_Some (rt_err out) /\ 0 <= n_gas st' <= n_gas st
  end.
Proof.
  intros Hdb Hctx Hadd Hflush Hg Hu. unfold Precompile_Run, RunNativeAction.
  rewrite Hdb, Hctx, Hadd, Hflush. cbn [negb]. unfold run_action. cbn [n_state n_gas n_journal].
  pose proof (ConsumeGas_spec (n_gas st) g 0 ltac:(lia) ltac:(lia)) as Hc.
  rewrite Z.add_0_l, (proj2 (Z.leb_le _ _)) in Hc by lia. rewrite Hc.
  pose proof (metered_Execute (n_gas st) index CollectionPaginate ctx (Some db) (Some c) readOnly origin
    (with_gas g (n_state st)) ltac:(cbn; lia)) as Hm. unfold limited in Hm.
  destruct (Execute _ _ _ _ _ _ _ _) as [res s']. unfold moves in Hm. cbn [with_gas ps_gas] in Hm.
  pose proof (HandleGasError_le (n_gas st) ltac:(lia)) as Hh.
  case_bool_decide as He.
  { rewrite He. cbn. split; [done|]. split; [by eexists|done]. }
  destruct (rt_err res) as [e|] eqn:Er; cbn.
  { split; [done|]. split; [by eexists|lia]. }
  destruct Hm as [|[H1 H2]]; [done|]. specialize (H2 ltac:(lia)).
  unfold wrap64. rewrite Z.mod_small by (unfold is_u64 in Hu; lia).
  rewrite UseGas_spec, (proj2 (Z.leb_le _ _)) by lia. cbn. done.
Qed.
End frame.

(** ** Witness *)

#[export] Instance concrete_gas : GasLib := {|
  meter_ConsumeGas := fun limit amount consumed =>
    if consumed + amount <=? limit then (Ok tt, consumed + amount) else (Err ErrorOutOfGas, consumed + amount);
  UseGas := fun gas cost => if cost <=? gas then Some (gas - cost) else None;
  HandleGasError := fun gas => gas
|}.

#[export] Instance concrete_gas_laws : GasLaws.
Proof.
  split; cbn; [|done|lia]. intros limit amount consumed _ _.
  by destruct (consumed + amount <=? limit).
Qed.

Module DemoNative.
Definition env : NativeEnv := mkNative true (Ok 100) (Ok tt) (Ok tt).

(** A node that answers by name: one registry in the index. *)
Definition index : option DB := Some (index_row <$> Registries Demo.store).

Definition query_ctx : Ctx := mkCtx (BlockTimeString Demo.ctx) 10 true.

Definition by_name : AbiCall :=
  RegistriesByNameCall (mkABIRegistriesByNameCall (bs "deeds") 1 DemoEvm.lookup_page).

Definition start : NState := mkN DemoEvm.start [] 100000.

Definition metered_run : Returned * PState :=
  Execute (EVM := with_meter concrete_evm (meter_ConsumeGas (n_gas start))) index DemoEvm.paginate query_ctx
    (Some DemoEvm.db) (Some (DemoEvm.from_bob by_name)) true Demo.bob (with_gas 100 (n_state start)).
End DemoNative.

Example answered_by_name : rt_err DemoNative.metered_run.1 = None /\ 100 < ps_gas DemoNative.metered_run.2.
Proof. vm_compute. done. Qed.

Lemma run_charges_gas_witness :
  let '(out, st') := Precompile_Run DemoNative.index DemoEvm.paginate DemoNative.env DemoNative.query_ctx DemoEvm.db
                       (DemoEvm.from_bob DemoNative.by_name) true Demo.bob DemoNative.start in
  let '(res, s') := DemoNative.metered_run in
  n_journal st' = n_journal DemoNative.start ++ [n_state DemoNative.start] /\ out = res /\
  n_gas st' = n_gas DemoNative.start - (ps_gas s' - 100).
Proof.
  pose proof (run_charges_gas DemoNative.index DemoEvm.paginate DemoNative.env DemoNative.query_ctx DemoEvm.db
    (DemoEvm.from_bob DemoNative.by_name) true Demo.bob DemoNative.start 100 eq_refl eq_refl eq_refl eq_refl
    ltac:(cbn; lia) ltac:(unfold is_u64, two64; cbn; lia)) as H.
  pose proof (proj1 answered_by_name) as He. fold DemoNative.metered_run in H.
  destruct (Precompile_Run _ _ _ _ _ _ _ _ _) as [out st']. destruct DemoNative.metered_run as [res s'].
  cbn [fst] in He. rewrite He in H. destruct H as (Hj & Ho & _ & _ & Hg).
  split; [exact Hj|]. split; [exact Ho|exact Hg].
Defined.
