(* ===== verification/EvmTrace.v ===== *)
(** Everything the EVM can do to x/anchoring is a message: a call with any input, by
    any caller, leaves the store alone or leaves what a message signed by the
    transaction's origin leaves, so that chains whose blocks mix messages and EVM
    calls reach only the states that messages reach. *)

From S2P Require Import Prelude Types Concrete Rbac Keeper MsgServer Spec Refine Ledger Access NameIndex Query EvmLayout Abi AbiAnchoring AbiConcrete AbiCalls Precompile PrecompileSafety PrecompileDeliver.

Section trace.
Context {ENV : Env} {LIB : AbiLib} {EVM : EvmLib} {SQ : SQL}.
Context (index : option DB).
Context (CollectionPaginate : list (Z * Registry) -> PageRequest -> result (list Registry * PageResponse)).
Implicit Types (s : PState) (ctx : Ctx).

(** ** One call *)

(** A successful run ends in the store of a message signed by [caller]. *)
Definition runs_message ctx (caller : bytes) {A} (m : M PState A) : Prop :=
  forall s a s', m s = (Ok a, s') -> exists msg ans,
    BytesToString caller = Some (msg_signer msg) /\ handle ctx msg (ps_store s) = (Ok ans, ps_store s').

Lemma emitEvent_store ctx stateDB ev s : ps_store (emitEvent ctx stateDB ev s).2 = ps_store s.
Proof.
  unfold emitEvent. destruct stateDB; [|done]. cbv [mbind M_bind lift].
  by destruct (EncodeEvent _ _) as [[topics data]|].
Qed.

(** A method: the handler, then a step that leaves the store. *)
Lemma handler_then ctx caller {A B} (handler : M KState A) (after : A -> M PState B) msg :
  BytesToString caller = Some (msg_signer msg) ->
  (forall s a k, handler (ps_store s) = (Ok a, k) -> exists ans, handle ctx msg (ps_store s) = (Ok ans, k)) ->
  (forall a s, ps_store (after a s).2 = ps_store s) ->
  runs_message ctx caller (a ← in_keeper handler; after a).
Proof.
  intros Hs Hh Ha s b s' E. unfold in_keeper, zoom in E. cbv [mbind M_bind] in E.
  destruct (handler (ps_store s)) as [[a|e] k] eqn:Ek; [|done].
  destruct (Hh s a k Ek) as [ans Hans]. exists msg, ans. split; [done|].
  specialize (Ha a (mkPS k (ps_logs s) (ps_gas s))). rewrite E in Ha. cbn in Ha. by rewrite Ha.
Qed.

(** [address_text] before the handler. *)
Lemma text_then ctx caller {B} (a : bytes) (f : bytes -> M PState B) :
  (forall t, BytesToString a = Some t -> runs_message ctx caller (f t)) ->
  runs_message ctx caller (t ← address_text a; f t).
Proof.
  intros Hf s b s' E. unfold address_text in E. cbv [mbind M_bind lift of_option] in E.
  destruct (BytesToString a) as [t|]; [|done]. by apply (Hf t eq_refl s b s').
Qed.

Section methods.
Context (ctx : Ctx) (stateDB : option StateDB) (c : Contract).
Abbreviation messages := (runs_message ctx (ct_Caller c)).

(** The handler of the method is the one its message is dispatched to. *)
Ltac handled := let E := fresh in intros ? ? ? E; cbn [handle]; cbv [mbind M_bind]; rewrite E; by eexists.

Lemma AddRegistry_runs arg : messages (Precompile_AddRegistry ctx stateDB c arg).
Proof.
  unfold Precompile_AddRegistry. apply text_then. intros t Ht.
  eapply (handler_then _ _ _ _ (AddRegistryMsg (Some (mkMsgAddRegistry t _ _ _)))); [exact Ht| |].
  - handled.
  - intros a s. unfold emitAddRegistryEvent. cbv [mbind M_bind].
    pose proof (emitEvent_store ctx stateDB (NewAddRegistryEvent (ct_Caller c) a (agc_Name arg)) s) as Hs.
    by destruct (emitEvent _ _ _ s) as [[]].
Qed.

Lemma AddRecord_runs arg : messages (Precompile_AddRecord ctx stateDB c arg).
Proof.
  unfold Precompile_AddRecord. apply text_then. intros t Ht.
  eapply (handler_then _ _ _ _ (AddRecordMsg (Some (mkMsgAddRecord t _)))); [exact Ht| |].
  - handled.
  - intros a s. unfold emitAddRecordEvent. cbv [mbind M_bind in_keeper zoom gets lift].
    destruct (of_option _ _) as [i|]; [|done].
    match goal with |- context [emitEvent ctx stateDB ?ev ?st] => pose proof (emitEvent_store ctx stateDB ev st) as Hs;
      by destruct (emitEvent ctx stateDB ev st) as [[]] end.
Qed.

Lemma UpdateRecordStatus_runs arg : messages (Precompile_UpdateRecordStatus ctx stateDB c arg).
Proof.
  unfold Precompile_UpdateRecordStatus. apply text_then. intros t Ht.
  eapply (handler_then _ _ _ _ (UpdateRecordStatusMsg (Some (mkMsgUpdateRecordStatus t _ _ _ _)))); [exact Ht| |].
  - handled.
  - intros a s. apply emitEvent_store.
Qed.

Lemma GrantRole_runs arg : messages (Precompile_GrantRole ctx stateDB c arg).
Proof.
  unfold Precompile_GrantRole. apply text_then. intros t Ht. apply text_then. intros t' _.
  eapply (handler_then _ _ _ _ (GrantRoleMsg (Some (mkMsgRole t _ _ _ _)))); [exact Ht| |].
  - handled.
  - intros a s. apply emitEvent_store.
Qed.

Lemma RevokeRole_runs arg : messages (Precompile_RevokeRole ctx stateDB c arg).
Proof.
  unfold Precompile_RevokeRole. destruct (is_empty (rrc_Role arg)); [done|].
  change (runs_message ctx (ct_Caller c) (admin ← address_text (ct_Caller c); address ← address_text (rrc_Account arg);
    let msg := mkMsgRole admin (rrc_RegistryId arg) (rrc_Checksum arg) address (rrc_Role arg) in
    _ ← in_keeper (Msg_RevokeRole (Some msg));
    emitRevokeRoleEvent ctx stateDB (ct_Caller c) (rrc_RegistryId arg) (rrc_Checksum arg)
      (rrc_Account arg) (rrc_Role arg))).
  apply text_then. intros t Ht. apply text_then. intros t' _.
  eapply (handler_then _ _ _ _ (RevokeRoleMsg (Some (mkMsgRole t _ _ _ _)))); [exact Ht| |].
  - handled.
  - intros a s. apply emitEvent_store.
Qed.

Lemma Run_runs {I O} decode encode (fn : I -> M PState O) input : (forall a, messages (fn a)) ->
  messages (Run decode encode fn input).
Proof.
  intros Hf s b s' E. unfold Run in E. cbv [mbind M_bind lift] in E.
  destruct (decode input) as [[arg n]|]; [|done]. destruct (fn arg s) as [[out|] s1] eqn:Ef; [|done].
  destruct (encode out); [|done]. injection E as _ <-. by apply (Hf arg s out s1).
Qed.
End methods.

Lemma tx_dispatch_runs ctx stateDB c origin id input s out s' : IsTransactionID id = true ->
  dispatch index CollectionPaginate ctx stateDB c origin id input s = (out, s') -> rt_err out = None ->
  exists msg ans, BytesToString (ct_Caller c) = Some (msg_signer msg) /\
  handle ctx msg (ps_store s) = (Ok ans, ps_store s').
Proof.
  assert (Hret : forall (m : M PState bytes), runs_message ctx (ct_Caller c) m ->
    returned (m s) = (out, s') -> rt_err out = None -> exists msg ans,
    BytesToString (ct_Caller c) = Some (msg_signer msg) /\ handle ctx msg (ps_store s) = (Ok ans, ps_store s')).
  { intros m Hm Er Ho. unfold returned in Er. destruct (m s) as [[bz|e] s1] eqn:E; injection Er as <- <-; [|done].
    by apply (Hm s bz s1). }
  unfold IsTransactionID. intros Ht Ed Ho. unfold dispatch in Ed.
  destruct (id =? AddRegistryID) eqn:E1; [by eapply Hret; [apply Run_runs, AddRegistry_runs|..]|].
  destruct (id =? AddRecordID) eqn:E2; [by eapply Hret; [apply Run_runs, AddRecord_runs|..]|].
  destruct (id =? UpdateRecordStatusID) eqn:E3; [by eapply Hret; [apply Run_runs, UpdateRecordStatus_runs|..]|].
  destruct (id =? GrantRoleID) eqn:E4.
  { apply Z.eqb_eq in E4 as ->. cbn in Ed. by eapply Hret; [apply Run_runs, GrantRole_runs|..]. }
  destruct (id =? RevokeRoleID) eqn:E5; [|done].
  apply Z.eqb_eq in E5 as ->. cbn in Ed. by eapply Hret; [apply Run_runs, RevokeRole_runs|..].
Qed.

Lemma evm_call_message ctx stateDB contract readOnly origin s :
  let s' := (evm_call index CollectionPaginate ctx stateDB contract readOnly origin s).2 in
  ps_store s' = ps_store s \/
  exists msg, BytesToString origin = Some (msg_signer msg) /\ ps_store s' = deliver ctx msg (ps_store s).
Proof.
  cbn zeta. unfold evm_call, Execute. destruct contract as [c|]; [|by left].
  destruct (ParseMethod _ _ _) as [[id input]|]; [|by left]. destruct (ensureNoValue _) as [u|]; [|by left].
  destruct (IsTransactionID id) eqn:Et.
  - destruct (ensureEOACaller stateDB (Some c) (methodName id) origin) as [u'|] eqn:Ee; [|by left].
    assert (Hd : direct_call stateDB c origin) by (by apply (ensureEOACaller_spec _ _ (methodName id)); exists u').
    destruct (dispatch _ _ _ _ _ _ _ _ s) as [out s'] eqn:Ed. destruct (rt_err out) eqn:Eo; [by left|]. right.
    destruct (tx_dispatch_runs _ _ _ _ _ _ _ _ _ Et Ed Eo) as (msg & ans & Hs & Hh).
    exists msg. rewrite <- (dc_caller _ _ _ Hd). split; [done|]. unfold deliver. by rewrite Hh.
  - left. pose proof (query_dispatch_unwritten CollectionPaginate index ctx stateDB c origin id input s Et) as [Hq _].
    destruct (dispatch _ _ _ _ _ _ _ _ s) as [out s']. by destruct (rt_err out).
Qed.

(** ** Traces *)

(** A step of a block: a message, or a call of the precompile by the EVM in a
    transaction of [origin]. *)
Inductive Step :=
| MessageStep (ctx : Ctx) (msg : Msg)
| CallStep (ctx : Ctx) (stateDB : option StateDB) (contract : option Contract) (readOnly : bool) (origin : bytes).

Definition take_step (s : PState) (step : Step) : PState :=
  match step with
  | MessageStep ctx msg => mkPS (deliver ctx msg (ps_store s)) (ps_logs s) (ps_gas s)
  | CallStep ctx stateDB contract readOnly origin =>
      (evm_call index CollectionPaginate ctx stateDB contract readOnly origin s).2
  end.

(** The transaction [tx] accounts for a step: the same message, or a message of the
    same block signed by the origin of the call. *)
Definition accounts_for (step : Step) (tx : Ctx * Msg) : Prop :=
  match step with
  | MessageStep ctx msg => tx = (ctx, msg)
  | CallStep ctx _ _ _ origin => tx.1 = ctx /\ BytesToString origin = Some (msg_signer tx.2)
  end.

(** C11: A chain whose blocks mix messages and EVM calls, the calls with any input and
    by any caller, reaches only stores that messages reach: there is a sequence of
    messages, each one a message of the chain or signed by the origin of one of its
    calls, that leaves the same store. *)
Theorem mixed_traces_are_message_traces steps s :
  exists txs, ps_store (fold_left take_step steps s) = deliver_all txs (ps_store s) /\
  Forall (fun tx => exists step, step ∈ steps /\ accounts_for step tx) txs.
Proof.
  revert s. induction steps as [|step steps IH]; intros s; cbn [fold_left].
  { exists []. by split; [|constructor]. }
  destruct (IH (take_step s step)) as (txs & Hs & Ha).
  assert (Ha' : Forall (fun tx => exists st, st ∈ step :: steps /\ accounts_for st tx) txs).
  { eapply Forall_impl; [exact Ha|]. intros tx (st & Hin & Hst). exists st. split; [by right|done]. }
  destruct step as [ctx msg|ctx stateDB contract readOnly origin].
  - exists ((ctx, msg) :: txs). rewrite Hs. split; [done|]. constructor; [|done]. eexists. split; [by left|done].
  - destruct (evm_call_message ctx stateDB contract readOnly origin s) as [Hsame|(msg & Hsig & Hd)].
    + exists txs. rewrite Hs. cbn [take_step]. by rewrite Hsame.
    + exists ((ctx, msg) :: txs). rewrite Hs. cbn [take_step]. rewrite Hd. split; [done|]. constructor; [|done].
      eexists. split; [by left|]. by split.
Qed.
End trace.
