(* ===== verification/App.v ===== *)
(** The accounts of the application: src/app/app.go ([maccPerms], [GetMaccPerms],
    [BlockedAddresses], [blockUserSendsToCCVRewardsBuffer], [isIBCRefundTx]) and
    src/app/precompiles.go.

    The application tells the bank module which addresses may not receive coins
    from users, and restricts the transfers to the one module account it has to
    leave open: the buffer of the rewards sent to the provider chain. *)

From S2P Require Import Prelude Types Concrete Precompile.

(** ** Modules and module accounts *)

(** The names of the modules and of the module accounts, constants of their
    packages. *)
Inductive ModuleName :=
| AuthModule | BankModule | DistrModule | StakingModule | SlashingModule | GovModule | MintModule
| EvidenceModule | FeegrantModule | NftModule | ParamsModule | UpgradeModule | VestingModule
| ConsensusparamModule | CircuitModule | GenutilModule
| IbcModule | IbctransferModule | IbctmModule | RatelimitModule | TaxModule | ConsumerModule | AnchoringModule
| EvmModule | FeemarketModule | Erc20Module
| FeeCollectorName | BondedPoolName | NotBondedPoolName
| ConsumerRedistributeName | ConsumerToSendToProviderName.

#[export] Instance ModuleName_eq_dec : EqDecision ModuleName.
Proof. solve_decision. Defined.

Inductive Permission := Minter | Burner | Staking.

(** Module account permissions. *)
Definition maccPerms : list (ModuleName * list Permission) :=
  [(FeeCollectorName, []);
   (DistrModule, []);
   (MintModule, [Minter]);
   (BondedPoolName, [Burner; Staking]);
   (NotBondedPoolName, [Burner; Staking]);
   (GovModule, [Burner]);
   (NftModule, []);
   (IbctransferModule, [Minter; Burner]);
   (RatelimitModule, []);
   (TaxModule, []);
   (EvmModule, [Minter; Burner]);
   (FeemarketModule, []);
   (Erc20Module, [Minter; Burner]);
   (ConsumerRedistributeName, []);
   (ConsumerToSendToProviderName, []);
   (AnchoringModule, [])].

(** A copy of the module account permissions. *)
Definition GetMaccPerms : list (ModuleName * list Permission) :=
  fold_left (fun dupMaccPerms '(k, v) => dupMaccPerms ++ [(k, v)]) maccPerms [].

(** ** Libraries *)

(** The messages [isIBCRefundTx] tells apart. *)
Inductive IBCMsg :=
| MsgTimeout | MsgTimeoutOnClose | MsgAcknowledgement
| V2_MsgTimeout | V2_MsgAcknowledgement
| MsgUpdateClient
| MsgRecvPacket | V2_MsgRecvPacket
| OtherMsg (typeURL : bytes).

(** What the application calls of the SDK, cosmos/evm and go-ethereum. *)
Class AppLib := {
  name_text : ModuleName -> bytes;
  NewModuleAddress : bytes -> bytes;
  HexToAddress : bytes -> bytes;
  Address_Hex : bytes -> bytes;
  Bech32StringFromHexAddress : bytes -> bytes;
  AvailableStaticPrecompiles : list bytes;
  PrecompiledAddressesPrague : list bytes;
  DefaultStaticPrecompiles : list bytes;
  StakingPrecompileAddress : bytes;
  DistributionPrecompileAddress : bytes;
  TxDecoder : bytes -> result (list IBCMsg)
}.

(** The module accounts have distinct addresses; an address is read back from its
    text; the Bech32 text of a hexadecimal address is the text of the account; and
    the precompiles cosmos/evm installs are listed as available. *)
Class AppLibLaws {ENV : Env} {LIB : AppLib} := {
  module_address_inj : forall m n, m ∈ maccPerms.*1 -> n ∈ maccPerms.*1 ->
    NewModuleAddress (name_text m) = NewModuleAddress (name_text n) -> m = n;
  AccAddress_String_inj : forall a b, AccAddress_String a = AccAddress_String b -> a = b;
  Bech32_of_hex : forall h, Bech32StringFromHexAddress h = AccAddress_String (HexToAddress h);
  Hex_roundtrip : forall a, length a = 20%nat -> HexToAddress (Address_Hex a) = a;
  prague_length : forall a, a ∈ PrecompiledAddressesPrague -> length a = 20%nat;
  default_available : forall a, a ∈ DefaultStaticPrecompiles ->
    exists h, h ∈ AvailableStaticPrecompiles /\ HexToAddress h = a
}.

(** ** Definitions *)

Section app.
Context {ENV : Env} {LIB : AppLib}.

Definition module_address (m : ModuleName) : bytes := NewModuleAddress (name_text m).

(** [sort.Strings] on the names. *)
Definition name_le (m n : ModuleName) : Prop := bytes_leb (name_text m) (name_text n) = true.

#[export] Instance name_le_dec : RelDecision name_le.
Proof. intros m n. unfold name_le. apply _. Defined.

(** A Go set of addresses: [blockedAddrs[k] = true]. *)
Definition block_all (ks : list bytes) (blockedAddrs : gmap bytes bool) : gmap bytes bool :=
  fold_left (fun blockedAddrs k => <[k := true]> blockedAddrs) ks blockedAddrs.

Definition BlockedAddresses : gmap bytes bool :=
  let accs := merge_sort name_le (GetMaccPerms.*1) in
  let blockedAddrs := block_all (map (fun acc => AccAddress_String (module_address acc)) accs) ∅ in
  let blockedAddrs := delete (AccAddress_String (module_address ConsumerToSendToProviderName)) blockedAddrs in
  let blockedAddrs := block_all (map Bech32StringFromHexAddress AvailableStaticPrecompiles) blockedAddrs in
  let blockedAddrs := <[Bech32StringFromHexAddress (Address_Hex AnchoringPrecompileAddress) := true]> blockedAddrs in
  block_all (map (fun addr => Bech32StringFromHexAddress (Address_Hex addr)) PrecompiledAddressesPrague) blockedAddrs.

(** The messages of the transaction, in order: acknowledgements and timeouts are
    refunds, client updates are skipped, anything else rules the refund out. *)
Fixpoint refund_msgs (msgs : list IBCMsg) (hasRefund : bool) : bool :=
  match msgs with
  | [] => hasRefund
  | msg :: msgs' =>
      match msg with
      | MsgTimeout | MsgTimeoutOnClose | MsgAcknowledgement => refund_msgs msgs' true
      | V2_MsgTimeout | V2_MsgAcknowledgement => refund_msgs msgs' true
      | MsgUpdateClient => refund_msgs msgs' hasRefund
      | MsgRecvPacket | V2_MsgRecvPacket => false
      | OtherMsg _ => false
      end
  end.

Definition isIBCRefundTx (txBytes fromAddr : bytes) : bool :=
  if is_empty txBytes then bool_decide (fromAddr = module_address IbctransferModule) else
  match TxDecoder txBytes with
  | Err _ => false
  | Ok msgs => match msgs with [] => false | _ => refund_msgs msgs false end
  end.

Definition ErrBufferRestricted : err := ErrPlain "sending to cons_to_send_to_provider is restricted".

(** The send restriction of the bank keeper. *)
Definition blockUserSendsToCCVRewardsBuffer (txBytes fromAddr toAddr : bytes) : result bytes :=
  if negb (bool_decide (toAddr = module_address ConsumerToSendToProviderName)) then Ok toAddr else
  if bool_decide (fromAddr = module_address FeeCollectorName) then Ok toAddr else
  if isIBCRefundTx txBytes fromAddr then Ok toAddr else
  Err ErrBufferRestricted.

(** The addresses of the precompiles the EVM keeper is given: the default ones but
    for staking and distribution, and the anchoring precompile. *)
Definition configStaticPrecompiles : gset bytes :=
  let corePrecompiles := list_to_set DefaultStaticPrecompiles in
  let corePrecompiles := corePrecompiles ∖ {[HexToAddress StakingPrecompileAddress]} in
  let corePrecompiles := corePrecompiles ∖ {[HexToAddress DistributionPrecompileAddress]} in
  {[AnchoringPrecompileAddress]} ∪ corePrecompiles.

End app.

(** ** What is blocked *)

Lemma block_all_lookup ks m k :
  block_all ks m !! k = if decide (k ∈ ks) then Some true else m !! k.
Proof.
  revert m. induction ks as [|k' ks IH]; intros m; [done|]. cbn [block_all fold_left].
  fold (block_all ks (<[k':=true]> m)). rewrite IH, lookup_insert. repeat case_decide; set_solver.
Qed.

Lemma GetMaccPerms_copy : GetMaccPerms = maccPerms.
Proof. reflexivity. Qed.

Section blocked.
Context {ENV : Env} {LIB : AppLib} {LAWS : AppLibLaws}.

(** The texts of the blocked addresses. *)
Definition blocked_recipient (s : bytes) : Prop :=
  (exists m, m ∈ maccPerms.*1 /\ m <> ConsumerToSendToProviderName /\ s = AccAddress_String (module_address m)) \/
  (exists h, h ∈ AvailableStaticPrecompiles /\ s = AccAddress_String (HexToAddress h)) \/
  s = AccAddress_String AnchoringPrecompileAddress \/
  (exists a, a ∈ PrecompiledAddressesPrague /\ s = AccAddress_String a).

Lemma sorted_names m : m ∈ merge_sort name_le (GetMaccPerms.*1) <-> m ∈ maccPerms.*1.
Proof. by rewrite merge_sort_Permutation, GetMaccPerms_copy. Qed.

Lemma module_text_inj m n : m ∈ maccPerms.*1 -> n ∈ maccPerms.*1 ->
  AccAddress_String (module_address m) = AccAddress_String (module_address n) -> m = n.
Proof. intros Hm Hn E. apply AccAddress_String_inj in E. by apply module_address_inj. Qed.

Lemma buffer_is_account : ConsumerToSendToProviderName ∈ maccPerms.*1.
Proof. by_eval. Qed.

Lemma hex_text a : length a = 20%nat -> Bech32StringFromHexAddress (Address_Hex a) = AccAddress_String a.
Proof. intros Ha. by rewrite Bech32_of_hex, Hex_roundtrip. Qed.

Lemma elem_of_texts {A} (f g : A -> bytes) (l : list A) s :
  (forall x, x ∈ l -> f x = g x) -> s ∈ map f l <-> exists x, x ∈ l /\ s = g x.
Proof.
  intros Hfg. rewrite list_elem_of_fmap. split; intros (x & H1 & H2).
  - exists x. rewrite <- Hfg; auto.
  - exists x. rewrite Hfg; auto.
Qed.

Lemma anchoring_text :
  Bech32StringFromHexAddress (Address_Hex AnchoringPrecompileAddress) = AccAddress_String AnchoringPrecompileAddress.
Proof. by apply hex_text. Qed.

Lemma BlockedAddresses_lookup s :
  BlockedAddresses !! s = Some true \/ BlockedAddresses !! s = None.
Proof.
  unfold BlockedAddresses. rewrite !block_all_lookup, lookup_insert, block_all_lookup, lookup_delete, block_all_lookup.
  repeat case_decide; auto.
Qed.

Lemma BlockedAddresses_spec s : BlockedAddresses !! s = Some true <-> blocked_recipient s.
Proof.
  unfold BlockedAddresses, blocked_recipient. rewrite anchoring_text.
  rewrite block_all_lookup, lookup_insert, block_all_lookup, lookup_delete, block_all_lookup, lookup_empty.
  pose proof (elem_of_texts _ _ PrecompiledAddressesPrague s (fun a Ha => hex_text a (prague_length a Ha))) as H4.
  pose proof (elem_of_texts _ _ AvailableStaticPrecompiles s (fun h _ => Bech32_of_hex h)) as H2.
  pose proof (elem_of_texts (fun acc => AccAddress_String (module_address acc)) _
    (merge_sort name_le (GetMaccPerms.*1)) s (fun _ _ => eq_refl)) as H1.
  setoid_rewrite sorted_names in H1. rewrite <- H4, <- H2.
  destruct (decide (_ ∈ map _ PrecompiledAddressesPrague)) as [?|Hn4]; [tauto|].
  destruct (decide (_ = s)) as [<-|Hn3]; [tauto|].
  destruct (decide (_ ∈ map _ AvailableStaticPrecompiles)) as [?|Hn2]; [tauto|].
  destruct (decide (AccAddress_String (module_address ConsumerToSendToProviderName) = s)) as [<-|Hne].
  - split; [done|]. intros [(m & Hm & Hb & E)|[?|[?|?]]]; [|by exfalso; auto..].
    destruct Hb. symmetry. by apply module_text_inj; [apply buffer_is_account|..].
  - destruct (decide (_ ∈ map _ (merge_sort _ _))) as [Hin|Hn].
    + split; [|done]. intros _. left. apply H1 in Hin as (m & Hm & ->). exists m. naive_solver.
    + split; [done|]. intros [(m & Hm & Hb & ->)|[?|[?|?]]]; [|by exfalso; auto..].
      destruct Hn. apply H1. eauto.
Qed.
End blocked.

(** ** Who may pay the rewards buffer *)

(** Acknowledgements and timeouts, and the client updates relayers put before them. *)
Definition is_refund (m : IBCMsg) : bool :=
  match m with
  | MsgTimeout | MsgTimeoutOnClose | MsgAcknowledgement | V2_MsgTimeout | V2_MsgAcknowledgement => true
  | _ => false
  end.

Definition relays_refund (m : IBCMsg) : bool :=
  is_refund m || match m with MsgUpdateClient => true | _ => false end.

Lemma refund_msgs_spec msgs b :
  refund_msgs msgs b = true <->
  Forall (fun m => relays_refund m = true) msgs /\ (b = true \/ Exists (fun m => is_refund m = true) msgs).
Proof.
  revert b. induction msgs as [|m msgs IH]; intros b; cbn [refund_msgs].
  - rewrite Forall_nil, Exists_nil. tauto.
  - rewrite Forall_cons, Exists_cons. destruct m; cbn; rewrite ?IH; naive_solver.
Qed.

Section sends.
Context {ENV : Env} {LIB : AppLib} {LAWS : AppLibLaws}.

(** The transfer module itself, outside a transaction; or a transaction made of
    relayed acknowledgements and timeouts, at least one, and client updates. *)
Definition refund_tx (txBytes fromAddr : bytes) : Prop :=
  (txBytes = [] /\ fromAddr = module_address IbctransferModule) \/
  (txBytes <> [] /\ exists msgs, TxDecoder txBytes = Ok msgs /\
     Forall (fun m => relays_refund m = true) msgs /\ Exists (fun m => is_refund m = true) msgs).

Lemma isIBCRefundTx_spec tx from : isIBCRefundTx tx from = true <-> refund_tx tx from.
Proof.
  unfold isIBCRefundTx, refund_tx. destruct tx as [|b tx]; cbn [is_empty].
  - rewrite bool_decide_eq_true. naive_solver.
  - destruct (TxDecoder (b :: tx)) as [[|m msgs]|e]; [| |naive_solver].
    + split; [done|]. intros [[??]|(_ & msgs & [= <-] & _ & He)]; [done|]. by apply Exists_nil in He.
    + rewrite refund_msgs_spec. naive_solver.
Qed.

(** C34: the send restriction admits exactly the transfers it means to.  A transfer
    goes through, to the address it names, unless it goes to the rewards buffer,
    does not come from the fee collector and is not an IBC refund: a transaction
    of acknowledgements, timeouts and client updates with at least one of the
    first two, or the transfer module acting outside a transaction. *)
Theorem send_restriction_exact tx from to a :
  blockUserSendsToCCVRewardsBuffer tx from to = Ok a <->
  a = to /\ (to <> module_address ConsumerToSendToProviderName \/
             from = module_address FeeCollectorName \/ refund_tx tx from).
Proof.
  unfold blockUserSendsToCCVRewardsBuffer. rewrite <- isIBCRefundTx_spec.
  repeat case_bool_decide; cbn [negb]; destruct (isIBCRefundTx tx from); naive_solver.
Qed.

Lemma restricted_send tx from to :
  to = module_address ConsumerToSendToProviderName ->
  from <> module_address FeeCollectorName -> ~ refund_tx tx from ->
  blockUserSendsToCCVRewardsBuffer tx from to = Err ErrBufferRestricted.
Proof.
  intros -> Hf Hr. rewrite <- isIBCRefundTx_spec in Hr. unfold blockUserSendsToCCVRewardsBuffer.
  rewrite bool_decide_eq_true_2, (bool_decide_eq_false_2 (from = _)) by done. cbn [negb].
  by destruct (isIBCRefundTx tx from).
Qed.

Lemma precompile_blocked a : a ∈ configStaticPrecompiles -> blocked_recipient (AccAddress_String a).
Proof.
  unfold configStaticPrecompiles, blocked_recipient. rewrite elem_of_union, elem_of_singleton, !elem_of_difference.
  intros [->|[[Ha _] _]]; [tauto|]. apply elem_of_list_to_set, default_available in Ha as (h & Hh & <-). eauto.
Qed.

(** The account that the address belongs to: of a module other than the rewards buffer,
    or of a precompile that cosmos/evm lists, the anchoring precompile, or one of the
    EVM's own. *)
Definition protected (a : bytes) : Prop :=
  (exists m, m ∈ maccPerms.*1 /\ m <> ConsumerToSendToProviderName /\ a = module_address m) \/
  (exists h, h ∈ AvailableStaticPrecompiles /\ a = HexToAddress h) \/
  a = AnchoringPrecompileAddress \/ a ∈ PrecompiledAddressesPrague.

Lemma protected_recipient a : blocked_recipient (AccAddress_String a) <-> protected a.
Proof.
  unfold blocked_recipient, protected. split.
  - intros [(m & Hm & Hb & E%AccAddress_String_inj)|[(h & Hh & E%AccAddress_String_inj)|
      [E%AccAddress_String_inj|(x & Hx & ->%AccAddress_String_inj)]]]; eauto 10.
  - intros [(m & Hm & Hb & ->)|[(h & Hh & ->)|[->|Ha]]]; eauto 10.
Qed.

(** C35: the addresses the bank is told to block are exactly the accounts of the modules
    but for the rewards buffer, and the precompiles; among them every precompile the EVM
    keeper is given, and no other account.  So every account of a module is either
    blocked, or it is the rewards buffer, which the send restriction refuses to
    everyone but the fee collector and IBC refunds. *)
Theorem blocked_addresses_exact a :
  (BlockedAddresses !! AccAddress_String a = Some true <-> protected a) /\
  (BlockedAddresses !! AccAddress_String a = None <-> ~ protected a) /\
  (a ∈ configStaticPrecompiles -> BlockedAddresses !! AccAddress_String a = Some true) /\
  (a ∈ module_address <$> maccPerms.*1 ->
     BlockedAddresses !! AccAddress_String a = Some true \/
     (a = module_address ConsumerToSendToProviderName /\
      forall tx from, from <> module_address FeeCollectorName -> ~ refund_tx tx from ->
        blockUserSendsToCCVRewardsBuffer tx from a = Err ErrBufferRestricted)).
Proof.
  assert (E : BlockedAddresses !! AccAddress_String a = Some true <-> protected a)
    by (by rewrite BlockedAddresses_spec, protected_recipient).
  split; [exact E|]. split; [|split].
  - rewrite <- E. destruct (BlockedAddresses_lookup (AccAddress_String a)) as [->| ->]; naive_solver.
  - intros Ha. by apply BlockedAddresses_spec, precompile_blocked.
  - intros (m & -> & Hm)%list_elem_of_fmap. destruct (decide (m = ConsumerToSendToProviderName)) as [->|Hne].
    + right. split; [done|]. intros tx from. by apply restricted_send.
    + left. apply E. left. eauto.
Qed.
End sends.

(** ** Witnesses *)

Module DemoApp.
Definition demo_name (m : ModuleName) : bytes :=
  bs (match m with
  | AuthModule => "auth" | BankModule => "bank" | DistrModule => "distribution" | StakingModule => "staking"
  | SlashingModule => "slashing" | GovModule => "gov" | MintModule => "mint" | EvidenceModule => "evidence"
  | FeegrantModule => "feegrant" | NftModule => "nft" | ParamsModule => "params" | UpgradeModule => "upgrade"
  | VestingModule => "vesting" | ConsensusparamModule => "consensus" | CircuitModule => "circuit"
  | GenutilModule => "genutil" | IbcModule => "ibc" | IbctransferModule => "transfer"
  | IbctmModule => "07-tendermint" | RatelimitModule => "ratelimit" | TaxModule => "tax"
  | ConsumerModule => "ccvconsumer" | AnchoringModule => "anchoring" | EvmModule => "evm"
  | FeemarketModule => "feemarket" | Erc20Module => "erc20" | FeeCollectorName => "fee_collector"
  | BondedPoolName => "bonded_tokens_pool" | NotBondedPoolName => "not_bonded_tokens_pool"
  | ConsumerRedistributeName => "cons_redistribute"
  | ConsumerToSendToProviderName => "cons_to_send_to_provider"
  end).

(** The name, padded to the length of an address. *)
Definition demo_address (name : bytes) : bytes := take 20 (name ++ replicate 20 x00).

Definition demo_hex (a : bytes) : bytes := bs "0x" ++ fmt_x a.
Definition demo_of_hex (h : bytes) : bytes := default [] (unhex (drop 2 h)).

Definition staking_hex : bytes := demo_hex (replicate 18 x00 ++ [x08; x00]).
Definition bank_hex : bytes := demo_hex (replicate 18 x00 ++ [x08; x04]).

(** A transaction is one byte that says what it holds. *)
Definition demo_decode (tx : bytes) : result (list IBCMsg) :=
  match tx with
  | [x01] => Ok [MsgUpdateClient; MsgTimeout]
  | [x02] => Ok [OtherMsg (bs "/cosmos.bank.v1beta1.MsgSend")]
  | _ => Err (ErrPlain "tx parse error")
  end.

#[global] Instance demo_app : AppLib := {|
  name_text := demo_name;
  NewModuleAddress := demo_address;
  HexToAddress := demo_of_hex;
  Address_Hex := demo_hex;
  Bech32StringFromHexAddress h := AccAddress_String (demo_of_hex h);
  AvailableStaticPrecompiles := [staking_hex; bank_hex];
  PrecompiledAddressesPrague := [replicate 19 x00 ++ [x01]];
  DefaultStaticPrecompiles := [demo_of_hex staking_hex; demo_of_hex bank_hex];
  StakingPrecompileAddress := staking_hex;
  DistributionPrecompileAddress := demo_hex (replicate 18 x00 ++ [x08; x01]);
  TxDecoder := demo_decode
|}.

Lemma demo_address_inj m n : m ∈ maccPerms.*1 -> n ∈ maccPerms.*1 ->
  demo_address (demo_name m) = demo_address (demo_name n) -> m = n.
Proof.
  assert (H : Forall (fun m => Forall (fun n => demo_address (demo_name m) = demo_address (demo_name n) -> m = n)
    (maccPerms.*1)) (maccPerms.*1)) by by_eval.
  intros Hm Hn. rewrite Forall_forall in H. specialize (H m Hm). rewrite Forall_forall in H. by apply H.
Qed.

Lemma demo_hex_roundtrip a : demo_of_hex (demo_hex a) = a.
Proof. unfold demo_of_hex, demo_hex. cbn [bs app drop]. change (drop 2 _) with (fmt_x a). by rewrite unhex_fmt_x. Qed.

#[global] Instance demo_app_laws : AppLibLaws.
Proof.
  split.
  - exact demo_address_inj.
  - intros a b E. apply (f_equal (drop 5)) in E. apply (f_equal unhex) in E.
    change (unhex (fmt_x a) = unhex (fmt_x b)) in E. rewrite !unhex_fmt_x in E. congruence.
  - done.
  - intros a _. apply demo_hex_roundtrip.
  - intros a Ha. cbn in Ha. assert (a = replicate 19 x00 ++ [x01]) as -> by set_solver. done.
  - intros a Ha. cbn in Ha.
    assert (a = demo_of_hex staking_hex \/ a = demo_of_hex bank_hex) as [->| ->] by set_solver;
      eexists; (split; [|reflexivity]); cbn; set_solver.
Qed.

Definition user : bytes := replicate 20 x55.
End DemoApp.

(** The anchoring module and its precompile are blocked, a user is not. *)
Lemma blocked_addresses_exact_witness :
  BlockedAddresses !! AccAddress_String (module_address AnchoringModule) = Some true /\
  BlockedAddresses !! AccAddress_String AnchoringPrecompileAddress = Some true /\
  ~ protected DemoApp.user.
Proof.
  split_and!.
  - destruct (blocked_addresses_exact (module_address AnchoringModule)) as ([_ H] & _). apply H. left.
    exists AnchoringModule. split; [by_eval|done].
  - destruct (blocked_addresses_exact AnchoringPrecompileAddress) as (_ & _ & H & _). apply H. by_eval.
  - destruct (blocked_addresses_exact DemoApp.user) as (_ & [H _] & _). apply H. by_eval.
Defined.

Example restriction_cases :
  let buffer := module_address ConsumerToSendToProviderName in
  blockUserSendsToCCVRewardsBuffer [x01] DemoApp.user buffer = Ok buffer /\
  blockUserSendsToCCVRewardsBuffer [x02] DemoApp.user buffer = Err ErrBufferRestricted /\
  blockUserSendsToCCVRewardsBuffer [] (module_address IbctransferModule) buffer = Ok buffer /\
  blockUserSendsToCCVRewardsBuffer [x02] (module_address FeeCollectorName) buffer = Ok buffer.
Proof. vm_compute. done. Qed.
