(* ===== verification/AppBlock.v ===== *)
(** The modules of the application and the order they run in: src/app/app.go
    (the module manager, [SetOrderPreBlockers], [SetOrderBeginBlockers],
    [SetOrderEndBlockers], [genesisModuleOrder], [EndBlocker], [InitChainer],
    the upgrades) with src/app/upgrades. *)

From S2P Require Import Prelude Types MsgServer Keeper Concrete App Tax.

(** ** Modules and orders *)

(** [module.NewManager]: the modules of the application. *)
Definition ModuleManager : list ModuleName :=
  [GenutilModule; AuthModule; VestingModule; BankModule; FeegrantModule; GovModule; MintModule;
   SlashingModule; DistrModule; StakingModule; UpgradeModule; EvidenceModule; ParamsModule; NftModule;
   ConsensusparamModule; CircuitModule; ConsumerModule; IbcModule; IbctransferModule; IbctmModule;
   RatelimitModule; TaxModule; AnchoringModule; EvmModule; FeemarketModule; Erc20Module].

Definition OrderPreBlockers : list ModuleName := [UpgradeModule; AuthModule; EvmModule].

Definition OrderBeginBlockers : list ModuleName :=
  [DistrModule; MintModule; IbcModule; IbctransferModule; Erc20Module; FeemarketModule; EvmModule;
   TaxModule; SlashingModule; EvidenceModule; StakingModule; GenutilModule; GovModule; RatelimitModule;
   ConsumerModule].

Definition OrderEndBlockers : list ModuleName :=
  [GovModule; StakingModule; AuthModule; BankModule; GenutilModule; EvmModule; Erc20Module;
   FeemarketModule; FeegrantModule; TaxModule; IbctransferModule; IbcModule; RatelimitModule;
   ConsumerModule].

Definition genesisModuleOrder : list ModuleName :=
  [AuthModule; BankModule; DistrModule; StakingModule; SlashingModule; GovModule; MintModule;
   EvidenceModule; FeegrantModule; NftModule; ParamsModule; UpgradeModule; VestingModule;
   ConsensusparamModule; CircuitModule; IbcModule; EvmModule; FeemarketModule; Erc20Module;
   IbctransferModule; GenutilModule; RatelimitModule; TaxModule; ConsumerModule; AnchoringModule].

(** ** The manager *)

(** The loops of the SDK's module manager over an order of modules, with what each
    module does, and the upgrade keeper's table of module versions. *)
Class Manager (S : Type) := {
  Manager_EndBlock : list ModuleName -> (ModuleName -> M S unit) -> M S unit;
  Manager_InitGenesis : list ModuleName -> (ModuleName -> M S unit) -> M S unit;
  SetModuleVersionMap : M S unit
}.

(** Each module of the order in turn, until one fails. *)
Class ManagerLaws (S : Type) `{Manager S} := {
  EndBlock_in_order : forall order f s, Manager_EndBlock order f s = for_each f order s;
  InitGenesis_in_order : forall order f s, Manager_InitGenesis order f s = for_each f order s
}.

(** ** The application *)

Section block.
Context {ENV : Env} {DEC : Decimal} {BANK : Bank} {X : Type}.

(** The state of the tax module and the bank, and that of everything else. *)
Abbreviation AppState := (TaxState * X)%type.

Context {MAN : Manager AppState}.
Context (others : ModuleName -> M AppState unit).

(** The end blocker of each module; [others] are those of the libraries. *)
Definition module_EndBlock (ctx : Ctx) (m : ModuleName) : M AppState unit :=
  match m with
  | TaxModule => zoom fst (fun t s => (t, s.2)) (Tax.EndBlocker ctx)
  | _ => others m
  end.

Definition App_EndBlocker (ctx : Ctx) : M AppState unit :=
  Manager_EndBlock OrderEndBlockers (module_EndBlock ctx).

(** [InitChainer]: a genesis that does not parse, or a version map that cannot be
    stored, stops the node. *)
Definition InitChainer {G} (Unmarshal : bytes -> option G) (init_genesis : G -> ModuleName -> M AppState unit)
    (AppStateBytes : bytes) : M AppState unit :=
  genesisState ← lift (of_option (Unmarshal AppStateBytes) ErrPanic);
  _ ← (fun s => match SetModuleVersionMap s with
                | (Ok _, s') => (Ok tt, s')
                | (Err _, s') => (Err ErrPanic, s')
                end);
  Manager_InitGenesis genesisModuleOrder (init_genesis genesisState).
End block.

(** ** Upgrades *)

Record Upgrade := mkUpgrade {
  UpgradeName : bytes;
  StoreAdded : list bytes;
  StoreDeleted : list bytes
}.

Definition v1_4_Upgrade : Upgrade := mkUpgrade (bs "v1.4.0") [] [].
Definition Upgrades : list Upgrade := [v1_4_Upgrade].

Record UpgradeInfo := mkUpgradeInfo { ui_Name : bytes; ui_Height : Z }.

(** The store loader set at start-up, if any: the height and the store upgrades of
    the upgrade the node is about to run. *)
Definition setupUpgradeStoreLoaders (read : result UpgradeInfo) (IsSkipHeight : Z -> bool) :
    result (option (Z * Upgrade)) :=
  upgradeInfo ← match read with Ok i => Ok i | Err _ => Err ErrPanic end;
  if IsSkipHeight (ui_Height upgradeInfo) then Ok None else
  Ok (fold_left (fun loader upgrade =>
        if bool_decide (ui_Name upgradeInfo = UpgradeName upgrade)
        then Some (ui_Height upgradeInfo, upgrade) else loader) Upgrades None).

(** [CreateUpgradeHandler] of v1.4.0: the migrations of the modules. *)
Definition CreateUpgradeHandler {S VM} (RunMigrations : VM -> M S VM) (vm : VM) : M S VM :=
  vm ← RunMigrations vm;
  mret vm.

(** The handlers registered with the upgrade keeper, by name. *)
Definition setupUpgradeHandlers {S VM} (RunMigrations : VM -> M S VM) : gmap bytes (VM -> M S VM) :=
  fold_left (fun handlers upgrade => <[UpgradeName upgrade := CreateUpgradeHandler RunMigrations]> handlers)
    Upgrades ∅.

(** ** Orders *)

(** [a] runs before [b], each once. *)
Definition runs_before (order : list ModuleName) (a b : ModuleName) : bool :=
  match list_find (eq a) order, list_find (eq b) order with
  | Some (i, _), Some (j, _) => (i <? j)%nat
  | _, _ => false
  end.

(** An order names modules of the manager, none twice. *)
Definition order_ok (order : list ModuleName) : Prop :=
  NoDup order /\ Forall (fun m => m ∈ ModuleManager) order.

(** the orders the modules run in.  Every order names modules of the manager,
    none twice; the genesis order has every module but the light client, which
    has no state, so each is initialised exactly once; and the dependencies the
    application notes hold: upgrades first before a block, the fee market before
    the EVM, tax before the consumer module sends the fees on, and, at genesis,
    genutil after the modules it reads. *)
Theorem module_orders :
  Forall order_ok [OrderPreBlockers; OrderBeginBlockers; OrderEndBlockers; genesisModuleOrder] /\
  (forall m, m ∈ ModuleManager -> m <> IbctmModule -> m ∈ genesisModuleOrder) /\
  head OrderPreBlockers = Some UpgradeModule /\
  head OrderBeginBlockers = Some DistrModule /\
  runs_before OrderBeginBlockers FeemarketModule EvmModule = true /\
  runs_before OrderEndBlockers TaxModule ConsumerModule = true /\
  Forall (fun m => runs_before genesisModuleOrder m GenutilModule = true)
    [AuthModule; BankModule; StakingModule; FeemarketModule] .
Proof.
  split; [by_eval|]. split; [|by_eval].
  assert (H : Forall (fun m => m <> IbctmModule -> m ∈ genesisModuleOrder) ModuleManager) by by_eval.
  intros m Hm. rewrite Forall_forall in H. by apply H.
Qed.

(** ** The end of a block *)

(** The modules before tax, and those between tax and the consumer. *)
Definition before_tax : list ModuleName :=
  [GovModule; StakingModule; AuthModule; BankModule; GenutilModule; EvmModule; Erc20Module;
   FeemarketModule; FeegrantModule].
Definition after_tax : list ModuleName := [IbctransferModule; IbcModule; RatelimitModule].

Section end_block.
Context {ENV : Env} {LAWS : EnvLaws} {DEC : Decimal} {DL : DecimalLaws} {BANK : Bank} {BL : BankLaws} {X : Type}.
Context {MAN : Manager (TaxState * X)} {ML : ManagerLaws (TaxState * X)}.
Context (others : ModuleName -> M (TaxState * X) unit).

Lemma idle_modules ctx s : (forall m st, m ∈ after_tax -> others m st = (Ok tt, st)) ->
  for_each (module_EndBlock others ctx) after_tax s = (Ok tt, s).
Proof.
  intros Hidle. unfold after_tax. cbn [for_each]. cbv [mbind M_bind mret M_ret]. cbn [module_EndBlock].
  by rewrite !Hidle by (unfold after_tax; set_solver).
Qed.

(** C32: the provider chain is paid from the fees left after tax.  When a block
    ends, the modules before tax run, then the tax module, then the consumer
    module, which distributes the fee collector's balance: what it finds there is
    what the fee collector held when the tax module ran, less the tax rounded
    down, in every denomination, and the rest of the state as the tax module
    found it.  (The transfer, IBC and rate limit modules in between do nothing at
    the end of a block.) *)
Theorem consumer_sees_taxed_fees ctx s s' :
  (forall m st, m ∈ after_tax -> others m st = (Ok tt, st)) ->
  1 < BlockHeight ctx -> App_EndBlocker others ctx s = (Ok tt, s') ->
  exists s1 s2, for_each (module_EndBlock others ctx) before_tax s = (Ok tt, s1) /\
  Tax.EndBlocker ctx s1.1 = (Ok tt, s2.1) /\ s2.2 = s1.2 /\ others ConsumerModule s2 = (Ok tt, s') /\
  forall p a denom, tax_Params s1.1 = Some p -> params_ok p ->
    AccAddressFromBech32 (TaxAddress p) = Some a -> a <> ModuleAddress feeCollectorName ->
    let fees (st : TaxState * X) := amount (GetAllBalances (bank st.1) (ModuleAddress feeCollectorName)) denom in
    fees s2 = fees s1 - fees s1 * Tax p / dec_unit.
Proof.
  intros Hidle Hh. unfold App_EndBlocker. rewrite EndBlock_in_order.
  change OrderEndBlockers with (before_tax ++ [TaxModule] ++ after_tax ++ [ConsumerModule]).
  rewrite !for_each_app. cbv [mbind M_bind]. destruct (for_each _ before_tax s) as [[[]|] s1]; [|done].
  cbn [for_each module_EndBlock app]. cbv [zoom mbind M_bind mret M_ret].
  destruct (Tax.EndBlocker ctx s1.1) as [[[]|] t] eqn:Et; [|done].
  rewrite for_each_app. cbv [mbind M_bind]. rewrite idle_modules by done. cbn [for_each module_EndBlock]. cbv [mbind M_bind mret M_ret].
  destruct (others ConsumerModule (t, s1.2)) as [[[]|] s3] eqn:Ec; [|done]. intros [= <-].
  exists s1, (t, s1.2). split_and!; try done. intros p a denom Hp Hok Ha Hne. cbv zeta. cbn [fst].
  destruct (EndBlocker_ok ctx s1.1 p a Hp Hok Hh Ha) as (t' & Et' & _ & Hb).
  rewrite Et in Et'. injection Et' as <-. rewrite Hb, decide_True, decide_False by done. lia.
Qed.
End end_block.

(** ** Upgrades *)

(** an upgrade the node is asked to run finds its handler and its stores.  A
    node restarted for an upgrade of the list, at a height it is not told to
    skip, loads its stores with that upgrade's changes at that height, and the
    handler registered under the name runs the migrations and hands on their
    result or their error; for any other name, or a skipped height, the stores
    are loaded as they are; an unreadable upgrade file stops the node. *)
Theorem upgrades_registered {S VM} (RunMigrations : VM -> M S VM) (skip : Z -> bool) name height :
  (forall e, setupUpgradeStoreLoaders (Err e) skip = Err ErrPanic) /\
  match list_find (fun u => UpgradeName u = name) Upgrades with
  | Some (_, u) =>
      setupUpgradeStoreLoaders (Ok (mkUpgradeInfo name height)) skip
      = Ok (if skip height then None else Some (height, u)) /\
      exists h, setupUpgradeHandlers RunMigrations !! name = Some h /\
                forall vm s, h vm s = RunMigrations vm s
  | None =>
      setupUpgradeStoreLoaders (Ok (mkUpgradeInfo name height)) skip = Ok None /\
      setupUpgradeHandlers RunMigrations !! name = None
  end.
Proof.
  split; [done|]. unfold setupUpgradeStoreLoaders, setupUpgradeHandlers, Upgrades. cbn [list_find mbind result_bind ui_Height ui_Name fold_left].
  destruct (decide (UpgradeName v1_4_Upgrade = name)) as [<-|Hne].
  - rewrite bool_decide_eq_true_2, lookup_insert_eq by done. split; [by destruct (skip height)|].
    eexists. split; [done|]. intros vm s. unfold CreateUpgradeHandler. cbv [mbind M_bind mret M_ret].
    by destruct (RunMigrations vm s) as [[]].
  - cbn [fmap option_fmap option_map]. rewrite bool_decide_eq_false_2 by done. rewrite lookup_insert_ne by done.
    split; [by destruct (skip height)|done].
Qed.

(** ** Witnesses *)

Module DemoBlock.
#[global] Instance demo_manager : Manager (TaxState * Z) := {|
  Manager_EndBlock order f := for_each f order;
  Manager_InitGenesis order f := for_each f order;
  SetModuleVersionMap := mret tt
|}.

#[global] Instance demo_manager_laws : ManagerLaws (TaxState * Z).
Proof. by split. Qed.

(** The libraries' end blockers count their calls; three of them do nothing. *)
Definition others (m : ModuleName) : M (TaxState * Z) unit :=
  if decide (m ∈ after_tax) then mret tt else modify (fun s => (s.1, s.2 + 1)).

Lemma idle m st : m ∈ after_tax -> others m st = (Ok tt, st).
Proof. intros Hm. unfold others. by rewrite decide_True. Qed.

Definition final : TaxState * Z := (App_EndBlocker others DemoTax.ctx (DemoTax.state, 0)).2.

Lemma block_runs : App_EndBlocker others DemoTax.ctx (DemoTax.state, 0) = (Ok tt, final).
Proof. unfold final. by rewrite (surjective_pairing (App_EndBlocker _ _ _)) at 1. Qed.

Lemma prefix_runs :
  for_each (module_EndBlock others DemoTax.ctx) before_tax (DemoTax.state, 0) = (Ok tt, (DemoTax.state, 9)).
Proof. reflexivity. Qed.

Lemma alice_not_collector : DemoTax.alice <> ModuleAddress feeCollectorName.
Proof. by vm_compute. Qed.
End DemoBlock.

(** The consumer module finds 61 of the 101 coins collected. *)
Lemma consumer_sees_taxed_fees_witness :
  exists s2, DemoBlock.others ConsumerModule s2 = (Ok tt, DemoBlock.final) /\
  amount (GetAllBalances (bank s2.1) (ModuleAddress feeCollectorName)) (bs "anvnm") = 61.
Proof.
  destruct (consumer_sees_taxed_fees DemoBlock.others DemoTax.ctx (DemoTax.state, 0) DemoBlock.final
    DemoBlock.idle eq_refl DemoBlock.block_runs) as (s1 & s2 & E1 & _ & _ & E2 & H).
  exists s2. split; [exact E2|]. rewrite DemoBlock.prefix_runs in E1. injection E1 as <-.
  rewrite (H DemoTax.params DemoTax.alice (bs "anvnm") eq_refl DemoTax.demo_params_ok
    ltac:(by vm_compute) DemoBlock.alice_not_collector). vm_compute. reflexivity.
Defined.
