(* ===== verification/GenAccounts.v ===== *)
(** The command add-genesis-account: src/cmd/nvnmchaind/cmd/genaccounts.go.

    It adds an account with its coins to the genesis file, optionally with coins
    that vest over time. *)

From S2P Require Import Prelude Types Concrete Tax.

(** ** Data *)

Record BaseAccount := mkBaseAccount { ba_Address : bytes; ba_AccountNumber : Z; ba_Sequence : Z }.

Record BaseVestingAccount := mkBaseVestingAccount {
  bva_Base : BaseAccount;
  OriginalVesting : Coins;
  EndTime : Z
}.

Inductive GenesisAccount :=
| BaseAcc (a : BaseAccount)
| ContinuousVestingAcc (v : BaseVestingAccount) (startTime : Z)
| DelayedVestingAcc (v : BaseVestingAccount).

Definition acc_address (a : GenesisAccount) : bytes :=
  match a with
  | BaseAcc a => ba_Address a
  | ContinuousVestingAcc v _ => ba_Address (bva_Base v)
  | DelayedVestingAcc v => ba_Address (bva_Base v)
  end.

Record Balance := mkBalance { bal_Address : bytes; bal_Coins : Coins }.

(** ** Libraries *)

(** What the command calls of the SDK: keyrings, coins, accounts and the codec. *)
Class GenLib := {
  Any : Type;
  Keyring : Type;
  NewKeyring : bytes -> result Keyring;
  Keyring_Key : Keyring -> bytes -> result (result bytes);
  ParseCoinsNormalized : bytes -> result Coins;
  Coins_Sort : gmap bytes Z -> gmap bytes Z;
  Coins_IsZero : gmap bytes Z -> bool;
  Coins_IsAnyGT : gmap bytes Z -> gmap bytes Z -> bool;
  Coins_Add : gmap bytes Z -> gmap bytes Z -> gmap bytes Z;
  NewBaseVestingAccount : BaseAccount -> gmap bytes Z -> Z -> result BaseVestingAccount;
  GenesisAccount_Validate : GenesisAccount -> result unit;
  PackAccounts : list GenesisAccount -> result (list Any);
  UnpackAccounts : list Any -> result (list GenesisAccount);
  Accounts_Contains : list GenesisAccount -> bytes -> bool;
  SanitizeGenesisAccounts : list GenesisAccount -> list GenesisAccount;
  SanitizeGenesisBalances : list Balance -> list Balance;
  MarshalAuth : list Any -> result unit;
  MarshalBank : list Balance -> gmap bytes Z -> result unit;
  MarshalAppState : list Any -> list Balance -> gmap bytes Z -> result unit
}.

(** Sets of coins are kept in order by the library, so sorting does not change
    them; [IsAnyGT] compares the denominations both sides hold; packed accounts are
    read back; sanitizing sorts, and numbers the accounts. *)
Class GenLibLaws `{GenLib} := {
  Sort_same : forall c, Coins_Sort c = c;
  IsZero_spec : forall c, Coins_IsZero c = true <-> forall d, amount c d = 0;
  IsAnyGT_spec : forall a b, Coins_IsAnyGT a b = true <-> exists d, amount b d < amount a d /\ amount b d <> 0;
  Add_amount : forall a b d, amount (Coins_Add a b) d = amount a d + amount b d;
  NewBaseVesting_spec : forall a c e v, NewBaseVestingAccount a c e = Ok v -> v = mkBaseVestingAccount a c e;
  Unpack_Pack : forall accs l, PackAccounts accs = Ok l -> UnpackAccounts l = Ok accs;
  Contains_spec : forall accs a, Accounts_Contains accs a = true <-> a ∈ map acc_address accs;
  SanitizeAccounts_addresses : forall accs, map acc_address (SanitizeGenesisAccounts accs) ≡ₚ map acc_address accs;
  SanitizeBalances_perm : forall bals, SanitizeGenesisBalances bals ≡ₚ bals
}.

(** ** The command *)

Section command.
Context {ENV : Env} {LIB : GenLib}.

(** The genesis file: the accounts of the auth module, the balances and the supply
    of the bank module. *)
Record GenesisFile := mkGenesisFile {
  gf_Accounts : list Any;
  gf_Balances : list Balance;
  gf_Supply : Coins
}.

(** The arguments and flags, and the client's keyring. *)
Record GenArgs := mkGenArgs {
  arg_account : bytes;
  arg_coins : bytes;
  flag_keyringBackend : bytes;
  flag_vestingStart : Z;
  flag_vestingEnd : Z;
  flag_vestingAmt : bytes;
  client_Keyring : option Keyring
}.

(** The address, or the key of that name in the keyring. *)
Definition account_address (args : GenArgs) : result bytes :=
  match AccAddressFromBech32 (arg_account args) with
  | Some addr => Ok addr
  | None =>
      kr ← (match client_Keyring args with
            | None => if is_empty (flag_keyringBackend args) then Err ErrPanic
                      else NewKeyring (flag_keyringBackend args)
            | Some kr => Ok kr
            end);
      match Keyring_Key kr (arg_account args) with
      | Err e => Err (ErrWrap "failed to get address from Keyring" e)
      | Ok (Err e) => Err (ErrWrap "failed to GetAddress() from Keyring" e)
      | Ok (Ok addr) => Ok addr
      end
  end.

Definition wrap_err {A} (what : string) (r : result A) : result A :=
  match r with Ok a => Ok a | Err e => Err (ErrWrap what e) end.

(** The account, by the vesting flags. *)
Definition new_account (addr : bytes) (balances vestingAmt : Coins) (vestingStart vestingEnd : Z) :
    result GenesisAccount :=
  let baseAccount := mkBaseAccount addr 0 0 in
  if negb (Coins_IsZero vestingAmt) then
    baseVestingAccount ← NewBaseVestingAccount baseAccount (Coins_Sort vestingAmt) vestingEnd;
    _ ← guard_err ((Coins_IsZero balances && negb (Coins_IsZero (OriginalVesting baseVestingAccount)))
                   || Coins_IsAnyGT (OriginalVesting baseVestingAccount) balances)
          (ErrPlain "vesting amount cannot be greater than total amount");
    if negb (vestingStart =? 0) && negb (vestingEnd =? 0) then
      Ok (ContinuousVestingAcc baseVestingAccount vestingStart)
    else if negb (vestingEnd =? 0) then Ok (DelayedVestingAcc baseVestingAccount)
    else Err (ErrPlain "invalid vesting parameters; must supply start and end time or end time")
  else Ok (BaseAcc baseAccount).

(** [RunE]; [readable] tells whether the genesis file can be read, [write] whether
    it can be written; the state is its contents. *)
Definition AddGenesisAccount (args : GenArgs) (readable : bool) (write : result unit) : M GenesisFile unit :=
  addr ← lift (account_address args);
  coins ← lift (wrap_err "failed to parse coins" (ParseCoinsNormalized (arg_coins args)));
  vestingAmt ← lift (wrap_err "failed to parse vesting amount" (ParseCoinsNormalized (flag_vestingAmt args)));
  let balances := mkBalance (AccAddress_String addr) (Coins_Sort coins) in
  genAccount ← lift (new_account addr (bal_Coins balances) vestingAmt (flag_vestingStart args) (flag_vestingEnd args));
  _ ← lift (wrap_err "failed to validate new genesis account" (GenesisAccount_Validate genAccount));
  genesis ← gets id;
  _ ← lift (guard_err (negb readable) (ErrPlain "failed to unmarshal genesis state"));
  accs ← lift (wrap_err "failed to get accounts from any" (UnpackAccounts (gf_Accounts genesis)));
  _ ← lift (guard_err (Accounts_Contains accs addr) (ErrPlain "cannot add account at existing address"));
  let accs := accs ++ [genAccount] in
  let accs := SanitizeGenesisAccounts accs in
  genAccs ← lift (wrap_err "failed to convert accounts into any's" (PackAccounts accs));
  _ ← lift (wrap_err "failed to marshal auth genesis state" (MarshalAuth genAccs));
  let newBalances := SanitizeGenesisBalances (gf_Balances genesis ++ [balances]) in
  let newSupply := Coins_Add (gf_Supply genesis) (bal_Coins balances) in
  _ ← lift (wrap_err "failed to marshal bank genesis state" (MarshalBank newBalances newSupply));
  _ ← lift (wrap_err "failed to marshal application genesis state" (MarshalAppState genAccs newBalances newSupply));
  _ ← lift write;
  modify (fun _ => mkGenesisFile genAccs newBalances newSupply).
End command.

(** ** Properties *)

(** What the accounts hold together, by denomination. *)
Definition total (bals : list Balance) (d : bytes) : Z :=
  fold_right (fun b n => amount (bal_Coins b) d + n) 0 bals.

Lemma total_app l1 l2 d : total (l1 ++ l2) d = total l1 d + total l2 d.
Proof.
  unfold total. induction l1 as [|b l1 IH]; cbn [app fold_right]; [done|]. rewrite IH. lia.
Qed.

#[export] Instance total_Proper : Proper (Permutation ==> eq ==> eq) total.
Proof.
  intros l1 l2 Hp d d' <-. unfold total.
  induction Hp as [|b l1 l2 _ IH|b b' l|l1 l2 l3 _ IH1 _ IH2]; cbn [fold_right]; [done|by rewrite IH|lia|congruence].
Qed.

Section properties.
Context {ENV : Env} {LIB : GenLib} {LAWS : GenLibLaws}.

(** The file is coherent: the accounts can be read and have distinct addresses, and
    the supply is the sum of the balances. *)
Definition file_ok (f : GenesisFile) : Prop :=
  exists accs, UnpackAccounts (gf_Accounts f) = Ok accs /\ NoDup (map acc_address accs) /\
  forall d, amount (gf_Supply f) d = total (gf_Balances f) d.

Lemma wrap_err_ok {A} what (r : result A) a : wrap_err what r = Ok a -> r = Ok a.
Proof. destruct r; cbn; congruence. Qed.

(** The vesting coins are at most the coins, in each denomination the account
    holds. *)
Lemma new_account_ok addr coins vesting vstart vend acc :
  new_account addr coins vesting vstart vend = Ok acc ->
  acc_address acc = addr /\
  ((forall d, amount vesting d = 0) \/
   (vend <> 0 /\ (exists d, amount coins d <> 0) /\
    forall d, amount coins d <> 0 -> amount vesting d <= amount coins d)).
Proof.
  unfold new_account. destruct (Coins_IsZero vesting) eqn:Ez; cbn [negb].
  { intros [= <-]. split; [done|]. left. by apply IsZero_spec. }
  destruct (NewBaseVestingAccount _ _ _) as [v|] eqn:Ev; [|done]. cbn [mbind result_bind].
  apply NewBaseVesting_spec in Ev as ->. cbn [OriginalVesting]. rewrite Sort_same, Ez. cbn [negb]. rewrite andb_true_r.
  destruct (Coins_IsZero coins) eqn:Ec; [done|]. cbn [orb].
  destruct (Coins_IsAnyGT vesting coins) eqn:Eg; [done|]. cbn [guard_err mbind result_bind].
  assert (Hle : forall d, amount coins d <> 0 -> amount vesting d <= amount coins d).
  { intros d Hd. apply Z.nlt_ge. intros Hlt. apply not_true_iff_false in Eg. apply Eg, IsAnyGT_spec. eauto. }
  assert (Hex : ~ forall d, amount coins d = 0) by (rewrite <- IsZero_spec; by rewrite Ec).
  assert (Hex' : exists d, amount coins d <> 0).
  { destruct (decide (map_Forall (fun _ v => v = 0) coins)) as [Hall|Hn].
    - destruct Hex. intros d. unfold amount. destruct (coins !! d) eqn:Ed; [|done]. cbn. by apply (Hall d).
    - apply map_not_Forall in Hn as (d & v & Hd & Hv); [|apply _]. exists d. unfold amount. by rewrite Hd. }
  destruct (Z.eqb_spec vend 0) as [->|Hv].
  - rewrite andb_false_r. done.
  - destruct (negb (vstart =? 0)); cbn [andb negb]; intros [= <-]; (split; [done|]); right; done.
Qed.

(** adding a genesis account keeps the genesis file coherent.  A run that fails
    leaves the file as it is.  A run that succeeds adds one account, whose address
    no account of the file had, and one balance, and adds its coins to the supply:
    a file with distinct accounts, whose supply is the sum of its balances, stays
    one.  Of each denomination the new account holds, it holds at least what it
    has vesting. *)
Theorem genesis_account_added args readable write f f' r :
  file_ok f -> AddGenesisAccount args readable write f = (r, f') ->
  match r with
  | Err _ => f' = f
  | Ok _ =>
      file_ok f' /\
      exists addr coins accs accs', account_address args = Ok addr /\
      ParseCoinsNormalized (arg_coins args) = Ok coins /\
      UnpackAccounts (gf_Accounts f) = Ok accs /\ UnpackAccounts (gf_Accounts f') = Ok accs' /\
      (addr ∉ map acc_address accs) /\ (map acc_address accs' ≡ₚ map acc_address accs ++ [addr]) /\
      (gf_Balances f' ≡ₚ gf_Balances f ++ [mkBalance (AccAddress_String addr) coins]) /\
      (forall d, amount (gf_Supply f') d = amount (gf_Supply f) d + amount coins d) /\
      exists vesting, ParseCoinsNormalized (flag_vestingAmt args) = Ok vesting /\
      ((forall d, amount vesting d = 0) \/
       forall d, amount coins d <> 0 -> amount vesting d <= amount coins d)
  end.
Proof.
  intros (accs & Hu & Hnd & Hs). unfold AddGenesisAccount. cbv [mbind M_bind gets lift modify id].
  destruct (account_address args) as [addr|] eqn:Ea; [|by intros [= <- <-]].
  destruct (wrap_err _ (ParseCoinsNormalized (arg_coins args))) as [coins|] eqn:Ec; [|by intros [= <- <-]].
  destruct (wrap_err _ (ParseCoinsNormalized (flag_vestingAmt args))) as [vest|] eqn:Ev; [|by intros [= <- <-]].
  apply wrap_err_ok in Ec, Ev. cbv zeta. cbn [bal_Coins]. rewrite Sort_same.
  destruct (new_account _ _ _ _ _) as [acc|] eqn:En; [|by intros [= <- <-]].
  apply new_account_ok in En as [Hacc Hvest].
  destruct (wrap_err _ (GenesisAccount_Validate acc)) as [[]|]; [|by intros [= <- <-]].
  destruct (guard_err (negb readable) _) as [[]|]; [|by intros [= <- <-]].
  rewrite Hu. cbn [wrap_err].
  destruct (Accounts_Contains accs addr) eqn:Eco; cbn [guard_err]; [by intros [= <- <-]|].
  destruct (wrap_err _ (PackAccounts _)) as [anys|] eqn:Ep; [|by intros [= <- <-]]. apply wrap_err_ok in Ep.
  destruct (wrap_err _ (MarshalAuth anys)) as [[]|]; [|by intros [= <- <-]].
  destruct (wrap_err _ (MarshalBank _ _)) as [[]|]; [|by intros [= <- <-]].
  destruct (wrap_err _ (MarshalAppState _ _ _)) as [[]|]; [|by intros [= <- <-]].
  destruct write as [[]|]; [|by intros [= <- <-]]. intros [= <- <-].
  assert (Hnew : addr ∉ map acc_address accs) by (rewrite <- Contains_spec, Eco; done).
  pose proof (SanitizeAccounts_addresses (accs ++ [acc])) as Hp. rewrite map_app in Hp. cbn [map] in Hp. rewrite Hacc in Hp.
  apply Unpack_Pack in Ep. split.
  - exists (SanitizeGenesisAccounts (accs ++ [acc])). split; [done|]. split.
    + rewrite Hp. apply NoDup_app. split; [done|]. split; [|apply NoDup_singleton]. intros x Hx Hx'.
      apply list_elem_of_singleton in Hx'. by subst.
    + intros d. cbn [gf_Supply gf_Balances]. rewrite Add_amount, SanitizeBalances_perm, total_app, Hs. cbn. lia.
  - exists addr, coins, accs, (SanitizeGenesisAccounts (accs ++ [acc])). split_and!; try done.
    + cbn [gf_Balances]. by rewrite SanitizeBalances_perm.
    + intros d. apply Add_amount.
    + exists vest. split; [done|]. destruct Hvest as [?|(_ & _ & ?)]; [by left|by right].
Qed.

(** The check compares only the denominations the account holds: coins of another
    denomination can be declared vesting without being held. *)
Theorem vesting_of_absent_denomination addr coins vesting vend v held other :
  vend <> 0 -> amount coins held <> 0 -> amount coins other = 0 -> amount vesting other = 5 ->
  (forall d, d <> other -> amount vesting d = 0) ->
  NewBaseVestingAccount (mkBaseAccount addr 0 0) (Coins_Sort vesting) vend = Ok v ->
  (forall d, 0 <= amount coins d) ->
  exists acc, new_account addr coins vesting 0 vend = Ok (DelayedVestingAcc acc) /\
  amount coins other < amount (OriginalVesting acc) other.
Proof.
  intros Hv Hh Ho Hvo Hd Ev Hnn. pose proof Ev as Ev'. apply NewBaseVesting_spec in Ev' as ->. rewrite Sort_same in Ev.
  exists (mkBaseVestingAccount (mkBaseAccount addr 0 0) vesting vend). cbn [OriginalVesting]. split; [|lia].
  unfold new_account. assert (Coins_IsZero vesting = false) as ->.
  { apply not_true_iff_false. rewrite IsZero_spec. intros H. specialize (H other). lia. }
  cbn [negb]. rewrite Sort_same, Ev. cbn [mbind result_bind OriginalVesting].
  assert (Coins_IsZero coins = false) as ->.
  { apply not_true_iff_false. rewrite IsZero_spec. intros H. by rewrite H in Hh. }
  assert (Coins_IsAnyGT vesting coins = false) as ->.
  { apply not_true_iff_false. rewrite IsAnyGT_spec. intros (d & Hlt & Hne).
    destruct (decide (d = other)) as [->|Hdo]; [done|]. rewrite (Hd d Hdo) in Hlt. specialize (Hnn d). lia. }
  cbn [andb orb guard_err mbind result_bind negb Z.eqb]. by rewrite (proj2 (Z.eqb_neq _ _)).
Qed.
End properties.

(** ** Witnesses *)

Module DemoGen.
(** Accounts are stored as they are, sanitizing keeps the order, and the text of a
    set of coins is a list of one-letter denominations, one coin each. *)
Definition demo_parse (s : bytes) : result Coins :=
  Ok (fold_right (fun b c => <[[b] := amount c [b] + 1]> c) ∅ s).

Definition demo_gt (a b : Coins) : bool :=
  bool_decide (map_Exists (fun d v => v <> 0 /\ v < amount a d) b).

#[global] Instance demo_gen : GenLib := {|
  Any := GenesisAccount;
  Keyring := unit;
  NewKeyring _ := Ok tt;
  Keyring_Key _ _ := Err (ErrPlain "key not found");
  ParseCoinsNormalized := demo_parse;
  Coins_Sort c := c;
  Coins_IsZero c := bool_decide (map_Forall (fun _ v => v = 0) c);
  Coins_IsAnyGT := demo_gt;
  Coins_Add := coins_op Z.add;
  NewBaseVestingAccount a c e := Ok (mkBaseVestingAccount a c e);
  GenesisAccount_Validate _ := Ok tt;
  PackAccounts accs := Ok accs;
  UnpackAccounts accs := Ok accs;
  Accounts_Contains accs a := bool_decide (a ∈ map acc_address accs);
  SanitizeGenesisAccounts accs := accs;
  SanitizeGenesisBalances bals := bals;
  MarshalAuth _ := Ok tt;
  MarshalBank _ _ := Ok tt;
  MarshalAppState _ _ _ := Ok tt
|}.

#[global] Instance demo_gen_laws : GenLibLaws.
Proof.
  split; cbn; try done.
  - intros c. rewrite bool_decide_eq_true. unfold map_Forall, amount. split.
    + intros H d. destruct (c !! d) eqn:E; [|done]. cbn. by apply (H d).
    + intros H d v E. specialize (H d). by rewrite E in H.
  - intros a b. unfold demo_gt. rewrite bool_decide_eq_true. split.
    + intros (d & v & E & Hv & Hlt). exists d. unfold amount at 1 3. by rewrite E.
    + intros (d & Hlt & Hne). unfold amount at 1 in Hlt. unfold amount in Hne.
      destruct (b !! d) as [v|] eqn:E; [|done]. by exists d, v.
  - intros a b d. by apply amount_op.
  - intros a c e v [= <-]. done.
  - intros accs a. apply bool_decide_eq_true.
Qed.

Definition alice : bytes := replicate 20 x0a.

Definition args : GenArgs := mkGenArgs (addr_to_text alice) (bs "nnn") [] 0 100 (bs "n") None.
Definition empty : GenesisFile := mkGenesisFile ([] : list Any) [] ∅.
Definition after : GenesisFile := (AddGenesisAccount args true (Ok tt) empty).2.

Lemma account_runs : AddGenesisAccount args true (Ok tt) empty = (Ok tt, after).
Proof. unfold after. by rewrite (surjective_pairing (AddGenesisAccount _ _ _ _)) at 1. Qed.

Lemma empty_ok : file_ok empty.
Proof. exists []. split; [done|]. split; [apply NoDup_nil_2|done]. Qed.
End DemoGen.

Lemma genesis_account_added_witness :
  file_ok DemoGen.after /\ amount (gf_Supply DemoGen.after) (bs "n") = 3.
Proof.
  destruct (genesis_account_added DemoGen.args true (Ok tt) DemoGen.empty DemoGen.after (Ok tt)
    DemoGen.empty_ok DemoGen.account_runs) as [H _].
  split; [exact H|vm_compute; reflexivity].
Defined.

(** An account with three coins of one denomination and one of another vesting. *)
Example absent_denomination_accepted :
  is_ok (AddGenesisAccount (mkGenArgs (addr_to_text DemoGen.alice) (bs "nnn") [] 0 100 (bs "x") None) true (Ok tt)
    DemoGen.empty).1 = true.
Proof. vm_compute. reflexivity. Qed.
