(* ===== verification/ChainId.v ===== *)
(** The EVM chain id of a node: src/app/config.go.

    At start-up the node takes the chain id from the table of known chains, from
    app.toml, or from the text of the Cosmos chain id, in this order. *)

From S2P Require Import Prelude Types.

(** ** Strings *)

(** The UTF-8 forms of the characters [unicode.IsSpace] accepts. *)
Definition spaces : list bytes :=
  [[x09]; [x0a]; [x0b]; [x0c]; [x0d]; [x20]; [xc2; x85]; [xc2; xa0]; [xe1; x9a; x80];
   [xe2; x80; x80]; [xe2; x80; x81]; [xe2; x80; x82]; [xe2; x80; x83]; [xe2; x80; x84]; [xe2; x80; x85];
   [xe2; x80; x86]; [xe2; x80; x87]; [xe2; x80; x88]; [xe2; x80; x89]; [xe2; x80; x8a];
   [xe2; x80; xa8]; [xe2; x80; xa9]; [xe2; x80; xaf]; [xe2; x81; x9f]; [xe3; x80; x80]].

(** The string without one of [seps] in front, if it starts with one. *)
Fixpoint strip_one (seps : list bytes) (s : bytes) : option bytes :=
  match seps with
  | [] => None
  | sep :: seps' => if bool_decide (take (length sep) s = sep) then Some (drop (length sep) s)
                    else strip_one seps' s
  end.

Fixpoint strip (fuel : nat) (seps : list bytes) (s : bytes) : bytes :=
  match fuel with
  | O => s
  | S fuel' => match strip_one seps s with Some s' => strip fuel' seps s' | None => s end
  end.

(** [strings.TrimSpace]: each character takes a byte at least. *)
Definition TrimSpace (s : bytes) : bytes :=
  let s := strip (length s) spaces s in
  reverse (strip (length s) (map reverse spaces) (reverse s)).

Definition is_lower (b : byte) : bool := (97 <=? b2z b) && (b2z b <=? 122).
Definition is_dec (b : byte) : bool := (48 <=? b2z b) && (b2z b <=? 57).
Definition is_nonzero (b : byte) : bool := (49 <=? b2z b) && (b2z b <=? 57).

(** The longest prefix of characters [p] accepts, and the rest. *)
Fixpoint span (p : byte -> bool) (s : bytes) : bytes * bytes :=
  match s with
  | [] => ([], [])
  | b :: s' => if p b then let '(a, r) := span p s' in (b :: a, r) else ([], s)
  end.

(** [strconv.Atoi]: a sign, then digits; an [int] has 64 bits. *)
Definition Atoi (s : bytes) : result Z :=
  let '(neg, d) := match s with
                   | b :: r => if bool_decide (b = x2d) then (true, r)
                               else if bool_decide (b = x2b) then (false, r) else (false, s)
                   | [] => (false, s)
                   end in
  _ ← guard_err (is_empty d || negb (forallb is_dec d)) (ErrPlain "invalid syntax");
  let v := if (neg : bool) then - digits_value d else digits_value d in
  _ ← guard_err ((v <? - 2 ^ 63) || (2 ^ 63 <=? v)) (ErrPlain "value out of range");
  Ok v.

(** ** [ParseChainID] *)

(** A digit other than zero and more digits, from the start of the string. *)
Definition scan_number (s : bytes) : option (bytes * bytes) :=
  let '(n, r) := span is_dec s in
  match n with
  | b :: _ => if is_nonzero b then Some (n, r) else None
  | [] => None
  end.

Definition scan_char (c : byte) (s : bytes) : option bytes :=
  match s with b :: r => if bool_decide (b = c) then Some r else None | [] => None end.

(** [evmosChainID.FindStringSubmatch]: the whole match and the three groups of the
    pattern, which is anchored at both ends: lower-case letters, an underscore, a
    number, a hyphen, a number. *)
Definition FindStringSubmatch (s : bytes) : option (list bytes) :=
  let '(chain, r) := span is_lower s in
  _ ← (if is_empty chain then None else Some ());
  r ← scan_char x5f r;
  '(eip155, r) ← scan_number r;
  r ← scan_char x2d r;
  '(epoch, r) ← scan_number r;
  if is_empty r then Some [s; chain; eip155; epoch] else None.

Definition ErrChainIDLength : err := ErrPlain "chain-id cannot exceed 48 chars".
Definition ErrChainIDFormat : err := ErrPlain "invalid chain-id".
Definition ErrChainIDEpoch : err := ErrPlain "epoch must be base-10 integer format".

Definition ParseChainID (chainID : bytes) : result Z :=
  let chainID := TrimSpace chainID in
  _ ← guard_err (48 <? blen chainID) ErrChainIDLength;
  match FindStringSubmatch chainID with
  | Some [_; m1; m2; _] =>
      _ ← guard_err (is_empty m1) ErrChainIDFormat;
      match Atoi m2 with
      | Ok chainIDInt => Ok (wrap64 chainIDInt)
      | Err _ => Err ErrChainIDEpoch
      end
  | _ => Err ErrChainIDFormat
  end.

(** ** Start-up *)

Definition EVMChainIDMap : gmap bytes Z :=
  list_to_map [(bs "nvnm-1", 1611); (bs "manveniam-1", 58887);
               (bs "nvnm-testnet-1", 787111); (bs "nvnmchain-canary-net-1", 59888)].

(** The value of [EVMChainID] before [init] runs. *)
Definition EVMChainID_default : Z := 58886.

(** What [init] sees of the node's home: [GetNodeHomeDirectory], the genesis file
    with the chain id [ParseChainIDFromGenesis] reads in it, and app.toml with the
    value of evm.evm-chain-id, if it is set. *)
Record NodeHome := mkNodeHome {
  home_dir : result bytes;
  genesis_stat : result unit;
  genesis_open : result unit;
  genesis_chain_id : result bytes;
  toml_stat : result unit;
  toml_read : result (option Z)
}.

(** [os.IsNotExist] *)
Definition ErrNotExist : err := ErrPlain "file does not exist".
Definition IsNotExist (e : err) : bool :=
  match e with ErrPlain m => bool_decide (m = "file does not exist"%string) | _ => false end.

(** [if err != nil && !os.IsNotExist(err) { panic(err) }] *)
Definition panic_unless_missing {A} (r : result A) : result unit :=
  match r with
  | Err e => if IsNotExist e then Ok tt else Err e
  | Ok _ => Ok tt
  end.

(** The chain id of the genesis file, and the last error. *)
Definition read_genesis (h : NodeHome) : bytes * result unit :=
  match genesis_stat h with
  | Err e => ([], Err e)
  | Ok _ => match genesis_open h with
            | Err e => ([], Err e)
            | Ok _ => match genesis_chain_id h with
                      | Ok chainID => (chainID, Ok tt)
                      | Err e => ([], Err e)
                      end
            end
  end.

(** The value app.toml sets, if it can be read, and the last error. *)
Definition read_toml (h : NodeHome) : option Z * result unit :=
  match toml_stat h with
  | Err e => (None, Err e)
  | Ok _ => match toml_read h with
            | Err e => (None, Err e)
            | Ok v => (v, Ok tt)
            end
  end.

(** [init]: the value it leaves in [EVMChainID], or the error it panics with. *)
Definition init (h : NodeHome) : result Z :=
  _ ← home_dir h;
  let '(chainID, err) := read_genesis h in
  match (if is_empty chainID then None else EVMChainIDMap !! chainID) with
  | Some evmChainID => Ok evmChainID
  | None =>
      _ ← panic_unless_missing err;
      let '(toml, err) := read_toml h in
      match toml with
      | Some evmChainID => Ok evmChainID
      | None =>
          if negb (is_empty chainID) then ParseChainID chainID else
          _ ← panic_unless_missing err;
          Ok EVMChainID_default
      end
  end.

(** ** Trimming *)

(** No element of the list is a proper prefix of another, and none is empty. *)
Definition prefix_free (seps : list bytes) : Prop :=
  Forall (fun x => x <> []) seps /\
  Forall (fun x => Forall (fun y => take (length x) y = x -> x = y) seps) seps.

Lemma take_comparable (x y r : bytes) :
  take (length x) (y ++ r) = x -> take (length x) y = x \/ take (length y) x = y.
Proof.
  intros E. destruct (decide (length x <= length y)%nat).
  - left. by rewrite take_app_le in E.
  - right. rewrite <- E. rewrite take_take. rewrite Nat.min_l by lia. by rewrite take_app_length.
Qed.

Lemma strip_one_sep seps sep r : prefix_free seps -> sep ∈ seps -> strip_one seps (sep ++ r) = Some r.
Proof.
  intros [_ Hpf] Hin. rewrite Forall_forall in Hpf.
  assert (Hpf' : forall x y, x ∈ seps -> y ∈ seps -> take (length x) y = x -> x = y).
  { intros x y Hx Hy. specialize (Hpf x Hx). rewrite Forall_forall in Hpf. by apply Hpf. }
  clear Hpf. assert (Hsub : forall x, x ∈ seps -> x ∈ seps) by done. revert Hin Hsub.
  generalize seps at 1 2 4. intros l. induction l as [|x l IH]; intros Hin Hsub; [by apply not_elem_of_nil in Hin|].
  cbn [strip_one]. case_bool_decide as E.
  - assert (x = sep) as ->; [|by rewrite drop_app_length].
    assert (Hx : x ∈ seps) by (apply Hsub; set_solver). assert (Hs : sep ∈ seps) by (by apply Hsub).
    destruct (take_comparable x sep r E); [by apply Hpf'|by symmetry; apply Hpf'].
  - apply IH; [|set_solver]. apply elem_of_cons in Hin as [->|]; [|done].
    destruct E. by rewrite take_app_length.
Qed.

Lemma strip_one_none seps s : Forall (fun sep => take (length sep) s <> sep) seps -> strip_one seps s = None.
Proof.
  induction seps as [|x seps IH]; intros Hf; [done|]. apply Forall_cons in Hf as [Hx Hf]. cbn [strip_one].
  rewrite bool_decide_eq_false_2 by done. by apply IH.
Qed.

Lemma strip_concat seps (l : list bytes) r fuel :
  prefix_free seps -> Forall (fun x => x ∈ seps) l -> Forall (fun sep => take (length sep) r <> sep) seps ->
  (length (concat l ++ r) <= fuel)%nat -> strip fuel seps (concat l ++ r) = r.
Proof.
  intros Hpf Hl Hr. revert fuel. induction l as [|x l IH]; intros fuel Hfu; cbn [concat app] in *.
  - destruct fuel; [done|]. cbn [strip]. by rewrite strip_one_none.
  - apply Forall_cons in Hl as [Hx Hl]. pose proof (proj1 Hpf) as Hne. rewrite Forall_forall in Hne.
    specialize (Hne x Hx). rewrite <- app_assoc in Hfu |- *. rewrite length_app in Hfu.
    destruct x as [|b x]; [done|]. destruct fuel as [|fuel]; [cbn in Hfu; lia|].
    cbn [strip]. rewrite strip_one_sep by done. apply IH; [done|]. cbn in Hfu. lia.
Qed.

Lemma spaces_prefix_free : prefix_free spaces /\ prefix_free (map reverse spaces).
Proof. by_eval. Qed.

(** ** The pattern *)

Definition all (p : byte -> bool) (s : bytes) : Prop := Forall (fun b => p b = true) s.

(** What the three groups of the pattern match. *)
Definition is_word (s : bytes) : Prop := s <> [] /\ all is_lower s.
Definition is_number (s : bytes) : Prop :=
  all is_dec s /\ match s with [] => False | b :: _ => is_nonzero b = true end.

Lemma span_spec p s a r : span p s = (a, r) ->
  s = a ++ r /\ all p a /\ match r with [] => True | b :: _ => p b = false end.
Proof.
  revert a r. induction s as [|b s IH]; intros a r E; cbn [span] in E.
  - injection E as <- <-. repeat constructor.
  - destruct (p b) eqn:Eb; [|injection E as <- <-; repeat split; [constructor|done]].
    destruct (span p s) as [a' r']. injection E as <- <-. destruct (IH _ _ eq_refl) as (-> & Ha & Hr).
    split; [done|]. split; [by constructor|done].
Qed.

Lemma span_app p a r : all p a -> match r with [] => True | b :: _ => p b = false end ->
  span p (a ++ r) = (a, r).
Proof.
  intros Ha Hr. induction a as [|b a IH]; cbn [app span].
  - destruct r as [|b r]; [done|]. cbn [span]. by rewrite Hr.
  - apply Forall_cons in Ha as [Hb Ha]. by rewrite Hb, IH.
Qed.

Lemma scan_number_spec s n r : scan_number s = Some (n, r) -> s = n ++ r /\ is_number n.
Proof.
  unfold scan_number. destruct (span is_dec s) as [n' r'] eqn:E. apply span_spec in E as (-> & Hn & _).
  destruct n' as [|b n']; [done|]. destruct (is_nonzero b) eqn:Eb; [|done]. intros [= <- <-]. done.
Qed.

Lemma scan_number_app n r : is_number n -> match r with [] => True | b :: _ => is_dec b = false end ->
  scan_number (n ++ r) = Some (n, r).
Proof.
  intros [Hn Hb] Hr. unfold scan_number. rewrite span_app by done. destruct n; [done|]. by rewrite Hb.
Qed.

Lemma FindStringSubmatch_spec s l : FindStringSubmatch s = Some l <->
  exists chain eip155 epoch, is_word chain /\ is_number eip155 /\ is_number epoch /\
  s = chain ++ x5f :: eip155 ++ x2d :: epoch /\ l = [s; chain; eip155; epoch].
Proof.
  unfold FindStringSubmatch. split.
  - destruct (span is_lower s) as [chain r] eqn:E. apply span_spec in E as (Es & Hc & _).
    destruct chain as [|b chain]; [done|]. cbn [is_empty mbind option_bind].
    destruct r as [|b1 r]; [done|]. cbn [scan_char]. case_bool_decide; [|done]. subst b1. cbn [mbind option_bind].
    destruct (scan_number r) as [[n1 r1]|] eqn:E1; [|done]. apply scan_number_spec in E1 as [-> H1]. cbn.
    destruct r1 as [|b2 r1]; [done|]. cbn [scan_char]. case_bool_decide; [|done]. subst b2. cbn.
    destruct (scan_number r1) as [[n2 r2]|] eqn:E2; [|done]. apply scan_number_spec in E2 as [-> H2]. cbn.
    destruct r2; [|done]. intros [= <-]. exists (b :: chain), n1, n2. rewrite app_nil_r in Es. done.
  - intros (chain & n1 & n2 & [Hne Hc] & H1 & H2 & -> & ->).
    rewrite span_app by done. destruct chain as [|b chain]; [done|]. cbn [is_empty mbind option_bind scan_char].
    rewrite bool_decide_eq_true_2 by done. cbn [mbind option_bind]. rewrite scan_number_app by done.
    cbn [mbind option_bind scan_char]. rewrite bool_decide_eq_true_2 by done. cbn [mbind option_bind].
    pose proof (scan_number_app n2 [] H2 I) as E. rewrite app_nil_r in E. rewrite E. done.
Qed.

Lemma number_not_sign n : is_number n -> exists b r, n = b :: r /\ b <> x2d /\ b <> x2b.
Proof.
  intros [_ Hb]. destruct n as [|b r]; [done|]. exists b, r. split; [done|].
  split; intros ->; discriminate Hb.
Qed.

Lemma digits_value_nonneg s : all is_dec s -> 0 <= digits_value s.
Proof.
  intros Hs. induction s as [|b s IH] using rev_ind; [done|].
  apply Forall_app in Hs as [Hs [Hb _]%Forall_cons]. unfold digits_value in *. rewrite fold_left_app. cbn [fold_left].
  specialize (IH Hs). unfold digit_value, is_dec in *. lia.
Qed.

Lemma Atoi_number n : is_number n ->
  Atoi n = if digits_value n <? 2 ^ 63 then Ok (digits_value n) else Err (ErrPlain "value out of range").
Proof.
  intros Hn. pose proof (digits_value_nonneg n (proj1 Hn)) as Hnn. destruct (number_not_sign n Hn) as (b & r & E & H1 & H2).
  rewrite E. unfold Atoi. cbv iota beta. rewrite !bool_decide_eq_false_2 by done. cbv iota beta. rewrite <- !E.
  assert (is_empty n = false) as -> by (by rewrite E).
  assert (forallb is_dec n = true) as ->.
  { apply forallb_forall. intros x Hx. destruct Hn as [Hn _]. unfold all in Hn.
    rewrite Forall_forall in Hn. apply Hn. by apply list_elem_of_In. }
  cbn [orb negb guard_err mbind result_bind]. rewrite (proj2 (Z.ltb_ge _ _)) by lia. cbn [orb].
  rewrite Z.leb_antisym. by destruct (_ <? 2 ^ 63).
Qed.

(** ** The whole text *)

Lemma take_first_ne (sep s : bytes) b c : head sep = Some b -> head s = Some c -> b <> c ->
  take (length sep) s <> sep.
Proof. destruct sep, s; cbn; congruence. Qed.

(** No space starts or ends with a letter or a digit. *)
Definition starts_outside (sep : bytes) : bool :=
  match sep with b :: _ => negb (is_lower b || is_dec b) | [] => false end.

Lemma not_space seps s c : Forall (fun sep => starts_outside sep = true) seps ->
  head s = Some c -> is_lower c || is_dec c = true -> Forall (fun sep => take (length sep) s <> sep) seps.
Proof.
  intros Hs Hc Hl. eapply Forall_impl; [exact Hs|]. intros [|b sep] Hn; [done|]. cbn [starts_outside] in Hn.
  apply (take_first_ne (b :: sep) s b c eq_refl Hc). intros ->. by rewrite Hl in Hn.
Qed.

Lemma spaces_outside : Forall (fun sep => starts_outside sep = true) (spaces ++ map reverse spaces).
Proof. by_eval. Qed.

Lemma reverse_concat (l : list bytes) : reverse (concat l) = concat (reverse (map reverse l)).
Proof.
  induction l as [|x l IH]; [done|]. cbn [concat map]. rewrite reverse_app, IH, reverse_cons, concat_app.
  cbn [concat]. by rewrite app_nil_r.
Qed.

(** A chain id between spaces is what trimming leaves. *)
Lemma TrimSpace_spec pre core post a z :
  Forall (fun x => x ∈ spaces) pre -> Forall (fun x => x ∈ spaces) post ->
  head core = Some a -> last core = Some z -> is_lower a || is_dec a = true -> is_lower z || is_dec z = true ->
  TrimSpace (concat pre ++ core ++ concat post) = core.
Proof.
  intros Hpre Hpost Ha Hz Hla Hlz. unfold TrimSpace.
  pose proof spaces_outside as Hs. apply Forall_app in Hs as [Hs1 Hs2].
  rewrite strip_concat; [|apply spaces_prefix_free|done| |lia].
  2:{ apply (not_space _ _ a); [done|by destruct core|done]. }
  rewrite reverse_app, reverse_concat.
  rewrite strip_concat; [apply reverse_involutive|apply spaces_prefix_free| | |].
  - apply Forall_reverse, Forall_map. eapply Forall_impl; [exact Hpost|]. intros x Hx.
    by apply list_elem_of_fmap_2.
  - apply (not_space _ _ z); [done|by rewrite head_reverse|done].
  - rewrite length_app, <- reverse_concat, !length_reverse, length_app. lia.
Qed.

Lemma strip_split seps fuel s : exists l, Forall (fun x => x ∈ seps) l /\ s = concat l ++ strip fuel seps s.
Proof.
  assert (H1 : forall l t t', strip_one l t = Some t' -> exists sep, sep ∈ l /\ t = sep ++ t').
  { induction l as [|x l IH]; intros t t' E; [done|]. cbn [strip_one] in E. case_bool_decide as Ex.
    - injection E as <-. exists x. split; [set_solver|]. by rewrite <- Ex at 1; rewrite take_drop.
    - destruct (IH _ _ E) as (sep & ? & ?). exists sep. split; [set_solver|done]. }
  revert s. induction fuel as [|fuel IH]; intros s; cbn [strip]; [by exists []|].
  destruct (strip_one seps s) as [s'|] eqn:E; [|by exists []].
  destruct (H1 _ _ _ E) as (sep & Hin & ->). destruct (IH s') as (l & Hl & E'). exists (sep :: l).
  split; [by constructor|]. cbn [concat]. rewrite <- app_assoc. by rewrite <- E'.
Qed.

Lemma TrimSpace_split s : exists pre post, Forall (fun x => x ∈ spaces) pre /\ Forall (fun x => x ∈ spaces) post /\
  s = concat pre ++ TrimSpace s ++ concat post.
Proof.
  unfold TrimSpace. destruct (strip_split spaces (length s) s) as (pre & Hpre & Es).
  set (t := strip (length s) spaces s) in *.
  destruct (strip_split (map reverse spaces) (length t) (reverse t)) as (post & Hpost & Et).
  set (u := strip (length t) _ _) in *. apply (f_equal reverse) in Et.
  rewrite reverse_involutive, reverse_app, reverse_concat in Et.
  exists pre, (reverse (map reverse post)). split; [done|]. split; [|by rewrite Es, <- Et].
  apply Forall_reverse, Forall_map. eapply Forall_impl; [exact Hpost|].
  intros x (y & -> & Hy)%list_elem_of_fmap. by rewrite reverse_involutive.
Qed.

(** A chain id in the format the node can parse, and the EVM chain id in it. *)
Definition chain_id_format (core : bytes) (n : Z) : Prop :=
  exists chain eip155 epoch, is_word chain /\ is_number eip155 /\ is_number epoch /\
  core = chain ++ x5f :: eip155 ++ x2d :: epoch /\ n = digits_value eip155 /\ n < 2 ^ 63.

Lemma format_ends core n : chain_id_format core n ->
  exists a z, head core = Some a /\ last core = Some z /\
  is_lower a || is_dec a = true /\ is_lower z || is_dec z = true.
Proof.
  intros (chain & n1 & n2 & [Hne Hc] & _ & [H2 Hn2] & -> & _).
  destruct chain as [|a chain]; [done|]. destruct n2 as [|b n2] using rev_ind; [done|].
  exists a, b. split; [done|]. split.
  - rewrite !app_comm_cons, !app_assoc. apply last_snoc.
  - apply Forall_cons in Hc as [-> _]. apply Forall_app in H2 as [_ [-> _]%Forall_cons].
    by rewrite orb_true_r.
Qed.

(** The outcome of a match. *)
Lemma parse_match s l chain eip155 epoch :
  blen (TrimSpace s) <= 48 -> FindStringSubmatch (TrimSpace s) = Some l -> is_word chain -> is_number eip155 ->
  l = [TrimSpace s; chain; eip155; epoch] ->
  ParseChainID s = if digits_value eip155 <? 2 ^ 63 then Ok (digits_value eip155) else Err ErrChainIDEpoch.
Proof.
  intros Hl E [Hne _] Hn ->. unfold ParseChainID. rewrite (proj2 (Z.ltb_ge _ _)) by done.
  cbn [guard_err mbind result_bind]. rewrite E. destruct chain as [|b chain]; [done|].
  cbn [is_empty guard_err mbind result_bind]. rewrite Atoi_number by done.
  pose proof (digits_value_nonneg eip155 (proj1 Hn)).
  destruct (Z.ltb_spec (digits_value eip155) (2 ^ 63)); [|done]. unfold wrap64. rewrite Z.mod_small; [done|].
  unfold two64. assert (2 ^ 63 < 2 ^ 64) by done. lia.
Qed.

(** C38: [ParseChainID] accepts exactly the chain ids of its format, lower-case
    letters, an underscore, the EVM chain id, a hyphen and an epoch, both numbers
    without leading zeros, in at most 48 characters between white space, whose EVM
    chain id is below 2^63, and returns that number. *)
Theorem ParseChainID_exact s n :
  ParseChainID s = Ok n <->
  exists pre core post, Forall (fun x => x ∈ spaces) pre /\ Forall (fun x => x ∈ spaces) post /\
  s = concat pre ++ core ++ concat post /\ blen core <= 48 /\ chain_id_format core n.
Proof.
  split.
  - intros E. destruct (TrimSpace_split s) as (pre & post & Hpre & Hpost & Es).
    exists pre, (TrimSpace s), post. split; [done|]. split; [done|]. split; [done|].
    assert (Hl : blen (TrimSpace s) <= 48).
    { unfold ParseChainID in E. destruct (Z.ltb_spec 48 (blen (TrimSpace s))); [done|lia]. }
    split; [done|]. destruct (FindStringSubmatch (TrimSpace s)) as [l|] eqn:Em.
    + pose proof Em as Em'. apply FindStringSubmatch_spec in Em' as (chain & n1 & n2 & Hc & H1 & H2 & Ec & El).
      rewrite (parse_match s l chain n1 n2) in E by done.
      destruct (Z.ltb_spec (digits_value n1) (2 ^ 63)); [|done]. injection E as <-.
      exists chain, n1, n2. done.
    + unfold ParseChainID in E. rewrite Em in E. by destruct (48 <? _).
  - intros (pre & core & post & Hpre & Hpost & Es & Hl & Hf).
    destruct (format_ends core n Hf) as (a & z & Ha & Hz & Hla & Hlz).
    assert (Et : TrimSpace s = core) by (rewrite Es; by apply (TrimSpace_spec pre core post a z)).
    destruct Hf as (chain & n1 & n2 & Hc & H1 & H2 & Ec & -> & Hlt).
    assert (Em : FindStringSubmatch core = Some [core; chain; n1; n2])
      by (apply FindStringSubmatch_spec; exists chain, n1, n2; done).
    rewrite <- Et in Em, Hl. rewrite (parse_match s _ chain n1 n2 Hl Em Hc H1) by (by rewrite Et).
    by rewrite (proj2 (Z.ltb_lt _ _)).
Qed.

(** ** Start-up *)

(** A node home with readable files: the chain id of the genesis file, if there is
    one, and the value app.toml sets, if there is one and it does. *)
Definition readable (genesis : option bytes) (toml : option (option Z)) : NodeHome := {|
  home_dir := Ok [];
  genesis_stat := if genesis is Some _ then Ok tt else Err ErrNotExist;
  genesis_open := Ok tt;
  genesis_chain_id := Ok (default [] genesis);
  toml_stat := if toml is Some _ then Ok tt else Err ErrNotExist;
  toml_read := Ok (default None toml)
|}.

(** The order in which the node looks for its EVM chain id. *)
Definition chosen_chain_id (chainID : bytes) (toml : option Z) : result Z :=
  match EVMChainIDMap !! chainID, toml with
  | Some n, _ => Ok n
  | None, Some n => Ok n
  | None, None => if is_empty chainID then Ok EVMChainID_default else ParseChainID chainID
  end.

(** How a node finds its EVM chain id.  With readable files, a chain of the
    table gets the table's number whatever app.toml says; otherwise the number
    app.toml sets; otherwise the number in the chain id, and a chain id that has
    none stops the node; the default is used only when neither file gives a chain
    id.  A genesis that cannot be read stops the node, and so does an app.toml that
    cannot be read when there is no genesis; with a chain id that parses, that app.toml
    is ignored. *)
Theorem init_order h genesis toml :
  init (readable genesis toml) = chosen_chain_id (default [] genesis) (default None toml) /\
  (forall e, IsNotExist e = false -> is_ok (home_dir h) = true -> (read_genesis h).2 = Err e -> init h = Err e) /\
  (forall e, IsNotExist e = false -> is_ok (home_dir h) = true -> read_genesis h = ([], Err ErrNotExist) ->
     (read_toml h) = (None, Err e) -> init h = Err e) /\
  (forall e chainID, is_ok (home_dir h) = true -> read_genesis h = (chainID, Ok tt) -> chainID <> [] ->
     EVMChainIDMap !! chainID = None -> read_toml h = (None, Err e) -> init h = ParseChainID chainID).
Proof.
  split_and!.
  - unfold init, chosen_chain_id. destruct genesis as [[|b g]|], toml as [[v|]|]; try reflexivity; cbn [readable home_dir read_genesis genesis_stat genesis_open genesis_chain_id default from_option mbind result_bind is_empty id];
      destruct (EVMChainIDMap !! (b :: g)); reflexivity.
  - intros e He Hh Hg. unfold init. destruct (home_dir h); [|done]. cbn [mbind result_bind].
    destruct (read_genesis h) as [c r] eqn:Er. cbn in Hg. subst r.
    assert (c = []) as ->.
    { unfold read_genesis in Er. destruct (genesis_stat h); [|congruence]. destruct (genesis_open h); [|congruence].
      destruct (genesis_chain_id h); congruence. }
    cbn. by rewrite He.
  - intros e He Hh Hg Ht. unfold init. destruct (home_dir h); [|done]. cbn [mbind result_bind].
    rewrite Hg, Ht. cbn. by rewrite He.
  - intros e chainID Hh Hg Hne Hm Ht. unfold init. destruct (home_dir h); [|done]. cbn [mbind result_bind].
    rewrite Hg, Ht. destruct chainID as [|b chainID]; [done|]. cbn [is_empty]. by rewrite Hm.
Qed.

(** ** Witnesses *)

Example parsed : ParseChainID (bs " nvnm_787111-1 ") = Ok 787111.
Proof. vm_compute. reflexivity. Qed.

Example not_parsed : map (fun s => is_ok (ParseChainID (bs s)))
  ["nvnm-1"; "nvnm_0-1"; "nvnm_12-"; "Nvnm_12-1"; "nvnm_9223372036854775808-1"; ""] = replicate 6 false.
Proof. vm_compute. reflexivity. Qed.

(** A node whose genesis names a chain outside the table, with no number in its
    chain id and none in app.toml, does not start. *)
Example unknown_chain_stops : init (readable (Some (bs "nvnm-2")) None) = Err ErrChainIDFormat.
Proof. vm_compute. reflexivity. Qed.

Module DemoHome.
(** No genesis yet, and an app.toml that cannot be parsed. *)
Definition broken : NodeHome := {|
  home_dir := Ok [];
  genesis_stat := Err ErrNotExist;
  genesis_open := Ok tt;
  genesis_chain_id := Ok [];
  toml_stat := Ok tt;
  toml_read := Err (ErrPlain "toml: parse error")
|}.
End DemoHome.

Lemma init_order_witness :
  init (readable (Some (bs "nvnm-1")) (Some (Some 5))) = Ok 1611 /\
  init DemoHome.broken = Err (ErrPlain "toml: parse error").
Proof.
  destruct (init_order DemoHome.broken (Some (bs "nvnm-1")) (Some (Some 5))) as (H1 & _ & H3 & _).
  split; [rewrite H1; vm_compute; reflexivity|].
  exact (H3 (ErrPlain "toml: parse error") eq_refl eq_refl eq_refl eq_refl).
Defined.
