(* ===== verification/Ante.v ===== *)
(** Checks before a transaction runs: src/app/ante (ante.go, cosmos.go, evm.go,
    handler_options.go), src/app/evmosante.go and [setAnteHandler] of src/app/app.go.

    The node builds one of two chains of checks for each transaction, chosen by its
    first extension option.  The checks themselves, the decorators, are library
    code, given by the relation of when they accept; the lists of checks a transaction
    has to pass are stated apart from the chains the code builds. *)

From S2P Require Import Prelude Types.

(** ** Decorators *)

Section decorators.
Context {FeeMarketParams EvmParams : Type}.

(** The decorators the two chains are made of, with the arguments they keep; the
    keepers they are given are those of the options. *)
Inductive AnteDecorator :=
| RejectMessagesDecorator
| MsgFilterDecorator
| DisabledModulesDecorator (prefixes : list bytes)
| SetUpContextDecorator
| CircuitBreakerDecorator
| ExtensionOptionsDecorator
| ValidateBasicDecorator
| TxTimeoutHeightDecorator
| ValidateMemoDecorator
| MinGasPriceDecorator (feemarketParams : FeeMarketParams)
| ConsumeGasForTxSizeDecorator
| DeductFeeDecorator (txFeeChecker : option FeeMarketParams)
| SetPubKeyDecorator
| ValidateSigCountDecorator
| SigGasConsumeDecorator
| SigVerificationDecorator
| IncrementSequenceDecorator
| RedundantRelayDecorator
| GasWantedDecorator (feemarketParams : FeeMarketParams)
| EVMMonoDecorator (maxGasWanted : Z) (evmParams : EvmParams) (feemarketParams : FeeMarketParams)
| TxListenerDecorator.
End decorators.
Arguments AnteDecorator : clear implicits.

(** ** Libraries *)

(** Contexts with the stores behind them, transactions with the type URLs of their
    extension options (none for a type that has no such method), what each
    decorator does with the handler that follows it, and the SDK's composition. *)
Class AnteLib := {
  AnteCtx : Type;
  Tx : Type;
  FeeMarketParams : Type;
  EvmParams : Type;
  GetExtensionOptions : Tx -> option (list bytes);
  FeeMarket_GetParams : AnteCtx -> FeeMarketParams;
  Evm_GetParams : AnteCtx -> EvmParams;
  AnteHandle : AnteDecorator FeeMarketParams EvmParams -> AnteCtx -> Tx -> bool ->
    (AnteCtx -> Tx -> bool -> result AnteCtx) -> result AnteCtx;
  ChainAnteDecorators : list (AnteDecorator FeeMarketParams EvmParams) -> AnteCtx -> Tx -> bool -> result AnteCtx
}.

(** [accepts d ctx tx sim c]: the decorator has nothing against the transaction and
    hands the context [c] on to the next one.  A transaction passes the decorator with
    what follows it when both accept it; how an error, or a panic that
    [SetUpContextDecorator] recovers from, is reported is left open.  The chain is the
    composition, in order. *)
Class AnteLibLaws `{AnteLib} := {
  accepts : AnteDecorator FeeMarketParams EvmParams -> AnteCtx -> Tx -> bool -> AnteCtx -> Prop;
  AnteHandle_accepts : forall d ctx tx sim next ctx',
    AnteHandle d ctx tx sim next = Ok ctx' <-> exists c, accepts d ctx tx sim c /\ next c tx sim = Ok ctx';
  Chain_nil : forall ctx tx sim, ChainAnteDecorators [] ctx tx sim = Ok ctx;
  Chain_cons : forall d ds ctx tx sim,
    ChainAnteDecorators (d :: ds) ctx tx sim = AnteHandle d ctx tx sim (ChainAnteDecorators ds)
}.

(** ** Options *)

(** The fields of [EVMHandlerOptions]: for keepers and functions, whether they are
    set. *)
Record EVMHandlerOptions := mkEVMHandlerOptions {
  Cdc : bool;
  AccountKeeper : bool;
  BankKeeper : bool;
  Evm_IBCKeeper : bool;
  FeeMarketKeeper : bool;
  EvmKeeper : bool;
  FeegrantKeeper : bool;
  ExtensionOptionChecker : bool;
  SignModeHandler : bool;
  SigGasConsumer : bool;
  MaxTxGasWanted : Z;
  DynamicFeeChecker : bool;
  PendingTxListener : bool
}.

Definition ErrLogic (what : string) : err := ErrWrap what (ErrPlain "internal logic error").

Definition EVMHandlerOptions_Validate (options : EVMHandlerOptions) : result unit :=
  _ ← guard_err (negb (Cdc options)) (ErrLogic "codec is required for EVM AnteHandler");
  _ ← guard_err (negb (AccountKeeper options)) (ErrLogic "account keeper is required for EVM AnteHandler");
  _ ← guard_err (negb (BankKeeper options)) (ErrLogic "bank keeper is required for EVM AnteHandler");
  _ ← guard_err (negb (Evm_IBCKeeper options)) (ErrLogic "ibc keeper is required for EVM AnteHandler");
  _ ← guard_err (negb (FeeMarketKeeper options)) (ErrLogic "fee market keeper is required for EVM AnteHandler");
  _ ← guard_err (negb (EvmKeeper options)) (ErrLogic "evm keeper is required for EVM AnteHandler");
  _ ← guard_err (negb (FeegrantKeeper options)) (ErrLogic "feegrant keeper is required for EVM AnteHandler");
  _ ← guard_err (negb (SigGasConsumer options)) (ErrLogic "signature gas consumer is required for EVM AnteHandler");
  _ ← guard_err (negb (SignModeHandler options)) (ErrLogic "sign mode handler is required for EVM AnteHandler");
  guard_err (negb (PendingTxListener options)) (ErrLogic "pending tx listener is required for EVM AnteHandler").

(** [Options], [WithCodec] and [WithMaxTxGasWanted] work on a copy. *)
Definition EVMHandlerOptions_Options (options : EVMHandlerOptions) : EVMHandlerOptions := options.

Definition WithCodec (options : EVMHandlerOptions) (cdc : bool) : EVMHandlerOptions :=
  mkEVMHandlerOptions cdc (AccountKeeper options) (BankKeeper options) (Evm_IBCKeeper options)
    (FeeMarketKeeper options) (EvmKeeper options) (FeegrantKeeper options) (ExtensionOptionChecker options)
    (SignModeHandler options) (SigGasConsumer options) (MaxTxGasWanted options) (DynamicFeeChecker options)
    (PendingTxListener options).

Definition WithMaxTxGasWanted (options : EVMHandlerOptions) (maxTxGasWanted : Z) : EVMHandlerOptions :=
  mkEVMHandlerOptions (Cdc options) (AccountKeeper options) (BankKeeper options) (Evm_IBCKeeper options)
    (FeeMarketKeeper options) (EvmKeeper options) (FeegrantKeeper options) (ExtensionOptionChecker options)
    (SignModeHandler options) (SigGasConsumer options) maxTxGasWanted (DynamicFeeChecker options)
    (PendingTxListener options).

Record HandlerOptions := mkHandlerOptions {
  EvmOptions : EVMHandlerOptions;
  IBCKeeper : bool;
  CircuitKeeper : bool
}.

Definition HandlerOptions_Validate (options : HandlerOptions) : result unit :=
  _ ← EVMHandlerOptions_Validate (EvmOptions options);
  _ ← guard_err (negb (IBCKeeper options)) (ErrPlain "ibc keeper is required for ante builder");
  guard_err (negb (CircuitKeeper options)) (ErrPlain "circuit keeper is required for ante builder").

(** ** The handlers *)

Section handlers.
Context {LIB : AnteLib}.
Abbreviation Decorator := (AnteDecorator FeeMarketParams EvmParams).

Definition cosmosDecorators (ctx : AnteCtx) (options : HandlerOptions) : list Decorator :=
  let feemarketParams := FeeMarket_GetParams ctx in
  let txFeeChecker := if DynamicFeeChecker (EvmOptions options) then Some feemarketParams else None in
  [RejectMessagesDecorator;
   MsgFilterDecorator;
   DisabledModulesDecorator [bs "/cosmos.evidence"; bs "/cosmos.slashing.v1beta1.MsgUnjail"];
   SetUpContextDecorator;
   CircuitBreakerDecorator;
   ExtensionOptionsDecorator;
   ValidateBasicDecorator;
   TxTimeoutHeightDecorator;
   ValidateMemoDecorator;
   MinGasPriceDecorator feemarketParams;
   ConsumeGasForTxSizeDecorator;
   DeductFeeDecorator txFeeChecker;
   SetPubKeyDecorator;
   ValidateSigCountDecorator;
   SigGasConsumeDecorator;
   SigVerificationDecorator;
   IncrementSequenceDecorator;
   RedundantRelayDecorator;
   GasWantedDecorator feemarketParams].

Definition newCosmosAnteHandler (ctx : AnteCtx) (options : HandlerOptions) :
    AnteCtx -> Tx -> bool -> result AnteCtx :=
  ChainAnteDecorators (cosmosDecorators ctx options).

Definition evmDecorators (ctx : AnteCtx) (options : HandlerOptions) : list Decorator :=
  let evmParams := Evm_GetParams ctx in
  let feemarketParams := FeeMarket_GetParams ctx in
  let decorators := [MsgFilterDecorator;
    EVMMonoDecorator (MaxTxGasWanted (EvmOptions options)) evmParams feemarketParams] in
  if PendingTxListener (EvmOptions options) then decorators ++ [TxListenerDecorator] else decorators.

Definition newEVMAnteHandler (ctx : AnteCtx) (options : HandlerOptions) :
    AnteCtx -> Tx -> bool -> result AnteCtx :=
  ChainAnteDecorators (evmDecorators ctx options).

Definition ExtensionOptionsEthereumTx : bytes := bs "/cosmos.evm.vm.v1.ExtensionOptionsEthereumTx".
Definition ExtensionOptionDynamicFeeTx : bytes := bs "/cosmos.evm.ante.v1.ExtensionOptionDynamicFeeTx".

Definition ErrUnknownExtensionOptions : err :=
  ErrWrap "rejecting tx with unsupported extension option" (ErrPlain "unknown extension options").
Definition ErrUnknownRequest : err := ErrWrap "invalid transaction type" (ErrPlain "unknown request").

(** [None] is a nil transaction, which belongs to no type. *)
Definition NewAnteHandler (options : HandlerOptions) (ctx : AnteCtx) (tx : option Tx) (sim : bool) : result AnteCtx :=
  match tx with
  | None => Err ErrUnknownRequest
  | Some tx =>
      match GetExtensionOptions tx with
      | Some (typeURL :: _) =>
          if bool_decide (typeURL = ExtensionOptionsEthereumTx) then newEVMAnteHandler ctx options ctx tx sim
          else if bool_decide (typeURL = ExtensionOptionDynamicFeeTx) then newCosmosAnteHandler ctx options ctx tx sim
          else Err ErrUnknownExtensionOptions
      | _ => newCosmosAnteHandler ctx options ctx tx sim
      end
  end.
End handlers.

(** ** [setAnteHandler] *)

(** The parts of the application whose absence the options can show: a keeper
    passed by value, or a pointer stored in an interface, is never nil there. *)
Record AppKeepers := mkAppKeepers {
  app_codec : bool;
  app_IBCKeeper : bool;
  app_SignModeHandler : bool
}.

Definition NewEVMAnteHandlerOptionsFromApp (app : AppKeepers) (maxGasWanted : Z) : EVMHandlerOptions := {|
  Cdc := app_codec app;
  AccountKeeper := true;
  BankKeeper := true;
  ExtensionOptionChecker := true;
  EvmKeeper := true;
  FeegrantKeeper := true;
  Evm_IBCKeeper := app_IBCKeeper app;
  FeeMarketKeeper := true;
  SignModeHandler := app_SignModeHandler app;
  SigGasConsumer := true;
  MaxTxGasWanted := maxGasWanted;
  DynamicFeeChecker := true;
  PendingTxListener := true
|}.

(** The handler installed, or the error the node stops with. *)
Definition setAnteHandler {LIB : AnteLib} (app : AppKeepers) (maxGasWanted : Z) :
    result (AnteCtx -> option Tx -> bool -> result AnteCtx) :=
  let evmHandlerOpts := NewEVMAnteHandlerOptionsFromApp app maxGasWanted in
  _ ← EVMHandlerOptions_Validate evmHandlerOpts;
  let handlerOpts := mkHandlerOptions (EVMHandlerOptions_Options evmHandlerOpts) (app_IBCKeeper app) true in
  _ ← HandlerOptions_Validate handlerOpts;
  Ok (NewAnteHandler handlerOpts).

(** ** Properties *)

Section properties.
Context {LIB : AnteLib} {LAWS : AnteLibLaws}.
Abbreviation Decorator := (AnteDecorator FeeMarketParams EvmParams).

(** The decorators of the list accept the transaction one after the other, each in
    the context the one before it leaves. *)
Fixpoint checked (tx : Tx) (sim : bool) (ds : list Decorator) (ctx ctx' : AnteCtx) : Prop :=
  match ds with
  | [] => ctx = ctx'
  | d :: ds' => exists c, accepts d ctx tx sim c /\ checked tx sim ds' c ctx'
  end.

Lemma chain_checked ds ctx tx sim ctx' :
  ChainAnteDecorators ds ctx tx sim = Ok ctx' <-> checked tx sim ds ctx ctx'.
Proof.
  revert ctx. induction ds as [|d ds IH]; intros ctx; cbn [checked].
  - rewrite Chain_nil. split; [by intros [= ->]|by intros ->].
  - rewrite Chain_cons, AnteHandle_accepts. split; intros (c & Hd & Hc); exists c; (split; [done|]); by apply IH.
Qed.

Lemma checked_accepts tx sim ds ctx ctx' d : checked tx sim ds ctx ctx' -> d ∈ ds ->
  exists c c', accepts d c tx sim c'.
Proof.
  revert ctx. induction ds as [|d' ds IH]; intros ctx Hc Hd; [by apply not_elem_of_nil in Hd|].
  destruct Hc as (c & E & Hc). apply elem_of_cons in Hd as [->|Hd]; [eauto|by eapply IH].
Qed.

(** What a Cosmos transaction has to pass, at the parameters [fm] of the fee market. *)
Definition cosmos_requirements (fm : FeeMarketParams) : list Decorator :=
  (* no Ethereum message, and nothing the consumer chain does not take yet or at all *)
  [RejectMessagesDecorator; MsgFilterDecorator;
   DisabledModulesDecorator [bs "/cosmos.evidence"; bs "/cosmos.slashing.v1beta1.MsgUnjail"]] ++
  (* a gas meter; no message that the circuit breaker stops; a well-formed transaction
     that has not timed out *)
  [SetUpContextDecorator; CircuitBreakerDecorator; ExtensionOptionsDecorator; ValidateBasicDecorator;
   TxTimeoutHeightDecorator; ValidateMemoDecorator] ++
  (* a gas price of at least the minimum, gas for its size, and the fee, as the dynamic
     fee market has it *)
  [MinGasPriceDecorator fm; ConsumeGasForTxSizeDecorator; DeductFeeDecorator (Some fm)] ++
  (* the signatures of all signers, with the keys on their accounts, and then new
     sequence numbers *)
  [SetPubKeyDecorator; ValidateSigCountDecorator; SigGasConsumeDecorator; SigVerificationDecorator;
   IncrementSequenceDecorator] ++
  (* packets that are not relayed already; the gas is counted towards the base fee *)
  [RedundantRelayDecorator; GasWantedDecorator fm].

(** What an Ethereum transaction has to pass. *)
Definition ethereum_requirements (maxGas : Z) (evm : EvmParams) (fm : FeeMarketParams) : list Decorator :=
  [MsgFilterDecorator; EVMMonoDecorator maxGas evm fm; TxListenerDecorator].

(** The transactions routed to the EVM chain. *)
Definition ethereum_tx (tx : Tx) : Prop :=
  exists rest, GetExtensionOptions tx = Some (ExtensionOptionsEthereumTx :: rest).

Definition plain_tx (tx : Tx) : Prop :=
  GetExtensionOptions tx = None \/ GetExtensionOptions tx = Some [] \/
  exists rest, GetExtensionOptions tx = Some (ExtensionOptionDynamicFeeTx :: rest).

(** C36: a transaction enters a block only through the checks of its kind.  With the
    handler the node installs, a transaction is accepted exactly when it is an
    Ethereum transaction, by its first extension option, and the consumer filter,
    the EVM check, with the configured gas limit, and the listener accept it in turn;
    or when it has no extension option, or first the dynamic fee one, and the
    nineteen checks of a Cosmos transaction accept it in turn: no Ethereum or
    disabled message, a well-formed transaction, the fee at the parameters of the fee
    market, the signatures before the sequence.  So one check that refuses the
    transaction in every context is enough to refuse it, and a transaction with
    another first extension option, or none at all, is never accepted. *)
Theorem ante_accepts_checked app maxGas handler ctx tx sim :
  setAnteHandler app maxGas = Ok handler ->
  let fm := FeeMarket_GetParams ctx in
  let evm := Evm_GetParams ctx in
  (forall ctx', handler ctx (Some tx) sim = Ok ctx' <->
    (ethereum_tx tx /\ checked tx sim (ethereum_requirements maxGas evm fm) ctx ctx') \/
    (plain_tx tx /\ checked tx sim (cosmos_requirements fm) ctx ctx')) /\
  (forall d, plain_tx tx -> d ∈ cosmos_requirements fm ->
    (forall c c', ~ accepts d c tx sim c') -> is_ok (handler ctx (Some tx) sim) = false) /\
  (~ ethereum_tx tx -> ~ plain_tx tx -> is_ok (handler ctx (Some tx) sim) = false) /\
  handler ctx None sim = Err ErrUnknownRequest.
Proof.
  unfold setAnteHandler. destruct (EVMHandlerOptions_Validate _) as [[]|]; [|done]. cbn [mbind result_bind].
  destruct (HandlerOptions_Validate _) as [[]|]; [|done]. cbn [mbind result_bind]. intros [= <-].
  set (fm := FeeMarket_GetParams ctx). set (evm := Evm_GetParams ctx).
  set (handler := NewAnteHandler _).
  assert (Hex : forall ctx', handler ctx (Some tx) sim = Ok ctx' <->
    (ethereum_tx tx /\ checked tx sim (ethereum_requirements maxGas evm fm) ctx ctx') \/
    (plain_tx tx /\ checked tx sim (cosmos_requirements fm) ctx ctx')).
  { intros ctx'. unfold handler, NewAnteHandler, newEVMAnteHandler, newCosmosAnteHandler, ethereum_tx, plain_tx.
    destruct (GetExtensionOptions tx) as [[|u us]|]; rewrite ?chain_checked; [naive_solver| |naive_solver].
    repeat case_bool_decide; subst; rewrite ?chain_checked; naive_solver. }
  assert (Hacc : is_ok (handler ctx (Some tx) sim) = true -> exists ctx', handler ctx (Some tx) sim = Ok ctx').
  { destruct (handler ctx (Some tx) sim); [eauto|done]. }
  split_and!; [exact Hex| | |done].
  - intros d Hp Hd Hno. apply not_true_iff_false. intros [ctx' E]%Hacc. apply Hex in E as [[[r Hr] _]|[_ Hc]].
    + unfold plain_tx in Hp. rewrite Hr in Hp. destruct Hp as [?|[?|[? [= ?]]]]; done.
    + destruct (checked_accepts _ _ _ _ _ d Hc Hd) as (c & c' & E). by apply (Hno c c').
  - intros He Hp. apply not_true_iff_false. intros [ctx' E]%Hacc. by apply Hex in E as [[? _]|[? _]].
Qed.
End properties.

(** Requirements in sequence. *)
Lemma require_ok {A} b e (k : unit -> result A) v :
  (guard_err (negb b) e ≫= k) = Ok v <-> b = true /\ k tt = Ok v.
Proof. destruct b; cbn; naive_solver. Qed.

Lemma guard_negb_ok b e : guard_err (negb b) e = Ok tt <-> b = true.
Proof. destruct b; cbn; naive_solver. Qed.

Lemma result_bind_assoc {A B C} (r : result A) (f : A -> result B) (g : B -> result C) :
  ((r ≫= f) ≫= g) = (r ≫= fun x => f x ≫= g).
Proof. by destruct r. Qed.

(** the node starts only with the parts its checks need.  The options are
    accepted exactly when the codec, the nine keepers and functions they name and
    the two of the Cosmos chain are set; the application's own options are
    accepted exactly when its codec, its IBC keeper and its sign mode handler
    are. *)
Theorem options_validated {LIB : AnteLib} options app maxGas :
  (HandlerOptions_Validate options = Ok tt <->
   Forall (fun f => f (EvmOptions options) = true)
     [Cdc; AccountKeeper; BankKeeper; Evm_IBCKeeper; FeeMarketKeeper; EvmKeeper; FeegrantKeeper;
      SigGasConsumer; SignModeHandler; PendingTxListener] /\
   IBCKeeper options = true /\ CircuitKeeper options = true) /\
  is_ok (setAnteHandler app maxGas) = app_codec app && app_IBCKeeper app && app_SignModeHandler app.
Proof.
  split.
  - unfold HandlerOptions_Validate, EVMHandlerOptions_Validate. rewrite !Forall_cons, Forall_nil.
    rewrite !result_bind_assoc, !require_ok, guard_negb_ok. tauto.
  - by destruct app as [[] [] []].
Qed.

(** ** Witnesses *)

Module DemoAnte.
(** Contexts count the checks passed; a transaction is its extension options and
    whether its signatures are good. *)
Record DemoTx := mkDemoTx { demo_opts : option (list bytes); demo_signed : bool }.

Definition demo_check (d : AnteDecorator unit unit) (ctx : Z) (tx : DemoTx) (sim : bool) : result Z :=
  match d with
  | SigVerificationDecorator => if demo_signed tx then Ok (ctx + 1) else Err (ErrPlain "unauthorized")
  | _ => Ok (ctx + 1)
  end.

Fixpoint demo_chain (ds : list (AnteDecorator unit unit)) (ctx : Z) (tx : DemoTx) (sim : bool) : result Z :=
  match ds with
  | [] => Ok ctx
  | d :: ds' => ctx ← demo_check d ctx tx sim; demo_chain ds' ctx tx sim
  end.

#[global] Instance demo_ante : AnteLib := {|
  AnteCtx := Z;
  Tx := DemoTx;
  FeeMarketParams := unit;
  EvmParams := unit;
  GetExtensionOptions := demo_opts;
  FeeMarket_GetParams _ := ();
  Evm_GetParams _ := ();
  AnteHandle d ctx tx sim next := ctx ← demo_check d ctx tx sim; next ctx tx sim;
  ChainAnteDecorators := demo_chain
|}.

#[global] Instance demo_ante_laws : AnteLibLaws.
Proof.
  refine {| accepts d ctx tx sim c := demo_check d ctx tx sim = Ok c |}; [|done..].
  intros d ctx tx sim next ctx'. cbn [AnteHandle demo_ante]. destruct (demo_check d ctx tx sim); cbn; naive_solver.
Defined.

Definition app : AppKeepers := mkAppKeepers true true true.
Definition handler : Z -> option DemoTx -> bool -> result Z :=
  NewAnteHandler (mkHandlerOptions (NewEVMAnteHandlerOptionsFromApp app 7) true true).

Definition unsigned : DemoTx := mkDemoTx None false.
End DemoAnte.

(** An unsigned transaction is refused, a signed one passes nineteen checks. *)
Lemma ante_accepts_checked_witness :
  is_ok (DemoAnte.handler 0 (Some DemoAnte.unsigned) false) = false /\
  DemoAnte.handler 0 (Some (DemoAnte.mkDemoTx None true)) false = Ok 19.
Proof.
  split; [|reflexivity].
  destruct (ante_accepts_checked (LIB := DemoAnte.demo_ante) DemoAnte.app 7 DemoAnte.handler 0 DemoAnte.unsigned false eq_refl)
    as (_ & H & _).
  apply (H SigVerificationDecorator).
  - left. reflexivity.
  - unfold cosmos_requirements. set_solver.
  - intros c c' E. discriminate E.
Defined.
