(* ===== verification/ZeroHeight.v ===== *)
(** Exporting the chain: src/app/export.go.

    A chain restarted from an export at height zero needs a state without block
    heights in it: rewards are withdrawn, the heights in the staking and slashing
    state are reset, and validators outside an optional list are jailed.  The keepers of
    the SDK are given the height of their context, which is zero while the distribution
    is set up again. *)

From S2P Require Import Prelude Types Concrete.

(** ** State *)

Record Validator := mkValidator {
  val_Operator : bytes;
  val_UnbondingHeight : Z;
  val_Jailed : bool;
  val_Tokens : Z
}.

Record Delegation := mkDelegation { del_Delegator : bytes; del_Validator : bytes }.

(** An entry of an unbonding delegation or of a redelegation. *)
Record Entry := mkEntry { e_CreationHeight : Z; e_Balance : Z }.

Record SigningInfo := mkSigningInfo { si_StartHeight : Z; si_MissedBlocks : Z }.

(** The staking and slashing stores, and the stores of the distribution and bank
    modules, which the code only uses through their keepers. *)
Record ChainState (D : Type) := mkChainState {
  cs_Validators : gmap bytes Validator;
  cs_Delegations : list Delegation;
  cs_Redelegations : gmap bytes (list Entry);
  cs_Unbondings : gmap bytes (list Entry);
  cs_SigningInfos : gmap bytes SigningInfo;
  cs_Distribution : D
}.
Arguments mkChainState {_} _ _ _ _ _ _.
Arguments cs_Validators {_} _.
Arguments cs_Delegations {_} _.
Arguments cs_Redelegations {_} _.
Arguments cs_Unbondings {_} _.
Arguments cs_SigningInfos {_} _.
Arguments cs_Distribution {_} _.

(** ** Libraries *)

(** The address codecs, and the keepers of the distribution and staking modules, with
    the height of the context they are called in.  [WithdrawValidatorCommission] and
    [WithdrawDelegationRewards] return errors the code ignores: only what they leave is
    modelled.  The fee pool is its community pool.  [IterClose] is the result of closing
    the iterator over the validators. *)
Class ExportLib := {
  Dist : Type;
  DecCoins : Type;
  DecCoins_Add : DecCoins -> DecCoins -> DecCoins;
  ValAddressFromBech32 : bytes -> option bytes;
  ValAddress_String : bytes -> bytes;
  ExportAccAddress : bytes -> option bytes;
  WithdrawValidatorCommission : Z -> bytes -> Dist -> Dist;
  WithdrawDelegationRewards : Z -> bytes -> bytes -> Dist -> Dist;
  DeleteAllValidatorSlashEvents : Dist -> Dist;
  DeleteAllValidatorHistoricalRewards : Dist -> Dist;
  GetValidatorOutstandingRewardsCoins : bytes -> Dist -> result DecCoins;
  FeePool_Get : Dist -> result DecCoins;
  FeePool_Set : DecCoins -> Dist -> result Dist;
  AfterValidatorCreated : Z -> bytes -> Dist -> result Dist;
  BeforeDelegationCreated : Z -> bytes -> bytes -> Dist -> result Dist;
  AfterDelegationModified : Z -> bytes -> bytes -> Dist -> result Dist;
  IterClose : result unit;
  ApplyAndReturnValidatorSetUpdates : Z -> ChainState Dist -> result (ChainState Dist)
}.

(** Computing the validator set again changes the status of validators, with the heights
    that go with it, and the stores of the slashing module, but no validator's operator,
    jailing or tokens, and neither delegations nor what is being unbonded. *)
Class ExportLaws `{ExportLib} := {
  apply_keeps : forall height s s', ApplyAndReturnValidatorSetUpdates height s = Ok s' ->
    cs_Delegations s' = cs_Delegations s /\ cs_Redelegations s' = cs_Redelegations s /\
    cs_Unbondings s' = cs_Unbondings s /\
    (fun v => (val_Operator v, val_Jailed v, val_Tokens v)) <$> cs_Validators s'
    = (fun v => (val_Operator v, val_Jailed v, val_Tokens v)) <$> cs_Validators s
}.

Section export.
Context {LIB : ExportLib}.
Abbreviation State := (ChainState Dist).

Definition set_dist (d : Dist) (s : State) : State :=
  mkChainState (cs_Validators s) (cs_Delegations s) (cs_Redelegations s) (cs_Unbondings s) (cs_SigningInfos s) d.
Definition set_validators (v : gmap bytes Validator) (s : State) : State :=
  mkChainState v (cs_Delegations s) (cs_Redelegations s) (cs_Unbondings s) (cs_SigningInfos s) (cs_Distribution s).
Definition set_redelegations (r : gmap bytes (list Entry)) (s : State) : State :=
  mkChainState (cs_Validators s) (cs_Delegations s) r (cs_Unbondings s) (cs_SigningInfos s) (cs_Distribution s).
Definition set_unbondings (u : gmap bytes (list Entry)) (s : State) : State :=
  mkChainState (cs_Validators s) (cs_Delegations s) (cs_Redelegations s) u (cs_SigningInfos s) (cs_Distribution s).
Definition set_infos (i : gmap bytes SigningInfo) (s : State) : State :=
  mkChainState (cs_Validators s) (cs_Delegations s) (cs_Redelegations s) (cs_Unbondings s) i (cs_Distribution s).

(** A call of a distribution keeper whose error stops the node. *)
Definition dist_step (f : Dist -> result Dist) : M State unit :=
  fun s => match f (cs_Distribution s) with
           | Ok d => (Ok tt, set_dist d s)
           | Err e => (Err e, s)
           end.

(** ** The steps *)

(** The list of validators that are not jailed: an address that does not parse
    stops the node. *)
Fixpoint allowed_addrs (jailAllowedAddrs : list bytes) : result (gset bytes) :=
  match jailAllowedAddrs with
  | [] => Ok ∅
  | addr :: rest =>
      _ ← of_option (ValAddressFromBech32 addr) ErrBech32;
      m ← allowed_addrs rest;
      Ok ({[addr]} ∪ m)
  end.

Definition withdraw_commissions (height : Z) : M State unit :=
  s ← gets id;
  for_each (fun '(_, val) =>
    valBz ← lift (of_option (ValAddressFromBech32 (val_Operator val)) ErrPanic);
    dist_step (fun d => Ok (WithdrawValidatorCommission height valBz d))) (walk (cs_Validators s)).

(** The addresses of a delegation. *)
Definition delegation_addrs (del : Delegation) : result (bytes * bytes) :=
  valAddr ← of_option (ValAddressFromBech32 (del_Validator del)) ErrPanic;
  delAddr ← of_option (ExportAccAddress (del_Delegator del)) ErrPanic;
  Ok (valAddr, delAddr).

Definition withdraw_rewards (height : Z) (dels : list Delegation) : M State unit :=
  for_each (fun del =>
    '(valAddr, delAddr) ← lift (delegation_addrs del);
    dist_step (fun d => Ok (WithdrawDelegationRewards height delAddr valAddr d))) dels.

(** The outstanding rewards go to the community pool. *)
Definition donate_scraps (valBz : bytes) (d : Dist) : result Dist :=
  scraps ← GetValidatorOutstandingRewardsCoins valBz d;
  communityPool ← FeePool_Get d;
  FeePool_Set (DecCoins_Add communityPool scraps) d.

(** And the validator's record is created again. *)
Definition reinit_validators (height : Z) : M State unit :=
  s ← gets id;
  for_each (fun '(_, val) =>
    valBz ← lift (of_option (ValAddressFromBech32 (val_Operator val)) ErrPanic);
    _ ← dist_step (donate_scraps valBz);
    dist_step (AfterValidatorCreated height valBz)) (walk (cs_Validators s)).

Definition reinit_delegations (height : Z) (dels : list Delegation) : M State unit :=
  for_each (fun del =>
    '(valAddr, delAddr) ← lift (delegation_addrs del);
    _ ← dist_step (BeforeDelegationCreated height delAddr valAddr);
    dist_step (AfterDelegationModified height delAddr valAddr)) dels.

Definition zero_entry (e : Entry) : Entry := mkEntry 0 (e_Balance e).

Definition reset_redelegations : M State unit :=
  s ← gets id;
  for_each (fun '(k, entries) =>
    modify (fun s => set_redelegations (<[k := map zero_entry entries]> (cs_Redelegations s)) s))
    (walk (cs_Redelegations s)).

Definition reset_unbondings : M State unit :=
  s ← gets id;
  for_each (fun '(k, entries) =>
    modify (fun s => set_unbondings (<[k := map zero_entry entries]> (cs_Unbondings s)) s))
    (walk (cs_Unbondings s)).

(** The loop over the validators' keys, from the last. *)
Definition reset_validators (applyAllowedAddrs : bool) (allowedAddrsMap : gset bytes) : M State unit :=
  s ← gets id;
  for_each (fun '(addr, _) =>
    validator ← (fun s => (of_option (cs_Validators s !! addr) ErrPanic, s));
    let jailed := if applyAllowedAddrs && negb (bool_decide (ValAddress_String addr ∈ allowedAddrsMap))
                  then true else val_Jailed validator in
    let validator := mkValidator (val_Operator validator) 0 jailed (val_Tokens validator) in
    modify (fun s => set_validators (<[addr := validator]> (cs_Validators s)) s))
    (reverse (walk (cs_Validators s))).

Definition reset_signing_infos : M State unit :=
  s ← gets id;
  for_each (fun '(k, info) =>
    modify (fun s => set_infos (<[k := mkSigningInfo 0 (si_MissedBlocks info)]> (cs_SigningInfos s)) s))
    (walk (cs_SigningInfos s)).

(** Everything before the validator set is computed again; [height] is that of the
    last block, and the distribution is set up again at height zero. *)
Definition reset_heights (height : Z) (applyAllowedAddrs : bool) (allowedAddrsMap : gset bytes) : M State unit :=
  _ ← withdraw_commissions height;
  dels ← gets cs_Delegations;
  _ ← withdraw_rewards height dels;
  _ ← dist_step (fun d => Ok (DeleteAllValidatorSlashEvents d));
  _ ← dist_step (fun d => Ok (DeleteAllValidatorHistoricalRewards d));
  _ ← reinit_validators 0;
  _ ← reinit_delegations 0 dels;
  _ ← reset_redelegations;
  _ ← reset_unbondings;
  reset_validators applyAllowedAddrs allowedAddrsMap.

(** An iterator that does not close ends the preparation early. *)
Definition prepForZeroHeightGenesis (height : Z) (jailAllowedAddrs : list bytes) : M State unit :=
  let applyAllowedAddrs := (0 <? Z.of_nat (length jailAllowedAddrs)) in
  allowedAddrsMap ← lift (allowed_addrs jailAllowedAddrs);
  _ ← reset_heights height applyAllowedAddrs allowedAddrsMap;
  match IterClose with
  | Err _ => mret tt
  | Ok _ =>
      _ ← (fun s => match ApplyAndReturnValidatorSetUpdates height s with
                    | Ok s' => (Ok tt, s')
                    | Err e => (Err e, s)
                    end);
      reset_signing_infos
  end.

(** [GetValidatorSet]: the validators the provider chain gave, as address and
    power. *)
Definition GetValidatorSet (cVals : list (bytes * Z)) : result (list (bytes * Z)) :=
  match cVals with
  | [] => Err (ErrPlain "empty validator set")
  | _ => Ok (map (fun '(address, power) => (address, power)) cVals)
  end.

(** [ExportAppStateAndValidators]: the exported modules, the validators and the
    height the new chain starts at. *)
Definition ExportAppStateAndValidators {G} (ExportGenesisForModules : State -> result G) (LastBlockHeight : Z)
    (cVals : list (bytes * Z)) (forZeroHeight : bool) (jailAllowedAddrs : list bytes) :
    M State (G * list (bytes * Z) * Z) :=
  let height := LastBlockHeight + 1 in
  height ← (if forZeroHeight then _ ← prepForZeroHeightGenesis LastBlockHeight jailAllowedAddrs; mret 0 else mret height);
  genState ← (fun s => (ExportGenesisForModules s, s));
  validators ← lift (GetValidatorSet cVals);
  mret (genState, validators, height).
End export.

(** ** Loops that rewrite a store *)

(** [cur] is [m] with the values at the keys of [visited] replaced. *)
Definition updated {V} (g : bytes -> V -> V) (m : gmap bytes V) (visited : list bytes) (cur : gmap bytes V) : Prop :=
  forall a, cur !! a = if decide (a ∈ visited) then g a <$> m !! a else m !! a.

Lemma updated_nil {V} (g : bytes -> V -> V) (m : gmap bytes V) : updated g m [] m.
Proof. intros a. by rewrite decide_False by apply not_elem_of_nil. Qed.

Lemma updated_step {V} (g : bytes -> V -> V) (m cur : gmap bytes V) visited k v :
  updated g m visited cur -> m !! k = Some v -> updated g m (visited ++ [k]) (<[k := g k v]> cur).
Proof.
  intros Hu Hk a. destruct (decide (a = k)) as [->|Hne].
  - rewrite lookup_insert_eq, decide_True by set_solver. by rewrite Hk.
  - rewrite lookup_insert_ne by done. rewrite (Hu a). by rewrite (decide_ext (a ∈ visited ++ [k]) (a ∈ visited)) by set_solver.
Qed.

Lemma updated_all {V} (g : bytes -> V -> V) (m cur : gmap bytes V) visited :
  updated g m visited cur -> (forall k v, m !! k = Some v -> k ∈ visited) -> cur = map_imap (fun k v => Some (g k v)) m.
Proof.
  intros Hu Hall. apply map_eq. intros a. rewrite (Hu a), map_lookup_imap.
  destruct (m !! a) as [v|] eqn:E; cbn; [by rewrite decide_True by eauto|by destruct (decide _)].
Qed.

Lemma walk_elem {V} (m : gmap bytes V) k v : (k, v) ∈ walk m <-> m !! k = Some v.
Proof. by rewrite walk_perm, elem_of_map_to_list. Qed.

Section loops.
Context {S V : Type} (m : gmap bytes V) (g : bytes -> V -> V) (put : gmap bytes V -> S -> S) (s0 : S).
Context (body : bytes * V -> M S unit).

(** A loop over the entries of a store, in any order, whose body replaces the value
    of its key, replaces every value. *)
Lemma rewrite_loop l :
  l ≡ₚ walk m -> put m s0 = s0 ->
  (forall visited k v cur, k ∉ visited -> m !! k = Some v -> updated g m visited cur ->
     body (k, v) (put cur s0) = (Ok tt, put (<[k := g k v]> cur) s0)) ->
  for_each body l s0 = (Ok tt, put (map_imap (fun k v => Some (g k v)) m) s0).
Proof.
  intros Hl H0 Hbody.
  assert (Hnd : NoDup l.*1) by (rewrite Hl; apply walk_NoDup_fst).
  destruct (for_each_ok (fun visited s => exists cur, s = put cur s0 /\ updated g m visited.*1 cur) body l s0)
    as (s' & E & cur & -> & Hu).
  - exists m. split; [done|apply updated_nil].
  - intros visited [k v] rest s El (cur & -> & Hu).
    assert (Hk : m !! k = Some v) by (apply walk_elem; rewrite <- Hl, El; set_solver).
    assert (Hnk : k ∉ visited.*1).
    { rewrite El, fmap_app in Hnd. cbn in Hnd. apply NoDup_app in Hnd as (_ & Hd & _). intros Hk'. apply (Hd k Hk'). left. }
    eexists. split; [by apply (Hbody visited.*1)|]. eexists. split; [done|]. rewrite fmap_app. by apply updated_step.
  - rewrite E. do 2 f_equal. apply (updated_all _ _ _ _ Hu). intros k v Hk.
    apply list_elem_of_fmap. exists (k, v). split; [done|]. rewrite Hl. by apply walk_elem.
Qed.
End loops.

(** ** The reset state *)

Section properties.
Context {LIB : ExportLib} {LAWS : ExportLaws}.
Abbreviation State := (ChainState Dist).

(** A validator after the export: no unbonding height, and jailed if it was, or if
    there is a list it is not on. *)
Definition reset_validator (apply : bool) (allowed : gset bytes) (addr : bytes) (v : Validator) : Validator :=
  mkValidator (val_Operator v) 0
    (val_Jailed v || (apply && negb (bool_decide (ValAddress_String addr ∈ allowed)))) (val_Tokens v).

Definition zero_entries (m : gmap bytes (list Entry)) : gmap bytes (list Entry) := map zero_entry <$> m.

Lemma imap_const {V} (h : V -> V) (m : gmap bytes V) : map_imap (fun _ v => Some (h v)) m = h <$> m.
Proof. apply map_eq. intros k. rewrite map_lookup_imap, lookup_fmap. by destruct (m !! k). Qed.

Lemma reset_redelegations_ok s :
  reset_redelegations s = (Ok tt, set_redelegations (zero_entries (cs_Redelegations s)) s).
Proof.
  unfold reset_redelegations. cbv [mbind M_bind gets id]. unfold zero_entries. rewrite <- imap_const.
  apply (rewrite_loop (cs_Redelegations s) (fun _ => map zero_entry) set_redelegations s); [done|by destruct s|done].
Qed.

Lemma reset_unbondings_ok s :
  reset_unbondings s = (Ok tt, set_unbondings (zero_entries (cs_Unbondings s)) s).
Proof.
  unfold reset_unbondings. cbv [mbind M_bind gets id]. unfold zero_entries. rewrite <- imap_const.
  apply (rewrite_loop (cs_Unbondings s) (fun _ => map zero_entry) set_unbondings s); [done|by destruct s|done].
Qed.

Lemma reset_signing_infos_ok s : reset_signing_infos s
  = (Ok tt, set_infos ((fun i => mkSigningInfo 0 (si_MissedBlocks i)) <$> cs_SigningInfos s) s).
Proof.
  unfold reset_signing_infos. cbv [mbind M_bind gets id]. rewrite <- imap_const.
  apply (rewrite_loop (cs_SigningInfos s) (fun _ i => mkSigningInfo 0 (si_MissedBlocks i)) set_infos s);
    [done|by destruct s|done].
Qed.

Lemma reset_validators_ok apply allowed s : reset_validators apply allowed s
  = (Ok tt, set_validators (map_imap (fun k v => Some (reset_validator apply allowed k v)) (cs_Validators s)) s).
Proof.
  unfold reset_validators. cbv [mbind M_bind gets id].
  apply (rewrite_loop (cs_Validators s) (reset_validator apply allowed) set_validators s);
    [by rewrite reverse_Permutation|by destruct s|].
  intros visited k v cur Hk Hv Hu. cbn [cs_Validators set_validators].
  rewrite (Hu k), decide_False, Hv by done. cbn [of_option]. unfold reset_validator, modify. cbv zeta.
  by destruct (apply && _); cbn [orb]; rewrite ?orb_true_r, ?orb_false_r.
Qed.

(** The distribution steps change nothing else. *)
Definition same_staking (s s' : State) : Prop := exists d, s' = set_dist d s.

Definition keeps_staking {A} (m : M State A) : Prop :=
  forall s0 s, same_staking s0 s -> same_staking s0 (m s).2.

Lemma staking_lift {A} (r : result A) : keeps_staking (lift r).
Proof. intros s0 s Hs. exact Hs. Qed.

Lemma keeps_dist f : keeps_staking (dist_step f).
Proof.
  intros s0 s (d & ->). unfold dist_step. destruct (f _); cbn [snd]; [by eexists|by exists d].
Qed.

Lemma staking_bind {A B} (m : M State A) (k : A -> M State B) :
  keeps_staking m -> (forall a, keeps_staking (k a)) -> keeps_staking (m ≫= k).
Proof.
  intros Hm Hk s0 s Hs. cbv [mbind M_bind]. specialize (Hm s0 s Hs).
  destruct (m s) as [[a|e] s1]; [by apply Hk|done].
Qed.

Lemma keeps_loop {A} (f : A -> M State unit) l : (forall x, keeps_staking (f x)) -> keeps_staking (for_each f l).
Proof.
  intros Hf s0 s Hs. destruct (for_each f l s) as [r s'] eqn:E. cbn [snd].
  by apply (for_each_inv (same_staking s0) f l s r s'); [intros x s1 _; apply Hf|..].
Qed.

Lemma keeps_walk {A} (get : State -> list A) (f : A -> M State unit) :
  (forall x, keeps_staking (f x)) -> keeps_staking (s ← gets id; for_each f (get s)).
Proof. intros Hf s0 s Hs. cbv [mbind M_bind gets id]. by apply keeps_loop. Qed.

Lemma keeps_distribution height : keeps_staking (withdraw_commissions height) /\ keeps_staking (reinit_validators height) /\
  (forall dels, keeps_staking (withdraw_rewards height dels)) /\
  (forall dels, keeps_staking (reinit_delegations height dels)).
Proof.
  split_and!.
  - apply keeps_walk. intros [k v]. apply staking_bind; [apply staking_lift|]. intros a. apply keeps_dist.
  - apply keeps_walk. intros [k v]. apply staking_bind; [apply staking_lift|]. intros a.
    apply staking_bind; [apply keeps_dist|]. intros _. apply keeps_dist.
  - intros dels. apply keeps_loop. intros del. apply staking_bind; [apply staking_lift|]. intros [a b]. apply keeps_dist.
  - intros dels. apply keeps_loop. intros del. apply staking_bind; [apply staking_lift|]. intros [a b].
    apply staking_bind; [apply keeps_dist|]. intros _. apply keeps_dist.
Qed.

(** The first half of [reset_heights]. *)
Definition settle_rewards (height : Z) : M State unit :=
  _ ← withdraw_commissions height;
  dels ← gets cs_Delegations;
  _ ← withdraw_rewards height dels;
  _ ← dist_step (fun d => Ok (DeleteAllValidatorSlashEvents d));
  _ ← dist_step (fun d => Ok (DeleteAllValidatorHistoricalRewards d));
  _ ← reinit_validators 0;
  reinit_delegations 0 dels.

Lemma settle_keeps height : keeps_staking (settle_rewards height).
Proof.
  destruct (keeps_distribution height) as (H1 & _ & H3 & _), (keeps_distribution 0) as (_ & H2 & _ & H4).
  apply staking_bind; [done|]. intros _.
  apply staking_bind; [intros s0 s Hs; exact Hs|]. intros dels. apply staking_bind; [done|]. intros _.
  do 2 (apply staking_bind; [apply keeps_dist|]; intros _). apply staking_bind; [done|]. by intros _.
Qed.

(** The state a height-zero genesis is exported from. *)
Definition reset_state (apply : bool) (allowed : gset bytes) (d : Dist) (s : State) : State :=
  mkChainState (map_imap (fun k v => Some (reset_validator apply allowed k v)) (cs_Validators s)) (cs_Delegations s)
    (zero_entries (cs_Redelegations s)) (zero_entries (cs_Unbondings s)) (cs_SigningInfos s) d.

Lemma reset_heights_split height apply allowed s : reset_heights height apply allowed s =
  (settle_rewards height ≫= fun _ => reset_redelegations ≫= fun _ =>
   reset_unbondings ≫= fun _ => reset_validators apply allowed) s.
Proof.
  unfold reset_heights, settle_rewards. cbv [mbind M_bind gets].
  repeat match goal with |- context [match ?m ?x with pair _ _ => _ end] =>
    let r := fresh in let s1 := fresh in destruct (m x) as [[r|r] s1]; [|done] end. done.
Qed.

Lemma reset_heights_ok height apply allowed s s' :
  reset_heights height apply allowed s = (Ok tt, s') -> exists d, s' = reset_state apply allowed d s.
Proof.
  rewrite reset_heights_split. cbv [mbind M_bind]. pose proof (settle_keeps height s s) as Hk.
  destruct (settle_rewards height s) as [[[]|e] s1]; [|done]. cbn [snd] in Hk.
  destruct Hk as (d & ->); [by exists (cs_Distribution s); destruct s|].
  rewrite reset_redelegations_ok, reset_unbondings_ok, reset_validators_ok. intros [= <-]. by exists d.
Qed.

(** *** When the preparation succeeds *)

(** A state that can be exported: its addresses parse, and its rewards can be settled.
    [P] holds of the distribution while rewards are withdrawn, [Q] after the histories
    are deleted; the calls the preparation makes, for the validators and delegations
    there are, succeed from such states and lead to such states. *)
Record exportable (height : Z) (P Q : Dist -> Prop) (s : State) : Prop := {
  ex_start : P (cs_Distribution s);
  ex_delete : forall d, P d -> Q (DeleteAllValidatorHistoricalRewards (DeleteAllValidatorSlashEvents d));
  ex_validators : map_Forall (fun _ v => exists a, ValAddressFromBech32 (val_Operator v) = Some a /\
    (forall d, P d -> P (WithdrawValidatorCommission height a d)) /\
    (forall d, Q d -> exists d1 d2, donate_scraps a d = Ok d1 /\ AfterValidatorCreated 0 a d1 = Ok d2 /\ Q d2))
    (cs_Validators s);
  ex_delegations : Forall (fun del => exists a b, delegation_addrs del = Ok (a, b) /\
    (forall d, P d -> P (WithdrawDelegationRewards height b a d)) /\
    (forall d, Q d -> exists d1 d2, BeforeDelegationCreated 0 b a d = Ok d1 /\
       AfterDelegationModified 0 b a d1 = Ok d2 /\ Q d2)) (cs_Delegations s)
}.

(** A loop of calls that keep a property of the distribution. *)
Lemma dist_loop {A} (R : Dist -> Prop) (f : A -> M State unit) (l : list A) s d0 :
  R d0 -> (forall x d, x ∈ l -> R d -> exists d', f x (set_dist d s) = (Ok tt, set_dist d' s) /\ R d') ->
  exists d', for_each f l (set_dist d0 s) = (Ok tt, set_dist d' s) /\ R d'.
Proof.
  intros H0 Hf.
  destruct (for_each_ok (fun _ s1 => exists d, s1 = set_dist d s /\ R d) f l (set_dist d0 s)) as (s' & E & d & -> & Hd).
  - eauto.
  - intros visited x rest s1 El (d & -> & Hd). destruct (Hf x d ltac:(rewrite El; set_solver) Hd) as (d' & E & Hd').
    eauto.
  - eauto.
Qed.

Lemma dist_step_ok f d d' s : f d = Ok d' -> dist_step f (set_dist d s) = (Ok tt, set_dist d' s).
Proof. intros E. unfold dist_step. cbn [cs_Distribution set_dist]. by rewrite E. Qed.

Lemma settle_succeeds height P Q s : exportable height P Q s ->
  exists d, settle_rewards height s = (Ok tt, set_dist d s) /\ Q d.
Proof.
  intros [H0 Hdel Hv Hd]. rewrite Forall_forall in Hd.
  assert (Es : s = set_dist (cs_Distribution s) s) by (by destruct s).
  unfold settle_rewards. cbv [mbind M_bind gets].
  assert (E1 : exists d, withdraw_commissions height s = (Ok tt, set_dist d s) /\ P d).
  { unfold withdraw_commissions. cbv [mbind M_bind gets id].
    match goal with |- exists d, for_each ?f ?l _ = _ /\ _ =>
      pose proof (dist_loop P f l s (cs_Distribution s) H0) as Hl end. rewrite <- Es in Hl. apply Hl.
    intros [k v] d Hin%walk_elem HP. destruct (Hv k v Hin) as (a & Ha & Hw & _). cbv [mbind M_bind lift].
    rewrite Ha. cbn. eauto. }
  destruct E1 as (d1 & -> & P1). cbn [cs_Delegations set_dist].
  assert (E2 : exists d, withdraw_rewards height (cs_Delegations s) (set_dist d1 s) = (Ok tt, set_dist d s) /\ P d).
  { apply (dist_loop P); [done|]. intros del d Hin HP. destruct (Hd del Hin) as (a & b & Ha & Hw & _).
    cbv [mbind M_bind lift]. rewrite Ha. cbn. eauto. }
  destruct E2 as (d2 & -> & P2). do 2 (erewrite dist_step_ok by reflexivity).
  assert (E3 : exists d, reinit_validators 0
    (set_dist (DeleteAllValidatorHistoricalRewards (DeleteAllValidatorSlashEvents d2)) s) = (Ok tt, set_dist d s) /\ Q d).
  { unfold reinit_validators. cbv [mbind M_bind gets id]. cbn [cs_Validators set_dist].
    apply (dist_loop Q); [by apply Hdel|]. intros [k v] d Hin%walk_elem HQ.
    destruct (Hv k v Hin) as (a & Ha & _ & Hr). destruct (Hr d HQ) as (x & y & Ex & Ey & HQ').
    cbv [mbind M_bind lift]. rewrite Ha. cbn [of_option]. rewrite (dist_step_ok _ _ _ _ Ex), (dist_step_ok _ _ _ _ Ey). eauto. }
  destruct E3 as (d3 & -> & Q3). apply (dist_loop Q); [done|]. intros del d Hin HQ.
  destruct (Hd del Hin) as (a & b & Ha & _ & Hr). destruct (Hr d HQ) as (x & y & Ex & Ey & HQ').
  cbv [mbind M_bind lift]. rewrite Ha, (dist_step_ok _ _ _ _ Ex), (dist_step_ok _ _ _ _ Ey). eauto.
Qed.

Lemma allowed_addrs_ok l : Forall (fun a => is_Some (ValAddressFromBech32 a)) l -> allowed_addrs l = Ok (list_to_set l).
Proof. induction 1 as [|a l [x Hx] _ IH]; cbn [allowed_addrs]; [done|]. by rewrite Hx, IH. Qed.

Lemma allowed_addrs_parse l m : allowed_addrs l = Ok m ->
  m = list_to_set l /\ Forall (fun a => is_Some (ValAddressFromBech32 a)) l.
Proof.
  revert m. induction l as [|a l IH]; intros m E; cbn [allowed_addrs] in E; [by injection E as <-|].
  destruct (ValAddressFromBech32 a) eqn:Ea; [|done]. cbn [of_option mbind result_bind] in E.
  destruct (allowed_addrs l) as [m'|]; [|done]. injection E as <-. destruct (IH m' eq_refl) as [-> Hf].
  split; [done|]. constructor; [by rewrite Ea|done].
Qed.

(** The outcome of a preparation that does not stop the node. *)
Lemma prep_ok height jail s s' : prepForZeroHeightGenesis height jail s = (Ok tt, s') ->
  Forall (fun a => is_Some (ValAddressFromBech32 a)) jail /\
  exists d, let r := reset_state (bool_decide (jail <> [])) (list_to_set jail) d s in
  match IterClose with
  | Err _ => s' = r
  | Ok _ => exists s1, ApplyAndReturnValidatorSetUpdates height r = Ok s1 /\
      s' = set_infos ((fun i => mkSigningInfo 0 (si_MissedBlocks i)) <$> cs_SigningInfos s1) s1
  end.
Proof.
  unfold prepForZeroHeightGenesis. cbv [mbind M_bind lift].
  destruct (allowed_addrs jail) as [allowed|] eqn:Ea; [|done]. apply allowed_addrs_parse in Ea as [-> Hf].
  assert (El : (0 <? Z.of_nat (length jail)) = bool_decide (jail <> [])) by (by destruct jail). rewrite El.
  destruct (reset_heights _ _ _ s) as [[[]|] s0] eqn:Er; [|done]. apply reset_heights_ok in Er as (d & ->).
  intros E. split; [done|]. exists d. cbv zeta. destruct IterClose; [|by injection E].
  destruct (ApplyAndReturnValidatorSetUpdates _ _) as [s1|] eqn:Eu; [|done]. rewrite reset_signing_infos_ok in E.
  exists s1. split; [done|]. by injection E.
Qed.

(** Validators with their unbonding heights forgotten. *)
Definition shown (v : Validator) : bytes * bool * Z := (val_Operator v, val_Jailed v, val_Tokens v).

(** C37: an export for height zero resets the heights and jails who it should.  When
    the preparation ends, the exported state has the delegations of before; the entries
    of every unbonding delegation and redelegation at height zero with their balances;
    and the validators of before, jailed exactly if they were or if a list of allowed
    validators is given that their address is not on.  The state the validator set is
    computed from has no unbonding heights, and after that every signing info starts at
    height zero; only when the iterator over the validators does not close is neither
    done.  The preparation ends when the listed addresses parse, the state can be exported
    and the validator set can be computed from the reset state; a listed address that does
    not parse stops it before anything is changed. *)
Theorem zero_height_state (height : Z) (jailAllowedAddrs : list bytes) (P Q : Dist -> Prop) (s : State) :
  let listed := bool_decide (jailAllowedAddrs <> []) in
  let allowed := list_to_set jailAllowedAddrs in
  (forall e, allowed_addrs jailAllowedAddrs = Err e ->
     prepForZeroHeightGenesis height jailAllowedAddrs s = (Err e, s)) /\
  (Forall (fun a => is_Some (ValAddressFromBech32 a)) jailAllowedAddrs -> exportable height P Q s ->
     (forall d, Q d -> is_ok (ApplyAndReturnValidatorSetUpdates height (reset_state listed allowed d s)) = true) ->
     exists s', prepForZeroHeightGenesis height jailAllowedAddrs s = (Ok tt, s')) /\
  (forall s', prepForZeroHeightGenesis height jailAllowedAddrs s = (Ok tt, s') ->
     cs_Delegations s' = cs_Delegations s /\
     cs_Redelegations s' = map (fun e => mkEntry 0 (e_Balance e)) <$> cs_Redelegations s /\
     cs_Unbondings s' = map (fun e => mkEntry 0 (e_Balance e)) <$> cs_Unbondings s /\
     (forall a, shown <$> cs_Validators s' !! a =
        (fun v => (val_Operator v,
           val_Jailed v || (listed && negb (bool_decide (ValAddress_String a ∈ jailAllowedAddrs))), val_Tokens v))
        <$> cs_Validators s !! a) /\
     exists r, map_Forall (fun _ v => val_UnbondingHeight v = 0) (cs_Validators r) /\
       match IterClose with
       | Err _ => s' = r
       | Ok _ => map_Forall (fun _ i => si_StartHeight i = 0) (cs_SigningInfos s') /\
           exists s1, ApplyAndReturnValidatorSetUpdates height r = Ok s1 /\ cs_Validators s' = cs_Validators s1
       end).
Proof.
  cbv zeta. split; [|split].
  - intros e E. unfold prepForZeroHeightGenesis. cbv [mbind M_bind lift]. by rewrite E.
  - intros Hf He Ha. unfold prepForZeroHeightGenesis. cbv [mbind M_bind lift]. rewrite allowed_addrs_ok by done.
    assert (El : (0 <? Z.of_nat (length jailAllowedAddrs)) = bool_decide (jailAllowedAddrs <> []))
      by (by destruct jailAllowedAddrs).
    rewrite El, reset_heights_split. cbv [mbind M_bind].
    destruct (settle_succeeds height P Q s He) as (d & -> & Hd).
    rewrite reset_redelegations_ok, reset_unbondings_ok, reset_validators_ok.
    destruct IterClose; [|by eexists]. specialize (Ha d Hd).
    match goal with |- context [ApplyAndReturnValidatorSetUpdates height ?x] =>
      change x with (reset_state (bool_decide (jailAllowedAddrs <> [])) (list_to_set jailAllowedAddrs) d s) end.
    destruct (ApplyAndReturnValidatorSetUpdates _ _) as [s2|]; [|done].
    rewrite reset_signing_infos_ok. by eexists.
  - intros s' (Hf & d & Hr)%prep_ok. cbv zeta in Hr. set (r := reset_state _ _ d s) in *.
    assert (Hu : map_Forall (fun _ v => val_UnbondingHeight v = 0) (cs_Validators r)).
    { intros a v. unfold r. cbn [cs_Validators reset_state]. rewrite map_lookup_imap.
      destruct (cs_Validators s !! a); [|done]. by intros [= <-]. }
    assert (Hk : cs_Delegations s' = cs_Delegations r /\ cs_Redelegations s' = cs_Redelegations r /\
      cs_Unbondings s' = cs_Unbondings r /\ shown <$> cs_Validators s' = shown <$> cs_Validators r).
    { destruct IterClose as [u|]; [|by subst]. destruct Hr as (s1 & E & ->). by apply apply_keeps in E. }
    destruct Hk as (-> & -> & -> & Hv). split_and!; [done|done|done| |].
    + intros a. rewrite <- lookup_fmap, Hv, lookup_fmap. unfold r. cbn [cs_Validators reset_state].
      rewrite map_lookup_imap. destruct (cs_Validators s !! a) as [v|]; [|done]. cbn. do 2 f_equal.
      unfold shown, reset_validator. cbn. do 5 f_equal. apply bool_decide_ext. set_solver.
    + exists r. split; [done|]. destruct IterClose as [u|]; [|done]. destruct Hr as (s1 & E & ->). split; [|by exists s1].
      intros a i. cbn [cs_SigningInfos set_infos]. rewrite lookup_fmap. destruct (cs_SigningInfos s1 !! a); [|done].
      by intros [= <-].
Qed.
End properties.

(** ** Witnesses *)

Module DemoExport.
#[global] Instance demo_export : ExportLib := {|
  Dist := Z;
  DecCoins := Z;
  DecCoins_Add := Z.add;
  ValAddressFromBech32 := addr_of_text;
  ValAddress_String := addr_to_text;
  ExportAccAddress := addr_of_text;
  WithdrawValidatorCommission _ _ d := d + 1;
  WithdrawDelegationRewards _ _ _ d := d + 1;
  DeleteAllValidatorSlashEvents d := d;
  DeleteAllValidatorHistoricalRewards d := 0;
  GetValidatorOutstandingRewardsCoins _ _ := Ok 0;
  FeePool_Get d := Ok d;
  FeePool_Set _ d := Ok d;
  AfterValidatorCreated _ _ d := if d =? 0 then Ok d else Err (ErrPlain "rewards left");
  BeforeDelegationCreated _ _ _ d := Ok d;
  AfterDelegationModified _ _ _ d := Ok d;
  IterClose := Ok tt;
  ApplyAndReturnValidatorSetUpdates _ s := Ok s
|}.

#[global] Instance demo_export_laws : ExportLaws.
Proof. constructor. by intros height s s' [= <-]. Qed.

Definition v1 : bytes := replicate 20 x01.
Definition v2 : bytes := replicate 20 x02.

Definition state : ChainState Dist := mkChainState (D := Dist)
  (<[v1 := mkValidator (addr_to_text v1) 9 false 100]> {[v2 := mkValidator (addr_to_text v2) 0 false 50]})
  [mkDelegation (addr_to_text v1) (addr_to_text v2)]
  ∅ {[v1 := [mkEntry 7 3]]} {[v1 := mkSigningInfo 5 0]} 0.

Definition positive (d : Z) : Prop := 0 <= d.
Definition settled (d : Z) : Prop := d = 0.

Lemma state_exportable : exportable 12 positive settled state.
Proof.
  assert (Hv : forall d, settled d -> exists d1 d2, donate_scraps (LIB := demo_export) v1 d = Ok d1 /\
    AfterValidatorCreated 0 v1 d1 = Ok d2 /\ settled d2) by (intros d ->; by exists 0, 0).
  split; unfold positive, settled.
  - done.
  - done.
  - apply map_Forall_insert_2; [|apply map_Forall_singleton]; eexists; (split; [by vm_compute|]);
      (split; [intros d; cbn; lia|exact Hv]).
  - repeat constructor. eexists _, _. split; [by vm_compute|]. split; [intros d; cbn; lia|]. intros d ->. by exists 0, 0.
Qed.
End DemoExport.

(** With only the first validator allowed, the second is jailed. *)
Lemma zero_height_state_witness :
  exists s', prepForZeroHeightGenesis 12 [addr_to_text DemoExport.v1] DemoExport.state = (Ok tt, s') /\
  (shown <$> cs_Validators s' !! DemoExport.v1) = Some (addr_to_text DemoExport.v1, false, 100) /\
  (shown <$> cs_Validators s' !! DemoExport.v2) = Some (addr_to_text DemoExport.v2, true, 50) /\
  cs_Unbondings s' !! DemoExport.v1 = Some [mkEntry 0 3].
Proof.
  destruct (zero_height_state (LIB := DemoExport.demo_export) 12 [addr_to_text DemoExport.v1]
    DemoExport.positive DemoExport.settled DemoExport.state) as (_ & Hs & Ho).
  destruct Hs as [s' E].
  - repeat constructor. by eexists.
  - exact DemoExport.state_exportable.
  - intros d _. reflexivity.
  - exists s'. destruct (Ho s' E) as (_ & _ & Hu & Hv & _). split; [exact E|].
    rewrite !Hv, Hu. split; [|split]; vm_compute; reflexivity.
Defined.
