(* ===== verification/Testnet.v ===== *)
(** The test network command: src/cmd/nvnmchaind/cmd/testnet.go ([getIP],
    [calculateIP], the addresses and files of [initTestnetFiles], [initGenFiles],
    [collectGenFiles]).

    The command writes the configuration of several validators that run on one host
    or on hosts with consecutive addresses. *)

From S2P Require Import Prelude Types Concrete Tax GenAccounts.

(** ** Libraries *)

(** The package net: the four bytes of an IPv4 address and its text; and the SDK's
    guess of the host's address. *)
Class NetLib := {
  ParseIPv4 : bytes -> option bytes;
  IPv4_String : bytes -> bytes;
  ExternalIP : result bytes
}.

Class NetLibLaws `{NetLib} := {
  ParseIPv4_length : forall s a, ParseIPv4 s = Some a -> length a = 4%nat;
  IPv4_String_inj : forall a b, length a = 4%nat -> length b = 4%nat -> IPv4_String a = IPv4_String b -> a = b
}.

(** ** Addresses *)

Section addresses.
Context {NET : NetLib}.

(** [ipv4[3]++] on a byte. *)
Definition bump (ipv4 : bytes) : bytes := alter (fun b => z2b (b2z b + 1)) 3%nat ipv4.

Definition calculateIP (ip : bytes) (i : nat) : result bytes :=
  ipv4 ← of_option (ParseIPv4 ip) (ErrPlain "non ipv4 address");
  Ok (IPv4_String (Nat.iter i bump ipv4)).

Definition getIP (i : nat) (startingIPAddr : bytes) : result bytes :=
  if is_empty startingIPAddr then ExternalIP else calculateIP startingIPAddr i.

(** ** The configuration of a node *)

Record InitArgs := mkInitArgs {
  ia_nodeDirPrefix : bytes;
  ia_startingIPAddress : bytes;
  ia_singleMachine : bool
}.

Definition rpcPort : Z := 26657.
Definition apiPort : Z := 1317.
Definition grpcPort : Z := 9090.

Definition portOffset (args : InitArgs) (i : nat) : Z := if ia_singleMachine args then Z.of_nat i else 0.
Definition p2pPortStart (args : InitArgs) : Z := if ia_singleMachine args then 16656 else 26656.

Definition nodeDirName (args : InitArgs) (i : nat) : bytes := ia_nodeDirPrefix args ++ fmt_d (Z.of_nat i).

(** What [initTestnetFiles] writes for node [i]: the moniker, the addresses of the
    API and gRPC servers, and the memo by which the other nodes reach it. *)
Record NodeInit := mkNodeInit { ni_Moniker : bytes; ni_API : bytes; ni_GRPC : bytes; ni_Memo : bytes }.

Definition node_init (args : InitArgs) (nodeID : bytes) (i : nat) : result NodeInit :=
  ip ← getIP i (ia_startingIPAddress args);
  Ok (mkNodeInit (nodeDirName args i)
    (bs "tcp://0.0.0.0:" ++ fmt_d (apiPort + portOffset args i))
    (bs "0.0.0.0:" ++ fmt_d (grpcPort + portOffset args i))
    (nodeID ++ bs "@" ++ ip ++ bs ":" ++ fmt_d (p2pPortStart args + portOffset args i))).

(** What [collectGenFiles] sets for node [i]: the moniker and the addresses of the
    RPC server and of the peer to peer listener. *)
Record NodeListen := mkNodeListen { nl_Moniker : bytes; nl_RPC : bytes; nl_P2P : bytes }.

Definition node_listen (args : InitArgs) (i : nat) : NodeListen :=
  mkNodeListen (nodeDirName args i)
    (bs "tcp://0.0.0.0:" ++ fmt_d (rpcPort + portOffset args i))
    (bs "tcp://0.0.0.0:" ++ fmt_d (p2pPortStart args + portOffset args i)).
End addresses.

(** ** Genesis files *)

Section genesis.
Context {LIB : GenLib}.

(** The files of the validators, by name. *)
Abbreviation Files F := (gmap bytes F).

(** Writing one file; an error stops the command. *)
Definition save {F} (write : bytes -> result unit) (name : bytes) (content : F) : M (Files F) unit :=
  _ ← lift (write name);
  modify (fun fs => <[name := content]> fs).

(** [initGenFiles]: the accounts and balances go into the default genesis, which is
    saved for each validator. *)
Definition initGenFiles (chainID : bytes) (defaultSupply : Coins) (genAccounts : list GenesisAccount)
    (genBalances : list Balance) (genFiles : list bytes) (numValidators : nat) (write : bytes -> result unit) :
    M (Files (bytes * GenesisFile)) unit :=
  accounts ← lift (PackAccounts genAccounts);
  let Balances := SanitizeGenesisBalances genBalances in
  let Supply := fold_left (fun supply bal => Coins_Add supply (bal_Coins bal)) Balances defaultSupply in
  let appGenesis := (chainID, mkGenesisFile accounts Balances Supply) in
  for_each (fun i =>
    name ← lift (of_option (genFiles !! i) ErrPanic);
    save write name appGenesis) (seq 0 numValidators).

(** [collectGenFiles]: the state each node derives from its genesis and the genesis
    transactions; the first one is written for all, with one genesis time. *)
Definition collectGenFiles {G} (chainID : bytes) (genTime : Z) (GenAppState : nat -> result G)
    (genesisFile : nat -> bytes) (numValidators : nat) (write : bytes -> result unit) :
    M (Files (bytes * G * Z)) unit :=
  fun fs =>
    let '(r, (_, fs')) := for_each (fun i =>
      nodeAppState ← lift (GenAppState i);
      _ ← modify (fun st : option G * _ => (Some (default nodeAppState st.1), st.2));
      appState ← (fun st => (of_option st.1 ErrPanic, st));
      zoom snd (fun fs st => (st.1, fs)) (save write (genesisFile i) (chainID, appState, genTime)))
      (seq 0 numValidators) (None, fs) in (r, fs').
End genesis.

(** ** Properties *)

Lemma z2b_eq x y : z2b x = z2b y <-> x mod 256 = y mod 256.
Proof.
  split; intros E; [by rewrite <- !z2b_spec, E|]. apply b2z_inj. by rewrite !z2b_spec.
Qed.

Lemma bump_iter a b c d i : Nat.iter i bump [a; b; c; d] = [a; b; c; z2b (b2z d + Z.of_nat i)].
Proof.
  induction i as [|i IH]; [by rewrite Z.add_0_r, z2b_b2z|]. rewrite Nat.iter_succ, IH. unfold bump. cbn.
  do 3 f_equal. f_equal. rewrite z2b_spec. apply z2b_eq. rewrite Z.add_mod_idemp_l by done. f_equal. lia.
Qed.

(** The listeners of a node and their ports. *)
Inductive Listener := API | GRPC | RPC | P2P.

Definition port (args : InitArgs) (l : Listener) (i : nat) : Z :=
  portOffset args i + match l with API => apiPort | GRPC => grpcPort | RPC => rpcPort | P2P => p2pPortStart args end.

Section properties.
Context {NET : NetLib} {LAWS : NetLibLaws}.

Lemma calculateIP_eq ip a b c d i j : ParseIPv4 ip = Some [a; b; c; d] ->
  calculateIP ip i = calculateIP ip j <-> Z.of_nat i mod 256 = Z.of_nat j mod 256.
Proof.
  intros E. unfold calculateIP. rewrite E. cbn [of_option mbind result_bind]. rewrite !bump_iter.
  assert (Hz : z2b (b2z d + Z.of_nat i) = z2b (b2z d + Z.of_nat j) <-> Z.of_nat i mod 256 = Z.of_nat j mod 256).
  { rewrite z2b_eq. pose proof (b2z_range d). split; intros H1.
    - apply (f_equal (fun z => (z - b2z d) mod 256)) in H1. rewrite !Zminus_mod_idemp_l in H1.
      by rewrite !Z.add_simpl_l in H1.
    - apply (f_equal (fun z => (b2z d + z) mod 256)) in H1. by rewrite !Zplus_mod_idemp_r in H1. }
  rewrite <- Hz. split; [|congruence]. intros [= H1]. apply IPv4_String_inj in H1; [congruence|done..].
Qed.

(** the nodes of a test network do not collide and find each other.  The memo
    of each node names the port its peer to peer listener uses.  On one host, no
    two listeners of the first 7566 nodes share a port.  On several hosts, two
    nodes get the same address exactly when their numbers differ by a multiple of
    256: only the last byte of the starting address is counted up, and it wraps
    around. *)
Theorem testnet_addresses (args : InitArgs) :
  (forall nodeID i n, node_init args nodeID i = Ok n -> exists ip,
     getIP i (ia_startingIPAddress args) = Ok ip /\
     ni_Memo n = nodeID ++ bs "@" ++ ip ++ bs ":" ++ fmt_d (port args P2P i) /\
     nl_P2P (node_listen args i) = bs "tcp://0.0.0.0:" ++ fmt_d (port args P2P i) /\
     ni_Moniker n = nl_Moniker (node_listen args i)) /\
  (ia_singleMachine args = true -> forall a b i j, Z.of_nat i < 7566 -> Z.of_nat j < 7566 ->
     port args a i = port args b j -> a = b /\ i = j) /\
  (forall i j, is_Some (ParseIPv4 (ia_startingIPAddress args)) -> ia_startingIPAddress args <> [] ->
     getIP i (ia_startingIPAddress args) = getIP j (ia_startingIPAddress args) <->
     Z.of_nat i mod 256 = Z.of_nat j mod 256).
Proof.
  split_and!.
  - intros nodeID i n. unfold node_init. destruct (getIP i _) as [ip|]; [|done]. cbn [mbind result_bind].
    intros [= <-]. exists ip. cbn [ni_Memo nl_P2P node_listen ni_Moniker nl_Moniker port]. unfold port.
    by rewrite Z.add_comm.
  - intros Hs a b i j Hi Hj. unfold port, portOffset, p2pPortStart, apiPort, grpcPort, rpcPort. rewrite Hs.
    destruct a, b; intros E; first [exfalso; lia | split; [done|lia]].
  - intros i j [x Hx] Hne. unfold getIP. destruct (ia_startingIPAddress args) as [|c ip]; [done|]. cbn [is_empty].
    pose proof (ParseIPv4_length _ _ Hx) as Hl. destruct x as [|x1 [|x2 [|x3 [|x4 []]]]]; try done.
    by apply (calculateIP_eq _ x1 x2 x3 x4).
Qed.
End properties.

Section genesis_properties.
Context {LIB : GenLib} {LAWS : GenLibLaws}.

Lemma supply_total bals supply d :
  amount (fold_left (fun supply bal => Coins_Add supply (bal_Coins bal)) bals supply) d = amount supply d + total bals d.
Proof.
  revert supply. induction bals as [|b bals IH]; intros supply; cbn [fold_left total fold_right]; [lia|].
  rewrite IH, Add_amount. unfold total. cbn [fold_right]. lia.
Qed.

(** A loop that writes the same contents under every name. *)
Lemma save_same {F} (write : bytes -> result unit) name (x : F) fs fs' :
  save write name x fs = (Ok tt, fs') -> fs' = <[name := x]> fs.
Proof. unfold save. cbv [mbind M_bind lift modify]. destruct (write name); congruence. Qed.

(** every node of a test network starts from the same genesis.  When the files
    are initialised, each validator's holds the chain id, the accounts and the
    balances, with the balances added to the default supply; when they are
    collected, each holds the same chain id, genesis time and state, the one the
    first node derived. *)
Theorem testnet_same_genesis {G} chainID supply0 accs bals genFiles n write fs fs'
    genTime (GenAppState : nat -> result G) genesisFile write' gs gs' :
  (initGenFiles chainID supply0 accs bals genFiles n write fs = (Ok tt, fs') ->
   exists f, UnpackAccounts (gf_Accounts f) = Ok accs /\ (gf_Balances f ≡ₚ bals) /\
   (forall d, amount (gf_Supply f) d = amount supply0 d + total bals d) /\
   forall i, (i < n)%nat -> exists name, genFiles !! i = Some name /\ fs' !! name = Some (chainID, f)) /\
  (collectGenFiles chainID genTime GenAppState genesisFile n write' gs = (Ok tt, gs') ->
   forall i, (i < n)%nat -> exists appState, GenAppState 0%nat = Ok appState /\
   gs' !! genesisFile i = Some (chainID, appState, genTime)).
Proof.
  split.
  - unfold initGenFiles. cbv [mbind M_bind lift]. destruct (PackAccounts accs) as [l|] eqn:Ep; [|done].
    apply Unpack_Pack in Ep. cbv zeta. set (f := mkGenesisFile _ _ _). intros E. exists f.
    split; [done|]. split; [apply SanitizeBalances_perm|]. split.
    { intros d. cbn [gf_Supply f]. by rewrite supply_total, SanitizeBalances_perm. }
    intros i Hi. apply (for_each_ok_inv (fun visited (fs : gmap bytes (bytes * GenesisFile)) => forall i, i ∈ visited ->
      exists name, genFiles !! i = Some name /\ fs !! name = Some (chainID, f))) with (i := i) in E.
    + done.
    + intros j Hj. by apply not_elem_of_nil in Hj.
    + intros visited x s s1 IH Es j Hj. destruct (genFiles !! x) as [name|] eqn:En; [|done]. cbn [of_option] in Es.
      apply save_same in Es as ->. apply elem_of_app in Hj as [Hj|Hj%list_elem_of_singleton].
      * destruct (IH j Hj) as (name' & En' & Ef). exists name'. split; [done|].
        destruct (decide (name = name')) as [->|]; [by rewrite lookup_insert_eq|by rewrite lookup_insert_ne].
      * subst j. exists name. by rewrite lookup_insert_eq.
    + apply elem_of_seq. lia.
  - unfold collectGenFiles. destruct (for_each _ _ _) as [r [a gs1]] eqn:E. intros [= -> ->] i Hi.
    set (Inv := fun (visited : list nat) (st : option G * gmap bytes (bytes * G * Z)) =>
      (forall x, head visited = Some x -> is_Some st.1 /\ GenAppState x = of_option st.1 ErrPanic) /\
      (visited = [] -> st.1 = None) /\
      forall j, j ∈ visited -> exists s, st.1 = Some s /\ st.2 !! genesisFile j = Some (chainID, s, genTime)).
    assert (HI : Inv (seq 0 n) (a, gs')).
    { eapply (for_each_ok_inv Inv); [| |exact E].
      - split; [done|]. split; [done|]. intros j Hj. by apply not_elem_of_nil in Hj.
      - intros visited x [o s] s1 (H1 & H2 & H3) Es. cbn [fst snd] in *. cbv [mbind M_bind lift modify zoom] in Es.
        destruct (GenAppState x) as [g|] eqn:Eg; [|done]. cbn [fst snd of_option] in Es.
        destruct (save _ _ _ s) as [r2 s2] eqn:Ew. injection Es as -> <-. apply save_same in Ew as ->.
        split; [|split; [by destruct visited|]].
        + intros y Hy. destruct visited as [|v visited]; cbn in Hy; injection Hy as <-.
          * rewrite (H2 eq_refl). cbn. eauto.
          * destruct (H1 v eq_refl) as [[g0 ->] ->]. cbn. eauto.
        + intros j Hj. eexists. split; [done|]. cbn [fst snd]. destruct (decide (genesisFile x = genesisFile j)) as [->|Hne];
            [by rewrite lookup_insert_eq|]. rewrite lookup_insert_ne by done.
          apply elem_of_app in Hj as [Hj|Hj%list_elem_of_singleton]; [|by subst].
          destruct (H3 j Hj) as (s' & -> & Ej). done. }
    destruct HI as (H1 & _ & H3). destruct n as [|n]; [lia|]. destruct (H1 0%nat eq_refl) as [[g Hg] HG]. cbn in Hg. subst a.
    exists g. split; [done|]. destruct (H3 i) as (s' & [= <-] & E'); [apply elem_of_seq; lia|done].
Qed.
End genesis_properties.

(** ** Witnesses *)

Module DemoNet.
(** Addresses written as their four bytes. *)
#[global] Instance demo_net : NetLib := {|
  ParseIPv4 s := if decide (length s = 4%nat) then Some s else None;
  IPv4_String a := a;
  ExternalIP := Err (ErrPlain "are you connected to the network?")
|}.

#[global] Instance demo_net_laws : NetLibLaws.
Proof. split; [|done]. intros s a. cbn. case_decide; [|done]. by intros [= <-]. Qed.

Definition args : InitArgs := mkInitArgs (bs "node") [xc0; xa8; x0a; xfe] true.

Definition files : gmap bytes (bytes * GenesisFile) :=
  (initGenFiles (bs "test") ∅ [BaseAcc (mkBaseAccount DemoGen.alice 0 0)]
     [mkBalance (addr_to_text DemoGen.alice) {[bs "n" := 5]}] [bs "a"; bs "b"] 2 (fun _ => Ok tt) ∅).2.

Lemma init_runs : initGenFiles (bs "test") ∅ [BaseAcc (mkBaseAccount DemoGen.alice 0 0)]
     [mkBalance (addr_to_text DemoGen.alice) {[bs "n" := 5]}] [bs "a"; bs "b"] 2 (fun _ => Ok tt) ∅ = (Ok tt, files).
Proof. reflexivity. Qed.
End DemoNet.

(** The third node after 192.168.10.254 is 192.168.10.1, and gets its own ports. *)
Lemma testnet_addresses_witness :
  (forall a b, port DemoNet.args a 0 = port DemoNet.args b 1 -> False) /\
  getIP 3 (ia_startingIPAddress DemoNet.args) = Ok [xc0; xa8; x0a; x01] /\
  getIP 3 (ia_startingIPAddress DemoNet.args) = getIP 259 (ia_startingIPAddress DemoNet.args).
Proof.
  destruct (testnet_addresses DemoNet.args) as (_ & H2 & H3). split_and!.
  - intros a b E. destruct (H2 eq_refl a b 0%nat 1%nat ltac:(done) ltac:(done) E) as [_ Hf]. discriminate Hf.
  - reflexivity.
  - apply (proj2 (H3 3%nat 259%nat ltac:(by eexists) ltac:(done))). reflexivity.
Defined.

Lemma testnet_same_genesis_witness :
  exists f, DemoNet.files !! bs "b" = Some (bs "test", f) /\ amount (gf_Supply f) (bs "n") = 5.
Proof.
  destruct (proj1 (testnet_same_genesis (bs "test") ∅ [BaseAcc (mkBaseAccount DemoGen.alice 0 0)]
     [mkBalance (addr_to_text DemoGen.alice) {[bs "n" := 5]}] [bs "a"; bs "b"] 2 (fun _ => Ok tt) ∅ DemoNet.files
     0 (fun _ => Ok tt) (fun _ => []) (fun _ => Ok tt) ∅ ∅) DemoNet.init_runs) as (f & _ & _ & Hs & Hf).
  destruct (Hf 1%nat ltac:(lia)) as (name & [= <-] & E). exists f. split; [exact E|]. rewrite Hs. vm_compute. reflexivity.
Defined.
