(* ===== verification/TestnetInit.v ===== *)
(** The commands of the test network: [initTestnetFiles], [writeFile], the flags read
    by both commands and [startTestnet], src/cmd/nvnmchaind/cmd/testnet.go.

    Testnet.v has the addresses and the genesis files; this file has the files each
    validator gets, and what is left of them when a step fails. *)

From S2P Require Import Prelude Types Concrete Tax GenAccounts Testnet.

(** ** Files *)

(** The settings of CometBFT and of the server that the command changes. *)
Record NodeConf := mkNodeConf {
  nc_Root : bytes; nc_Moniker : bytes; nc_RPC : bytes;
  nc_AddrBookStrict : bool; nc_PexReactor : bool; nc_AllowDuplicateIP : bool
}.

Record AppConf := mkAppConf {
  ac_MinGasPrices : bytes; ac_APIEnable : bool; ac_API : bytes; ac_GRPC : bytes; ac_GRPCWeb : bool;
  ac_Telemetry : bool; ac_Retention : Z; ac_HostnameLabel : bool; ac_GlobalLabels : list (list bytes)
}.

(** What the command asks of the libraries: paths, directories, keys and signatures.
    [Tx] is a signed transaction, [App] the genesis state of the collected files. *)
Section libraries.
Context {LIB : GenLib} {KB Algo Tx App : Type}.

Inductive Content :=
| Bytes (b : bytes)
| KeySeed (secret : bytes)
| GenTx (tx : Tx)
| AppToml (c : AppConf)
| InitialGenesis (g : bytes * GenesisFile)
| FinalGenesis (g : bytes * App * Z).

Abbreviation FS := (gmap bytes Content).

(** [inside dir path] tells whether a path is below a directory; the operations of the
    system tell whether they succeed; [os_RemoveAll] may leave what it cannot remove. *)
Class TestnetLib := {
  Join : list bytes -> bytes;
  inside : bytes -> bytes -> bool;
  os_MkdirAll : bytes -> FS -> result unit;
  os_WriteFile : bytes -> FS -> result unit;
  os_RemoveAll : bytes -> FS -> FS;
  Config_GenesisFile : bytes -> bytes;
  InitializeNodeValidatorFiles : NodeConf -> M FS (bytes * bytes);
  keyring_New : bytes -> bytes -> M FS KB;
  NewSigningAlgoFromString : bytes -> KB -> result Algo;
  GenerateSaveCoinKey : KB -> bytes -> Algo -> M FS (bytes * bytes);
  ValAddress_String : bytes -> result bytes;
  TokensFromConsensusPower : Z -> Z;
  sdk_DefaultBondDenom : bytes;
  create_validator_tx : bytes -> bytes -> KB -> bytes -> bytes -> bytes -> bytes * Z -> result Tx
}.

(** A name of one component: not empty, not a dot or two, without a separator. *)
Definition plain (name : bytes) : bool :=
  negb (is_empty name) && negb (bool_decide (name = bs ".")) && negb (bool_decide (name = bs ".."))
  && forallb (fun b => negb (bool_decide (b = x2f))) name.

(** An operation of a library leaves the files outside of the directory it is given. *)
Definition confined {A} `{TestnetLib} (dir : bytes) (m : M FS A) : Prop :=
  forall fs path, inside dir path = false -> (m fs).2 !! path = fs !! path.

Class TestnetLibLaws `{TestnetLib} := {
  Join_inside : forall dir names, names <> [] -> Forall (fun n => plain n = true) names ->
    inside dir (Join (dir :: names)) = true;
  inside_trans : forall a b c, inside a b = true -> inside b c = true -> inside a c = true;
  RemoveAll_outside : forall dir fs path, inside dir path = false -> os_RemoveAll dir fs !! path = fs !! path;
  GenesisFile_inside : forall root, inside root (Config_GenesisFile root) = true;
  Initialize_confined : forall c, confined (nc_Root c) (InitializeNodeValidatorFiles c);
  keyring_confined : forall backend dir, confined dir (keyring_New backend dir);
  GenerateKey_confined : forall backend dir fs kb fs' name algo,
    keyring_New backend dir fs = (Ok kb, fs') -> confined dir (GenerateSaveCoinKey kb name algo)
}.

Section command.
Context {ENV : Env} {NET : NetLib} {TL : TestnetLib}.

Definition write_content (path : bytes) (c : Content) : M FS unit := fun fs =>
  match os_WriteFile path fs with Ok _ => (Ok tt, <[path := c]> fs) | Err e => (Err e, fs) end.

(** [srvconfig.WriteConfigFile], which panics when it cannot write. *)
Definition WriteConfigFile (path : bytes) (c : AppConf) : M FS unit := fun fs =>
  match write_content path (AppToml c) fs with (Err _, fs) => (Err ErrPanic, fs) | ok => ok end.

Definition writeFile (name dir : bytes) (contents : Content) : M FS unit :=
  let file := Join [dir; name] in
  _ ← (fun fs => match os_MkdirAll dir fs with
                 | Ok _ => (Ok tt, fs)
                 | Err e => (Err (ErrWrap "could not create directory" e), fs)
                 end : result unit * FS);
  write_content file contents.

(** ** The loop over the validators *)

(** [initArgs] *)
Record Args := mkArgs {
  a_init : InitArgs; a_algo : bytes; a_chainID : bytes; a_keyringBackend : bytes; a_minGasPrices : bytes;
  a_nodeDaemonHome : bytes; a_numValidators : nat; a_outputDir : bytes
}.

(** The variables of the loop. *)
Record Init := mkInit {
  in_fs : FS; in_cfg : NodeConf; in_app : AppConf; in_nodeIDs : list bytes; in_valPubKeys : list bytes;
  in_genAccounts : list GenesisAccount; in_genBalances : list Balance; in_genFiles : list bytes
}.

Definition set_fs (fs : FS) (s : Init) : Init :=
  mkInit fs (in_cfg s) (in_app s) (in_nodeIDs s) (in_valPubKeys s) (in_genAccounts s) (in_genBalances s) (in_genFiles s).
Definition set_conf (cfg : NodeConf) (app : AppConf) (s : Init) : Init :=
  mkInit (in_fs s) cfg app (in_nodeIDs s) (in_valPubKeys s) (in_genAccounts s) (in_genBalances s) (in_genFiles s).
Definition add_node (nodeID valPubKey genFile : bytes) (s : Init) : Init :=
  mkInit (in_fs s) (in_cfg s) (in_app s) (in_nodeIDs s ++ [nodeID]) (in_valPubKeys s ++ [valPubKey])
    (in_genAccounts s) (in_genBalances s) (in_genFiles s ++ [genFile]).
Definition add_account (acc : GenesisAccount) (bal : Balance) (s : Init) : Init :=
  mkInit (in_fs s) (in_cfg s) (in_app s) (in_nodeIDs s) (in_valPubKeys s) (in_genAccounts s ++ [acc])
    (in_genBalances s ++ [bal]) (in_genFiles s).

Definition on_fs {A} (m : M FS A) : M Init A := zoom in_fs set_fs m.

(** [if err != nil { _ = os.RemoveAll(args.outputDir); return err }] *)
Definition or_remove {A} (dir : bytes) (m : M Init A) : M Init A := fun s =>
  match m s with
  | (Err e, s') => (Err e, set_fs (os_RemoveAll dir (in_fs s')) s')
  | (Ok a, s') => (Ok a, s')
  end.

Definition node_dir (args : Args) (i : nat) : bytes :=
  Join [a_outputDir args; nodeDirName (a_init args) i; a_nodeDaemonHome args].

Definition node_conf (args : Args) (i : nat) (c : NodeConf) : NodeConf :=
  let single := ia_singleMachine (a_init args) in
  mkNodeConf (node_dir args i) (nodeDirName (a_init args) i) (bs "tcp://0.0.0.0:26657")
    (negb single && nc_AddrBookStrict c) (negb single && nc_PexReactor c) (single || nc_AllowDuplicateIP c).

Definition app_conf (args : Args) (i : nat) (c : AppConf) : AppConf :=
  mkAppConf (ac_MinGasPrices c) (ac_APIEnable c)
    (bs "tcp://0.0.0.0:" ++ fmt_d (apiPort + portOffset (a_init args) i))
    (bs "0.0.0.0:" ++ fmt_d (grpcPort + portOffset (a_init args) i)) true
    (ac_Telemetry c) (ac_Retention c) (ac_HostnameLabel c) (ac_GlobalLabels c).

(** The body of the loop. *)
Definition init_node (args : Args) (chainID : bytes) (i : nat) : M Init unit :=
  let name := nodeDirName (a_init args) i in
  let nodeDir := node_dir args i in
  let gentxsDir := Join [a_outputDir args; bs "gentxs"] in
  nodeConfig ← gets in_cfg;
  appConfig ← gets in_app;
  let cfg := node_conf args i nodeConfig in
  let app := app_conf args i appConfig in
  _ ← modify (set_conf cfg app);
  _ ← or_remove (a_outputDir args) (fun s => (os_MkdirAll (Join [nodeDir; bs "config"]) (in_fs s), s));
  ip ← or_remove (a_outputDir args) (lift (getIP i (ia_startingIPAddress (a_init args))));
  idKey ← or_remove (a_outputDir args) (on_fs (InitializeNodeValidatorFiles cfg));
  let memo := idKey.1 ++ bs "@" ++ ip ++ bs ":" ++ fmt_d (p2pPortStart (a_init args) + portOffset (a_init args) i) in
  _ ← modify (add_node idKey.1 idKey.2 (Config_GenesisFile (nc_Root cfg)));
  kb ← on_fs (keyring_New (a_keyringBackend args) nodeDir);
  algo ← lift (NewSigningAlgoFromString (a_algo args) kb);
  addrSecret ← or_remove (a_outputDir args) (on_fs (GenerateSaveCoinKey kb name algo));
  _ ← on_fs (writeFile (bs "key_seed.json") nodeDir (KeySeed addrSecret.2));
  let coins := {[bs "testtoken" := TokensFromConsensusPower 1000; sdk_DefaultBondDenom := TokensFromConsensusPower 500]} in
  _ ← modify (add_account (BaseAcc (mkBaseAccount addrSecret.1 0 0)) (mkBalance (AccAddress_String addrSecret.1) (Coins_Sort coins)));
  valStr ← lift (ValAddress_String addrSecret.1);
  tx ← lift (create_validator_tx chainID memo kb name valStr idKey.2 (sdk_DefaultBondDenom, TokensFromConsensusPower 100));
  _ ← on_fs (writeFile (name ++ bs ".json") gentxsDir (GenTx tx));
  on_fs (WriteConfigFile (Join [nodeDir; bs "config"; bs "app.toml"]) app).

(** ** The command *)

(** The genesis files that a later step writes, put among the other files. *)
Definition saving {F} (content : F -> Content) (m : M (gmap bytes F) unit) : M FS unit := fun fs =>
  let '(r, written) := m ∅ in (r, (content <$> written) ∪ fs).

Definition initial_app_conf (args : Args) (chainID : bytes) (DefaultConfig : AppConf) : AppConf :=
  mkAppConf (a_minGasPrices args) true (ac_API DefaultConfig) (ac_GRPC DefaultConfig) (ac_GRPCWeb DefaultConfig)
    true 60 false [[bs "chain_id"; chainID]].

(** [random] are the six letters of a chain id that is not given, [GenAppState] the
    state the genutil library makes of a node's genesis file and the transactions. *)
Definition initTestnetFiles (args : Args) (random : bytes) (nodeConfig : NodeConf) (DefaultConfig : AppConf)
    (defaultSupply : Coins) (genTime : Z) (GenAppState : bytes -> nat -> FS -> result App) : M FS unit := fun fs =>
  let chainID := if is_empty (a_chainID args) then bs "chain-" ++ random else a_chainID args in
  let start := mkInit fs nodeConfig (initial_app_conf args chainID DefaultConfig) [] [] [] [] [] in
  match for_each (init_node args chainID) (seq 0 (a_numValidators args)) start with
  | (Err e, s) => (Err e, in_fs s)
  | (Ok _, s) =>
      match saving InitialGenesis (initGenFiles chainID defaultSupply (in_genAccounts s) (in_genBalances s)
              (in_genFiles s) (a_numValidators args) (fun path => os_WriteFile path (in_fs s))) (in_fs s) with
      | (Err e, fs) => (Err e, fs)
      | (Ok _, fs) =>
          saving FinalGenesis (collectGenFiles chainID genTime (fun i => GenAppState chainID i fs)
            (fun i => Config_GenesisFile (node_dir args i)) (a_numValidators args) (fun path => os_WriteFile path fs)) fs
      end
  end.

End command.

(** ** Files outside of the output directory *)

Section confinement.
Context {ENV : Env} {NET : NetLib} {TL : TestnetLib} {LAWS : TestnetLibLaws}.
Context (args : Args).
Abbreviation out := (a_outputDir args).

(** The names on the command line are names of one component. *)
Context (Hprefix : forall i, plain (nodeDirName (a_init args) i) = true).
Context (Hhome : plain (a_nodeDaemonHome args) = true).

(** The files outside of the output directory are as they were, and the genesis files are
    inside. *)
Definition inv (fs0 : FS) (s : Init) : Prop :=
  (forall path, inside out path = false -> in_fs s !! path = fs0 !! path) /\
  Forall (fun f => inside out f = true) (in_genFiles s).

Definition keeps {A} (m : M Init A) : Prop := forall fs0 s, inv fs0 s -> inv fs0 (m s).2.

Lemma stays_bind {A B} (m : M Init A) (f : A -> M Init B) :
  keeps m -> (forall s a s', m s = (Ok a, s') -> keeps (f a)) -> keeps (m ≫= f).
Proof.
  intros Hm Hf fs0 s Hs. cbv [mbind M_bind]. specialize (Hm fs0 s Hs). destruct (m s) as [[a|] s1] eqn:E; [|done].
  by apply (Hf _ _ _ E).
Qed.

Lemma stays_pure {A} (f : Init -> result A) : keeps (fun s => (f s, s)).
Proof. by intros fs0 s Hs. Qed.

Lemma stays_modify f : (forall s, in_fs (f s) = in_fs s /\ in_genFiles (f s) = in_genFiles s) -> keeps (modify f).
Proof. intros Hf fs0 s Hs. unfold inv, modify. cbn [snd]. destruct (Hf s) as [-> ->]. exact Hs. Qed.

Lemma stays_add_node id key f : inside out f = true -> keeps (modify (add_node id key f)).
Proof. intros Hf fs0 s [H1 H2]. split; [done|]. cbn. apply Forall_app. by repeat constructor. Qed.

Lemma stays_remove {A} (m : M Init A) : keeps m -> keeps (or_remove out m).
Proof.
  intros Hm fs0 s Hs. unfold or_remove. specialize (Hm fs0 s Hs). destruct (m s) as [[a|] s1]; [done|].
  destruct Hm as [H1 H2]. split; [|done]. intros path Hp. cbn [snd in_fs set_fs]. rewrite RemoveAll_outside by done.
  by apply H1.
Qed.

Lemma stays_on_fs {A} (dir : bytes) (m : M FS A) : inside out dir = true -> confined dir m -> keeps (on_fs m).
Proof.
  intros Hd Hm fs0 s [H1 H2]. unfold on_fs, zoom. specialize (Hm (in_fs s)). destruct (m (in_fs s)) as [r fs].
  split; [|done]. intros path Hp. cbn [snd in_fs set_fs] in *. rewrite Hm; [by apply H1|].
  destruct (inside dir path) eqn:E; [|done]. by rewrite (inside_trans _ _ _ Hd E) in Hp.
Qed.

Lemma write_confined (dir path : bytes) c : inside dir path = true -> confined dir (write_content path c).
Proof.
  intros Hd fs p Hp. unfold write_content. destruct (os_WriteFile path fs); [|done]. cbn.
  rewrite lookup_insert_ne; [done|]. intros ->. congruence.
Qed.

Lemma WriteConfigFile_confined (dir path : bytes) c : inside dir path = true -> confined dir (WriteConfigFile path c).
Proof.
  intros Hd fs p Hp. unfold WriteConfigFile. pose proof (write_confined dir path (AppToml c) Hd fs p Hp) as H.
  by destruct (write_content path (AppToml c) fs) as [[|] fs'].
Qed.

Lemma writeFile_confined (dir name : bytes) c : plain name = true -> confined dir (writeFile name dir c).
Proof.
  intros Hn fs p Hp. unfold writeFile. cbv [mbind M_bind]. destruct (os_MkdirAll dir fs); [|done].
  apply write_confined with (dir := dir); [|done]. apply Join_inside; [done|]. by repeat constructor.
Qed.

Lemma node_dir_inside i : inside out (node_dir args i) = true.
Proof. apply Join_inside; [done|]. repeat constructor; [apply Hprefix|apply Hhome]. Qed.

Lemma plain_json name : plain name = true -> plain (name ++ bs ".json") = true.
Proof.
  unfold plain. rewrite !andb_true_iff, !negb_true_iff. intros (((_ & _) & _) & Hs). split_and!.
  - by destruct name.
  - apply bool_decide_eq_false. intros E%(f_equal length). rewrite length_app in E. cbn in E. lia.
  - apply bool_decide_eq_false. intros E%(f_equal length). rewrite length_app in E. cbn in E. lia.
  - rewrite forallb_app, Hs. reflexivity.
Qed.

Lemma init_node_stays chainID i : keeps (init_node args chainID i).
Proof.
  pose proof (node_dir_inside i) as Hd. unfold init_node.
  repeat (apply stays_bind; [|intros ? ? ? ?]); try apply stays_pure; try (apply stays_modify; by split);
    lazymatch goal with |- keeps (or_remove _ _) => apply stays_remove | _ => idtac end; try apply stays_pure.
  - eapply stays_on_fs; [exact Hd|]. apply (Initialize_confined (node_conf args i _)).
  - apply stays_add_node. eapply inside_trans; [exact Hd|]. apply (GenesisFile_inside (node_dir args i)).
  - eapply stays_on_fs; [exact Hd|]. apply keyring_confined.
  - eapply stays_on_fs; [exact Hd|].
    match goal with H : on_fs (keyring_New _ _) ?s = _ |- _ => unfold on_fs, zoom in H;
      destruct (keyring_New _ _ (in_fs s)) as [r fs1] eqn:E; injection H as -> _ end.
    eapply GenerateKey_confined. exact E.
  - eapply stays_on_fs; [exact Hd|]. by apply writeFile_confined.
  - eapply stays_on_fs; [|apply writeFile_confined, plain_json, Hprefix]. apply Join_inside; [done|].
    by repeat constructor.
  - eapply stays_on_fs; [exact Hd|]. apply WriteConfigFile_confined. apply Join_inside; [done|]. by repeat constructor.
Qed.

(** The two loops over the genesis files write under their names only. *)
Lemma saving_outside {F} (content : F -> Content) (m : M (gmap bytes F) unit) fs path :
  (m ∅).2 !! path = None -> (saving content m fs).2 !! path = fs !! path.
Proof.
  unfold saving. destruct (m ∅) as [r w]. cbn [snd]. intros E. by rewrite lookup_union_r by (by rewrite lookup_fmap, E).
Qed.

Lemma initGenFiles_names chainID supply accs bals genFiles n write path :
  path ∉ genFiles -> (initGenFiles chainID supply accs bals genFiles n write ∅).2 !! path = None.
Proof.
  intros Hp. unfold initGenFiles. cbv [mbind M_bind lift]. destruct (PackAccounts accs); [|done]. cbv zeta.
  destruct (for_each _ _ ∅) as [r fs] eqn:E. cbn [snd].
  apply (for_each_inv (fun fs : gmap bytes (bytes * GenesisFile) => fs !! path = None)) in E; [done| |done].
  intros i fs0 _ H0. destruct (genFiles !! i) as [name|] eqn:En; cbn [of_option]; [|done].
  unfold save. cbv [mbind M_bind lift modify]. destruct (write name); [|done]. cbn [snd].
  rewrite lookup_insert_ne; [done|]. intros <-. apply Hp. by eapply list_elem_of_lookup_2.
Qed.

Lemma collectGenFiles_names chainID genTime (state : nat -> result App) genesisFile n write path :
  (forall i, genesisFile i <> path) -> (collectGenFiles chainID genTime state genesisFile n write ∅).2 !! path = None.
Proof.
  intros Hp. unfold collectGenFiles. destruct (for_each _ _ _) as [r [o fs]] eqn:E. cbn [snd].
  apply (for_each_inv (fun st : option App * gmap bytes (bytes * App * Z) => st.2 !! path = None)) in E; [done| |done].
  intros i [o' fs0] _ H0. cbv [mbind M_bind lift modify zoom save]. cbn [fst snd] in *.
  destruct (state i) as [g|]; [|done]. cbn [of_option]. destruct (write (genesisFile i)); [|done]. cbn [snd].
  by rewrite lookup_insert_ne.
Qed.

(** Whether it succeeds or fails, and even when it removes the output directory, the
    command leaves the files outside of that directory as they are. *)
Theorem init_files_confined random nodeConfig DefaultConfig supply genTime GenAppState fs path :
  inside out path = false ->
  (initTestnetFiles args random nodeConfig DefaultConfig supply genTime GenAppState fs).2 !! path = fs !! path.
Proof.
  intros Hp. unfold initTestnetFiles. set (chainID := if is_empty _ then _ else _). set (start := mkInit _ _ _ _ _ _ _ _).
  destruct (for_each _ _ start) as [r s] eqn:E.
  apply (for_each_inv (inv fs)) in E as [H1 H2]; [| |by split].
  2:{ intros i s0 _ Hs. by apply init_node_stays. }
  destruct r as [[]|e]; [|by apply H1].
  match goal with |- context [saving InitialGenesis ?m (in_fs s)] =>
    pose proof (saving_outside InitialGenesis m (in_fs s) path) as Hi; destruct (saving InitialGenesis m (in_fs s)) as [r1 fs1] end.
  cbn [snd] in Hi. rewrite H1 in Hi by done.
  assert (Hg : path ∉ in_genFiles s).
  { intros Hin. rewrite Forall_forall in H2. rewrite (H2 _ Hin) in Hp. done. }
  specialize (Hi (initGenFiles_names _ _ _ _ _ _ _ _ Hg)). destruct r1 as [[]|e]; [|exact Hi].
  rewrite saving_outside; [exact Hi|]. apply collectGenFiles_names. intros i Hi'.
  assert (inside out path = true); [|congruence]. rewrite <- Hi'. eapply inside_trans; [apply node_dir_inside|apply GenesisFile_inside].
Qed.
End confinement.

(** The four steps that clean up after themselves: when [RemoveAll] can remove the
    directory, nothing in it is left. *)
Lemma guarded_step_cleans {ENV : Env} {TL : TestnetLib} {A} (m : M Init A) dir s e s' :
  (forall fs path, inside dir path = true -> os_RemoveAll dir fs !! path = None) ->
  or_remove dir m s = (Err e, s') -> forall path, inside dir path = true -> in_fs s' !! path = None.
Proof.
  intros Hr. unfold or_remove. destruct (m s) as [[a|e1] s1]; [done|]. intros [= <- <-] path Hp. by apply Hr.
Qed.
End libraries.

(** ** [testnet start] *)

(** The flags of the command, and [startArgs], which has a field that no flag fills. *)
Record StartFlags := mkStartFlags {
  f_outputDir : bytes; f_chainID : bytes; f_minGasPrices : bytes; f_numValidators : Z; f_algo : bytes;
  f_enableLogging : bool; f_rpcAddress : bytes; f_apiAddress : bytes; f_grpcAddress : bytes; f_printMnemonic : bool
}.

Record StartArgs := mkStartArgs { sa_flags : StartFlags; sa_timeoutCommit : Z }.

Definition testnetStartCmd (flags : StartFlags) : StartArgs := mkStartArgs flags 0.

(** [network.Config] *)
Record NetConfig := mkNetConfig {
  ChainID : bytes; SigningAlgo : bytes; NetMinGasPrices : bytes; NumValidators : Z; EnableLogging : bool;
  RPCAddress : bytes; APIAddress : bytes; GRPCAddress : bytes; PrintMnemonic : bool; NetTimeoutCommit : Z
}.

Definition network_config (args : StartArgs) (DefaultConfig : NetConfig) : NetConfig :=
  let f := sa_flags args in
  mkNetConfig (if is_empty (f_chainID f) then ChainID DefaultConfig else f_chainID f) (f_algo f) (f_minGasPrices f)
    (f_numValidators f) (f_enableLogging f) (f_rpcAddress f) (f_apiAddress f) (f_grpcAddress f) (f_printMnemonic f)
    (sa_timeoutCommit args).

Section start.
(** The network of the SDK, over the state of the host: [Stat] tells whether a path
    exists. *)
Context {S Net : Type} (Stat : bytes -> S -> bool) (network_New : bytes -> NetConfig -> M S Net)
  (WaitForHeight : Net -> Z -> M S unit) (Scanln : M S unit) (Cleanup : Net -> S -> S).

Definition startTestnet (args : StartArgs) (DefaultConfig : NetConfig) : M S unit :=
  let networkConfig := network_config args DefaultConfig in
  let baseDir := f_outputDir (sa_flags args) ++ bs "/" ++ ChainID networkConfig in
  there ← gets (Stat baseDir);
  if (there : bool) then throw (ErrPlain "testnests directory already exists")
  else
    testnet ← network_New baseDir networkConfig;
    _ ← WaitForHeight testnet 1;
    _ ← Scanln;
    modify (Cleanup testnet).

(** A network starts only in a directory that does not exist, with the settings of the
    flags; its commit timeout is zero, because no flag sets it. *)
Theorem start_settings flags DefaultConfig s s' :
  startTestnet (testnetStartCmd flags) DefaultConfig s = (Ok tt, s') ->
  exists cfg net s1 s2 s3, network_New (f_outputDir flags ++ bs "/" ++ ChainID cfg) cfg s = (Ok net, s1) /\
    Stat (f_outputDir flags ++ bs "/" ++ ChainID cfg) s = false /\
    (f_chainID flags <> [] -> ChainID cfg = f_chainID flags) /\
    NumValidators cfg = f_numValidators flags /\ NetTimeoutCommit cfg = 0 /\
    WaitForHeight net 1 s1 = (Ok tt, s2) /\ Scanln s2 = (Ok tt, s3) /\ s' = Cleanup net s3.
Proof.
  unfold startTestnet. set (cfg := network_config _ _). cbn [testnetStartCmd sa_flags]. cbv [mbind M_bind gets throw modify].
  destruct (Stat _ s) eqn:Es; [done|]. destruct (network_New _ cfg s) as [[net|] s1] eqn:En; [|done].
  destruct (WaitForHeight net 1 s1) as [[[]|] s2] eqn:Ew; [|done]. destruct (Scanln s2) as [[[]|] s3] eqn:Ec; [|done].
  intros [= <-]. exists cfg, net, s1, s2, s3. split_and!; try done.
  intros Hne. cbn. by destruct (f_chainID flags).
Qed.
End start.

(** ** A host *)

Module DemoHost.
(** Paths are joined by a slash; the keyring is its directory; the key of node 1 cannot
    sign. *)
Definition join (parts : list bytes) : bytes :=
  match parts with [] => [] | d :: names => fold_left (fun p n => p ++ bs "/" ++ n) names d end.

Definition below (dir path : bytes) : bool := bool_decide ((dir ++ bs "/") `prefix_of` path).

Abbreviation HostFS := (gmap bytes (@Content DemoGen.demo_gen bytes unit)).

Definition write (path : bytes) : M HostFS unit := modify (fun fs => <[path := Bytes []]> fs).

#[global] Instance demo_host : @TestnetLib DemoGen.demo_gen bytes unit bytes unit := {|
  Join := join;
  inside := below;
  os_MkdirAll _ _ := Ok tt;
  os_WriteFile _ _ := Ok tt;
  os_RemoveAll dir fs := filter (fun e => below dir e.1 = false) fs;
  Config_GenesisFile root := root ++ bs "/config/genesis.json";
  InitializeNodeValidatorFiles c := _ ← write (nc_Root c ++ bs "/config/node_key.json"); mret (nc_Moniker c, bs "key");
  keyring_New _ dir := _ ← write (dir ++ bs "/keyring"); mret dir;
  NewSigningAlgoFromString _ _ := Ok tt;
  GenerateSaveCoinKey kb name _ := _ ← write (kb ++ bs "/" ++ name ++ bs ".info"); mret (name, bs "seed words");
  ValAddress_String a := Ok a;
  TokensFromConsensusPower p := p;
  sdk_DefaultBondDenom := bs "anvnm";
  create_validator_tx _ memo _ name _ _ _ :=
    if bool_decide (name = bs "node1") then Err (ErrPlain "signing failed") else Ok memo
|}.

Lemma below_app dir rest : below dir (dir ++ bs "/" ++ rest) = true.
Proof. apply bool_decide_eq_true. exists rest. by rewrite <- app_assoc. Qed.

Lemma write_below dir path : below dir path = true -> confined dir (write path).
Proof.
  intros Hp fs p Hf. cbn [write modify snd]. rewrite lookup_insert_ne; [done|]. intros ->.
  cbn [inside demo_host] in Hf. congruence.
Qed.

#[global] Instance demo_host_laws : TestnetLibLaws.
Proof.
  split.
  - intros dir names Hn _. apply bool_decide_eq_true. cbn [Join demo_host join].
    destruct names as [|n names]; [done|]. cbn [fold_left]. clear Hn.
    assert (H : forall l d, d `prefix_of` fold_left (fun p n => p ++ bs "/" ++ n) l d).
    { intros l. induction l as [|x l IH]; intros d; [done|]. cbn [fold_left]. etransitivity; [|apply IH]. by eexists. }
    etransitivity; [|apply H]. exists n. by rewrite <- app_assoc.
  - intros a b c H1%bool_decide_eq_true H2%bool_decide_eq_true. apply bool_decide_eq_true.
    etransitivity; [exact H1|]. etransitivity; [|exact H2]. by eexists.
  - intros dir fs path Hp. cbn [os_RemoveAll demo_host]. rewrite map_lookup_filter. cbn [fst].
    destruct (fs !! path); [|done]. cbn. by rewrite option_guard_True.
  - intros root. apply (below_app root (bs "config/genesis.json")).
  - intros c. exact (write_below _ _ (below_app _ (bs "config/node_key.json"))).
  - intros backend dir. exact (write_below _ _ (below_app _ (bs "keyring"))).
  - intros backend dir fs kb fs' name algo [= <- _]. exact (write_below _ _ (below_app dir (name ++ bs ".info"))).
Qed.

Definition args (n : nat) : Args :=
  mkArgs (mkInitArgs (bs "node") [xc0; xa8; x0a; x01] false) [] (bs "nvnm-1") (bs "test") [] (bs "nvnmchaind") n (bs "out").

Definition result_of (n : nat) : result unit * HostFS :=
  initTestnetFiles (args n) [] (mkNodeConf [] [] [] true true false)
    (mkAppConf [] false [] [] false false 0 true []) ∅ 7 (fun _ _ _ => Ok tt) {[bs "other" := Bytes (bs "kept")]}.

Definition seed_at (n : nat) (path : bytes) : option bytes :=
  match (result_of n).2 !! path with Some (KeySeed s) => Some s | _ => None end.
Definition tx_at (n : nat) (path : bytes) : option bytes :=
  match (result_of n).2 !! path with Some (GenTx tx) => Some tx | _ => None end.
Definition genesis_at (n : nat) (path : bytes) : option (bytes * unit * Z) :=
  match (result_of n).2 !! path with Some (FinalGenesis g) => Some g | _ => None end.
End DemoHost.

(** One validator gets its key, its transaction and the final genesis. *)
Example one_validator :
  (DemoHost.result_of 1).1 = Ok tt /\
  DemoHost.seed_at 1 (bs "out/node0/nvnmchaind/key_seed.json") = Some (bs "seed words") /\
  DemoHost.tx_at 1 (bs "out/gentxs/node0.json") = Some (bs "node0@" ++ [xc0; xa8; x0a; x01] ++ bs ":26656") /\
  DemoHost.genesis_at 1 (bs "out/node0/nvnmchaind/config/genesis.json") = Some (bs "nvnm-1", tt, 7).
Proof. split_and!; vm_compute; reflexivity. Qed.

(** A failure to create a key removes the directory, but a failure to sign with it, which
    comes later, does not: the seed words of both validators stay on the disk. *)
Example failed_signature_leaves_seeds :
  (DemoHost.result_of 2).1 = Err (ErrPlain "signing failed") /\
  DemoHost.seed_at 2 (bs "out/node0/nvnmchaind/key_seed.json") = Some (bs "seed words") /\
  DemoHost.seed_at 2 (bs "out/node1/nvnmchaind/key_seed.json") = Some (bs "seed words").
Proof. split_and!; vm_compute; reflexivity. Qed.
