(* ===== verification/Gateway.v ===== *)
(** The REST gateway: src/x/anchoring/types/query.pb.gw.go and
    src/x/tax/types/query.pb.gw.go, generated from the [google.api.http] options of
    the query services.

    A route turns an HTTP request into a request of the query service and its answer
    into the response.  The multiplexer, the contexts and the reading of query
    parameters are grpc-gateway's; the law of the multiplexer is about paths without a
    verb (a colon in the last component); headers and trailers are not modelled. *)

From S2P Require Import Prelude Types Keeper MsgServer Concrete NameIndex IndexLife Query Tax Ledger.

(** ** What the routes are made of *)

(** [url.Values]. *)
Abbreviation Form := (gmap bytes (list bytes)).

(** [http.Request]: the method, the components of the path, and what [ParseForm]
    finds. *)
Record HttpRequest := mkHttp { req_Method : bytes; req_Path : list bytes; req_Form : result Form }.

(** [utilities.DoubleArray], the parameters the path binds. *)
Record DoubleArray := mkDoubleArray { da_Encoding : gmap bytes Z; da_Base : list Z; da_Check : list Z }.

(** [runtime.Pattern]: a version, the operations with their operands, the pool of
    strings and the verb. *)
Record Pattern := mkPattern { pat_Version : Z; pat_Ops : list nat; pat_Pool : list bytes; pat_Verb : bytes }.

(** The messages a response carries. *)
Inductive Message `{Decimal} :=
| ParamsMsg (params : Types.Params)
| RecordsMsg (records : QueryRecordsResponse)
| RegistriesMsg (registries : list Registry) (page : option PageResponse)
| RegistryMsg (registry : Registry)
| SearchMsg (registries : list Registry) (page : option PageResponse)
| TaxParamsMsg (params : Tax.Params) (maxTax : Dec).

(** [runtime.HTTPError] and [runtime.ForwardResponseMessage]. *)
Inductive HttpResponse `{Decimal} := HTTPError (e : err) | ForwardResponseMessage (m : Message).

Record Route `{Decimal} := mkRoute {
  rt_Method : bytes; rt_Pattern : Pattern; rt_Handler : HttpRequest -> HttpResponse
}.

Arguments mkRoute {_} _ _ _.
Arguments rt_Method {_} _.
Arguments rt_Pattern {_} _.
Arguments rt_Handler {_} _ _.

(** [runtime.ServeMux] and [mux.Handle]. *)
Abbreviation ServeMux := (list Route).
Definition Handle `{Decimal} (mux : ServeMux) (meth : bytes) (pat : Pattern)
    (h : HttpRequest -> HttpResponse) : ServeMux := mux ++ [mkRoute meth pat h].

(** A message that [runtime.PopulateQueryParameters] fills from a form. *)
Class Fillable (R : Type) := {
  zero_msg : R;
  PopulateQueryParameters : R -> Form -> DoubleArray -> result R
}.

Class GatewayLib `{Decimal} := {
  GwCtx : Type;
  AnnotateContext : HttpRequest -> result GwCtx;
  AnnotateIncomingContext : HttpRequest -> result GwCtx;
  Error_text : err -> string;
  ServeHTTP : ServeMux -> HttpRequest -> option HttpResponse;
  fill_Records :: Fillable QueryRecordsRequest;
  fill_Registries :: Fillable QueryRegistriesRequest;
  fill_Registry :: Fillable QueryRegistryRequest;
  fill_Search :: Fillable QuerySearchRequest
}.

(** The operation of a pattern that matches one literal component. *)
Definition OpLitPush : nat := 2%nat.

Fixpoint literals (ops : list nat) (pool : list bytes) : option (list bytes) :=
  match ops with
  | [] => Some []
  | op :: i :: ops' =>
      if bool_decide (op = OpLitPush)
      then s ← pool !! i; rest ← literals ops' pool; Some (s :: rest)
      else None
  | _ => None
  end.

Definition pattern_path (p : Pattern) : option (list bytes) := literals (pat_Ops p) (pat_Pool p).

Definition GET : bytes := bs "GET".

(** A route takes the requests of its method and path, when it has no verb. *)
Definition takes `{Decimal} (req : HttpRequest) (r : Route) : bool :=
  bool_decide (rt_Method r = req_Method req /\ pattern_path (rt_Pattern r) = Some (req_Path req) /\
    pat_Verb (rt_Pattern r) = []).

(** The first route that takes the request answers it. *)
Fixpoint first_route `{Decimal} (mux : ServeMux) (req : HttpRequest) : option HttpResponse :=
  match mux with
  | [] => None
  | r :: mux' => if takes req r then Some (rt_Handler r req) else first_route mux' req
  end.

(** A path without a verb: a colon in the last component would end it, and what
    follows would be the verb. *)
Definition no_verb (path : list bytes) : bool :=
  match last path with Some c => bool_decide (x3a ∉ c) | None => true end.

(** On patterns of literals, a GET of a path without a verb is served by the first route
    of that path; [None] is an answer of the multiplexer itself, that there is no such
    route. *)
Class GatewayLibLaws `{GatewayLib} := {
  serve_literal : forall mux req,
    Forall (fun r => is_Some (pattern_path (rt_Pattern r))) mux -> req_Method req = GET ->
    no_verb (req_Path req) = true -> ServeHTTP mux req = first_route mux req
}.

(** ** The query service of x/anchoring *)

Section anchoring.
Context `{GatewayLib}.

(** [QueryClient] and [QueryServer] have the same methods; a client's also fill in
    headers and trailers. *)
Record QueryService := mkService {
  svc_Params : GwCtx -> unit -> result Types.Params;
  svc_Records : GwCtx -> QueryRecordsRequest -> result QueryRecordsResponse;
  svc_Registries : GwCtx -> QueryRegistriesRequest -> result (list Registry * option PageResponse);
  svc_Registry : GwCtx -> QueryRegistryRequest -> result Registry;
  svc_SearchRegistriesByName : GwCtx -> QuerySearchRequest -> result (list Registry * option PageResponse)
}.

(** [status.Errorf(codes.InvalidArgument, "%v", err)] *)
Definition invalid {A} (r : result A) : result A :=
  match r with Ok a => Ok a | Err e => Err (InvalidArgument (Error_text e)) end.

(** [req.ParseForm] and [runtime.PopulateQueryParameters]. *)
Definition fill {R} `{Fillable R} (req : HttpRequest) (filter : DoubleArray) : result R :=
  form ← invalid (req_Form req);
  invalid (PopulateQueryParameters zero_msg form filter).

Definition filter_Query_Records_0 : DoubleArray := mkDoubleArray ∅ [] [].
Definition filter_Query_Registries_0 : DoubleArray := mkDoubleArray ∅ [] [].
Definition filter_Query_Registry_0 : DoubleArray := mkDoubleArray ∅ [] [].
Definition filter_Query_SearchRegistriesByName_0 : DoubleArray := mkDoubleArray ∅ [] [].

Definition request_Query_Params_0 (ctx : GwCtx) (client : QueryService) (req : HttpRequest) : result Message :=
  msg ← svc_Params client ctx tt;
  Ok (ParamsMsg msg).

Definition local_request_Query_Params_0 (ctx : GwCtx) (server : QueryService) (req : HttpRequest) : result Message :=
  msg ← svc_Params server ctx tt;
  Ok (ParamsMsg msg).

Definition request_Query_Records_0 (ctx : GwCtx) (client : QueryService) (req : HttpRequest) : result Message :=
  protoReq ← fill req filter_Query_Records_0;
  msg ← svc_Records client ctx protoReq;
  Ok (RecordsMsg msg).

Definition local_request_Query_Records_0 (ctx : GwCtx) (server : QueryService) (req : HttpRequest) : result Message :=
  protoReq ← fill req filter_Query_Records_0;
  msg ← svc_Records server ctx protoReq;
  Ok (RecordsMsg msg).

Definition request_Query_Registries_0 (ctx : GwCtx) (client : QueryService) (req : HttpRequest) : result Message :=
  protoReq ← fill req filter_Query_Registries_0;
  msg ← svc_Registries client ctx protoReq;
  Ok (RegistriesMsg msg.1 msg.2).

Definition local_request_Query_Registries_0 (ctx : GwCtx) (server : QueryService) (req : HttpRequest) : result Message :=
  protoReq ← fill req filter_Query_Registries_0;
  msg ← svc_Registries server ctx protoReq;
  Ok (RegistriesMsg msg.1 msg.2).

Definition request_Query_Registry_0 (ctx : GwCtx) (client : QueryService) (req : HttpRequest) : result Message :=
  protoReq ← fill req filter_Query_Registry_0;
  msg ← svc_Registry client ctx protoReq;
  Ok (RegistryMsg msg).

Definition local_request_Query_Registry_0 (ctx : GwCtx) (server : QueryService) (req : HttpRequest) : result Message :=
  protoReq ← fill req filter_Query_Registry_0;
  msg ← svc_Registry server ctx protoReq;
  Ok (RegistryMsg msg).

Definition request_Query_SearchRegistriesByName_0 (ctx : GwCtx) (client : QueryService) (req : HttpRequest) : result Message :=
  protoReq ← fill req filter_Query_SearchRegistriesByName_0;
  msg ← svc_SearchRegistriesByName client ctx protoReq;
  Ok (SearchMsg msg.1 msg.2).

Definition local_request_Query_SearchRegistriesByName_0 (ctx : GwCtx) (server : QueryService) (req : HttpRequest) :
    result Message :=
  protoReq ← fill req filter_Query_SearchRegistriesByName_0;
  msg ← svc_SearchRegistriesByName server ctx protoReq;
  Ok (SearchMsg msg.1 msg.2).

Definition anchoring_pool (name : string) : list bytes :=
  [bs "NVNM-Chain"; bs "nvnmchain"; bs "anchoring"; bs "v1"; bs name].

Definition pattern_Query_Params_0 : Pattern :=
  mkPattern 1 [2; 0; 2; 1; 2; 2; 2; 3; 2; 4]%nat (anchoring_pool "params") [].
Definition pattern_Query_Records_0 : Pattern :=
  mkPattern 1 [2; 0; 2; 1; 2; 2; 2; 3; 2; 4]%nat (anchoring_pool "records") [].
Definition pattern_Query_Registries_0 : Pattern :=
  mkPattern 1 [2; 0; 2; 1; 2; 2; 2; 3; 2; 4]%nat (anchoring_pool "registries") [].
Definition pattern_Query_Registry_0 : Pattern :=
  mkPattern 1 [2; 0; 2; 1; 2; 2; 2; 3; 2; 4]%nat (anchoring_pool "registry") [].
Definition pattern_Query_SearchRegistriesByName_0 : Pattern :=
  mkPattern 1 [2; 0; 2; 1; 2; 2; 2; 3; 2; 4; 2; 5]%nat (anchoring_pool "registries" ++ [bs "search"]) [].

(** The function a route is registered with: the context, the request, and the
    response or the error. *)
Definition respond (annotate : HttpRequest -> result GwCtx)
    (request : GwCtx -> QueryService -> HttpRequest -> result Message) (svc : QueryService) (req : HttpRequest) :
    HttpResponse :=
  match annotate req with
  | Err e => HTTPError e
  | Ok rctx => match request rctx svc req with
               | Err e => HTTPError e
               | Ok resp => ForwardResponseMessage resp
               end
  end.

Definition RegisterQueryHandlerServer (mux : ServeMux) (server : QueryService) : ServeMux :=
  let respond := respond AnnotateIncomingContext in
  let mux := Handle mux GET pattern_Query_Params_0 (respond local_request_Query_Params_0 server) in
  let mux := Handle mux GET pattern_Query_Records_0 (respond local_request_Query_Records_0 server) in
  let mux := Handle mux GET pattern_Query_Registries_0 (respond local_request_Query_Registries_0 server) in
  let mux := Handle mux GET pattern_Query_Registry_0 (respond local_request_Query_Registry_0 server) in
  Handle mux GET pattern_Query_SearchRegistriesByName_0
    (respond local_request_Query_SearchRegistriesByName_0 server).

Definition RegisterQueryHandlerClient (mux : ServeMux) (client : QueryService) : ServeMux :=
  let respond := respond AnnotateContext in
  let mux := Handle mux GET pattern_Query_Params_0 (respond request_Query_Params_0 client) in
  let mux := Handle mux GET pattern_Query_Records_0 (respond request_Query_Records_0 client) in
  let mux := Handle mux GET pattern_Query_Registries_0 (respond request_Query_Registries_0 client) in
  let mux := Handle mux GET pattern_Query_Registry_0 (respond request_Query_Registry_0 client) in
  Handle mux GET pattern_Query_SearchRegistriesByName_0
    (respond request_Query_SearchRegistriesByName_0 client).

(** A connection serves through the client made of it. *)
Definition RegisterQueryHandler {Conn} (NewQueryClient : Conn -> QueryService) (mux : ServeMux) (conn : Conn) :
    ServeMux := RegisterQueryHandlerClient mux (NewQueryClient conn).

Definition RegisterQueryHandlerFromEndpoint {Conn} (NewQueryClient : Conn -> QueryService) (mux : ServeMux)
    (Dial : result Conn) : result ServeMux :=
  conn ← Dial;
  Ok (RegisterQueryHandler NewQueryClient mux conn).
End anchoring.

(** ** The query service of x/tax *)

Module TaxGateway.
Section tax.
Context `{GatewayLib}.

Record TaxService := mkTaxService { tax_svc_Params : GwCtx -> unit -> result (Tax.Params * Dec) }.

Definition tax_request_Query_Params_0 (ctx : GwCtx) (client : TaxService) (req : HttpRequest) : result Message :=
  msg ← tax_svc_Params client ctx tt;
  Ok (TaxParamsMsg msg.1 msg.2).

Definition tax_local_request_Query_Params_0 (ctx : GwCtx) (server : TaxService) (req : HttpRequest) : result Message :=
  msg ← tax_svc_Params server ctx tt;
  Ok (TaxParamsMsg msg.1 msg.2).

Definition tax_pattern_Query_Params_0 : Pattern :=
  mkPattern 1 [2; 0; 2; 1; 2; 2; 2; 3; 2; 4]%nat
    [bs "NVNM-Chain"; bs "nvnmchain"; bs "tax"; bs "v1"; bs "params"] [].

Definition tax_respond (annotate : HttpRequest -> result GwCtx)
    (request : GwCtx -> TaxService -> HttpRequest -> result Message) (svc : TaxService) (req : HttpRequest) :
    HttpResponse :=
  match annotate req with
  | Err e => HTTPError e
  | Ok rctx => match request rctx svc req with
               | Err e => HTTPError e
               | Ok resp => ForwardResponseMessage resp
               end
  end.

Definition tax_RegisterQueryHandlerServer (mux : ServeMux) (server : TaxService) : ServeMux :=
  Handle mux GET tax_pattern_Query_Params_0 (tax_respond AnnotateIncomingContext tax_local_request_Query_Params_0 server).

Definition tax_RegisterQueryHandlerClient (mux : ServeMux) (client : TaxService) : ServeMux :=
  Handle mux GET tax_pattern_Query_Params_0 (tax_respond AnnotateContext tax_request_Query_Params_0 client).
End tax.
End TaxGateway.

(** ** What a GET answers *)

(** The methods the gateway exposes, and their URLs as query.proto of both modules
    declares them. *)
Inductive Rpc := RpcParams | RpcRecords | RpcRegistries | RpcRegistry | RpcSearch | RpcTaxParams.

#[export] Instance Rpc_eq_dec : EqDecision Rpc.
Proof. solve_decision. Defined.

Definition rpc_url (rpc : Rpc) : string :=
  match rpc with
  | RpcParams => "/NVNM-Chain/nvnmchain/anchoring/v1/params"
  | RpcRecords => "/NVNM-Chain/nvnmchain/anchoring/v1/records"
  | RpcRegistries => "/NVNM-Chain/nvnmchain/anchoring/v1/registries"
  | RpcRegistry => "/NVNM-Chain/nvnmchain/anchoring/v1/registry"
  | RpcSearch => "/NVNM-Chain/nvnmchain/anchoring/v1/registries/search"
  | RpcTaxParams => "/NVNM-Chain/nvnmchain/tax/v1/params"
  end.

(** The components of a URL path. *)
Definition url_path (url : string) : list bytes := split_path (drop 1 (bs url)).

Definition rpc_path (rpc : Rpc) : list bytes := url_path (rpc_url rpc).

Definition all_rpcs : list Rpc := [RpcParams; RpcRecords; RpcRegistries; RpcRegistry; RpcSearch; RpcTaxParams].

(** An answer of the keeper as a client sees it: [seen] is what becomes of an error. *)
Definition shown (seen : err -> err) {A} (r : result A) : result A :=
  match r with Ok a => Ok a | Err e => Err (seen e) end.

Section answers.
Context {ENV : Env} {DEC : Decimal} {BANK : Bank} {SQ : SQL} {LIB : GatewayLib} {LAWS : GatewayLibLaws}.
Context (seen : err -> err).
Context (CollectionPaginate : list (Z * Registry) -> PageRequest -> result (list Registry * PageResponse)).

(** The query servers of a node: a committed state, its name index, and the state
    of x/tax. *)
Definition keeper_service (s : KState) (index : option DB) : QueryService := {|
  svc_Params := fun _ req => shown seen (Query_Params (Some req) s);
  svc_Records := fun _ req => shown seen (Query_Records (Some req) s);
  svc_Registries := fun _ req => shown seen (Query_Registries CollectionPaginate req s);
  svc_Registry := fun _ req => shown seen (Query_Registry (qry_Id req) s);
  svc_SearchRegistriesByName := fun _ req => shown seen (SearchRegistriesByName index (Some req))
|}.

Definition tax_service (t : TaxState) : TaxGateway.TaxService := {|
  TaxGateway.tax_svc_Params := fun _ req => shown seen (QueryParams (Some req) t)
|}.

(** A client that reaches the server: its methods answer as the server's do. *)
Record reaches (client server : QueryService) : Prop := {
  same_Params : forall c r, svc_Params client c r = svc_Params server c r;
  same_Records : forall c r, svc_Records client c r = svc_Records server c r;
  same_Registries : forall c r, svc_Registries client c r = svc_Registries server c r;
  same_Registry : forall c r, svc_Registry client c r = svc_Registry server c r;
  same_Search : forall c r, svc_SearchRegistriesByName client c r = svc_SearchRegistriesByName server c r
}.

(** The message filled from the query parameters of the URL, and the answer of the
    keeper to it. *)
Definition rpc_answer (s : KState) (index : option DB) (t : TaxState) (rpc : Rpc) (req : HttpRequest) :
    result Message :=
  match rpc with
  | RpcParams => p ← shown seen (Query_Params (Some tt) s); Ok (ParamsMsg p)
  | RpcRecords => r ← fill req filter_Query_Records_0; a ← shown seen (Query_Records (Some r) s); Ok (RecordsMsg a)
  | RpcRegistries => r ← fill req filter_Query_Registries_0;
      a ← shown seen (Query_Registries CollectionPaginate r s); Ok (RegistriesMsg a.1 a.2)
  | RpcRegistry => r ← fill req filter_Query_Registry_0; a ← shown seen (Query_Registry (qry_Id r) s); Ok (RegistryMsg a)
  | RpcSearch => r ← fill req filter_Query_SearchRegistriesByName_0;
      a ← shown seen (SearchRegistriesByName index (Some r)); Ok (SearchMsg a.1 a.2)
  | RpcTaxParams => a ← shown seen (QueryParams (Some tt) t); Ok (TaxParamsMsg a.1 a.2)
  end.

Definition rest_answer (s : KState) (index : option DB) (t : TaxState) (rpc : Rpc) (req : HttpRequest) :
    HttpResponse :=
  match AnnotateContext req, rpc_answer s index t rpc req with
  | Err e, _ => HTTPError e
  | Ok _, Err e => HTTPError e
  | Ok _, Ok m => ForwardResponseMessage m
  end.

Lemma first_route_app (mux mux' : ServeMux) req :
  first_route (mux ++ mux') req =
  match first_route mux req with Some a => Some a | None => first_route mux' req end.
Proof. induction mux as [|r mux IH]; [done|]. cbn. by destruct (takes req r). Qed.

Lemma first_route_none (mux : ServeMux) req :
  Forall (fun r => takes req r = false) mux -> first_route mux req = None.
Proof. induction 1 as [|r mux Hr _ IH]; [done|]. cbn. by rewrite Hr. Qed.

Lemma rpc_paths_distinct r1 r2 : rpc_path r1 = rpc_path r2 -> r1 = r2.
Proof. destruct r1, r2; try done; vm_compute; discriminate. Qed.

(** The routes of a registration, with the method each serves. *)
Definition anchoring_routes (annotate : HttpRequest -> result GwCtx) (svc : QueryService) : ServeMux :=
  [mkRoute GET pattern_Query_Params_0 (respond annotate request_Query_Params_0 svc);
   mkRoute GET pattern_Query_Records_0 (respond annotate request_Query_Records_0 svc);
   mkRoute GET pattern_Query_Registries_0 (respond annotate request_Query_Registries_0 svc);
   mkRoute GET pattern_Query_Registry_0 (respond annotate request_Query_Registry_0 svc);
   mkRoute GET pattern_Query_SearchRegistriesByName_0 (respond annotate request_Query_SearchRegistriesByName_0 svc)].

Lemma client_routes mux svc :
  RegisterQueryHandlerClient mux svc = mux ++ anchoring_routes AnnotateContext svc.
Proof. unfold RegisterQueryHandlerClient, Handle. by rewrite <- !app_assoc. Qed.

(** Both registrations serve the same requests the same way, but for the context. *)
Lemma server_routes mux svc :
  RegisterQueryHandlerServer mux svc = mux ++ anchoring_routes AnnotateIncomingContext svc.
Proof. unfold RegisterQueryHandlerServer, Handle. by rewrite <- !app_assoc. Qed.

Lemma takes_path (req : HttpRequest) pat h (path : list bytes) :
  req_Method req = GET -> pattern_path pat = Some path -> pat_Verb pat = [] ->
  takes req (mkRoute GET pat h) = bool_decide (req_Path req = path).
Proof.
  intros Hm Hp Hv. unfold takes. cbn [rt_Method rt_Pattern]. rewrite Hm, Hp, Hv. apply bool_decide_ext. naive_solver.
Qed.

(** A registration answers the requests for its methods. *)
Definition serves (mux : ServeMux) (rpcs : list Rpc) (answer : Rpc -> HttpRequest -> HttpResponse) : Prop :=
  Forall (fun r => is_Some (pattern_path (rt_Pattern r))) mux /\
  (forall req rpc, req_Method req = GET -> req_Path req = rpc_path rpc -> rpc ∈ rpcs ->
     first_route mux req = Some (answer rpc req)) /\
  (forall req, req_Method req = GET -> (forall rpc, rpc ∈ rpcs -> req_Path req <> rpc_path rpc) ->
     first_route mux req = None).

Lemma serves_app mux1 mux2 l1 l2 answer :
  serves mux1 l1 answer -> serves mux2 l2 answer -> l1 ## l2 -> serves (mux1 ++ mux2) (l1 ++ l2) answer.
Proof.
  intros (F1 & H1 & N1) (F2 & H2 & N2) Hd. split_and!.
  - by apply Forall_app.
  - intros req rpc Hm Hp Hin. rewrite first_route_app. destruct (decide (rpc ∈ l1)) as [Hl|Hl].
    { by rewrite (H1 req rpc). }
    rewrite N1; [|done|]; [apply H2; [done..|]|]; [by apply elem_of_app in Hin as [?|?]|].
    intros rpc' Hin'. rewrite Hp. intros <-%rpc_paths_distinct. done.
  - intros req Hm Hno. rewrite first_route_app, N1; [apply N2|..]; [done| |done|]; intros rpc Hin; apply Hno, elem_of_app; auto.
Qed.

Lemma serves_nil answer : serves [] [] answer.
Proof. split_and!; [constructor| |done]. intros req rpc _ _ []%not_elem_of_nil. Qed.

Lemma serves_cons pat h rpc mux l answer :
  pattern_path pat = Some (rpc_path rpc) -> pat_Verb pat = [] -> (forall req, h req = answer rpc req) -> rpc ∉ l ->
  serves mux l answer -> serves (mkRoute GET pat h :: mux) (rpc :: l) answer.
Proof.
  intros Hp Hv Hh Hl Hs. apply (serves_app [mkRoute GET pat h] mux [rpc] l); [|done|].
  - split_and!.
    + constructor; [by eexists|constructor].
    + intros req rpc' Hm Hpath ->%list_elem_of_singleton. cbn [first_route].
      rewrite (takes_path req pat h _ Hm Hp Hv), bool_decide_eq_true_2 by done. cbn [rt_Handler]. by rewrite Hh.
    + intros req Hm Hno. cbn [first_route]. rewrite (takes_path req pat h _ Hm Hp Hv), bool_decide_eq_false_2; [done|].
      by apply Hno, list_elem_of_singleton.
  - by intros x ->%list_elem_of_singleton.
Qed.

Definition anchoring_rpcs : list Rpc := [RpcParams; RpcRecords; RpcRegistries; RpcRegistry; RpcSearch].

Lemma anchoring_serves s index t client : reaches client (keeper_service s index) ->
  serves (anchoring_routes AnnotateContext client) anchoring_rpcs (rest_answer s index t).
Proof.
  intros Hc. unfold anchoring_routes, anchoring_rpcs.
  repeat (apply serves_cons; [reflexivity|reflexivity| |by_eval|]); [..|apply serves_nil];
    intros req; unfold respond, rest_answer; (destruct (AnnotateContext req); [|done]).
  all: unfold request_Query_Params_0, request_Query_Records_0, request_Query_Registries_0, request_Query_Registry_0,
    request_Query_SearchRegistriesByName_0; cbn [rpc_answer].
  { rewrite (same_Params _ _ Hc). cbn [keeper_service svc_Params]. by destruct (Query_Params _ _). }
  all: match goal with |- context [fill ?q ?f] => destruct (fill q f); [|done] end; cbn [mbind result_bind].
  - rewrite (same_Records _ _ Hc). cbn [keeper_service svc_Records]. by destruct (Query_Records _ _).
  - rewrite (same_Registries _ _ Hc). cbn [keeper_service svc_Registries]. by destruct (Query_Registries _ _ _).
  - rewrite (same_Registry _ _ Hc). cbn [keeper_service svc_Registry]. by destruct (Query_Registry _ _).
  - rewrite (same_Search _ _ Hc). cbn [keeper_service svc_SearchRegistriesByName]. by destruct (SearchRegistriesByName _ _).
Qed.

Lemma tax_serves s index t client :
  (forall c r, TaxGateway.tax_svc_Params client c r = shown seen (QueryParams (Some r) t)) ->
  serves [mkRoute GET TaxGateway.tax_pattern_Query_Params_0
            (TaxGateway.tax_respond AnnotateContext TaxGateway.tax_request_Query_Params_0 client)]
    [RpcTaxParams] (rest_answer s index t).
Proof.
  intros Hc. apply serves_cons; [reflexivity|reflexivity| |by_eval|apply serves_nil].
  intros req. unfold TaxGateway.tax_respond, rest_answer, TaxGateway.tax_request_Query_Params_0.
  destruct (AnnotateContext req) as [c|]; [|done]. cbn [rpc_answer]. rewrite Hc. by destruct (QueryParams _ _).
Qed.

Lemma served pre routes rpcs answer req :
  Forall (fun r => is_Some (pattern_path (rt_Pattern r))) pre -> serves routes rpcs answer -> (forall rpc, rpc ∈ rpcs) ->
  req_Method req = GET -> no_verb (req_Path req) = true -> Forall (fun r => takes req r = false) pre ->
  (forall rpc, req_Path req = rpc_path rpc -> ServeHTTP (pre ++ routes) req = Some (answer rpc req)) /\
  ((forall rpc, req_Path req <> rpc_path rpc) -> ServeHTTP (pre ++ routes) req = None).
Proof.
  intros Hp (Hf & Hs & Hn) Hall Hm Hv Hpre. rewrite serve_literal, first_route_app, first_route_none by (try apply Forall_app; done).
  split; [intros rpc Hr; by apply Hs|]. intros Hno. by apply Hn.
Qed.

Lemma tax_not_anchoring : anchoring_rpcs ## [RpcTaxParams].
Proof. intros x Hx ->%list_elem_of_singleton. revert Hx. change (RpcTaxParams ∉ anchoring_rpcs). by_eval. Qed.

(** The REST gateway answers what the query services answer.  Whichever of the two
    modules registers first, and beside routes of other modules with other paths, a
    GET of a URL declared in query.proto is answered by the method declared for it:
    with the answer of the keeper to the message the query parameters spell, with
    its error as the client sees it, or with InvalidArgument when the parameters do not spell one.  Other
    paths are left to the other routes. *)
Theorem rest_answers_queries pre s index t client tclient req :
  Forall (fun r => is_Some (pattern_path (rt_Pattern r))) pre ->
  reaches client (keeper_service s index) ->
  (forall c r, TaxGateway.tax_svc_Params tclient c r = shown seen (QueryParams (Some r) t)) ->
  req_Method req = GET -> no_verb (req_Path req) = true -> Forall (fun r => takes req r = false) pre ->
  Forall (fun mux : ServeMux =>
    (forall rpc, req_Path req = rpc_path rpc -> ServeHTTP mux req = Some (rest_answer s index t rpc req)) /\
    ((forall rpc, req_Path req <> rpc_path rpc) -> ServeHTTP mux req = None))
  [TaxGateway.tax_RegisterQueryHandlerClient (RegisterQueryHandlerClient pre client) tclient;
   RegisterQueryHandlerClient (TaxGateway.tax_RegisterQueryHandlerClient pre tclient) client].
Proof.
  intros Hlit Hc Ht Hm Hv Hpre. pose proof (anchoring_serves s index t client Hc) as Ha.
  pose proof (tax_serves s index t tclient Ht) as Hx.
  unfold TaxGateway.tax_RegisterQueryHandlerClient, Handle. rewrite !client_routes, <- !app_assoc.
  constructor; [|constructor; [|constructor]].
  - apply (served _ _ (anchoring_rpcs ++ [RpcTaxParams])); [done|apply serves_app; [done..|apply tax_not_anchoring]|by intros []; by_eval|done..].
  - apply (served _ _ ([RpcTaxParams] ++ anchoring_rpcs)); [done|apply serves_app; [done..|intros x H1 H2; by apply (tax_not_anchoring x)]|by intros []; by_eval|done..].
Qed.
End answers.

(** ** Witness *)

Module DemoGateway.
Definition id_of (form : Form) : result Z :=
  match form !! bs "id" with
  | Some [v] => Ok (digits_value v)
  | Some _ => Err (ErrPlain "too many values for id")
  | None => Ok 0
  end.

#[global] Instance demo_gateway : GatewayLib := {|
  GwCtx := unit;
  AnnotateContext := fun _ => Ok tt;
  AnnotateIncomingContext := fun _ => Ok tt;
  Error_text := fun e => match e with ErrPlain msg => msg | _ => "" end;
  ServeHTTP := first_route;
  fill_Records := {| zero_msg := mkQueryRecords [] 0 0 0 None;
                     PopulateQueryParameters := fun r _ _ => Ok r |};
  fill_Registries := {| zero_msg := mkQueryRegistries 0 None;
                        PopulateQueryParameters := fun r _ _ => Ok r |};
  fill_Registry := {| zero_msg := mkQueryRegistry 0;
                      PopulateQueryParameters := fun _ form _ => id ← id_of form; Ok (mkQueryRegistry id) |};
  fill_Search := {| zero_msg := mkQuerySearch [] UNSPECIFIED None;
                    PopulateQueryParameters := fun r _ _ => Ok r |}
|}.

#[global] Instance demo_gateway_laws : GatewayLibLaws.
Proof. constructor. by intros. Qed.

(** The route of another module. *)
Definition bank : ServeMux :=
  [mkRoute GET (mkPattern 1 [2; 0; 2; 1]%nat [bs "cosmos"; bs "bank"] []) (fun _ => HTTPError ErrNotFound)].

Definition paginate (l : list (Z * Registry)) (pr : PageRequest) : result (list Registry * PageResponse) :=
  Ok (take (Z.to_nat (pr_Limit pr)) l.*2, zero_PageResponse).

Definition get (path : list bytes) (form : result Form) : HttpRequest := mkHttp GET path form.
Definition svc : QueryService := keeper_service id paginate DemoIndex.chain (Some DemoIndex.db).

Lemma reached : reaches svc (keeper_service id paginate DemoIndex.chain (Some DemoIndex.db)).
Proof. by constructor. Qed.
End DemoGateway.

(** [GET .../registry?id=3] *)
Lemma rest_answers_queries_witness :
  ServeHTTP
    (TaxGateway.tax_RegisterQueryHandlerClient
      (RegisterQueryHandlerClient DemoGateway.bank DemoGateway.svc) (tax_service id DemoTax.state))
    (DemoGateway.get (rpc_path RpcRegistry) (Ok {[ bs "id" := [bs "3"] ]}))
  = Some (ForwardResponseMessage (RegistryMsg (DemoIndex.reg 3 "wills"))).
Proof.
  assert (H := rest_answers_queries id DemoGateway.paginate DemoGateway.bank DemoIndex.chain (Some DemoIndex.db)
    DemoTax.state DemoGateway.svc (tax_service id DemoTax.state)
    (DemoGateway.get (rpc_path RpcRegistry) (Ok {[ bs "id" := [bs "3"] ]}))
    ltac:(repeat constructor; by eexists) DemoGateway.reached (fun _ _ => eq_refl) eq_refl eq_refl ltac:(repeat constructor)).
  apply Forall_inv in H as [H _]. specialize (H RpcRegistry). etransitivity; [apply H; reflexivity|]. reflexivity.
Defined.

(** A parameter that cannot be read. *)
Example unreadable_parameter :
  ServeHTTP (RegisterQueryHandlerServer [] DemoGateway.svc)
    (DemoGateway.get (rpc_path RpcRegistry) (Ok {[ bs "id" := [bs "3"; bs "4"] ]}))
  = Some (HTTPError (InvalidArgument "too many values for id")).
Proof. reflexivity. Qed.
