(* ===== verification/RestGrpc.v ===== *)
(** The REST interface end to end: [RegisterGRPCGatewayRoutes] of module/module.go of
    x/anchoring and x/tax, which puts the gateway of Gateway.v on the clients of
    QueryService.v and ProtoTax.v, and these on the servers of the node. *)

From S2P Require Import Prelude Types Concrete Keeper MsgServer Spec Refine Ledger NameIndex IndexLife Query Tax.
From S2P Require Import Proto ProtoMsg ProtoQuery Grpc ProtoTax QueryService Gateway.

Section rest.
Context {ENV : Env} {DEC : Decimal} {BANK : Bank} {SQ : SQL} {LIB : GatewayLib}.
Context {MQ : Proto.Message PageRequest} {MR : Proto.Message PageResponse} {DM : DecMessage} {GR : Grpc}.

(** [NewQueryClient]: the methods of the client on a connection, in a state of the
    server. *)
Definition NewQueryClient (cc : Conn KState) (s : KState) : Gateway.QueryService := {|
  svc_Params := fun _ _ => ((r ← queryClient_Params cc mkEmptyResponse; mret (qpr_Params r)) s).1;
  svc_Records := fun _ req => (queryClient_Records cc req s).1;
  svc_Registries := fun _ req => ((r ← queryClient_Registries cc req; mret (qgr_Registries r, qgr_Pagination r)) s).1;
  svc_Registry := fun _ req =>
    g ← ((r ← queryClient_Registry cc req; mret (qyr_Registry r)) s).1; of_option g (ErrPlain "no registry");
  svc_SearchRegistriesByName := fun _ req =>
    ((r ← queryClient_SearchRegistriesByName cc req; mret (qgr_Registries r, qgr_Pagination r)) s).1
|}.

Definition tax_NewQueryClient (cc : Conn TaxState) (t : TaxState) : TaxGateway.TaxService := {|
  TaxGateway.tax_svc_Params := fun _ _ =>
    ((r ← tax_queryClient_Params cc mkEmptyResponse; mret (tq_Params r, tq_MaxTax r)) t).1
|}.

(** [RegisterQueryHandlerClient] does not fail, so the panic is never reached. *)
Definition RegisterGRPCGatewayRoutes (cc : Conn KState) (s : KState) (mux : ServeMux) : ServeMux :=
  RegisterQueryHandlerClient mux (NewQueryClient cc s).

Definition tax_RegisterGRPCGatewayRoutes (cc : Conn TaxState) (t : TaxState) (mux : ServeMux) : ServeMux :=
  TaxGateway.tax_RegisterQueryHandlerClient mux (tax_NewQueryClient cc t).

(** ** Proofs *)

Context {LAWS : GatewayLibLaws} {WQ : Wire PageRequest} {WR : Wire PageResponse} {DL : DecMessageLaws} {GL : GrpcLaws}.
Context (index : option DB).
Context (CollectionPaginate : list (Z * Registry) -> PageRequest -> result (list Registry * PageResponse)).

(** The requests that the URL spells, and their answers, fit their messages. *)
Definition rest_fits (s : KState) (req : HttpRequest) : Prop :=
  exchange_fits index CollectionPaginate AskParams s /\
  (forall r, fill req filter_Query_Records_0 = Ok r -> exchange_fits index CollectionPaginate (AskRecords r) s) /\
  (forall r, fill req filter_Query_Registries_0 = Ok r -> exchange_fits index CollectionPaginate (AskRegistries r) s) /\
  (forall r, fill req filter_Query_Registry_0 = Ok r -> exchange_fits index CollectionPaginate (AskRegistry r) s) /\
  (forall r, fill req filter_Query_SearchRegistriesByName_0 = Ok r ->
     exchange_fits index CollectionPaginate (AskSearch r) s).

(** What arrives of an answer that is built from a result. *)
Lemma arrived_shown {S A C} (k : result C) (h : C -> A) (s : S) :
  arrived (c ← k; Ok (h c), s) = (c ← shown to_status k; Ok (h c), s).
Proof. by destruct k. Qed.

(** A client call, read in two ways. *)
Lemma reread {S A B C D} (m : M S A) (g : A -> B) (f : A -> D) (k : result C) (h : C -> B) (f' : C -> D) s :
  (forall a c, g a = h c -> f a = f' c) ->
  (a ← m; mret (g a)) s = (c ← k; Ok (h c), s) ->
  ((a ← m; mret (f a)) s).1 = (c ← k; Ok (f' c)).
Proof.
  intros Hf. cbv [mbind M_bind mret M_ret result_bind]. destruct (m s) as [[a|e] s'], k as [c|e']; intros [= E _]; cbn [fst];
    [by rewrite (Hf _ _ E)|by rewrite E].
Qed.

(** Routes with the same paths that answer a request in the same way. *)
Definition same_routes (req : HttpRequest) : relation ServeMux :=
  Forall2 (fun r r' => rt_Method r = rt_Method r' /\ rt_Pattern r = rt_Pattern r' /\ rt_Handler r req = rt_Handler r' req).

Lemma same_routes_serve req mux mux' :
  same_routes req mux mux' -> Forall (fun r => is_Some (pattern_path (rt_Pattern r))) mux' -> req_Method req = GET ->
  no_verb (req_Path req) = true -> ServeHTTP mux req = ServeHTTP mux' req.
Proof.
  intros Hs Hl Hm Hv. assert (Hl' : Forall (fun r => is_Some (pattern_path (rt_Pattern r))) mux).
  { clear Hm. induction Hs as [|r r' mux mux' (H1 & H2 & H3) _ IH]; [done|]. apply Forall_cons in Hl as [Hr Hl].
    constructor; [by rewrite H2|by apply IH]. }
  rewrite (serve_literal mux), (serve_literal mux') by done. clear Hl Hl'.
  induction Hs as [|r r' mux mux' (H1 & H2 & H3) _ IH]; [done|]. cbn [first_route]. unfold takes.
  by rewrite H1, H2, H3, IH.
Qed.

Section clients.
Context (interceptor : option (Interceptor KState)) (Ht : transparent interceptor) (s : KState).
Abbreviation client := (NewQueryClient (serve (Query_serviceDesc index CollectionPaginate) interceptor) s).
Abbreviation fits q := (exchange_fits index CollectionPaginate q s).
Abbreviation server := (keeper_service to_status CollectionPaginate s index).

Lemma asked q : fits q ->
  ask_client (serve (Query_serviceDesc index CollectionPaginate) interceptor) q s = arrived (ask_keeper index CollectionPaginate q s, s).
Proof. by apply ask_client_keeper. Qed.

Lemma client_Params c r : fits AskParams -> svc_Params client c r = svc_Params server c r.
Proof.
  intros E%asked. cbn [ask_client ask_keeper] in E. rewrite arrived_shown in E.
  cbn [svc_Params NewQueryClient keeper_service]. destruct r. apply (reread _ _ qpr_Params _ _ id) in E.
  - rewrite E. by destruct (shown _ _).
  - by intros a p [= ->].
Qed.

Lemma client_Records c r : fits (AskRecords r) -> svc_Records client c r = svc_Records server c r.
Proof.
  intros E%asked. cbn [ask_client ask_keeper] in E. rewrite arrived_shown in E.
  cbn [svc_Records NewQueryClient keeper_service]. apply (reread _ _ id _ _ id) in E; [|by intros a p [= ->]].
  cbv [mbind M_bind mret M_ret result_bind] in E. destruct (queryClient_Records _ r s) as [[a|e] s'],
    (shown to_status (Query_Records (Some r) s)); cbn [fst id] in *; try congruence.
Qed.

Lemma registries_reread (m : M KState QueryRegistriesResponse) (k : result (list Registry * option PageResponse)) :
  (r ← m; mret (RegistriesAnswer r)) s = arrived (r ← k; Ok (RegistriesAnswer (answer_registries r)), s) ->
  ((r ← m; mret (qgr_Registries r, qgr_Pagination r)) s).1 = shown to_status k.
Proof.
  rewrite arrived_shown. intros E. apply (reread _ _ (fun r => (qgr_Registries r, qgr_Pagination r)) _ _ id) in E.
  - rewrite E. by destruct (shown _ k).
  - intros a [l p] [= ->]. done.
Qed.

Lemma client_Registries c r : fits (AskRegistries r) -> svc_Registries client c r = svc_Registries server c r.
Proof. intros E%asked. by apply registries_reread. Qed.

Lemma client_Search c r : fits (AskSearch r) ->
  svc_SearchRegistriesByName client c r = svc_SearchRegistriesByName server c r.
Proof. intros E%asked. by apply registries_reread. Qed.

Lemma client_Registry c r : fits (AskRegistry r) -> svc_Registry client c r = svc_Registry server c r.
Proof.
  intros E%asked. cbn [ask_client ask_keeper] in E. rewrite arrived_shown in E.
  cbn [svc_Registry NewQueryClient keeper_service]. apply (reread _ _ qyr_Registry _ _ Some) in E.
  - rewrite E. by destruct (shown _ _).
  - by intros a g [= ->].
Qed.
End clients.

(** On a request that fits, the routes on the clients answer as those on the servers. *)
Lemma wire_routes interceptor s req :
  transparent interceptor -> rest_fits s req ->
  same_routes req
    (anchoring_routes AnnotateContext (NewQueryClient (serve (Query_serviceDesc index CollectionPaginate) interceptor) s))
    (anchoring_routes AnnotateContext (keeper_service to_status CollectionPaginate s index)).
Proof.
  intros Ht (Hp & Hr & Hs & Hg & Hq). unfold same_routes, anchoring_routes. repeat constructor; cbn [rt_Handler]; unfold respond;
    (destruct (AnnotateContext req) as [c|]; [|done]).
  - unfold request_Query_Params_0. by rewrite client_Params.
  - unfold request_Query_Records_0. destruct (fill req filter_Query_Records_0) as [r|]; cbn [mbind result_bind]; [|done].
    by rewrite (client_Records interceptor Ht s c r (Hr r eq_refl)).
  - unfold request_Query_Registries_0. destruct (fill req filter_Query_Registries_0) as [r|]; cbn [mbind result_bind]; [|done].
    by rewrite (client_Registries interceptor Ht s c r (Hs r eq_refl)).
  - unfold request_Query_Registry_0. destruct (fill req filter_Query_Registry_0) as [r|]; cbn [mbind result_bind]; [|done].
    by rewrite (client_Registry interceptor Ht s c r (Hg r eq_refl)).
  - unfold request_Query_SearchRegistriesByName_0. destruct (fill req filter_Query_SearchRegistriesByName_0) as [r|]; cbn [mbind result_bind]; [|done].
    by rewrite (client_Search interceptor Ht s c r (Hq r eq_refl)).
Qed.

(** C28: A GET of the REST interface travels the whole way and back: the gateway fills a
    request from the URL, the generated client encodes it, the server finds the method by
    its path, decodes the request, asks the keeper and encodes the answer, which the client
    decodes and the gateway forwards.  When the request and the answer fit their messages
    and the path has no verb, the response is the answer of the keeper to the request the
    URL spells, or an error: that of the request, or the status gRPC makes of the keeper's;
    a path of neither module is left to the others. *)
Theorem rest_over_grpc pre interceptor tax_interceptor s t req :
  Forall (fun r => is_Some (pattern_path (rt_Pattern r))) pre ->
  Forall (fun r => takes req r = false) pre -> req_Method req = GET -> no_verb (req_Path req) = true ->
  transparent interceptor -> transparent tax_interceptor -> rest_fits s req -> params_fit t ->
  let mux := tax_RegisterGRPCGatewayRoutes (serve tax_Query_serviceDesc tax_interceptor) t
    (RegisterGRPCGatewayRoutes (serve (Query_serviceDesc index CollectionPaginate) interceptor) s pre) in
  (forall rpc, req_Path req = rpc_path rpc ->
     ServeHTTP mux req = Some (rest_answer to_status CollectionPaginate s index t rpc req)) /\
  ((forall rpc, req_Path req <> rpc_path rpc) -> ServeHTTP mux req = None).
Proof.
  intros Hlit Hpre Hm Hv Ht Ht' Hf Hx mux.
  assert (Htax : forall c r, TaxGateway.tax_svc_Params (tax_NewQueryClient (serve tax_Query_serviceDesc tax_interceptor) t) c r
    = shown to_status (QueryParams (Some r) t)).
  { intros c []. cbn [TaxGateway.tax_svc_Params tax_NewQueryClient]. by rewrite tax_params_over_wire. }
  pose proof (rest_answers_queries to_status CollectionPaginate pre s index t
    (keeper_service to_status CollectionPaginate s index) _ req Hlit ltac:(by constructor) Htax Hm Hv Hpre) as H. apply Forall_inv in H.
  assert (E : ServeHTTP mux req = ServeHTTP (TaxGateway.tax_RegisterQueryHandlerClient
    (RegisterQueryHandlerClient pre (keeper_service to_status CollectionPaginate s index))
    (tax_NewQueryClient (serve tax_Query_serviceDesc tax_interceptor) t)) req).
  { apply same_routes_serve; [| |done|done].
    - unfold mux, tax_RegisterGRPCGatewayRoutes, RegisterGRPCGatewayRoutes, TaxGateway.tax_RegisterQueryHandlerClient, Handle.
      rewrite !client_routes. apply Forall2_app; [apply Forall2_app|].
      + apply Forall_Forall2_diag, Forall_true. intros r. by split_and!.
      + by apply wire_routes.
      + constructor; [by split_and!|constructor].
    - unfold TaxGateway.tax_RegisterQueryHandlerClient, Handle. rewrite client_routes.
      apply Forall_app. split; [apply Forall_app; split; [done|]|]; repeat (constructor; [by eexists|]); constructor. }
  by rewrite E.
Qed.
End rest.

(** ** Witness *)

(** [GET .../registry?id=3], over the wire. *)
Definition demo_get : HttpRequest := DemoGateway.get (rpc_path RpcRegistry) (Ok {[ bs "id" := [bs "3"] ]}).

Lemma demo_rest_fits : rest_fits (Some DemoIndex.db) DemoGateway.paginate DemoIndex.chain demo_get.
Proof.
  unfold rest_fits. split; [|split; [|split; [|split]]].
  - split; [exact I|]. intros a E. vm_compute in E. discriminate E.
  - intros r E. vm_compute in E. injection E as <-. split; [repeat split; by vm_compute|].
    intros a E. vm_compute in E. injection E as <-. split; [constructor|]. split; [done|by vm_compute].
  - intros r E. vm_compute in E. injection E as <-. split; [repeat split; by vm_compute|].
    intros a E. vm_compute in E. injection E as <-. split; [|split].
    + repeat (constructor; [repeat split; by vm_compute|]). constructor.
    + repeat split; by vm_compute.
    + by vm_compute.
  - intros r E. vm_compute in E. injection E as <-. split; [repeat split; by vm_compute|].
    intros a E. vm_compute in E. injection E as <-. repeat split; by vm_compute.
  - intros r E. vm_compute in E. injection E as <-. split; [repeat split; by vm_compute|].
    intros a E. vm_compute in E. discriminate E.
Qed.

Lemma rest_over_grpc_witness :
  ServeHTTP
    (tax_RegisterGRPCGatewayRoutes (serve tax_Query_serviceDesc None) DemoTax.state
      (RegisterGRPCGatewayRoutes (serve (Query_serviceDesc (Some DemoIndex.db) DemoGateway.paginate) None)
        DemoIndex.chain DemoGateway.bank)) demo_get
  = Some (ForwardResponseMessage (RegistryMsg (DemoIndex.reg 3 "wills"))).
Proof.
  destruct (rest_over_grpc (Some DemoIndex.db) DemoGateway.paginate DemoGateway.bank None None DemoIndex.chain
    DemoTax.state demo_get) as [H _].
  - repeat constructor; by eexists.
  - repeat constructor.
  - reflexivity.
  - reflexivity.
  - exact I.
  - exact I.
  - exact demo_rest_fits.
  - intros p [= <-]. repeat split; by vm_compute.
  - etransitivity; [apply (H RpcRegistry); reflexivity|]. reflexivity.
Defined.
