(* ===== verification/Modules.v ===== *)
(** The modules of the chain as the module manager sees them:
    src/x/anchoring/module/module.go and src/x/tax/module/module.go.  Genesis files
    are JSON; a panic is the error of its cause. *)

From S2P Require Import Prelude Types Rbac Keeper MsgServer Refine Ledger Access Concrete Genesis Export MigrateV2 NameIndex Tax.

(** The JSON codec of a genesis state. *)
Class JSONCodec (G : Type) := {
  MarshalJSON : G -> result bytes;
  UnmarshalJSON : bytes -> result G
}.

(** The [module.Configurator] of the SDK: the services, and the migrations of each
    module by the version they start from. *)
Class Configurator (S : Type) := {
  Config : Type;
  RegisterMsgServer : Config -> bytes -> Config;
  RegisterQueryServer : Config -> bytes -> Config;
  RegisterMigration : Config -> bytes -> Z -> M S unit -> result Config;
  migration_of : Config -> bytes -> Z -> option (M S unit);
  runModuleMigrations : Config -> bytes -> Z -> Z -> M S unit
}.

(** A version that has no migration can be given one; migrations run one version at
    a time, and a missing one is an error. *)
Class ConfiguratorLaws (S : Type) `{Configurator S} := {
  msg_server_migrations : forall c name, migration_of (RegisterMsgServer c name) = migration_of c;
  query_server_migrations : forall c name, migration_of (RegisterQueryServer c name) = migration_of c;
  RegisterMigration_new : forall c name v h, 0 < v -> migration_of c name v = None ->
    exists c', RegisterMigration c name v h = Ok c' /\
    forall name' v', migration_of c' name' v' =
      if decide (name' = name /\ v' = v) then Some h else migration_of c name' v';
  runs_each_version : forall c name from to s, 1 <= from <= to ->
    runModuleMigrations c name from to s =
    for_each (fun v => default (throw ErrNotFound) (migration_of c name v)) (seqZ from (to - from)) s
}.

(** ** x/anchoring *)

Module Anchoring.
Section module.
Context {ENV : Env} {MC : MemberCodec} {JSON : JSONCodec GenesisState}.
Context (range_groups : groups_map -> list (group_key * RecordVersionGroup)).

Definition ModuleName : bytes := bs "anchoring".

Definition module_DefaultGenesis : result bytes := MarshalJSON Genesis.DefaultGenesis.

Definition ValidateGenesis (bz : bytes) : result unit :=
  match UnmarshalJSON bz with
  | Err e => Err (ErrWrap "failed to unmarshal anchoring genesis state" e)
  | Ok genState => Genesis.GenesisState_Validate range_groups genState
  end.

Definition module_InitGenesis (gs : bytes) : M KState unit :=
  genState ← lift (UnmarshalJSON gs);
  Genesis.InitGenesis range_groups genState.

Definition module_ExportGenesis : M KState bytes :=
  genState ← Genesis.ExportGenesis;
  lift (MarshalJSON genState).

Definition RegisterServices {CFG : Configurator V1Store} (cfg : Config) : result Config :=
  let cfg := RegisterMsgServer cfg ModuleName in
  let cfg := RegisterQueryServer cfg ModuleName in
  match RegisterMigration cfg ModuleName 1 Migrate1to2 with
  | Ok cfg => Ok cfg
  | Err e => Err (ErrWrap "failed to migrate x/anchoring from version 1 to 2" e)
  end.

Definition ConsensusVersion : Z := 2.
End module.
End Anchoring.

(** ** x/tax *)

Module TaxModule.
Section module.
Context {ENV : Env} {DEC : Decimal} {BANK : Bank} {JSON : JSONCodec Tax.Params}.

Definition tax_ModuleName : bytes := bs "tax".

(** [types.DefaultParams]: a default that does not parse is a panic. *)
Definition DefaultTax : bytes := bs "0.4".
Definition DefaultParams : result Tax.Params :=
  tax ← of_option (LegacyNewDecFromStr DefaultTax) ErrPanic;
  Ok (mkTaxParams tax DefaultTaxAddress).

Definition tax_DefaultGenesis : result bytes :=
  params ← DefaultParams;
  MarshalJSON params.

Definition tax_ValidateGenesis (bz : bytes) : result unit :=
  match UnmarshalJSON bz with
  | Err e => Err (ErrWrap "failed to unmarshal tax genesis state" e)
  | Ok genState => Tax.GenesisState_Validate genState
  end.

Definition tax_InitGenesis (gs : bytes) : M TaxState unit :=
  genState ← lift (UnmarshalJSON gs);
  Tax.InitGenesis genState.

Definition tax_ExportGenesis (s : TaxState) : result bytes :=
  genState ← Tax.ExportGenesis s;
  MarshalJSON genState.

Definition tax_RegisterServices {S} {CFG : Configurator S} (cfg : Config) : Config :=
  RegisterQueryServer (RegisterMsgServer cfg tax_ModuleName) tax_ModuleName.

Definition tax_ConsensusVersion : Z := 1.

Definition BeginBlock : M TaxState unit := mret tt.
Definition EndBlock (ctx : Ctx) : M TaxState unit := Tax.EndBlocker ctx.
End module.
End TaxModule.

(** ** A chain restarts from its export *)

(** JSON is a text: a string in it is valid UTF-8. *)
Definition valid_text (t : bytes) : Prop := string_of_runes (runes t) = t.

#[export] Instance valid_text_dec t : Decision (valid_text t).
Proof. unfold valid_text. apply _. Defined.

(** The strings of a genesis state.  The keys of its role maps are strings too, and hold
    digests: not every state is a text. *)
Definition genesis_text (g : GenesisState) : Prop :=
  valid_text (Admin (gen_Params g)) /\
  Forall (fun e => Forall valid_text [reg_Name e.2; reg_Description e.2; reg_Creator e.2; reg_CreatedAt e.2;
    reg_Metadata e.2]) (gen_Registries g) /\
  Forall (fun r => Forall valid_text [rec_Uri r; rec_Checksum r; rec_ChecksumAlgo r; rec_Metadata r; rec_Timestamp r;
    rec_Status r]) (gen_Records g) /\
  Forall (fun e => valid_text e.1) (gen_RoleAdmins g) /\ Forall (fun e => valid_text e.1) (gen_RoleMembers g).

Definition tax_params_text (p : Tax.Params) : Prop := valid_text (TaxAddress p).

(** A genesis state that is a text and was written is read back; the maps in it may be
    visited in another order. *)
Class JSONLaws {G} (JSON : JSONCodec G) (text : G -> Prop) (eqv : relation G) :=
  json_roundtrip : forall g, text g ->
    exists bz g', MarshalJSON g = Ok bz /\ UnmarshalJSON bz = Ok g' /\ eqv g g'.

Section genesis_files.
Context {ENV : Env} {LAWS : EnvLaws} {MC : MemberCodec} {MCL : MemberCodecLaws}.
Context {DEC : Decimal} {DECL : DecimalLaws} {BANK : Bank}.
Context {JSON : JSONCodec GenesisState} {JL : JSONLaws JSON genesis_text reordered}.
Context {TJSON : JSONCodec Tax.Params} {TJL : JSONLaws TJSON tax_params_text eq}.
Context (range_groups : groups_map -> list (group_key * RecordVersionGroup)).
Context (Hrange : forall g, range_groups g ≡ₚ map_to_list g).

(** The JSON both modules export of a running chain whose state is a text is accepted by
    their validation and starts a chain in the same state: x/anchoring has the store it
    had, and x/tax the parameters.  A store with a role whose digest is not valid UTF-8
    is not a text. *)
Theorem export_restarts_modules (p : Types.Params) (txs : list (Ctx * Msg)) (t t0 : TaxState) q :
  good_trace p txs -> Types.Params_Validate p = Ok tt ->
  tax_Params t = Some q -> Tax.Params_Validate q = Ok tt -> tax_params_text q ->
  let s := deliver_all txs (genesis_store p) in
  (forall g, (Genesis.ExportGenesis s).1 = Ok g -> genesis_text g) ->
  (exists bz, Anchoring.module_ExportGenesis s = (Ok bz, s) /\
     Anchoring.ValidateGenesis range_groups bz = Ok tt /\
     Anchoring.module_InitGenesis range_groups bz empty_state = (Ok tt, set_events [] s)) /\
  (exists bz, TaxModule.tax_ExportGenesis t = Ok bz /\ TaxModule.tax_ValidateGenesis bz = Ok tt /\
     TaxModule.tax_InitGenesis bz t0 = (Ok tt, mkTax (Some q) (bank t0) (tax_events t0))).
Proof.
  intros Hg Hp Hq Hv Hqt s Hst. split.
  - assert (Hck : checked s) by (by apply checked_trace, checked_empty).
    assert (Hcs : consistent s) by (by apply consistent_reachable).
    destruct (ExportGenesis_ok s Hck (cs_params _ Hcs)) as (g & E & Hex).
    destruct (json_roundtrip g (Hst g ltac:(by rewrite E))) as (bz & g' & Em & Eu & Hr). exists bz.
    pose proof (exports_reordered s g g' Hex Hr) as Hex'.
    unfold Anchoring.module_ExportGenesis, Anchoring.ValidateGenesis, Anchoring.module_InitGenesis.
    cbv [mbind M_bind lift]. rewrite E, Em, Eu. split; [done|]. split; [by apply (exported_validates _ s)|].
    by destruct (reimport range_groups Hrange s g' Hck Hcs Hex') as (s' & -> & ->).
  - destruct (json_roundtrip q Hqt) as (bz & q' & Em & Eu & <-). exists bz.
    unfold TaxModule.tax_ExportGenesis, TaxModule.tax_ValidateGenesis, TaxModule.tax_InitGenesis, Tax.ExportGenesis.
    rewrite Hq. cbn [of_option mbind result_bind]. rewrite Em, Eu. split; [done|]. split; [done|].
    done.
Qed.

(** The default genesis of x/anchoring starts an empty store. *)
Theorem default_genesis_starts :
  exists bz, Anchoring.module_DefaultGenesis = Ok bz /\
  Anchoring.module_InitGenesis range_groups bz empty_state = (Ok tt, genesis_store Types.DefaultParams).
Proof.
  destruct (json_roundtrip Genesis.DefaultGenesis) as (bz & g' & Em & Eu & [H1 H2 H3 H4 H5]); [by_eval|]. exists bz.
  split; [done|]. unfold Anchoring.module_InitGenesis. cbv [mbind M_bind lift]. rewrite Eu.
  cbn in H2, H4, H5. apply symmetry, Permutation_nil in H2, H4, H5. destruct g'; cbn in *; subst. by apply default_genesis.
Qed.
End genesis_files.

(** ** Migrations *)

Section migrations.
Context {CFG : Configurator V1Store} {LAWS : ConfiguratorLaws V1Store}.

(** A chain of any past version of x/anchoring reaches the current one.  Once the
    module has registered with a configurator, the migrations from each version to
    the consensus version are there and succeed: from version 1 they leave every
    record with its registry id, from the current version they do nothing. *)
Theorem migrations_complete (c : Config) :
  (forall v, migration_of c Anchoring.ModuleName v = None) ->
  exists c', Anchoring.RegisterServices c = Ok c' /\
  forall from s, 1 <= from <= Anchoring.ConsensusVersion ->
  runModuleMigrations c' Anchoring.ModuleName from Anchoring.ConsensusVersion s
  = (Ok tt, if decide (from = 1)
            then mkV1 (set_Records (backfilled (v1_records s)) (v1_keeper s)) ∅ else s).
Proof.
  intros Hnone. unfold Anchoring.RegisterServices.
  destruct (RegisterMigration_new (RegisterQueryServer (RegisterMsgServer c Anchoring.ModuleName) Anchoring.ModuleName)
    Anchoring.ModuleName 1 Migrate1to2) as (c' & -> & Hm); [done|by rewrite query_server_migrations, msg_server_migrations|].
  exists c'. split; [done|]. intros from s Hf. rewrite runs_each_version by done.
  unfold Anchoring.ConsensusVersion in *. assert (from = 1 \/ from = 2) as [->| ->] by lia; [|done].
  change (seqZ 1 (2 - 1)) with [1]. cbn [for_each]. rewrite Hm, decide_True by done. cbn [default from_option id].
  cbv [mbind M_bind]. by rewrite Migrate1to2_eq.
Qed.
End migrations.

(** ** Witnesses *)

(** A codec for any countable type: the bits of its encoding. *)
Fixpoint bits (p : positive) : bytes :=
  match p with xH => [] | xO p => x00 :: bits p | xI p => x01 :: bits p end.

Fixpoint of_bits (b : bytes) : positive :=
  match b with
  | [] => xH
  | c :: b' => if bool_decide (c = x00) then xO (of_bits b') else xI (of_bits b')
  end.

Lemma of_bits_bits p : of_bits (bits p) = p.
Proof. induction p as [p IH|p IH|]; cbn; by rewrite ?IH. Qed.

Definition countable_json G `{Countable G} : JSONCodec G := {|
  MarshalJSON := fun g => Ok (bits (encode g));
  UnmarshalJSON := fun bz => of_option (decode (of_bits bz)) ErrUnexpectedEOF
|}.

Lemma countable_json_laws G `{Countable G} (text : G -> Prop) (eqv : relation G) :
  Reflexive eqv -> JSONLaws (countable_json G) text eqv.
Proof. intros Hr g _. exists (bits (encode g)), g. cbn. by rewrite of_bits_bits, decode_encode. Qed.

#[export] Instance GenesisState_eq_dec : EqDecision GenesisState.
Proof. solve_decision. Defined.
#[export] Instance TaxParams_eq_dec : EqDecision Tax.Params.
Proof. solve_decision. Defined.

#[export] Instance Params_countable : Countable Types.Params.
Proof. refine (inj_countable' Admin mkParams _). by intros []. Defined.

#[export] Instance Registry_countable : Countable Registry.
Proof.
  refine (inj_countable' (fun r => (reg_Id r, reg_Name r, reg_Description r, reg_Creator r, reg_CreatedAt r, reg_Metadata r))
    (fun '(a, b, c, d, e, f) => mkRegistry a b c d e f) _). by intros [].
Defined.

#[export] Instance Record_countable : Countable Record_.
Proof.
  refine (inj_countable' (fun r => (rec_Uri r, rec_Checksum r, rec_ChecksumAlgo r, rec_Metadata r, rec_Timestamp r,
      rec_Status r, rec_RecordId r, rec_Index r, rec_IsLatest r, rec_RegistryId r))
    (fun '(a, b, c, d, e, f, g, h, i, j) => mkRecord a b c d e f g h i j) _). by intros [].
Defined.

#[export] Instance GenesisState_countable : Countable GenesisState.
Proof.
  refine (inj_countable' (fun g => (gen_Params g, gen_Registries g, gen_Records g, gen_RoleAdmins g, gen_RoleMembers g))
    (fun '(a, b, c, d, e) => mkGenesis a b c d e) _). by intros [].
Defined.

#[export] Instance TaxParams_countable : Countable Tax.Params.
Proof. refine (inj_countable' (fun p => (Tax p, TaxAddress p)) (fun '(a, b) => mkTaxParams a b) _). by intros []. Defined.

#[export] Instance reordered_refl : Reflexive reordered.
Proof. intros g. by constructor. Qed.

Module DemoModules.
#[global] Instance genesis_json : JSONCodec GenesisState := countable_json GenesisState.
#[global] Instance genesis_json_laws : JSONLaws genesis_json genesis_text reordered := countable_json_laws _ _ _ _.
#[global] Instance tax_json : JSONCodec Tax.Params := countable_json Tax.Params.
#[global] Instance tax_json_laws : JSONLaws tax_json tax_params_text eq := countable_json_laws _ _ _ _.

(** Migrations as a table. *)
#[global] Instance table_configurator : Configurator V1Store := {|
  Config := bytes -> Z -> option (M V1Store unit);
  RegisterMsgServer := fun c _ => c;
  RegisterQueryServer := fun c _ => c;
  RegisterMigration := fun c name v h =>
    match c name v with
    | Some _ => Err (ErrPlain "another migration for this version exists")
    | None => Ok (fun name' v' => if decide (name' = name /\ v' = v) then Some h else c name' v')
    end;
  migration_of := fun c => c;
  runModuleMigrations := fun c name from to =>
    for_each (fun v => default (throw ErrNotFound) (c name v)) (seqZ from (to - from))
|}.

#[global] Instance table_configurator_laws : ConfiguratorLaws V1Store.
Proof. constructor; try done. intros c name v h _ Hn. cbn in *. rewrite Hn. by eexists. Qed.

Definition old : V1Store := mkV1 (deliver_all Demo.trace (genesis_store Demo.params)) {[ bs "deeds" := 1 ]}.
End DemoModules.

(** A chain on which nothing was anchored yet. *)
Lemma export_restarts_modules_witness :
  let s := genesis_store Demo.params in
  exists bz, Anchoring.module_ExportGenesis s = (Ok bz, s) /\
  Anchoring.module_InitGenesis map_to_list bz empty_state = (Ok tt, set_events [] s).
Proof.
  destruct (export_restarts_modules map_to_list (fun _ => reflexivity _) Demo.params [] DemoTax.state DemoTax.state
    DemoTax.params) as [(bz & H1 & _ & H2) _].
  - exact (good_trace_prefix _ [] _ demo_good).
  - vm_compute. reflexivity.
  - reflexivity.
  - vm_compute. reflexivity.
  - by vm_compute.
  - intros g E. vm_compute in E. injection E as <-. by_eval.
  - exists bz. split; [exact H1|exact H2].
Defined.

Lemma migrations_complete_witness :
  exists c', Anchoring.RegisterServices (CFG := DemoModules.table_configurator) (fun _ _ => None) = Ok c' /\
  forall s, runModuleMigrations c' Anchoring.ModuleName 2 Anchoring.ConsensusVersion s = (Ok tt, s).
Proof.
  destruct (migrations_complete (CFG := DemoModules.table_configurator) (fun _ _ => None)) as (c' & E & H); [done|].
  exists c'. split; [done|]. intros s. by rewrite (H 2 s) by done.
Defined.
