(* ===== verification/Simulation.v ===== *)
(** The simulation support of the two modules: src/x/anchoring/module/simulation.go,
    src/x/tax/module/simulation.go and the helper of src/x/anchoring/simulation.  The
    accounts that [GenerateGenesisState] collects are not used. *)

From S2P Require Import Prelude Types Concrete Rbac Keeper MsgServer Ledger Genesis Export MigrateV2 Tax Modules.

(** [module.SimulationState]: the accounts and the genesis of each module. *)
Record SimulationState := mkSim { sim_Accounts : list bytes; sim_GenState : gmap bytes bytes }.

Section simulation.
Context {ENV : Env} {DEC : Decimal} {BANK : Bank} {JSON : JSONCodec GenesisState} {TJSON : JSONCodec Tax.Params}.

Definition set_genesis (name bz : bytes) (s : SimulationState) : SimulationState :=
  mkSim (sim_Accounts s) (<[name := bz]> (sim_GenState s)).

Definition GenerateGenesisState (s : SimulationState) : result SimulationState :=
  bz ← MarshalJSON (mkGenesis Types.DefaultParams [] [] [] []);
  Ok (set_genesis Anchoring.ModuleName bz s).

Definition tax_GenerateGenesisState (s : SimulationState) : result SimulationState :=
  params ← TaxModule.DefaultParams;
  bz ← MarshalJSON params;
  Ok (set_genesis TaxModule.tax_ModuleName bz s).

(** Neither module has operations or proposals to simulate. *)
Definition WeightedOperations : list bytes := [].
Definition ProposalMsgs : list bytes := [].

(** [simulation.FindAccount]: an address that does not parse is a panic. *)
Definition FindAccount (accs : list bytes) (address : bytes) : result (option bytes) :=
  creator ← of_option (AccAddressFromBech32 address) ErrPanic;
  Ok (snd <$> list_find (fun a => a = creator) accs).

Context {JL : JSONLaws JSON genesis_text reordered} {TJL : JSONLaws TJSON tax_params_text eq}.
Context (range_groups : groups_map -> list (group_key * RecordVersionGroup)).
Context (Hrange : forall g, range_groups g ≡ₚ map_to_list g).

(** A simulation starts both modules from their defaults and leaves the genesis of the
    other modules as it is. *)
Theorem simulation_starts (s : SimulationState) (t : TaxState) q :
  TaxModule.DefaultParams = Ok q ->
  exists s1 s2 bz tbz, GenerateGenesisState s = Ok s1 /\ tax_GenerateGenesisState s1 = Ok s2 /\
  sim_GenState s2 !! Anchoring.ModuleName = Some bz /\ sim_GenState s2 !! TaxModule.tax_ModuleName = Some tbz /\
  Anchoring.module_InitGenesis range_groups bz empty_state = (Ok tt, genesis_store Types.DefaultParams) /\
  TaxModule.tax_InitGenesis tbz t = (Ok tt, mkTax (Some q) (bank t) (tax_events t)) /\
  (forall name, name <> Anchoring.ModuleName -> name <> TaxModule.tax_ModuleName ->
     sim_GenState s2 !! name = sim_GenState s !! name).
Proof.
  intros Hq. destruct (default_genesis_starts range_groups Hrange) as (bz & Em & Ei).
  assert (Hqt : tax_params_text q).
  { unfold TaxModule.DefaultParams in Hq. destruct (LegacyNewDecFromStr _); [|done]. injection Hq as <-. by_eval. }
  destruct (json_roundtrip q Hqt) as (tbz & q' & Emq & Euq & <-).
  unfold GenerateGenesisState, tax_GenerateGenesisState.
  change (mkGenesis Types.DefaultParams [] [] [] []) with Genesis.DefaultGenesis.
  unfold Anchoring.module_DefaultGenesis in Em. rewrite Em, Hq. cbn [mbind result_bind]. rewrite Emq.
  eexists _, _, bz, tbz. do 2 (split; [reflexivity|]). cbn [set_genesis sim_GenState].
  split; [by rewrite lookup_insert_ne, lookup_insert_eq by done|]. split; [by rewrite lookup_insert_eq|].
  split; [done|]. split; [unfold TaxModule.tax_InitGenesis; cbv [mbind M_bind lift]; by rewrite Euq|].
  intros name H1 H2. by rewrite !lookup_insert_ne by done.
Qed.
End simulation.
