(* ===== verification/NodeConfig.v ===== *)
(** The start, the settings and the end of a node: src/cmd/nvnmchaind/cmd/config.go,
    commands.go ([appExport]) and upgrades.go, src/app/genesis.go, mempool.go, and
    [DefaultGenesis] and [Close] of app.go; [Open] of
    src/x/anchoring/nameindex/store.go. *)

From S2P Require Import Prelude Types MsgServer Keeper Concrete NameIndex IndexLife App AppBlock ZeroHeight.

(** ** app.toml and config.toml *)

(** The settings of the libraries: the ones the code changes, and the others. *)
Section settings.
Context {Srv Evm Rpc Tls Cmt : Type}.

Record SrvConfig := mkSrvConfig { MinGasPrices : bytes; srv_rest : Srv }.
Record EVMConfig := mkEVMConfig { cfg_EVMChainID : Z; evm_rest : Evm }.

Record CMTConfig := mkCMTConfig {
  MaxNumInboundPeers : Z; MaxNumOutboundPeers : Z; TimeoutCommit : Z; cmt_rest : Cmt
}.

(** [CustomAppConfig], which embeds the configuration of the server by value. *)
Record CustomAppConfig := mkCustomAppConfig {
  cac_Config : SrvConfig; cac_EVM : EVMConfig; cac_JSONRPC : Rpc; cac_TLS : Tls; cac_AnchoringNameIndex : Config
}.

(** Time is in nanoseconds. *)
Definition second : Z := 1000000000.

Definition initCometBFTConfig (DefaultConfig : CMTConfig) : CMTConfig :=
  mkCMTConfig 100 40 (2 * second) (cmt_rest DefaultConfig).

Definition initAppConfig (srvDefault : SrvConfig) (evmDefault : EVMConfig) (rpcDefault : Rpc) (tlsDefault : Tls)
    (EVMChainID : Z) (DefaultConfigTemplate DefaultEVMConfigTemplate ConfigTemplate : bytes) :
    bytes * CustomAppConfig :=
  let srvCfg := srvDefault in
  let evmConfig := evmDefault in
  let evmConfig := mkEVMConfig EVMChainID (evm_rest evmConfig) in
  let customAppConfig := mkCustomAppConfig srvCfg evmConfig rpcDefault tlsDefault DefaultConfig in
  let srvCfg := mkSrvConfig (bs "0anvnm") (srv_rest srvCfg) in
  let customAppTemplate := DefaultConfigTemplate ++ DefaultEVMConfigTemplate ++ ConfigTemplate in
  (customAppTemplate, customAppConfig).

(** The generated app.toml has the EVM chain id of the node and the index switched
    off.  The minimum gas price is assigned after the server's settings have been
    copied: it is still the one of the SDK, whatever that is. *)
Theorem app_config_written srv evm rpc tls chainID t1 t2 t3 :
  let '(_, cfg) := initAppConfig srv evm rpc tls chainID t1 t2 t3 in
  cac_Config cfg = srv /\ cfg_EVMChainID (cac_EVM cfg) = chainID /\ Enabled (cac_AnchoringNameIndex cfg) = false.
Proof. done. Qed.

End settings.

(** The SDK's default is empty, and a node with an empty minimum does not start. *)
Example min_gas_price_lost :
  MinGasPrices (cac_Config
    (initAppConfig (mkSrvConfig [] tt) (mkEVMConfig 0 tt) tt tt 1611 [] [] []).2) = [].
Proof. reflexivity. Qed.

(** ** [upgrade-handlers] *)

(** The names of the upgrades, one per line. *)
Definition upgradeHandlers_lines : list bytes := map UpgradeName Upgrades.

(** What the command lists is what the binary can run: a plan has a handler exactly
    when its name is printed. *)
Theorem listed_upgrades_handled {S VM} (RunMigrations : VM -> M S VM) name :
  name ∈ upgradeHandlers_lines <-> is_Some (setupUpgradeHandlers RunMigrations !! name).
Proof.
  unfold upgradeHandlers_lines, setupUpgradeHandlers.
  assert (H : forall l (m : gmap bytes (VM -> M S VM)),
    is_Some (fold_left (fun handlers upgrade => <[UpgradeName upgrade := CreateUpgradeHandler RunMigrations]> handlers) l m !! name)
    <-> name ∈ map UpgradeName l \/ is_Some (m !! name)).
  { intros l. induction l as [|u l IH]; intros m; cbn [fold_left map].
    - split; [by right|]. intros [[]%not_elem_of_nil|?]; done.
    - rewrite IH, elem_of_cons, lookup_insert_is_Some. destruct (decide (UpgradeName u = name)); naive_solver. }
  rewrite H, lookup_empty. split; [by left|]. by intros [?|[]].
Qed.

(** ** [appExport] *)

Section export_command.
Context {LIB : ExportLib} {G : Type}.
(** The committed versions of the chain and the last of them; the modules and the
    validators of a version. *)
Context (LoadVersion : Z -> result (ChainState Dist)) (latest : Z).
Context (ExportGenesisForModules : ChainState Dist -> result G).
Context (GetAllCCValidator : ChainState Dist -> list (bytes * Z)).

(** [home] is the home flag when it is a string, [is_viper] whether the options are
    viper's.  [app.New] panics when it cannot load the latest version. *)
Definition appExport (home : option bytes) (is_viper : bool) (height : Z) (forZeroHeight : bool)
    (jailAllowedAddrs : list bytes) : result (G * list (bytes * Z) * Z) :=
  homePath ← of_option home (ErrPlain "application home is not set");
  _ ← guard_err (is_empty homePath) (ErrPlain "application home is not set");
  _ ← guard_err (negb is_viper) (ErrPlain "appOpts is not viper.Viper");
  '(state, last) ← (if height =? -1 then
                      state ← match LoadVersion latest with
                              | Ok s => Ok s | Err e => Err (ErrWrap "error loading last version" e) end;
                      Ok (state, latest)
                    else state ← LoadVersion height; Ok (state, height));
  (ExportAppStateAndValidators ExportGenesisForModules last (GetAllCCValidator state)
     forZeroHeight jailAllowedAddrs state).1.

(** An export starts the new chain after the version it shows: without a height it
    is the latest version, with one that version, and the new chain continues at the
    next height with the modules of that version and its validators, of which there
    is at least one; an export for height zero starts at zero. *)
Theorem export_continues_chain home is_viper height forZeroHeight jail g vals h :
  appExport home is_viper height forZeroHeight jail = Ok (g, vals, h) ->
  exists state, let version := if height =? -1 then latest else height in
  LoadVersion version = Ok state /\ vals = GetAllCCValidator state /\ vals <> [] /\
  (forZeroHeight = false -> h = version + 1 /\ ExportGenesisForModules state = Ok g) /\
  (forZeroHeight = true -> h = 0 /\ exists state',
     prepForZeroHeightGenesis version jail state = (Ok tt, state') /\ ExportGenesisForModules state' = Ok g).
Proof.
  unfold appExport. destruct home as [[|b homePath]|]; try done. cbn [of_option mbind result_bind is_empty guard_err].
  destruct is_viper; [|done]. cbn [negb guard_err mbind result_bind].
  assert (Hv : forall cVals vs, GetValidatorSet cVals = Ok vs -> vs = cVals /\ vs <> []).
  { intros [|c cVals] vs; [done|]. cbn. intros [= <-]. split; [|done]. destruct c. f_equal.
    transitivity (map id cVals); [|apply map_id]. apply map_ext. by intros []. }
  destruct (height =? -1); [destruct (LoadVersion latest) as [st|] eqn:El|destruct (LoadVersion height) as [st|] eqn:El];
    try done; cbn [mbind result_bind]; unfold ExportAppStateAndValidators; destruct forZeroHeight;
    cbv [mbind M_bind mret M_ret lift]; intros E; exists st; cbv zeta.
  all: try (destruct (prepForZeroHeightGenesis _ jail st) as [[[]|] st'] eqn:Ep; [|done]).
  all: destruct (ExportGenesisForModules _) as [g'|] eqn:Eg; [|done].
  all: destruct (GetValidatorSet _) as [vs|] eqn:Ev; [|done]; apply Hv in Ev as [-> Hne]; cbn in E; injection E as <- <- <-.
  all: split_and!; try done; intros _; eauto.
Qed.
End export_command.

(** ** The mempool and the end of a node *)

Inductive Mempool := NoOpMempool | ExperimentalEVMMempool (maxTx : Z).

(** What [configureEVMMempool] sets: the mempool of the base application, the EVM
    mempool of the application and whether it checks the transactions. *)
Record MempoolSetup := mkMempoolSetup {
  ms_Mempool : Mempool; ms_EVMMempool : option Z; ms_CheckTxHandler : bool; ms_EthSigners : bool
}.

Definition configureEVMMempool (cosmosPoolMaxTx : Z) (has_chain_config : bool) : MempoolSetup :=
  if (cosmosPoolMaxTx <? 0) || negb has_chain_config
  then mkMempoolSetup NoOpMempool None false false
  else mkMempoolSetup (ExperimentalEVMMempool cosmosPoolMaxTx) (Some cosmosPoolMaxTx) true true.

(** What can be closed. *)
Inductive Closable := EVMMempool_ | BaseApp_ | NameIndex_.

#[export] Instance Closable_eq_dec : EqDecision Closable.
Proof. solve_decision. Defined.

(** [errors.Join]: the errors that are not nil, nil if there is none. *)
Definition Join_err (errs : list (option err)) : list err := omap id errs.

(** Closing one thing: it is closed whatever the outcome. *)
Definition close_one (outcome : Closable -> option err) (c : Closable) (acc : list err * list Closable) :
    list err * list Closable :=
  (Join_err (map Some acc.1 ++ [outcome c]), acc.2 ++ [c]).

(** [App.Close]: the joined error and what was closed, in order. *)
Definition Close (outcome : Closable -> option err) (evmMempool : option Z) (nameIndex : bool) :
    list err * list Closable :=
  let acc := ([], []) in
  let acc := match evmMempool with Some _ => close_one outcome EVMMempool_ acc | None => acc end in
  let acc := close_one outcome BaseApp_ acc in
  if nameIndex then close_one outcome NameIndex_ acc else acc.

Lemma Join_err_Some errs o : Join_err (map Some errs ++ [o]) = errs ++ omap id [o].
Proof.
  unfold Join_err. rewrite omap_app. apply (f_equal (fun l => l ++ _)).
  induction errs as [|e errs IH]; [done|]. cbn. by f_equal.
Qed.

(** A node closes everything it opened, once, even when closing something fails, and
    reports every failure: the EVM mempool exactly when it was configured, the store,
    and the name index when the node has one. *)
Theorem node_closes_all outcome maxTx chain nameIndex :
  let setup := configureEVMMempool maxTx chain in
  let '(errs, closed) := Close outcome (ms_EVMMempool setup) nameIndex in
  closed = (if (0 <=? maxTx) && chain then [EVMMempool_] else []) ++ [BaseApp_]
           ++ (if nameIndex then [NameIndex_] else []) /\
  errs = omap outcome closed.
Proof.
  unfold configureEVMMempool, Close, close_one. rewrite Z.ltb_antisym, <- negb_andb.
  destruct ((0 <=? maxTx) && chain), nameIndex; cbn [negb ms_EVMMempool fst snd app];
    rewrite !Join_err_Some; (split; [done|]); cbn; by repeat destruct (outcome _).
Qed.

(** ** Opening the name index *)

Section open.
(** A connection of [database/sql]: opened on a data source, given the schema, and
    closed. *)
Context {Conn : Type}.

(** [filepath.Abs], with the working directory of the process. *)
Definition Abs (cwd : result bytes) (path : bytes) : result bytes :=
  if IsAbs path then Ok (Clean path) else wd ← cwd; Ok (Join [wd; path]).

(** [url.URL] *)
Record URL := mkURL { Scheme : bytes; url_Path : bytes; RawQuery : bytes }.

Definition pragmas : bytes :=
  bs "_pragma=busy_timeout(5000)&_pragma=case_sensitive_like(1)&_pragma=journal_mode(WAL)&_pragma=synchronous(NORMAL)".

Definition open_dsn (cwd : result bytes) (path : bytes) : result URL :=
  abs ← match Abs cwd path with Ok a => Ok a | Err e => Err (ErrWrap "nameindex: resolve" e) end;
  Ok (mkURL (bs "file") abs pragmas).

(** The connection, or the error, and the connections closed. *)
Definition Open (cwd : result bytes) (sql_Open : URL -> result Conn) (Exec_schema : Conn -> result Conn) (path : bytes) :
    result Conn * list Conn :=
  match open_dsn cwd path with
  | Err e => (Err e, [])
  | Ok dsn =>
      match sql_Open dsn with
      | Err e => (Err (ErrWrap "nameindex: open" e), [])
      | Ok db => match Exec_schema db with
                 | Err e => (Err (ErrWrap "nameindex: migrate schema" e), [db])
                 | Ok db' => (Ok db', [])
                 end
      end
  end.

Lemma Clean_abs path : IsAbs (Clean path) = IsAbs path \/ IsAbs path = false.
Proof. destruct (IsAbs path) eqn:E; [left|by right]. unfold Clean. by rewrite E. Qed.

Lemma Abs_absolute cwd path a : (forall wd, cwd = Ok wd -> IsAbs wd = true) -> Abs cwd path = Ok a -> IsAbs a = true.
Proof.
  intros Hc. unfold Abs. destruct (IsAbs path) eqn:E.
  - intros [= <-]. destruct (Clean_abs path) as [H|H]; congruence.
  - destruct cwd as [wd|]; [|done]. intros [= <-]. specialize (Hc wd eq_refl). destruct wd as [|b wd]; [done|].
    set (j := join_slash [b :: wd; path]). change (IsAbs (Clean j) = true). assert (Hj : IsAbs j = true) by exact Hc.
    destruct (Clean_abs j) as [H|H]; [by rewrite H|congruence].
Qed.

(** The database is opened by an absolute path, so the URI never takes a file name
    for a host; and an index that cannot be prepared leaves no connection open. *)
Theorem index_opened_absolute cwd sql_Open Exec_schema path :
  (forall wd, cwd = Ok wd -> IsAbs wd = true) ->
  (forall dsn, open_dsn cwd path = Ok dsn -> Scheme dsn = bs "file" /\ IsAbs (url_Path dsn) = true) /\
  (forall db dsn e, open_dsn cwd path = Ok dsn -> sql_Open dsn = Ok db -> Exec_schema db = Err e ->
     Open cwd sql_Open Exec_schema path = (Err (ErrWrap "nameindex: migrate schema" e), [db])).
Proof.
  intros Hc. split.
  - intros dsn. unfold open_dsn. destruct (Abs cwd path) as [a|] eqn:E; [|done]. intros [= <-]. split; [done|].
    by apply (Abs_absolute cwd path).
  - intros db dsn e E1 E2 E3. unfold Open. by rewrite E1, E2, E3.
Qed.
End open.
