(* ===== verification/AppGenesis.v ===== *)
(** The genesis files the application writes: [DefaultGenesis] of src/app/app.go,
    src/app/token_pair.go and src/app/genesis.go.  A genesis is a map from module
    names to JSON. *)

From S2P Require Import Prelude Types Concrete App Modules.

(** The parts of the genesis states of libraries the code sets, and the others. *)
Section states.
Context {Mint Evm Erc20 Fee : Type}.

Record MintGenesis := mkMintGenesis { MintDenom : bytes; mint_rest : Mint }.
Record EvmGenesis := mkEvmGenesis { EvmDenom : bytes; ActiveStaticPrecompiles : list bytes; evmgen_rest : Evm }.

Inductive Owner := OWNER_UNSPECIFIED | OWNER_MODULE | OWNER_EXTERNAL.
Record TokenPair := mkTokenPair { Erc20Address : bytes; tp_Denom : bytes; tp_Enabled : bool; ContractOwner : Owner }.
Record Erc20Genesis := mkErc20Genesis {
  TokenPairs : list TokenPair; NativePrecompiles : list bytes; erc20_rest : Erc20
}.

(** Decimals in units of 10^-18. *)
Record FeeMarketGenesis := mkFeeMarketGenesis { NoBaseFee : bool; BaseFee : Z; MinGasPrice : Z; fee_rest : Fee }.
Record DistrGenesis := mkDistrGenesis { CommunityTax : Z; WithdrawAddrEnabled : bool }.

Definition DefaultBondDenom : bytes := bs "anvnm".
Definition FutureStakingDenom : bytes := bs "anvnm".
Definition WTokenContractMainnet : bytes := bs "0xD4949664cD82660AaE99bEdc034a0deA8A0bd517".
Definition ExampleTokenPairs : list TokenPair :=
  [mkTokenPair WTokenContractMainnet FutureStakingDenom true OWNER_MODULE].

Abbreviation AppGenesisState := (gmap bytes bytes).

Context {LIB : AppLib}.
Context {MJ : JSONCodec MintGenesis} {EJ : JSONCodec EvmGenesis} {RJ : JSONCodec Erc20Genesis}
  {FJ : JSONCodec FeeMarketGenesis}.

(** The genesis of the basic manager and the defaults of the three modules. *)
Definition DefaultGenesis (basic : AppGenesisState) (mintDefault : MintGenesis) (evmDefault : EvmGenesis)
    (erc20Default : Erc20Genesis) : result AppGenesisState :=
  let mintGenState := mkMintGenesis DefaultBondDenom (mint_rest mintDefault) in
  mintBz ← MarshalJSON mintGenState;
  let genesis := <[name_text MintModule := mintBz]> basic in
  let evmGenState := mkEvmGenesis (EvmDenom evmDefault) AvailableStaticPrecompiles (evmgen_rest evmDefault) in
  evmBz ← MarshalJSON evmGenState;
  let genesis := <[name_text EvmModule := evmBz]> genesis in
  let erc20GenState := mkErc20Genesis ExampleTokenPairs
    (NativePrecompiles erc20Default ++ [WTokenContractMainnet]) (erc20_rest erc20Default) in
  erc20Bz ← MarshalJSON erc20GenState;
  Ok (<[name_text Erc20Module := erc20Bz]> genesis).

(** [genesisState[name]] of a Go map: nil, no bytes, when there is no entry. *)
Definition entry (g : AppGenesisState) (m : ModuleName) : bytes := default [] (g !! name_text m).

(** [empty_manager] is what [module.BasicManager{}.DefaultGenesis] returns;
    [marshal_distr] encodes the distribution state. *)
Definition NewDefaultGenesisState (empty_manager : AppGenesisState) (marshal_distr : DistrGenesis -> result bytes) :
    result AppGenesisState :=
  let genesisState := empty_manager in
  let distributionGenesis := mkDistrGenesis (10 ^ 16) true in
  distributionGenesisStateBytes ← match marshal_distr distributionGenesis with
                                  | Ok b => Ok b
                                  | Err _ => Err (ErrPlain "cannot marshal distribution genesis state for tests")
                                  end;
  let genesisState := <[name_text DistrModule := distributionGenesisStateBytes]> genesisState in
  fee ← UnmarshalJSON (G := FeeMarketGenesis) (entry genesisState FeemarketModule);
  let feeMarketState := mkFeeMarketGenesis false (10 ^ 16) (10 ^ 16) (fee_rest fee) in
  feeBz ← MarshalJSON feeMarketState;
  let genesisState := <[name_text FeemarketModule := feeBz]> genesisState in
  evmState ← UnmarshalJSON (G := EvmGenesis) (entry genesisState EvmModule);
  evmBz ← MarshalJSON (mkEvmGenesis FutureStakingDenom (ActiveStaticPrecompiles evmState) (evmgen_rest evmState));
  let genesisState := <[name_text EvmModule := evmBz]> genesisState in
  erc20State ← UnmarshalJSON (G := Erc20Genesis) (entry genesisState Erc20Module);
  tokenPairs ← match TokenPairs erc20State with
               | [] => Err ErrPanic
               | p :: ps => Ok (mkTokenPair (Erc20Address p) FutureStakingDenom (tp_Enabled p) (ContractOwner p) :: ps)
               end;
  erc20Bz ← MarshalJSON (mkErc20Genesis tokenPairs (NativePrecompiles erc20State) (erc20_rest erc20State));
  Ok (<[name_text Erc20Module := erc20Bz]> genesisState).

(** ** Properties *)

(** The states of the three modules that JSON can hold. *)
Context {mint_text : MintGenesis -> Prop} {evm_text : EvmGenesis -> Prop} {erc20_text : Erc20Genesis -> Prop}.
Context {MJL : JSONLaws MJ mint_text eq} {EJL : JSONLaws EJ evm_text eq} {RJL : JSONLaws RJ erc20_text eq}.

(** What a module reads of a genesis. *)
Definition reads {G} `{JSONCodec G} (g : AppGenesisState) (m : ModuleName) (state : G) : Prop :=
  UnmarshalJSON (entry g m) = Ok state.

(** The default genesis is the one of the modules with three changes: tokens are
    minted in anvnm, every precompile cosmos/evm knows is active, and the wrapped
    token is a native precompile with its pair; every other module reads what the
    basic manager wrote. *)
Theorem default_genesis_of_app basic mint evm erc20 :
  NoDup [name_text MintModule; name_text EvmModule; name_text Erc20Module] ->
  mint_text (mkMintGenesis DefaultBondDenom (mint_rest mint)) ->
  evm_text (mkEvmGenesis (EvmDenom evm) AvailableStaticPrecompiles (evmgen_rest evm)) ->
  erc20_text (mkErc20Genesis ExampleTokenPairs (NativePrecompiles erc20 ++ [WTokenContractMainnet]) (erc20_rest erc20)) ->
  exists g, DefaultGenesis basic mint evm erc20 = Ok g /\
  reads g MintModule (mkMintGenesis DefaultBondDenom (mint_rest mint)) /\
  reads g EvmModule (mkEvmGenesis (EvmDenom evm) AvailableStaticPrecompiles (evmgen_rest evm)) /\
  reads g Erc20Module (mkErc20Genesis ExampleTokenPairs (NativePrecompiles erc20 ++ [WTokenContractMainnet]) (erc20_rest erc20)) /\
  forall name, name ∉ [name_text MintModule; name_text EvmModule; name_text Erc20Module] -> g !! name = basic !! name.
Proof.
  intros Hnd T1 T2 T3. rewrite !NoDup_cons, !not_elem_of_cons in Hnd. destruct Hnd as ((H1 & H2 & _) & (H3 & _) & _).
  unfold DefaultGenesis.
  destruct (json_roundtrip _ T1) as (b1 & ? & -> & U1 & <-).
  destruct (json_roundtrip _ T2) as (b2 & ? & E2 & U2 & <-).
  destruct (json_roundtrip _ T3) as (b3 & ? & E3 & U3 & <-).
  cbn [mbind result_bind]. rewrite E2. cbn [mbind result_bind]. rewrite E3. eexists. split; [done|].
  unfold reads, entry. rewrite lookup_insert_eq. cbn [default from_option id].
  rewrite lookup_insert_ne, lookup_insert_ne, lookup_insert_eq by done. cbn [default from_option id].
  rewrite lookup_insert_ne, lookup_insert_eq by done. split_and!; try done.
  intros name Hn. rewrite !not_elem_of_cons in Hn. by rewrite !lookup_insert_ne by naive_solver.
Qed.

(** [NewDefaultGenesisState] never returns: it starts from a manager without modules,
    whose genesis is empty, and then reads the genesis of the fee market, which is
    not JSON. *)
Theorem new_default_genesis_panics marshal_distr :
  is_ok (UnmarshalJSON (G := FeeMarketGenesis) []) = false ->
  name_text FeemarketModule <> name_text DistrModule ->
  is_ok (NewDefaultGenesisState ∅ marshal_distr) = false.
Proof.
  intros Hu Hn. unfold NewDefaultGenesisState. destruct (marshal_distr _) as [b|]; [|done]. cbn [mbind result_bind].
  assert (E : entry (<[name_text DistrModule := b]> ∅) FeemarketModule = []).
  { unfold entry. by rewrite lookup_insert_ne, lookup_empty by done. }
  rewrite E. by destruct (UnmarshalJSON []).
Qed.
End states.

(** ** Witnesses *)

Module DemoAppGenesis.
Definition Minting : Type := MintGenesis (Mint := unit).
Definition Evming : Type := EvmGenesis (Evm := unit).
Definition Pairing : Type := Erc20Genesis (Erc20 := unit).
Definition FeeMarketing : Type := FeeMarketGenesis (Fee := unit).

#[global] Instance owner_eq_dec : EqDecision Owner.
Proof. solve_decision. Defined.
#[global] Instance owner_countable : Countable Owner.
Proof.
  refine (inj_countable (fun o => match o with OWNER_UNSPECIFIED => 0 | OWNER_MODULE => 1 | OWNER_EXTERNAL => 2 end)
    (fun z => Some (if z =? 0 then OWNER_UNSPECIFIED else if z =? 1 then OWNER_MODULE else OWNER_EXTERNAL)) _). by intros [].
Defined.
#[global] Instance pair_eq_dec : EqDecision TokenPair.
Proof. solve_decision. Defined.
#[global] Instance pair_countable : Countable TokenPair.
Proof.
  refine (inj_countable' (fun p => (Erc20Address p, tp_Denom p, tp_Enabled p, ContractOwner p))
    (fun '(a, b, c, d) => mkTokenPair a b c d) _). by intros [].
Defined.
#[global] Instance mint_eq_dec : EqDecision Minting.
Proof. unfold Minting. solve_decision. Defined.
#[global] Instance mint_countable : Countable Minting.
Proof. refine (inj_countable' (fun g => (MintDenom g, mint_rest g)) (fun '(a, b) => mkMintGenesis a b) _). by intros []. Defined.
#[global] Instance evm_eq_dec : EqDecision Evming.
Proof. unfold Evming. solve_decision. Defined.
#[global] Instance evm_countable : Countable Evming.
Proof.
  refine (inj_countable' (fun g => (EvmDenom g, ActiveStaticPrecompiles g, evmgen_rest g))
    (fun '(a, b, c) => mkEvmGenesis a b c) _). by intros [].
Defined.
#[global] Instance erc20_eq_dec : EqDecision Pairing.
Proof. unfold Pairing. solve_decision. Defined.
#[global] Instance erc20_countable : Countable Pairing.
Proof.
  refine (inj_countable' (fun g => (TokenPairs g, NativePrecompiles g, erc20_rest g))
    (fun '(a, b, c) => mkErc20Genesis a b c) _). by intros [].
Defined.

#[global] Instance mint_json : JSONCodec Minting := countable_json Minting.
#[global] Instance mint_json_laws : JSONLaws mint_json (fun _ => True) eq := countable_json_laws _ _ _ _.
#[global] Instance evm_json : JSONCodec Evming := countable_json Evming.
#[global] Instance evm_json_laws : JSONLaws evm_json (fun _ => True) eq := countable_json_laws _ _ _ _.
#[global] Instance erc20_json : JSONCodec Pairing := countable_json Pairing.
#[global] Instance erc20_json_laws : JSONLaws erc20_json (fun _ => True) eq := countable_json_laws _ _ _ _.

#[global] Instance fee_json : JSONCodec FeeMarketing := {|
  MarshalJSON := fun f => Ok (x7b :: bits (encode (NoBaseFee f, BaseFee f, MinGasPrice f)));
  UnmarshalJSON := fun bz => match bz with
                             | [] => Err ErrUnexpectedEOF
                             | _ :: b => '(n, b, m) ← of_option (decode (of_bits b)) ErrUnexpectedEOF;
                                         Ok (mkFeeMarketGenesis n b m tt)
                             end
|}.
End DemoAppGenesis.

Lemma default_genesis_of_app_witness :
  exists g, DefaultGenesis (LIB := DemoApp.demo_app) {[ bs "gov" := bs "{}" ]} (mkMintGenesis (bs "stake") tt)
    (mkEvmGenesis (bs "aatom") [] tt) (mkErc20Genesis [] [] tt) = Ok g /\
  g !! bs "gov" = Some (bs "{}").
Proof.
  destruct (default_genesis_of_app (LIB := DemoApp.demo_app) {[ bs "gov" := bs "{}" ]} (mkMintGenesis (bs "stake") tt)
    (mkEvmGenesis (bs "aatom") [] tt) (mkErc20Genesis [] [] tt)) as (g & E & _ & _ & _ & H); [by_eval|done..|].
  exists g. split; [done|]. rewrite H by by_eval. by_eval.
Defined.

Lemma new_default_genesis_panics_witness :
  is_ok (NewDefaultGenesisState (LIB := DemoApp.demo_app) (FJ := DemoAppGenesis.fee_json)
    (EJ := DemoAppGenesis.evm_json) (RJ := DemoAppGenesis.erc20_json) ∅ (fun _ => Ok [])) = false.
Proof. apply new_default_genesis_panics; [reflexivity|by_eval]. Defined.
