(* ===== verification/AppNode.v ===== *)
(** What the node is given and what it hands out: src/app/app.go ([GetKey],
    [GetStoreKeys], [GetSubspace], [AutoCliOpts], [RegisterPendingTxListener],
    [onPendingTx], [RegisterAPIRoutes], [RegisterSwaggerAPI] and the chain id read by
    [New]), [newApp] of src/cmd/nvnmchaind/cmd/commands.go, and the address prefixes of
    src/cmd/nvnmchaind/main.go and src/app/params/config.go; [PersistentPreRunE] of
    src/cmd/nvnmchaind/cmd/root.go. *)

From S2P Require Import Prelude Types.

(** ** Store keys *)

Section keys.
Context {Key : Type} (Name : Key -> bytes).

Definition GetKey (keys : gmap bytes Key) (storeKey : bytes) : option Key := keys !! storeKey.

(** [keys[i].Name() < keys[j].Name()], for [sort.Slice]. *)
Definition name_le (x y : Key) : Prop := bytes_leb (Name x) (Name y) = true.
#[export] Instance name_le_dec : RelDecision name_le := fun x y => decide (bytes_leb (Name x) (Name y) = true).

(** [visited] are the entries of the map in the order that [range] visits them. *)
Definition GetStoreKeys (visited : list (bytes * Key)) : list Key := merge_sort name_le visited.*2.

#[local] Instance name_le_trans : Transitive name_le.
Proof. intros x y z. apply bytes_leb_trans. Qed.
#[local] Instance name_le_total : Total name_le.
Proof. intros x y. apply bytes_leb_total. Qed.

Lemma sorted_unique (l k : list Key) :
  NoDup (Name <$> l) -> StronglySorted name_le l -> StronglySorted name_le k -> l ≡ₚ k -> l = k.
Proof.
  intros Hnd Hl. revert k Hnd. induction Hl as [|x l Hl IH Hx]; intros k Hnd Hk Hp.
  { by apply Permutation_nil in Hp. }
  destruct k as [|y k]; [by apply Permutation_sym, Permutation_nil in Hp|].
  apply StronglySorted_inv in Hk as [Hk Hy]. rewrite Forall_forall in Hx, Hy.
  assert (Hin : forall z, z ∈ x :: l <-> z ∈ y :: k) by (intros z; by rewrite Hp).
  assert (x = y) as <-.
  { assert (Hyx : y ∈ x :: l) by (apply Hin; left). assert (Hxy : x ∈ y :: k) by (apply Hin; left).
    apply elem_of_cons in Hyx as [->|Hyx]; [done|]. apply elem_of_cons in Hxy as [->|Hxy]; [done|].
    apply NoDup_cons in Hnd as [Hnd _]. exfalso. apply Hnd.
    rewrite (bytes_leb_antisym (Name x) (Name y)) by (by apply Hx || apply Hy). by apply list_elem_of_fmap_2. }
  f_equal. apply IH; [by apply NoDup_cons in Hnd as [_ ?]|done|by apply Permutation_cons_inv in Hp].
Qed.

(** The keys are handed out in the order of their names, each one once, whatever the
    order of the iteration over the map. *)
Theorem GetStoreKeys_deterministic (keys : gmap bytes Key) visited visited' :
  map_Forall (fun name k => Name k = name) keys ->
  visited ≡ₚ map_to_list keys -> visited' ≡ₚ map_to_list keys ->
  GetStoreKeys visited = GetStoreKeys visited' /\ StronglySorted name_le (GetStoreKeys visited) /\
  NoDup (Name <$> GetStoreKeys visited) /\
  (forall k, k ∈ GetStoreKeys visited <-> GetKey keys (Name k) = Some k).
Proof.
  intros Hn Hv Hv'.
  assert (Hp : forall v, v ≡ₚ map_to_list keys -> GetStoreKeys v ≡ₚ (map_to_list keys).*2).
  { intros v E. unfold GetStoreKeys. rewrite merge_sort_Permutation. by rewrite E. }
  assert (Hs : forall v, StronglySorted name_le (GetStoreKeys v)) by (intros v; apply StronglySorted_merge_sort; apply _).
  assert (Hnd : NoDup (Name <$> GetStoreKeys visited)).
  { rewrite (Hp _ Hv), <- list_fmap_compose.
    replace ((Name ∘ snd) <$> map_to_list keys) with (map_to_list keys).*1; [apply NoDup_fst_map_to_list|].
    apply list_fmap_ext. intros i [n k] E%list_elem_of_lookup_2. apply elem_of_map_to_list in E. symmetry. exact (Hn _ _ E). }
  split_and!; [|done|done|].
  - apply sorted_unique; [done..|]. by rewrite !Hp.
  - intros k. rewrite Hp by done. unfold GetKey. rewrite list_elem_of_fmap. split.
    + intros ([n k'] & -> & E%elem_of_map_to_list). cbn. by rewrite (Hn _ _ E).
    + intros E. exists (Name k, k). split; [done|]. by apply elem_of_map_to_list.
Qed.
End keys.

(** ** Parameter subspaces *)

(** [subspace, _ := app.ParamsKeeper.GetSubspace(moduleName)]: a module without a
    subspace gets the zero value. *)
Definition GetSubspace {Subspace} (zero : Subspace) (subspaces : gmap bytes Subspace) (moduleName : bytes) : Subspace :=
  default zero (subspaces !! moduleName).

(** ** Pending transactions *)

Section pending.
Context {S : Type}.

Definition RegisterPendingTxListener (listener : bytes -> S -> S) (pendingTxListeners : list (bytes -> S -> S)) :=
  pendingTxListeners ++ [listener].

Definition onPendingTx (pendingTxListeners : list (bytes -> S -> S)) (hash : bytes) (s : S) : S :=
  fold_left (fun s listener => listener hash s) pendingTxListeners s.

(** The listeners are called in the order they were registered. *)
Lemma onPendingTx_registered listener ls hash s :
  onPendingTx (RegisterPendingTxListener listener ls) hash s = listener hash (onPendingTx ls hash s).
Proof. apply fold_left_app. Qed.
End pending.

(** ** The modules of the command line *)

(** A module: its name, if it has one, and whether it is an [appmodule.AppModule]. *)
Record Mod := mkMod { HasName : option bytes; IsAppModule : bool; mod_id : nat }.

Definition AutoCliOpts_modules (Modules : list Mod) : gmap bytes Mod :=
  fold_left (fun modules m =>
    match HasName m with
    | Some moduleName => if IsAppModule m then <[moduleName := m]> modules else modules
    | None => modules
    end) Modules ∅.

(** Every application module that has a name of its own has commands. *)
Theorem AutoCliOpts_complete (Modules : list Mod) :
  NoDup (omap HasName Modules) ->
  forall name m, AutoCliOpts_modules Modules !! name = Some m <->
    m ∈ Modules /\ HasName m = Some name /\ IsAppModule m = true.
Proof.
  unfold AutoCliOpts_modules. intros Hnd name m.
  assert (H : forall ms (acc : gmap bytes Mod), NoDup (omap HasName ms) ->
    (forall n, n ∈ omap HasName ms -> acc !! n = None) ->
    fold_left (fun modules m => match HasName m with
      | Some moduleName => if IsAppModule m then <[moduleName := m]> modules else modules
      | None => modules end) ms acc !! name = Some m
    <-> acc !! name = Some m \/ m ∈ ms /\ HasName m = Some name /\ IsAppModule m = true).
  { clear. intros ms. induction ms as [|x ms IH]; intros acc Hnd Hacc; cbn [fold_left].
    { rewrite elem_of_nil. tauto. }
    cbn [omap list_omap] in Hnd, Hacc. rewrite elem_of_cons. destruct (HasName x) as [n|] eqn:En.
    - apply NoDup_cons in Hnd as [Hn Hnd]. destruct (IsAppModule x) eqn:Ea.
      + rewrite IH; [|done|].
        * destruct (decide (n = name)) as [->|Hne].
          -- rewrite lookup_insert_eq, (Hacc name) by left. split.
             ++ intros [[= ->]|]; [right; tauto|tauto].
             ++ intros [|([->|Hm] & E & _)]; [done|by left|]. exfalso. apply Hn.
                apply list_elem_of_omap. by exists m.
          -- rewrite lookup_insert_ne by done. split; [tauto|]. intros [|([->|] & E & ?)]; [tauto|congruence|tauto].
        * intros k Hk. rewrite lookup_insert_ne by (by intros ->). apply Hacc. by right.
      + rewrite IH; [|done|intros k Hk; apply Hacc; by right]. split; [tauto|].
        intros [|([->|] & E & ?)]; [tauto|congruence|tauto].
    - rewrite IH by done. split; [tauto|]. intros [|([->|] & E & ?)]; [tauto|congruence|tauto]. }
  rewrite H by (done || (intros; apply lookup_empty)). rewrite lookup_empty. split; [by intros [|]|by right].
Qed.

(** ** The REST routes *)

(** A route of the router: the prefix it serves, and the prefix that is stripped from
    the path before the file is looked up. *)
Record Route := mkRoute { PathPrefix : bytes; StripPrefix : bytes }.

Definition RegisterSwaggerAPI (routes : list Route) : list Route :=
  routes ++ [mkRoute (bs "/static/") (bs "/static/"); mkRoute (bs "/swagger/") []; mkRoute (bs "/openapi/") []].

(** What [RegisterAPIRoutes] registers with the gateway, in order, and the routes it
    adds to the router. *)
Inductive GatewayService := TxService | CometService | NodeService | ModuleServices.

Definition RegisterAPIRoutes (Swagger : bool) (routes : list Route) : list GatewayService * list Route :=
  ([TxService; CometService; NodeService; ModuleServices], if Swagger then RegisterSwaggerAPI routes else routes).

Definition has_prefix (p s : bytes) : bool := bool_decide (take (length p) s = p).

(** A router tries its routes in order; the file server of the first that fits gets the
    path without the stripped prefix. *)
Fixpoint file_served (routes : list Route) (path : bytes) : option bytes :=
  match routes with
  | [] => None
  | r :: routes => if has_prefix (PathPrefix r) path then Some (drop (length (StripPrefix r)) path)
                   else file_served routes path
  end.

Lemma has_prefix_app p s : has_prefix p (p ++ s) = true.
Proof. unfold has_prefix. rewrite take_app_length. by apply bool_decide_eq_true. Qed.

(** With Swagger switched on, the documentation is served under its three prefixes, under
    the first one without it; with it switched off, no path serves a file. *)
Theorem swagger_files file :
  file_served (RegisterAPIRoutes true []).2 (bs "/static/" ++ file) = Some file /\
  file_served (RegisterAPIRoutes true []).2 (bs "/swagger/" ++ file) = Some (bs "/swagger/" ++ file) /\
  file_served (RegisterAPIRoutes true []).2 (bs "/openapi/" ++ file) = Some (bs "/openapi/" ++ file) /\
  (forall path, file_served (RegisterAPIRoutes false []).2 path = None).
Proof.
  cbn [RegisterAPIRoutes RegisterSwaggerAPI snd app file_served PathPrefix StripPrefix].
  split_and!; rewrite ?has_prefix_app; try done.
Qed.

(** ** The EVM chain id *)

(** The options of the application, and whether they are a [*viper.Viper]. *)
Record AppOptions := mkAppOptions { is_viper : bool; settings : gmap bytes Z }.

Section chain_id.
(** The name of the option, which the EVM library defines. *)
Context (FlagEVMChainID : bytes).

Definition viper_Set (key : bytes) (value : Z) (o : AppOptions) : AppOptions :=
  mkAppOptions (is_viper o) (<[key := value]> (settings o)).

(** [cast.ToUint64(appOpts.Get(srvflags.EVMChainID))] of [New]: an option that is not
    set is 0. *)
Definition New_evmChainID (appOpts : AppOptions) : Z := default 0 (settings appOpts !! FlagEVMChainID).

Definition newApp {App} (EVMChainID : Z) (New : bool -> AppOptions -> result App) (appOpts : AppOptions) : result App :=
  _ ← guard_err (negb (is_viper appOpts)) ErrPanic;
  New true (viper_Set FlagEVMChainID EVMChainID appOpts).

(** A node that is started has the chain id that [init] found, whatever its options
    say, and loads the latest version. *)
Theorem newApp_chain_id {App} EVMChainID (New : bool -> AppOptions -> result App) appOpts app :
  newApp EVMChainID New appOpts = Ok app ->
  exists o, New true o = Ok app /\ New_evmChainID o = EVMChainID /\
    (forall key, key <> FlagEVMChainID -> settings o !! key = settings appOpts !! key).
Proof.
  unfold newApp. destruct (is_viper appOpts); [|done]. cbn [negb guard_err mbind result_bind]. intros E.
  exists (viper_Set FlagEVMChainID EVMChainID appOpts). split; [done|]. unfold New_evmChainID, viper_Set. cbn [settings].
  split; [by rewrite lookup_insert_eq|]. intros key Hk. by rewrite lookup_insert_ne.
Qed.

End chain_id.

(** ** Address prefixes *)

(** [sdk.Config]: the three pairs of prefixes, and whether it is sealed. *)
Record SdkConfig := mkSdkConfig {
  acc_prefixes : bytes * bytes; val_prefixes : bytes * bytes; cons_prefixes : bytes * bytes; sealed : bool
}.

(** A sealed configuration panics when it is changed. *)
Definition unless_sealed (f : SdkConfig -> SdkConfig) : M SdkConfig unit := fun c =>
  if sealed c then (Err ErrPanic, c) else (Ok tt, f c).

Definition SetBech32PrefixForAccount (p pub : bytes) : M SdkConfig unit :=
  unless_sealed (fun c => mkSdkConfig (p, pub) (val_prefixes c) (cons_prefixes c) (sealed c)).
Definition SetBech32PrefixForValidator (p pub : bytes) : M SdkConfig unit :=
  unless_sealed (fun c => mkSdkConfig (acc_prefixes c) (p, pub) (cons_prefixes c) (sealed c)).
Definition SetBech32PrefixForConsensusNode (p pub : bytes) : M SdkConfig unit :=
  unless_sealed (fun c => mkSdkConfig (acc_prefixes c) (val_prefixes c) (p, pub) (sealed c)).
Definition Seal : M SdkConfig unit :=
  modify (fun c => mkSdkConfig (acc_prefixes c) (val_prefixes c) (cons_prefixes c) true).

Definition Bech32Prefix : bytes := bs "nvnm".
Definition Bech32PrefixAccPub : bytes := Bech32Prefix ++ bs "pub".
Definition Bech32PrefixValAddr : bytes := Bech32Prefix ++ bs "valoper".
Definition Bech32PrefixValPub : bytes := Bech32Prefix ++ bs "valoperpub".
Definition Bech32PrefixConsAddr : bytes := Bech32Prefix ++ bs "valcons".
Definition Bech32PrefixConsPub : bytes := Bech32Prefix ++ bs "valconspub".

Definition SetAddressPrefixes : M SdkConfig unit :=
  _ ← SetBech32PrefixForAccount Bech32Prefix Bech32PrefixAccPub;
  _ ← SetBech32PrefixForValidator Bech32PrefixValAddr Bech32PrefixValPub;
  SetBech32PrefixForConsensusNode Bech32PrefixConsAddr Bech32PrefixConsPub.

(** [setupConfig], over the coin type that the EVM library sets, and the seal that
    [initRootCmd] puts on again. *)
Definition setupConfig (SetBip44CoinType : M SdkConfig unit) : M SdkConfig unit :=
  _ ← SetAddressPrefixes;
  _ ← SetBip44CoinType;
  Seal.

(** The package params sets the prefixes when it is loaded, [main] sets them again and
    seals them: the node starts with the prefixes of the chain, which nothing can change
    any more, and a second seal is harmless. *)
Theorem prefixes_set SetBip44CoinType c :
  sealed c = false ->
  (forall c, sealed c = false -> SetBip44CoinType c = (Ok tt, c)) ->
  exists c', (_ ← SetAddressPrefixes; _ ← setupConfig SetBip44CoinType; Seal) c = (Ok tt, c') /\
    acc_prefixes c' = (bs "nvnm", bs "nvnmpub") /\ val_prefixes c' = (bs "nvnmvaloper", bs "nvnmvaloperpub") /\
    cons_prefixes c' = (bs "nvnmvalcons", bs "nvnmvalconspub") /\
    SetAddressPrefixes c' = (Err ErrPanic, c').
Proof.
  intros Hc Hcoin. destruct c as [a v p []]; [done|].
  exists (mkSdkConfig (Bech32Prefix, Bech32PrefixAccPub) (Bech32PrefixValAddr, Bech32PrefixValPub)
    (Bech32PrefixConsAddr, Bech32PrefixConsPub) true).
  split; [|split_and!; reflexivity].
  unfold setupConfig, SetAddressPrefixes, SetBech32PrefixForAccount, SetBech32PrefixForValidator,
    SetBech32PrefixForConsensusNode, unless_sealed, Seal. cbv [mbind M_bind modify]. cbn [sealed].
  by rewrite Hcoin.
Qed.

(** ** [PersistentPreRunE] of the root command *)

Inductive SignMode := SIGN_MODE_DIRECT | SIGN_MODE_TEXTUAL | OtherSignMode (n : Z).

Section pre_run.
(** The context of the client: whether it is offline, its transaction configuration and
    the rest; and the steps of the SDK that read flags and files and store the result. *)
Context {TxConfig Rest S : Type}.

Record ClientCtx := mkClientCtx { Offline : bool; cx_TxConfig : TxConfig; cx_rest : Rest }.

Context (WithCmdContext : ClientCtx -> ClientCtx)
  (ReadPersistentCommandFlags ReadFromClientConfig : ClientCtx -> result ClientCtx)
  (DefaultSignModes : list SignMode)
  (NewTxConfigWithOptions : list SignMode -> ClientCtx -> result TxConfig)
  (SetCmdClientContextHandler : ClientCtx -> M S unit)
  (InterceptConfigsPreRunHandler : M S unit).

Definition with_textual (c : ClientCtx) : result ClientCtx :=
  if Offline c then Ok c
  else
    txConfig ← NewTxConfigWithOptions (DefaultSignModes ++ [SIGN_MODE_TEXTUAL]) c;
    Ok (mkClientCtx (Offline c) txConfig (cx_rest c)).

Definition PersistentPreRunE (initClientCtx : ClientCtx) : M S unit :=
  c ← lift (ReadPersistentCommandFlags (WithCmdContext initClientCtx));
  c ← lift (ReadFromClientConfig c);
  c ← lift (with_textual c);
  _ ← SetCmdClientContextHandler c;
  InterceptConfigsPreRunHandler.

(** A command runs with the context that the flags and then the configuration of the
    client give.  Online, its transactions can be signed in the textual mode, beside the
    default ones; offline, the configuration of the transactions is as it was. *)
Theorem pre_run_context initClientCtx s s' :
  PersistentPreRunE initClientCtx s = (Ok tt, s') ->
  exists c1 c2 c s1,
    ReadPersistentCommandFlags (WithCmdContext initClientCtx) = Ok c1 /\ ReadFromClientConfig c1 = Ok c2 /\
    SetCmdClientContextHandler c s = (Ok tt, s1) /\ InterceptConfigsPreRunHandler s1 = (Ok tt, s') /\
    Offline c = Offline c2 /\ cx_rest c = cx_rest c2 /\
    (if Offline c2 then cx_TxConfig c = cx_TxConfig c2
     else NewTxConfigWithOptions (DefaultSignModes ++ [SIGN_MODE_TEXTUAL]) c2 = Ok (cx_TxConfig c)).
Proof.
  unfold PersistentPreRunE. cbv [mbind M_bind lift].
  destruct (ReadPersistentCommandFlags _) as [c1|]; [|done]. destruct (ReadFromClientConfig c1) as [c2|] eqn:E2; [|done].
  destruct (with_textual c2) as [c|] eqn:Et; [|done]. destruct (SetCmdClientContextHandler c s) as [[[]|] s1] eqn:Es; [|done].
  intros Ei. exists c1, c2, c, s1. unfold with_textual in Et. destruct (Offline c2) eqn:Eo.
  - injection Et as <-. by split_and!.
  - destruct (NewTxConfigWithOptions _ c2) eqn:En; [|done]. injection Et as <-. by split_and!.
Qed.
End pre_run.
